(* ===== verification/_CoqProject ===== *)
-Q . S2P
Prelude.v
Kernel.v
World.v
Monad.v
Ids.v
Misc.v
Pfn.v
Attach.v
Fault.v
Make.v
Get.v
Recall.v
Notifier.v
Main.v
Module.v
Lib.v
Simple.v
Inv.v
Graph.v
Link.v
Refs.v
Lookup.v
MakeSpec.v
GetSpec.v
AccessSpec.v
OpenSpec.v
ModuleSpec.v
PfnSpec.v
Invalidated.v
ClearSpec.v
Chain.v
PinSpec.v
FaultSpec.v
DetachSpec.v
CloseSpec.v
FaultWf.v
RemoveSpec.v
Registry.v
ReleaseSpec.v
MapSpec.v
AttachSpec.v
NotifierSpec.v
LibSpec.v
Keeps.v
Wf.v
RecallSpec.v
Teardown.v
Flush.v
System.v
RecallProto.v
Conc.v
ConcOps.v
ConcOrder.v
ConcRace.v
ConcLogic.v
ConcSafe.v
ConcPages.v
RecallLock.v
SimpleLaws.v
Scenario.v
AttScenario.v
SystemScenario.v
LibScenario.v
