(* ===== verification/Prelude.v ===== *)
(** * XPMEM: a verification development of the kernel module

    XPMEM lets a process map memory of another process.  The source process
    shares a range of its addresses (xpmem_make) and gets a segment identifier;
    a consumer obtains a permit for it (xpmem_get), attaches a part of it to its
    own address space (xpmem_attach) and faults its pages in one by one; pages
    are pinned while they are attached, and taken back when the segment is
    removed, the source forks, or the kernel changes the mapping of the source
    (mmu notifiers).

    ** The program and its model

    The module keeps four kinds of reference counted structures: thread groups
    (one per process that opened /dev/xpmem, in a hash table by process
    number), segments (in a list of their thread group), access permits (in a
    hash table of the thread group that holds them and in a list of their
    segment) and attachments (in a list of their permit).

    The model is a shallow embedding.  A C function is a definition of the same
    name in a state monad with faults (Monad); its state is the record [world]
    (World): one heap per kind of structure, the hash table of the module, the
    vmas and page tables of the processes, the references held on pages, the
    registered notifiers, the proc entries, and the locks the running task
    holds.  A fault is a use after free, a NULL dereference, a failed
    assertion, taking a lock twice or releasing one that is not held, sleeping
    with a spinlock held, or running out of fuel.  Integers are Z with the
    wrap-around of their width written out ([u64], [u32], [s32], [s64] below).
    Functions that return ERR_PTR or an error and an out parameter return a sum.

    The Linux kernel is not in this repository: the functions the module calls
    are the fields of the class [Kernel] (Kernel), arbitrary functions on the
    data they read.  What theorems rely on is stated by law classes, each next to
    the first theorem that uses it: [KernelGeometry] and [PageTables] (Kernel),
    [ZapPtes], [VmaTree], [MapPages], [UnmapVma], [SplitVma] and [MapVma] (PfnSpec,
    PinSpec, FaultSpec, DetachSpec, CloseSpec, MapSpec), or as hypotheses.  Simple
    has a concrete kernel, SimpleLaws shows that it obeys the laws, and the files
    named Scenario run the module on it and apply the theorems at the states of the run.
    Where the kernel calls back into the module (vm_mmap and vm_munmap call the
    mmap, open and close methods of vmas, mmu_notifier_unregister the release
    callback) the callbacks are run at the point where the kernel makes them.

    ** Files

    The program:
    - Prelude: machine integers, flag words, intrusive lists, hash buckets,
      sums over maps, multisets of tokens, the hint database [xpmem].
    - Kernel, World, Monad: the kernel, the data and the state, the language
      and its weakest preconditions.
    - Ids: identifiers and hash functions (xpmem_private.h).
    - Misc: references, look-ups, access checks, the recall counter as one
      task runs it (xpmem_misc.c, inlines of xpmem_private.h, xpmem_pfn.c).
    - Pfn: page table walks, pinning, unpinning (xpmem_pfn.c).
    - Attach, Fault: attach, detach, vm operations, invalidation, the page
      fault handler (xpmem_attach.c).
    - Make, Get: xpmem_make.c and xpmem_get.c.
    - Recall: recalls around fork and through /proc (xpmem_pfn.c).
    - Notifier: xpmem_mmu_notifier.c and xpmem_teardown.
    - Main: open, flush, ioctl (xpmem_main.c).
    - Module: loading and unloading, the operation tables, the proc files.
    - Lib: the user library (libxpmem.c).
    - Simple: the concrete kernel.

    The object graph:
    - Inv, Graph, Link: the invariant of the structures and its preservation by
      every elementary change.
    - Refs: the equivalence of states up to reference counts.
    - Lookup, Chain: what the look-ups find, and what is reached from an attachment.
    - Keeps: the identity of objects, in every state.

    The operations:
    - OpenSpec, MakeSpec, GetSpec, RemoveSpec, ReleaseSpec: the device and the
      calls on segments and permits; AccessSpec: what a permit allows.
    - PfnSpec, PinSpec: unpinning, pinning; Invalidated: what an invalidation may change,
      page by page; ClearSpec: the invalidation of a segment.
    - FaultSpec, FaultWf: the page fault handler.
    - DetachSpec, CloseSpec, MapSpec, AttachSpec: detach, unmapping outside the
      interface, mapping, attach.
    - NotifierSpec, RecallSpec: the callbacks for changed mappings, the recalls.
    - Teardown, Flush: process exit and the last close.
    - Registry: what a user can observe, the live segments and permits by
      identifier, and how the operations change it.
    - ModuleSpec, LibSpec: loading and unloading, the library composed with the
      module.
    - Wf, System: well-formedness between calls, and the module as a whole.

    Concurrency:
    - RecallProto: the recall counter as a step relation of any number of tasks;
      RecallLock: it refines a lock.
    - Conc: a language of tasks that share a state and locks; an order of the locks
      that excludes deadlock.
    - ConcOps: the handlers that touch attachments and pages, in that language.
    - ConcOrder: they follow the order.  ConcLogic: rely and guarantee, and its
      soundness; ConcSafe, ConcPages: the handlers obey it.
    - ConcRace: executions that go wrong.

    On the concrete kernel: SimpleLaws, Scenario, AttScenario, SystemScenario,
    LibScenario.

    ** What is proved

    The invariant [Inv T S A B w] (Inv) says that the lists and hash tables are
    well formed, that the objects they and the back pointers name exist, that
    live identifiers are unique, and that every reference count is the number of
    references there are: from tables, from the objects below, and from the
    running code (the multisets T, S, A, B of tokens).  Counts are therefore
    determined by the rest of the state (Refs), so that a path that drops what it
    took restores the state exactly.  [VmaWf] and [AttWf] add what holds of vmas
    and page tables between calls: every attachment is shown by a vma of its own,
    vmas do not meet, and an attachment not marked as mapped has no page.

    Operations.  For open, make, get, remove, release, attach (at any address),
    detach and the page fault handler a specification gives the result and the new
    state on every branch, and the theorem says that from every consistent state
    the code terminates, does not fault, releases every lock and reference, does
    what the specification says and keeps the state consistent.  Registry turns
    this into facts about the live segments and permits a user sees.  Attach
    followed by detach restores the state.

    Pages.  A page fault maps the page of the source that belongs there and takes
    one reference; detach drops exactly the references the attachment held; after
    a removal, an invalidation by the notifier, a recall or an announced fork no
    attachment shows a page of the range concerned.  Whatever invalidates says by
    [Invalidated.invalidated_by] which pages it took away, that each of them was unpinned
    once in all counters, and that every other page and object is as it was.  Between the
    begin and the end of a fork page faults on the process's segments sleep.

    Concurrency.  The recall counter is a lock with two kinds of owners, in every
    interleaving of its atomic steps by tasks that give back what they took; no wake-up is
    lost, but for recalls after a fork end without begin.  Page faults, detaches,
    unmappings, releases, removals, forks (begin and end), recalls, teardowns and
    invalidations, any number of them on any objects, interleaved at every lock and every
    access to the shared state, never deadlock ([ConcOrder.calls_complete]; loops that poll
    are waits there).  Without the invalidations, attachments that are not being detached
    show no page of a destroyed segment, and their pages are pinned as often as they are
    shown, apart from references lost by failed remaps ([ConcPages.pages_safe]).

    The whole.  [System.reachable_consistent]: every state that any number of
    processes reach by any sequence of admissible calls, faults, invalidations, exits,
    closes, unmappings of attachments, recalls, and changes of the kernel to other
    mappings, is consistent, and every further admissible call returns.  Not admissible
    are: closing the device while the address space lives
    ([Flush.explicit_close_not_torn_down] says what happens then), MAKE of a range that wraps
    around, ATTACH of 2^31 pages or more, FORK_BEGIN and recalls after a FORK_END too many
    ([RecallSpec.fork_end_unbalanced]), page faults through a permit obtained with flags 0 or
    during a recall ([FaultSpec.fault_handler_refines]), and unmapping a part of an attachment
    ([CloseSpec.munmap_part_unnoticed]).  Process exit tears
    its thread group down and spares all others; the last close frees it.  No call
    changes the identity of an object, in whatever state.  Loading is all or
    nothing, and unloading undoes it.

    Surprises.  Some theorems state consequences of the code that its comments or
    its interface do not suggest: permits with flags 0 and read-only permits,
    XPMEM_MAXADDR_SIZE, the two ioctls of the library's xpmem_make, an explicit
    close while the address space lives, a failed remap, munmap of an attachment
    (whole: its pages stay pinned; in part: the module does not notice), a fork
    end without begin, two threads opening the device at once, xpmem_attach waiting for
    xpmem_release and the other way round, page faults and recalls that overlap an
    invalidation by the notifier, pages that detach unpins before it unmaps them.

    ** Bounds and fuel

    Loops over lists that other tasks may change take the length of the list as
    fuel, the unpin loop takes the number of pages, the search for attachments
    in a range the number of vmas, the compare-and-exchange loops two turns, which is
    enough when one task runs; teardown and the walk over threads take a fuel
    argument, for which [room_left] and the length of the ring of threads suffice.
    The theorems prove that the loops finish.  Reference counts are 32-bit:
    [permits_ok] bounds the permits by 2^30 and [few] the references held by
    running code by 64, so that no count overflows.  Attachments have fewer than
    2^31 pages.  Unpinning is proved for page tables whose top-level entry covers
    at most 2^31 pages, because the code subtracts the number of skipped pages
    from an int.

    ** Not modelled

    Tests, build files and log messages.  Kernel versions: the branches of a
    current kernel (5.8 to 6.0, with five levels of page tables) are followed.
    Concurrency is modelled for the recall counter, for the race of two opens, and for the
    handlers that touch attachments and pages (ConcOps), at the granularity of their
    locks and of single reads and writes; there page tables are maps from pages to
    frames, walks over lists visit every member once, and a loop that polls until
    another task has finished waits for it.  The other operations, and the full
    state of World, are followed as one task runs them, with their locks checked for
    discipline; memory is sequentially consistent.  The invariant on pages is not
    stated for interleavings with xpmem_attach and the MMU notifier, for which
    ConcRace shows what goes wrong.  The calls into procfs are taken not to sleep.
    [System] admits munmap of whole attachments only: after a partial one the attachment and its
    vma disagree ([CloseSpec.munmap_part_unnoticed]) and the state is no longer
    consistent. *)

From Stdlib Require Export ZArith Lia.
From stdpp Require Export prelude gmap gmultiset list.

#[global] Open Scope Z_scope.

(** * Machine integers *)

Declare Scope xpmem_scope.
Delimit Scope xpmem_scope with X.
#[global] Open Scope xpmem_scope.

(** Ranges of machine integers, well-formedness of lists, lengths of tables. *)
Create HintDb xpmem.

(** C's [u64]/[size_t]/[unsigned long] and [unsigned int] arithmetic wraps. *)
Definition u64 (x : Z) : Z := x mod 2 ^ 64.
Definition u32 (x : Z) : Z := x mod 2 ^ 32.

(** Two's complement reading of the low bits: [int], [atomic_t] and [__s64]. *)
Definition s32 (x : Z) : Z := (x + 2 ^ 31) mod 2 ^ 32 - 2 ^ 31.
Definition s64 (x : Z) : Z := (x + 2 ^ 63) mod 2 ^ 64 - 2 ^ 63.

Abbreviation INT_MAX := (2 ^ 31 - 1) (only parsing).

Lemma u64_id x : 0 <= x < 2 ^ 64 -> u64 x = x.
Proof. intros. by apply Z.mod_small. Qed.

Lemma u32_id x : 0 <= x < 2 ^ 32 -> u32 x = x.
Proof. intros. by apply Z.mod_small. Qed.

Lemma u64_range x : 0 <= u64 x < 2 ^ 64.
Proof. apply Z.mod_pos_bound. lia. Qed.

Lemma u32_range x : 0 <= u32 x < 2 ^ 32.
Proof. apply Z.mod_pos_bound. lia. Qed.

Lemma s32_id x : - 2 ^ 31 <= x < 2 ^ 31 -> s32 x = x.
Proof. intros. unfold s32. rewrite Z.mod_small; lia. Qed.

Lemma s64_id x : - 2 ^ 63 <= x < 2 ^ 63 -> s64 x = x.
Proof. intros. unfold s64. rewrite Z.mod_small; lia. Qed.

Lemma s32_add_l x y : s32 (s32 x + y) = s32 (x + y).
Proof.
  unfold s32. replace ((x + 2 ^ 31) mod 2 ^ 32 - 2 ^ 31 + y + 2 ^ 31) with ((x + 2 ^ 31) mod 2 ^ 32 + y) by lia.
  rewrite Zplus_mod_idemp_l. do 2 f_equal. lia.
Qed.
Lemma s32_s32 x : s32 (s32 x) = s32 x.
Proof. pose proof (s32_add_l x 0). by rewrite !Z.add_0_r in *. Qed.
Lemma s32_sub_l x y : s32 (s32 x - y) = s32 (x - y).
Proof. by rewrite <- Z.add_opp_r, s32_add_l. Qed.
Lemma s32_range x : - 2 ^ 31 <= s32 x < 2 ^ 31.
Proof. unfold s32. pose proof (Z.mod_pos_bound (x + 2 ^ 31) (2 ^ 32)). lia. Qed.

Lemma u64_add_l x y : u64 (u64 x + y) = u64 (x + y).
Proof. unfold u64. by rewrite Zplus_mod_idemp_l. Qed.

Lemma u64_add_r x y : u64 (x + u64 y) = u64 (x + y).
Proof. unfold u64. by rewrite Zplus_mod_idemp_r. Qed.

(** * Flag words *)

(** [f & m] used as a condition. *)
Definition has (f m : Z) : bool := negb (Z.land f m =? 0).

(** [f &= ~m]. *)
Definition clear (f m : Z) : Z := Z.land f (Z.lnot m).

Lemma land_pow2 f k : 0 <= k -> Z.land f (2 ^ k) = if Z.testbit f k then 2 ^ k else 0.
Proof.
  intros Hk. apply Z.bits_inj'. intros n Hn.
  rewrite Z.land_spec, Z.pow2_bits_eqb by done.
  destruct (Z.eqb_spec k n) as [->|Hne].
  - destruct (Z.testbit f n); [by rewrite Z.pow2_bits_true | by rewrite Z.bits_0].
  - rewrite andb_false_r. destruct (Z.testbit f k); [by rewrite Z.pow2_bits_false | by rewrite Z.bits_0].
Qed.

Lemma has_pow2 f k : 0 <= k -> has f (2 ^ k) = Z.testbit f k.
Proof.
  intros Hk. unfold has. rewrite land_pow2 by done.
  destruct (Z.testbit f k); [|done].
  destruct (Z.eqb_spec (2 ^ k) 0); [lia|done].
Qed.

Lemma has_lor f m k : 0 <= k -> has (Z.lor f m) (2 ^ k) = has f (2 ^ k) || has m (2 ^ k).
Proof. intros. rewrite !has_pow2, Z.lor_spec by done. done. Qed.

Lemma has_clear f m k : 0 <= k -> has (clear f m) (2 ^ k) = has f (2 ^ k) && negb (has m (2 ^ k)).
Proof. intros. unfold clear. rewrite !has_pow2, Z.land_spec, Z.lnot_spec by done. done. Qed.

(** * Lists *)

Section unlink.
Context {A : Type} `{EqDecision A}.
Implicit Types (p q : A) (l : list A).

(** [list_del_init]: unlink one node; a node that is not linked stays so. *)
Definition unlink p l : list A := filter (fun q => q <> p) l.

Lemma elem_of_unlink p q l : q ∈ unlink p l <-> q <> p /\ q ∈ l.
Proof. unfold unlink. by rewrite list_elem_of_filter. Qed.

Lemma NoDup_unlink p l : NoDup l -> NoDup (unlink p l).
Proof. unfold unlink. by apply NoDup_filter. Qed.

Lemma unlink_not_in p l : p ∉ l -> unlink p l = l.
Proof.
  induction l as [|q l IH]; [done|]. intros Hp%not_elem_of_cons. destruct Hp as [? ?].
  unfold unlink in *. rewrite filter_cons_True by congruence. by rewrite IH.
Qed.

Lemma unlink_cons_eq p l : p ∉ l -> unlink p (p :: l) = l.
Proof.
  intros Hp. unfold unlink. rewrite filter_cons_False by (intros H; by apply H).
  by apply unlink_not_in.
Qed.

Lemma unlink_cons_ne p q l : q <> p -> unlink p (q :: l) = q :: unlink p l.
Proof. intros. unfold unlink. by rewrite filter_cons_True. Qed.

Lemma length_unlink p l :
  NoDup l -> p ∈ l -> length l = S (length (unlink p l)).
Proof.
  induction l as [|q l IH]; [by intros _ ?%elem_of_nil|].
  intros [Hq Hl]%NoDup_cons Hp. destruct (decide (q = p)) as [->|Hne].
  - by rewrite unlink_cons_eq.
  - unfold unlink. rewrite filter_cons_True by done. fold (unlink p l). cbn. f_equal.
    apply IH; [done|]. by apply elem_of_cons in Hp as [->|].
Qed.

Lemma unlink_app p l k : unlink p (l ++ k) = unlink p l ++ unlink p k.
Proof. apply filter_app. Qed.
End unlink.

(** * Hash tables of lists *)

Section buckets.
Context {A : Type} `{EqDecision A}.
Implicit Types (a : A) (h : list (list A)).

(** [list_add_tail] / [list_del_init] on a bucket. *)
Definition bucket_add (index : nat) a h : list (list A) := alter (fun l => l ++ [a]) index h.
Definition bucket_del (index : nat) a h : list (list A) := alter (unlink a) index h.

Lemma length_bucket_add i a h : length (bucket_add i a h) = length h.
Proof. apply length_alter. Qed.
Lemma length_bucket_del i a h : length (bucket_del i a h) = length h.
Proof. apply length_alter. Qed.

Lemma bucket_add_perm i a h : (i < length h)%nat -> mjoin (bucket_add i a h) ≡ₚ a :: mjoin h.
Proof.
  unfold bucket_add. revert i. induction h as [|l h IH]; intros i Hi; cbn in *; [lia|].
  destruct i as [|i]; cbn.
  - by rewrite <- Permutation_cons_append.
  - rewrite IH by lia. by rewrite <- Permutation_middle.
Qed.

Lemma bucket_del_unlink i a h l :
  NoDup (mjoin h) -> h !! i = Some l -> a ∈ l -> mjoin (bucket_del i a h) = unlink a (mjoin h).
Proof.
  unfold bucket_del. revert i. induction h as [|k h IH]; intros i; [done|].
  change (mjoin (k :: h)) with (k ++ mjoin h).
  intros (Hk & Hd & Hh)%NoDup_app E Ha. rewrite unlink_app. destruct i as [|i]; cbn in *.
  - simplify_eq. by rewrite (unlink_not_in a (mjoin h)) by auto.
  - change (k ++ mjoin (alter (unlink a) i h) = unlink a k ++ unlink a (mjoin h)).
    rewrite (IH i) by done. rewrite (unlink_not_in a k); [done|]. intros Hin.
    apply (Hd a Hin). apply list_elem_of_join. eauto using list_elem_of_lookup_2.
Qed.

Lemma lookup_bucket_add i a h j l x :
  bucket_add i a h !! j = Some l -> x ∈ l ->
  (x = a /\ j = i) \/ exists l', h !! j = Some l' /\ x ∈ l'.
Proof.
  unfold bucket_add. rewrite list_lookup_alter. case_decide as Hij; [subst j|by eauto].
  destruct (h !! i) as [l'|] eqn:E; [|done]. cbn. intros [= <-].
  intros [Hx| ->%list_elem_of_singleton]%elem_of_app; eauto.
Qed.

Lemma NoDup_join_bucket h i l : NoDup (mjoin h) -> h !! i = Some l -> NoDup l.
Proof.
  revert i. induction h as [|k h IH]; intros i; [done|].
  change (mjoin (k :: h)) with (k ++ mjoin h). intros (Hk & _ & Hh)%NoDup_app.
  destruct i as [|i]; cbn; [by intros [= <-]|eauto].
Qed.

Lemma lookup_bucket_del i a h j l x :
  bucket_del i a h !! j = Some l -> x ∈ l -> exists l', h !! j = Some l' /\ x ∈ l'.
Proof.
  unfold bucket_del. rewrite list_lookup_alter. case_decide as Hij; [subst j|by eauto].
  destruct (h !! i) as [l'|] eqn:E; [|done]. cbn. intros [= <-] [_ Hx]%elem_of_unlink. eauto.
Qed.
End buckets.

(** * Sums over finite maps *)

Section map_sum.
Context {V : Type}.
Implicit Types (m : gmap positive V) (f : V -> nat).

(** The sum of [f] over the values of a map: how many references a
    collection of objects holds. *)
Definition map_sum f m : nat := map_fold (fun _ v acc => f v + acc)%nat 0%nat m.

Lemma map_sum_insert f m k v :
  m !! k = None -> map_sum f (<[k := v]> m) = (f v + map_sum f m)%nat.
Proof. intros H. unfold map_sum. rewrite map_fold_insert_L; [done | intros; lia | done]. Qed.

Lemma map_sum_lookup f m k v :
  m !! k = Some v -> map_sum f m = (f v + map_sum f (delete k m))%nat.
Proof.
  intros H. rewrite <- (insert_delete_id m k v) at 1 by done.
  apply map_sum_insert. apply lookup_delete_eq.
Qed.

Lemma map_sum_update f m k v v' :
  m !! k = Some v -> (map_sum f (<[k := v']> m) + f v = map_sum f m + f v')%nat.
Proof.
  intros H. rewrite (map_sum_lookup f m k v) by done.
  rewrite <- insert_delete_eq, map_sum_insert by apply lookup_delete_eq. lia.
Qed.

Lemma map_sum_update_same f m k v v' :
  m !! k = Some v -> f v' = f v -> map_sum f (<[k := v']> m) = map_sum f m.
Proof. intros H E. pose proof (map_sum_update f m k v v' H). lia. Qed.

Lemma map_sum_ge f m k v : m !! k = Some v -> (f v <= map_sum f m)%nat.
Proof. intros H. rewrite (map_sum_lookup f m k v) by done. lia. Qed.

Lemma map_sum_none f m : (forall k v, m !! k = Some v -> f v = 0%nat) -> map_sum f m = 0%nat.
Proof.
  induction m as [|k v m Hk IH] using map_ind; intros H; [unfold map_sum; by rewrite map_fold_empty|].
  rewrite map_sum_insert, (H k v), IH; [done| |apply lookup_insert_eq|done].
  intros q u E. apply (H q). rewrite lookup_insert_ne; [done|]. intros <-. congruence.
Qed.

Lemma map_sum_delete_zero f m k v :
  m !! k = Some v -> f v = 0%nat -> map_sum f (delete k m) = map_sum f m.
Proof. intros H E. rewrite (map_sum_lookup f m k v) by done. lia. Qed.

End map_sum.

(** * Tokens *)

(** A multiset with one more [p]. *)
Lemma mult_add (X : gmultiset positive) p q :
  multiplicity q (X ⊎ {[+ p +]}) = (multiplicity q X + if decide (p = q) then 1 else 0)%nat.
Proof. rewrite multiplicity_disj_union, multiplicity_singleton. repeat case_decide; congruence. Qed.

Lemma mult_add_ne (X : gmultiset positive) p q :
  q <> p -> multiplicity q (X ⊎ {[+ p +]}) = multiplicity q X.
Proof. intros. rewrite mult_add, decide_False by done. lia. Qed.

Lemma mult_add_eq (X : gmultiset positive) p :
  multiplicity p (X ⊎ {[+ p +]}) = S (multiplicity p X).
Proof. rewrite mult_add, decide_True by done. lia. Qed.

#[export] Hint Resolve u64_range u32_range s32_range NoDup_unlink : xpmem.
#[export] Hint Rewrite @length_bucket_add @length_bucket_del @mult_add_eq : xpmem.
