(* ===== verification/Kernel.v ===== *)
(** The Linux kernel as the module sees it.

    The functions of the kernel the module calls are not part of this
    repository.  They are the fields of the class [Kernel]: arbitrary functions
    on the data they read (the table of vmas, the page tables).  The documented
    behaviour that theorems rely on is stated by law classes ([KernelGeometry],
    [PageTables]) or as hypotheses of the theorem; the file Simple has a concrete
    kernel that satisfies them. *)

From S2P Require Import Prelude.

(** * Data shared with the kernel *)

(** [vma->vm_ops]: the module only ever compares it with [&xpmem_vm_ops]. *)
Inductive vm_ops_ptr := vm_ops_null | xpmem_vm_ops | vm_ops_other.

#[export] Instance vm_ops_ptr_eq : EqDecision vm_ops_ptr.
Proof. solve_decision. Defined.

(** The fields of [struct vm_area_struct] the module reads or writes.
    [vm_private_data] is a pointer to a [struct xpmem_attachment] or NULL. *)
Record vm_area_struct := mk_vma {
  vm_mm : positive;
  vm_start : Z;
  vm_end : Z;
  vm_ops : vm_ops_ptr;
  vm_private_data : option positive;
  vm_flags : Z;
  vm_file : bool;
  vm_detached : bool;   (* taken out of the mm, about to be closed and freed *)
}.

(** The flag of a vma whose pages are mapped by pfn. *)
Definition VM_PFNMAP : Z := 0x400.

Definition set_vm_private_data (d : option positive) (v : vm_area_struct) : vm_area_struct :=
  mk_vma (vm_mm v) (vm_start v) (vm_end v) (vm_ops v) d (vm_flags v) (vm_file v) (vm_detached v).
Definition set_vm_ops (o : vm_ops_ptr) (v : vm_area_struct) : vm_area_struct :=
  mk_vma (vm_mm v) (vm_start v) (vm_end v) o (vm_private_data v) (vm_flags v) (vm_file v) (vm_detached v).
Definition set_vm_flags (f : Z) (v : vm_area_struct) : vm_area_struct :=
  mk_vma (vm_mm v) (vm_start v) (vm_end v) (vm_ops v) (vm_private_data v) f (vm_file v) (vm_detached v).
Definition set_vm_file (b : bool) (v : vm_area_struct) : vm_area_struct :=
  mk_vma (vm_mm v) (vm_start v) (vm_end v) (vm_ops v) (vm_private_data v) (vm_flags v) b (vm_detached v).
Definition set_vm_range (s e : Z) (v : vm_area_struct) : vm_area_struct :=
  mk_vma (vm_mm v) s e (vm_ops v) (vm_private_data v) (vm_flags v) (vm_file v) (vm_detached v).
Definition set_vm_detached (v : vm_area_struct) : vm_area_struct :=
  mk_vma (vm_mm v) (vm_start v) (vm_end v) (vm_ops v) (vm_private_data v) (vm_flags v) (vm_file v) true.

Abbreviation vma_table := (gmap positive vm_area_struct).

(** The fields of [current] and of its credentials the module reads. *)
Record task := mk_task {
  cur_tgid : Z;                 (* current->tgid *)
  cur_mm : option positive;     (* current->mm, NULL for a task without one *)
  cur_files : option positive;  (* current->files *)
  cur_uid : Z;                  (* current_uid() *)
  cur_gid : Z;                  (* current_gid() *)
  cur_euid : Z;                 (* current_euid() *)
  cur_in_group : Z -> bool;     (* in_group_p() *)
  cur_ipc_owner : bool;         (* capable(CAP_IPC_OWNER) *)
  cur_leader : positive;        (* current->group_leader *)
  cur_leader_mm : option positive;  (* current->group_leader->mm *)
  cur_killed : bool;            (* a fatal signal interrupts mutex_lock_killable *)
  cur_dumpcore : bool;          (* current->flags & PF_DUMPCORE *)
}.

(** * The kernel's functions *)

(** What [vm_mmap] does to the vmas: the vmas that a [MAP_FIXED] mapping splits off and those it
    detaches because it replaces them, in the order their [open] and [close] methods are called,
    the address it returns, the new vma, and the table. *)
Record mmap_result := mk_mmap {
  mm_addr : Z;
  mm_vma : positive;
  mm_opened : list positive;
  mm_closed : list positive;
  mm_table : vma_table;
}.

(** What [vm_munmap] does when it does not fail: the vmas it splits off those that the range cuts,
    in the order their [open] method is called; the vmas it detaches, in the order their [close]
    method is called; and the table, in which these are marked detached. *)
Record munmap_result := mk_munmap {
  mu_opened : list positive;
  mu_closed : list positive;
  mu_table : vma_table;
}.

Class Kernel := {
  (* build configuration *)
  USE_DBUG_ON : bool;
  big_endian : bool;
  CONFIG_TRANSPARENT_HUGEPAGE : bool;
  (* architecture *)
  PAGE_SHIFT : Z;
  PMD_SHIFT : Z;
  PUD_SHIFT : Z;
  P4D_SHIFT : Z;
  PGDIR_SHIFT : Z;
  HPAGE_PMD_SIZE : Z;
  TASK_SIZE : Z;
  (* kzalloc: whether the n-th allocation succeeds *)
  kzalloc_ok : positive -> bool;
  (* mm: the vma tree *)
  find_vma : vma_table -> positive -> Z -> option positive;
  find_vma_intersection : vma_table -> positive -> Z -> Z -> option positive;
  vm_next : vma_table -> positive -> option positive;
  vm_mmap : vma_table -> positive -> Z -> Z -> Z -> Z -> Z + mmap_result;
  vm_munmap : vma_table -> positive -> Z -> Z -> Z + munmap_result;
  (* mm: page tables *)
  pgtable : Type;
  pgd_present : pgtable -> positive -> Z -> bool;
  p4d_present : pgtable -> positive -> Z -> bool;
  pud_present : pgtable -> positive -> Z -> bool;
  pud_is_huge : pgtable -> positive -> Z -> bool;
  pmd_present : pgtable -> positive -> Z -> bool;
  pmd_is_huge : pgtable -> positive -> Z -> bool;
  (* the pte for an address, as its pfn: None when it is not present (none) *)
  pte_at : pgtable -> positive -> Z -> option Z;
  pmd_as_pte : pgtable -> positive -> Z -> option Z;
  pud_as_pte : pgtable -> positive -> Z -> option Z;
  (* is_vm_hugetlb_page and huge_page_size(hstate_vma(vma)) *)
  hugetlb_page_size : vm_area_struct -> option Z;
  get_user_pages_remote : pgtable -> positive -> Z -> Z * Z * pgtable;
  remap_pfn_range : pgtable -> vm_area_struct -> Z -> Z -> Z * pgtable;
  zap_vma_ptes : pgtable -> vm_area_struct -> Z -> Z -> pgtable;
  unmap_ptes : pgtable -> positive -> Z -> Z -> pgtable;
  pfn_valid : Z -> bool;
  (* scheduler: whether a task's cpu is on another node than current's *)
  on_other_node : positive -> bool;
  cpumask_of_task : positive -> Z;
  (* tasks: next_thread(), flags & PF_EXITING, state == TASK_STOPPED *)
  next_thread : positive -> positive;
  task_exiting : positive -> bool;
  task_stopped : positive -> bool;
  (* mmu notifiers and procfs: 0 or an errno; whether an entry can be made *)
  mmu_notifier_register : positive -> Z;
  proc_create_ok : Z -> bool;
}.

Section sizes.
Context `{K : Kernel}.

Definition PAGE_SIZE : Z := 2 ^ PAGE_SHIFT.
Definition PMD_SIZE : Z := 2 ^ PMD_SHIFT.
Definition PUD_SIZE : Z := 2 ^ PUD_SHIFT.
Definition P4D_SIZE : Z := 2 ^ P4D_SHIFT.
Definition PGDIR_SIZE : Z := 2 ^ PGDIR_SHIFT.

(** [~(PAGE_SIZE - 1)], as an [unsigned long]. *)
Definition PAGE_MASK : Z := u64 (Z.lnot (PAGE_SIZE - 1)).

(** [p & ~PAGE_MASK]. *)
Definition offset_in_page (p : Z) : Z := Z.land p (PAGE_SIZE - 1).
End sizes.

(** The shape of page tables: an entry of a level covers an aligned block. *)
Class PageTables `(K : Kernel) : Prop := {
  pgd_block : forall pt mm v v', v / PGDIR_SIZE = v' / PGDIR_SIZE -> pgd_present pt mm v = pgd_present pt mm v';
  p4d_block : forall pt mm v v', v / P4D_SIZE = v' / P4D_SIZE -> p4d_present pt mm v = p4d_present pt mm v';
  pud_block : forall pt mm v v', v / PUD_SIZE = v' / PUD_SIZE -> pud_present pt mm v = pud_present pt mm v';
  pmd_block : forall pt mm v v', v / PMD_SIZE = v' / PMD_SIZE -> pmd_present pt mm v = pmd_present pt mm v';
}.

(** Page geometry: the shifts grow with the level and fit an address. *)
Class KernelGeometry `(K : Kernel) : Prop := {
  page_shift_ok : 0 < PAGE_SHIFT;
  pmd_shift_ok : PAGE_SHIFT <= PMD_SHIFT;
  pud_shift_ok : PMD_SHIFT <= PUD_SHIFT;
  p4d_shift_ok : PUD_SHIFT <= P4D_SHIFT;
  pgdir_shift_ok : P4D_SHIFT <= PGDIR_SHIFT;
  pgdir_shift_small : PGDIR_SHIFT < 63;
}.

Section geometry.
Context `{K : Kernel} {G : KernelGeometry K}.

Lemma PAGE_SHIFT_range : 0 < PAGE_SHIFT < 63.
Proof. destruct G. lia. Qed.

Lemma PAGE_SIZE_pos : 0 < PAGE_SIZE.
Proof. unfold PAGE_SIZE. pose proof PAGE_SHIFT_range. lia. Qed.

Lemma offset_in_page_mod p : offset_in_page p = p mod PAGE_SIZE.
Proof.
  pose proof PAGE_SHIFT_range. unfold offset_in_page, PAGE_SIZE.
  replace (2 ^ PAGE_SHIFT - 1) with (Z.ones PAGE_SHIFT) by (rewrite Z.ones_equiv; lia).
  apply Z.land_ones. lia.
Qed.

Lemma land_PAGE_MASK p : 0 <= p < 2 ^ 64 -> Z.land p PAGE_MASK = p - offset_in_page p.
Proof.
  pose proof PAGE_SHIFT_range. intros Hp. unfold PAGE_MASK, u64.
  rewrite <- Z.land_ones, Z.land_assoc, <- (Z.land_comm (Z.ones 64)), Z.land_assoc by lia.
  rewrite (Z.land_comm _ p), Z.land_ones, Z.mod_small by lia.
  rewrite offset_in_page_mod. unfold PAGE_SIZE.
  replace (Z.lnot (2 ^ PAGE_SHIFT - 1)) with (Z.lnot (Z.ones PAGE_SHIFT))
    by (rewrite Z.ones_equiv; f_equal; lia).
  rewrite <- Z.ldiff_land, Z.ldiff_ones_r, Z.shiftl_mul_pow2, Z.shiftr_div_pow2 by lia.
  pose proof (Z.div_mod p (2 ^ PAGE_SHIFT)). lia.
Qed.
End geometry.
