(* ===== verification/World.v ===== *)
(** The module's data (xpmem_private.h) and the state it runs on.

    Structures live in heaps indexed by pointers; [kfree] removes an entry, so
    that a later access through a stale pointer is a [UseAfterFree] fault.
    Locks are named after the field they are, and the state records which ones
    the running task holds. *)

From S2P Require Import Prelude Kernel.

(** * Constants *)

Definition XPMEM_CURRENT_VERSION : Z := 0x00026005.

Definition XPMEM_FLAG_DESTROYING : Z := 0x00040.
Definition XPMEM_FLAG_DESTROYED : Z := 0x00080.
Definition XPMEM_FLAG_VALIDPTEs : Z := 0x00200.
Definition XPMEM_FLAG_RECALLINGPFNS : Z := 0x00400.

Definition XPMEM_RDONLY : Z := 0x1.
Definition XPMEM_RDWR : Z := 0x2.
Definition XPMEM_PERMIT_MODE : Z := 0x1.
Definition XPMEM_MAXADDR_SIZE : Z := u64 (-1).
Definition XPMEM_ERRNO_NOPROC : Z := 2004.

Definition XPMEM_TG_HASHTABLE_SIZE : Z := 8.
Definition XPMEM_AP_HASHTABLE_SIZE : Z := 8.

(** The errno values the module returns. *)
Definition EPERM : Z := 1.
Definition ENOENT : Z := 2.
Definition ESRCH : Z := 3.
Definition EINTR : Z := 4.
Definition EAGAIN : Z := 11.
Definition ENOMEM : Z := 12.
Definition EACCES : Z := 13.
Definition EFAULT : Z := 14.
Definition EBUSY : Z := 16.
Definition EINVAL : Z := 22.
Definition ENOIOCTLCMD : Z := 515.

(** * Structures *)

Record xpmem_thread_group := mk_tg {
  tg_tgid : Z;
  tg_uid : Z;
  tg_gid : Z;
  tg_flags : Z;
  uniq_segid : Z;
  uniq_apid : Z;
  seg_list : list positive;
  tg_refcnt : Z;
  tg_n_pinned : Z;
  addr_limit : Z;
  group_leader : option positive;
  tg_mm : option positive;
  n_recall_PFNs : Z;
  allow_recall_PFNs_wq : nat;    (* tasks asleep on the queue *)
  mmu_initialized : bool;
  mmu_unregister_called : bool;
  ap_hashtable : list (list positive);
}.

Record xpmem_segment := mk_seg {
  segid : Z;
  seg_vaddr : Z;
  seg_size : Z;
  permit_type : Z;
  permit_value : Z;
  seg_flags : Z;
  seg_refcnt : Z;
  seg_tg : positive;
  seg_ap_list : list positive;
}.

Record xpmem_access_permit := mk_ap {
  apid : Z;
  ap_mode : Z;
  ap_flags : Z;
  ap_refcnt : Z;
  ap_seg : positive;
  ap_tg : positive;
  ap_att_list : list positive;
}.

Record xpmem_attachment := mk_att {
  att_vaddr : Z;
  at_vaddr : Z;
  at_size : Z;
  at_vma : option positive;
  att_flags : Z;
  att_refcnt : Z;
  att_ap : positive;
  att_mm : option positive;
}.

Record xpmem_partition := mk_part {
  part_n_pinned : Z;
  part_n_unpinned : Z;
  tg_hashtable : list (list positive);
}.

(** Field updates. *)
Definition set_tg_flags v t := mk_tg (tg_tgid t) (tg_uid t) (tg_gid t) v (uniq_segid t) (uniq_apid t) (seg_list t) (tg_refcnt t) (tg_n_pinned t) (addr_limit t) (group_leader t) (tg_mm t) (n_recall_PFNs t) (allow_recall_PFNs_wq t) (mmu_initialized t) (mmu_unregister_called t) (ap_hashtable t).
Definition set_uniq_segid v t := mk_tg (tg_tgid t) (tg_uid t) (tg_gid t) (tg_flags t) v (uniq_apid t) (seg_list t) (tg_refcnt t) (tg_n_pinned t) (addr_limit t) (group_leader t) (tg_mm t) (n_recall_PFNs t) (allow_recall_PFNs_wq t) (mmu_initialized t) (mmu_unregister_called t) (ap_hashtable t).
Definition set_uniq_apid v t := mk_tg (tg_tgid t) (tg_uid t) (tg_gid t) (tg_flags t) (uniq_segid t) v (seg_list t) (tg_refcnt t) (tg_n_pinned t) (addr_limit t) (group_leader t) (tg_mm t) (n_recall_PFNs t) (allow_recall_PFNs_wq t) (mmu_initialized t) (mmu_unregister_called t) (ap_hashtable t).
Definition set_seg_list v t := mk_tg (tg_tgid t) (tg_uid t) (tg_gid t) (tg_flags t) (uniq_segid t) (uniq_apid t) v (tg_refcnt t) (tg_n_pinned t) (addr_limit t) (group_leader t) (tg_mm t) (n_recall_PFNs t) (allow_recall_PFNs_wq t) (mmu_initialized t) (mmu_unregister_called t) (ap_hashtable t).
Definition set_tg_refcnt v t := mk_tg (tg_tgid t) (tg_uid t) (tg_gid t) (tg_flags t) (uniq_segid t) (uniq_apid t) (seg_list t) v (tg_n_pinned t) (addr_limit t) (group_leader t) (tg_mm t) (n_recall_PFNs t) (allow_recall_PFNs_wq t) (mmu_initialized t) (mmu_unregister_called t) (ap_hashtable t).
Definition set_tg_n_pinned v t := mk_tg (tg_tgid t) (tg_uid t) (tg_gid t) (tg_flags t) (uniq_segid t) (uniq_apid t) (seg_list t) (tg_refcnt t) v (addr_limit t) (group_leader t) (tg_mm t) (n_recall_PFNs t) (allow_recall_PFNs_wq t) (mmu_initialized t) (mmu_unregister_called t) (ap_hashtable t).
Definition set_group_leader v t := mk_tg (tg_tgid t) (tg_uid t) (tg_gid t) (tg_flags t) (uniq_segid t) (uniq_apid t) (seg_list t) (tg_refcnt t) (tg_n_pinned t) (addr_limit t) v (tg_mm t) (n_recall_PFNs t) (allow_recall_PFNs_wq t) (mmu_initialized t) (mmu_unregister_called t) (ap_hashtable t).
Definition set_n_recall_PFNs v t := mk_tg (tg_tgid t) (tg_uid t) (tg_gid t) (tg_flags t) (uniq_segid t) (uniq_apid t) (seg_list t) (tg_refcnt t) (tg_n_pinned t) (addr_limit t) (group_leader t) (tg_mm t) v (allow_recall_PFNs_wq t) (mmu_initialized t) (mmu_unregister_called t) (ap_hashtable t).
Definition set_mmu_initialized v t := mk_tg (tg_tgid t) (tg_uid t) (tg_gid t) (tg_flags t) (uniq_segid t) (uniq_apid t) (seg_list t) (tg_refcnt t) (tg_n_pinned t) (addr_limit t) (group_leader t) (tg_mm t) (n_recall_PFNs t) (allow_recall_PFNs_wq t) v (mmu_unregister_called t) (ap_hashtable t).
Definition set_mmu_unregister_called v t := mk_tg (tg_tgid t) (tg_uid t) (tg_gid t) (tg_flags t) (uniq_segid t) (uniq_apid t) (seg_list t) (tg_refcnt t) (tg_n_pinned t) (addr_limit t) (group_leader t) (tg_mm t) (n_recall_PFNs t) (allow_recall_PFNs_wq t) (mmu_initialized t) v (ap_hashtable t).
Definition set_ap_hashtable v t := mk_tg (tg_tgid t) (tg_uid t) (tg_gid t) (tg_flags t) (uniq_segid t) (uniq_apid t) (seg_list t) (tg_refcnt t) (tg_n_pinned t) (addr_limit t) (group_leader t) (tg_mm t) (n_recall_PFNs t) (allow_recall_PFNs_wq t) (mmu_initialized t) (mmu_unregister_called t) v.

Definition set_seg_flags v s := mk_seg (segid s) (seg_vaddr s) (seg_size s) (permit_type s) (permit_value s) v (seg_refcnt s) (seg_tg s) (seg_ap_list s).
Definition set_seg_refcnt v s := mk_seg (segid s) (seg_vaddr s) (seg_size s) (permit_type s) (permit_value s) (seg_flags s) v (seg_tg s) (seg_ap_list s).
Definition set_seg_ap_list v s := mk_seg (segid s) (seg_vaddr s) (seg_size s) (permit_type s) (permit_value s) (seg_flags s) (seg_refcnt s) (seg_tg s) v.

Definition set_ap_flags v a := mk_ap (apid a) (ap_mode a) v (ap_refcnt a) (ap_seg a) (ap_tg a) (ap_att_list a).
Definition set_ap_refcnt v a := mk_ap (apid a) (ap_mode a) (ap_flags a) v (ap_seg a) (ap_tg a) (ap_att_list a).
Definition set_ap_att_list v a := mk_ap (apid a) (ap_mode a) (ap_flags a) (ap_refcnt a) (ap_seg a) (ap_tg a) v.

Definition set_at_range v n t := mk_att (att_vaddr t) v n (at_vma t) (att_flags t) (att_refcnt t) (att_ap t) (att_mm t).
Definition set_at_vma v t := mk_att (att_vaddr t) (at_vaddr t) (at_size t) v (att_flags t) (att_refcnt t) (att_ap t) (att_mm t).
Definition set_att_flags v t := mk_att (att_vaddr t) (at_vaddr t) (at_size t) (at_vma t) v (att_refcnt t) (att_ap t) (att_mm t).
Definition set_att_refcnt v t := mk_att (att_vaddr t) (at_vaddr t) (at_size t) (at_vma t) (att_flags t) v (att_ap t) (att_mm t).

Definition set_tg_hashtable v p := mk_part (part_n_pinned p) (part_n_unpinned p) v.
Definition set_part_n_pinned v p := mk_part v (part_n_unpinned p) (tg_hashtable p).
Definition set_part_n_unpinned v p := mk_part (part_n_pinned p) v (tg_hashtable p).

(** * Locks *)

Inductive lock :=
  | TgHashLock (index : nat)              (* xpmem_my_part->tg_hashtable[i].lock *)
  | TgLock (tg : positive)                (* tg->lock *)
  | SegListLock (tg : positive)           (* tg->seg_list_lock *)
  | ApHashLock (tg : positive) (index : nat)  (* tg->ap_hashtable[i].lock *)
  | RecallMutex (tg : positive)           (* tg->recall_PFNs_mutex *)
  | SegLock (seg : positive)              (* seg->lock *)
  | SegSema (seg : positive)              (* seg->sema *)
  | ApLock (ap : positive)                (* ap->lock *)
  | AttMutex (att : positive)             (* att->mutex *)
  | AttInvalidateMutex (att : positive)   (* att->invalidate_mutex *)
  | MmapLock (mm : positive)              (* mm->mmap_sem / mmap_lock *)
  | ProcfsLock.                           (* xpmem_unpin_procfs_lock *)

#[export] Instance lock_eq : EqDecision lock.
Proof. solve_decision. Defined.

(** Spinlocks and rwlocks: no task may sleep while it holds one. *)
Definition atomic_lock (l : lock) : bool :=
  match l with
  | RecallMutex _ | SegSema _ | AttMutex _ | AttInvalidateMutex _ | MmapLock _ => false
  | _ => true
  end.

(** * The state *)

Section world.
Context `{K : Kernel}.

Record world := mk_world {
  part : option xpmem_partition;   (* xpmem_my_part *)
  tgs : gmap positive xpmem_thread_group;
  segs : gmap positive xpmem_segment;
  aps : gmap positive xpmem_access_permit;
  atts : gmap positive xpmem_attachment;
  next_ptr : positive;   (* the next kzalloc *)
  vmas : vma_table;
  pgt : pgtable;
  pages : gmap Z Z;   (* references held on pages, by pfn *)
  notifiers : list (positive * option positive);   (* registered mmu notifiers: tg, mm *)
  task_usage : gmap positive Z;   (* get_task_struct / put_task_struct *)
  file_usage : Z;   (* references on the open /dev/xpmem files *)
  procfs : list Z;   (* /proc/xpmem/<tgid> *)
  cpus_mask : Z;   (* current's affinity *)
  sigkilled : list Z;   (* thread groups sent SIGKILL *)
  held : list lock;   (* locks the running task holds *)
}.

Definition set_part v w := mk_world v (tgs w) (segs w) (aps w) (atts w) (next_ptr w) (vmas w) (pgt w) (pages w) (notifiers w) (task_usage w) (file_usage w) (procfs w) (cpus_mask w) (sigkilled w) (held w).
Definition set_tgs v w := mk_world (part w) v (segs w) (aps w) (atts w) (next_ptr w) (vmas w) (pgt w) (pages w) (notifiers w) (task_usage w) (file_usage w) (procfs w) (cpus_mask w) (sigkilled w) (held w).
Definition set_segs v w := mk_world (part w) (tgs w) v (aps w) (atts w) (next_ptr w) (vmas w) (pgt w) (pages w) (notifiers w) (task_usage w) (file_usage w) (procfs w) (cpus_mask w) (sigkilled w) (held w).
Definition set_aps v w := mk_world (part w) (tgs w) (segs w) v (atts w) (next_ptr w) (vmas w) (pgt w) (pages w) (notifiers w) (task_usage w) (file_usage w) (procfs w) (cpus_mask w) (sigkilled w) (held w).
Definition set_atts v w := mk_world (part w) (tgs w) (segs w) (aps w) v (next_ptr w) (vmas w) (pgt w) (pages w) (notifiers w) (task_usage w) (file_usage w) (procfs w) (cpus_mask w) (sigkilled w) (held w).
Definition set_next_ptr v w := mk_world (part w) (tgs w) (segs w) (aps w) (atts w) v (vmas w) (pgt w) (pages w) (notifiers w) (task_usage w) (file_usage w) (procfs w) (cpus_mask w) (sigkilled w) (held w).
Definition set_vmas v w := mk_world (part w) (tgs w) (segs w) (aps w) (atts w) (next_ptr w) v (pgt w) (pages w) (notifiers w) (task_usage w) (file_usage w) (procfs w) (cpus_mask w) (sigkilled w) (held w).
Definition set_pgt v w := mk_world (part w) (tgs w) (segs w) (aps w) (atts w) (next_ptr w) (vmas w) v (pages w) (notifiers w) (task_usage w) (file_usage w) (procfs w) (cpus_mask w) (sigkilled w) (held w).
Definition set_pages v w := mk_world (part w) (tgs w) (segs w) (aps w) (atts w) (next_ptr w) (vmas w) (pgt w) v (notifiers w) (task_usage w) (file_usage w) (procfs w) (cpus_mask w) (sigkilled w) (held w).
Definition set_notifiers v w := mk_world (part w) (tgs w) (segs w) (aps w) (atts w) (next_ptr w) (vmas w) (pgt w) (pages w) v (task_usage w) (file_usage w) (procfs w) (cpus_mask w) (sigkilled w) (held w).
Definition set_task_usage v w := mk_world (part w) (tgs w) (segs w) (aps w) (atts w) (next_ptr w) (vmas w) (pgt w) (pages w) (notifiers w) v (file_usage w) (procfs w) (cpus_mask w) (sigkilled w) (held w).
Definition set_file_usage v w := mk_world (part w) (tgs w) (segs w) (aps w) (atts w) (next_ptr w) (vmas w) (pgt w) (pages w) (notifiers w) (task_usage w) v (procfs w) (cpus_mask w) (sigkilled w) (held w).
Definition set_procfs v w := mk_world (part w) (tgs w) (segs w) (aps w) (atts w) (next_ptr w) (vmas w) (pgt w) (pages w) (notifiers w) (task_usage w) (file_usage w) v (cpus_mask w) (sigkilled w) (held w).
Definition set_cpus_mask v w := mk_world (part w) (tgs w) (segs w) (aps w) (atts w) (next_ptr w) (vmas w) (pgt w) (pages w) (notifiers w) (task_usage w) (file_usage w) (procfs w) v (sigkilled w) (held w).
Definition set_sigkilled v w := mk_world (part w) (tgs w) (segs w) (aps w) (atts w) (next_ptr w) (vmas w) (pgt w) (pages w) (notifiers w) (task_usage w) (file_usage w) (procfs w) (cpus_mask w) v (held w).
Definition set_held v w := mk_world (part w) (tgs w) (segs w) (aps w) (atts w) (next_ptr w) (vmas w) (pgt w) (pages w) (notifiers w) (task_usage w) (file_usage w) (procfs w) (cpus_mask w) (sigkilled w) v.
End world.
