(* ===== verification/Monad.v ===== *)
(** The language the module is written in: a state monad with faults, the
    primitives the C code uses (pointer accesses, atomics, intrusive lists,
    locks, allocation), and a weakest precondition to reason about it.

    A fault is what must never happen in the kernel: an access to freed memory
    or through NULL, a failed assertion, taking a lock twice, releasing a lock
    that is not held, sleeping in atomic context, and a loop that does not
    finish within its fuel. *)

From S2P Require Import Prelude Kernel World.

Inductive fault :=
  | UseAfterFree | NullDeref | BugOn | Deadlock | BadUnlock | SleepInAtomic | NoFuel.

Inductive outcome (W A : Type) :=
  | Ok (a : A) (w : W)
  | Fault (e : fault).
Arguments Ok {W A} _ _.
Arguments Fault {W A} _.

#[global] Arguments mret {_ _ _} _ : simpl never.
#[global] Arguments mbind {_ _ _ _} _ _ : simpl never.

Section monad.
Context `{K : Kernel}.

Definition M (A : Type) : Type := world -> outcome world A.

#[global] Instance M_ret : MRet M := fun A a w => Ok a w.
#[global] Instance M_bind : MBind M := fun A B f m w =>
  match m w with Ok a w' => f a w' | Fault e => Fault e end.

Definition raise {A} (e : fault) : M A := fun _ => Fault e.
Definition get : M world := fun w => Ok w w.
Definition modify (f : world -> world) : M unit := fun w => Ok () (f w).
Definition guardM (b : bool) (e : fault) : M unit := if b then mret () else raise e.
Definition whenM (b : bool) (m : M unit) : M unit := if b then m else mret ().

(** * Assertions *)

(** [DBUG_ON] is [BUG_ON] in a build with USE_DBUG_ON and nothing otherwise. *)
Definition BUG_ON (c : bool) : M unit := guardM (negb c) BugOn.
Definition DBUG_ON (c : bool) : M unit := whenM USE_DBUG_ON (BUG_ON c).

(** * Pointer accesses *)

Section heap.
Context {V : Type} (sel : world -> gmap positive V) (upd : gmap positive V -> world -> world).

Definition load (p : positive) : M V := fun w =>
  match sel w !! p with Some v => Ok v w | None => Fault UseAfterFree end.
Definition store (p : positive) (f : V -> V) : M unit := fun w =>
  match sel w !! p with
  | Some v => Ok () (upd (<[p := f v]> (sel w)) w)
  | None => Fault UseAfterFree
  end.
Definition kfree (p : positive) : M unit := fun w =>
  match sel w !! p with
  | Some v => Ok () (upd (delete p (sel w)) w)
  | None => Fault UseAfterFree
  end.
Definition init (p : positive) (v : V) : M unit :=
  modify (fun w => upd (<[p := v]> (sel w)) w).
End heap.

Definition tg_load := load tgs.
Definition tg_store := store tgs set_tgs.
Definition seg_load := load segs.
Definition seg_store := store segs set_segs.
Definition ap_load := load aps.
Definition ap_store := store aps set_aps.
Definition att_load := load atts.
Definition att_store := store atts set_atts.
Definition vma_load := load vmas.
Definition vma_store := store vmas set_vmas.

(** [part] is [None] when xpmem_my_part is not allocated, or freed. *)
Definition part_load : M xpmem_partition := fun w =>
  match part w with Some p => Ok p w | None => Fault UseAfterFree end.
Definition part_store (f : xpmem_partition -> xpmem_partition) : M unit := fun w =>
  match part w with Some p => Ok () (set_part (Some (f p)) w) | None => Fault UseAfterFree end.

(** A pointer that the code dereferences without a NULL test. *)
Definition nonnull {A} (o : option A) : M A :=
  match o with Some a => mret a | None => raise NullDeref end.

(** * Locks *)

Definition acquire (l : lock) : M unit := fun w =>
  if bool_decide (l ∈ held w) then Fault Deadlock else Ok () (set_held (l :: held w) w).
Definition release (l : lock) : M unit := fun w =>
  if bool_decide (l ∈ held w) then Ok () (set_held (unlink l (held w)) w)
  else Fault BadUnlock.

Definition might_sleep : M unit := fun w =>
  if existsb atomic_lock (held w) then Fault SleepInAtomic else Ok () w.

(** spin_lock, read_lock and write_lock *)
Definition spin_lock := acquire.
Definition spin_unlock := release.
Definition read_lock := acquire.
Definition read_unlock := release.
Definition write_lock := acquire.
Definition write_unlock := release.
(** mutex_lock, down_read, down_write and the mmap lock *)
Definition mutex_lock (l : lock) : M unit := might_sleep ;; acquire l.
Definition mutex_unlock := release.
Definition down_read := mutex_lock.
Definition up_read := release.
Definition down_write := mutex_lock.
Definition up_write := release.

(** down_read_trylock: whether the lock was taken. *)
Definition trylock (l : lock) : M bool := fun w =>
  if bool_decide (l ∈ held w) then Ok false w else Ok true (set_held (l :: held w) w).

(** * Allocation *)

(** kzalloc(..., GFP_KERNEL): a fresh address, or NULL. *)
Definition kzalloc : M (option positive) :=
  might_sleep ;;
  w ← get ;
  modify (fun w => set_next_ptr (Pos.succ (next_ptr w)) w) ;;
  mret (if kzalloc_ok (next_ptr w) then Some (next_ptr w) else None).

(** * Pages *)

(** put_page / get_user_pages: references on a page. *)
Definition page_add (d : Z) (pfn : Z) : M unit :=
  modify (fun w => set_pages (<[pfn := default 0 (pages w !! pfn) + d]> (pages w)) w).
Definition put_page (pfn : Z) : M unit := page_add (-1) pfn.

(** * Reasoning *)

(** [wp m Q w]: from [w], [m] does not fault, and [Q] holds of its result. *)
Definition wp {A} (m : M A) (Q : A -> world -> Prop) (w : world) : Prop :=
  match m w with Ok a w' => Q a w' | Fault _ => False end.

Implicit Types (w : world) (l : lock).

Lemma wp_ret {A} (a : A) Q w : Q a w -> wp (mret a) Q w.
Proof. done. Qed.

Lemma wp_bind {A B} (m : M A) (f : A -> M B) Q w :
  wp m (fun a w' => wp (f a) Q w') w -> wp (m ≫= f) Q w.
Proof. unfold wp, mbind, M_bind. by destruct (m w). Qed.

Lemma wp_mono {A} (m : M A) (P Q : A -> world -> Prop) w :
  wp m P w -> (forall a w', P a w' -> Q a w') -> wp m Q w.
Proof. unfold wp. destruct (m w); auto. Qed.

Lemma wp_seq {A B} (m : M A) (f : A -> M B) P Q w :
  wp m P w -> (forall a w', P a w' -> wp (f a) Q w') -> wp (m ≫= f) Q w.
Proof. intros H1 H2. apply wp_bind. by eapply wp_mono. Qed.

Lemma wp_Ok {A} (m : M A) a w w' Q : m w = Ok a w' -> Q a w' -> wp m Q w.
Proof. intros E. unfold wp. by rewrite E. Qed.

Lemma wp_inv {A} (m : M A) Q w : wp m Q w -> exists a w', m w = Ok a w' /\ Q a w'.
Proof. unfold wp. destruct (m w) eqn:E; [eauto | done]. Qed.

(** The same for code that may fault: [E] says with which fault. *)
Definition wpf {A} (m : M A) (Q : A -> world -> Prop) (E : fault -> Prop) (w : world) : Prop :=
  match m w with Ok a w' => Q a w' | Fault e => E e end.

Lemma wpf_wp {A} (m : M A) Q E w : wp m Q w -> wpf m Q E w.
Proof. unfold wp, wpf. by destruct (m w). Qed.
Lemma wpf_bind {A B} (m : M A) (f : A -> M B) Q E w :
  wp m (fun a w' => wpf (f a) Q E w') w -> wpf (m ≫= f) Q E w.
Proof. unfold wp, wpf, mbind, M_bind. by destruct (m w). Qed.
Lemma wpf_seq {A B} (m : M A) (f : A -> M B) P Q E w :
  wp m P w -> (forall a w', P a w' -> wpf (f a) Q E w') -> wpf (m ≫= f) Q E w.
Proof. unfold wp, wpf, mbind, M_bind. intros H1 H2. destruct (m w); [by apply H2|done]. Qed.
Lemma wpf_fault {A} (m : M A) (Q : A -> world -> Prop) (E : fault -> Prop) e w : m w = Fault e -> E e -> wpf m Q E w.
Proof. intros H ?. unfold wpf. by rewrite H. Qed.
Lemma wpf_outcome {A} (m : M A) o w : wpf m (fun r w' => Ok r w' = o) (fun e => Fault e = o) w -> m w = o.
Proof. unfold wpf. by destruct (m w). Qed.

Lemma wp_outcome {A} (m : M A) o w : wp m (fun r w' => Ok r w' = o) w -> m w = o.
Proof. intros H. by destruct (wp_inv _ _ _ H) as (r & w' & E & <-). Qed.

Lemma wp_get Q w : Q w w -> wp get Q w.
Proof. done. Qed.

Lemma wp_modify f Q w : Q () (f w) -> wp (modify f) Q w.
Proof. done. Qed.

Lemma wp_when b m Q w :
  (b = true -> wp m Q w) -> (b = false -> Q () w) -> wp (whenM b m) Q w.
Proof. intros H1 H2. destruct b; [by apply H1 | by apply wp_ret, H2]. Qed.

Lemma wp_if {A} (b : bool) (m1 m2 : M A) Q w :
  (b = true -> wp m1 Q w) -> (b = false -> wp m2 Q w) -> wp (if b then m1 else m2) Q w.
Proof. destruct b; auto. Qed.

Lemma wp_BUG_ON c Q w : c = false -> Q () w -> wp (BUG_ON c) Q w.
Proof. by intros ->. Qed.

Lemma wp_DBUG_ON c Q w : c = false -> Q () w -> wp (DBUG_ON c) Q w.
Proof. intros -> ?. unfold DBUG_ON. apply wp_when; auto. Qed.

Lemma wp_DBUG_ON_off c Q w : USE_DBUG_ON && c = false -> Q () w -> wp (DBUG_ON c) Q w.
Proof. intros E ?. unfold DBUG_ON, BUG_ON. destruct USE_DBUG_ON; cbn in *; [by subst|done]. Qed.

Lemma wp_load {V} (sel : world -> gmap positive V) p v Q w :
  sel w !! p = Some v -> Q v w -> wp (load sel p) Q w.
Proof. intros E ?. unfold wp, load. by rewrite E. Qed.

Lemma wp_store {V} (sel : world -> gmap positive V) upd p f v Q w :
  sel w !! p = Some v -> Q () (upd (<[p := f v]> (sel w)) w) -> wp (store sel upd p f) Q w.
Proof. intros E ?. unfold wp, store. by rewrite E. Qed.

Lemma wp_kfree {V} (sel : world -> gmap positive V) upd p v Q w :
  sel w !! p = Some v -> Q () (upd (delete p (sel w)) w) -> wp (kfree sel upd p) Q w.
Proof. intros E ?. unfold wp, kfree. by rewrite E. Qed.

Lemma wp_part_load pt Q w : part w = Some pt -> Q pt w -> wp part_load Q w.
Proof. intros E ?. unfold wp, part_load. by rewrite E. Qed.

Lemma wp_part_store pt f Q w :
  part w = Some pt -> Q () (set_part (Some (f pt)) w) -> wp (part_store f) Q w.
Proof. intros E ?. unfold wp, part_store. by rewrite E. Qed.

Lemma wp_acquire l Q w : l ∉ held w -> Q () (set_held (l :: held w) w) -> wp (acquire l) Q w.
Proof. intros E ?. unfold wp, acquire. by rewrite bool_decide_eq_false_2. Qed.

(** Unlocking the lock taken last gives back the locks held before it. *)
Lemma wp_release l L Q w :
  held w = l :: L -> l ∉ L -> Q () (set_held L w) -> wp (release l) Q w.
Proof.
  intros E Hl HQ. unfold wp, release. rewrite E, bool_decide_eq_true_2 by apply list_elem_of_here.
  by rewrite unlink_cons_eq.
Qed.

Lemma wp_might_sleep Q w : existsb atomic_lock (held w) = false -> Q () w -> wp might_sleep Q w.
Proof. intros E ?. unfold wp, might_sleep. by rewrite E. Qed.

Lemma wp_mutex_lock l Q w :
  existsb atomic_lock (held w) = false -> l ∉ held w ->
  Q () (set_held (l :: held w) w) -> wp (mutex_lock l) Q w.
Proof. intros. apply wp_bind, wp_might_sleep; [done|]. by apply wp_acquire. Qed.

Lemma wp_kzalloc Q w :
  existsb atomic_lock (held w) = false ->
  (kzalloc_ok (next_ptr w) = true ->
   Q (Some (next_ptr w)) (set_next_ptr (Pos.succ (next_ptr w)) w)) ->
  (kzalloc_ok (next_ptr w) = false ->
   Q None (set_next_ptr (Pos.succ (next_ptr w)) w)) ->
  wp kzalloc Q w.
Proof.
  intros ? Ht Hf. apply wp_bind, wp_might_sleep; [done|].
  apply wp_bind, wp_get, wp_bind, wp_modify, wp_ret.
  destruct (kzalloc_ok (next_ptr w)); auto.
Qed.

(** Locks do not affect the heaps. *)
Lemma set_held_held w : set_held (held w) w = w.
Proof. by destruct w. Qed.
End monad.
