(* ===== verification/Ids.v ===== *)
(** Segment and permit identifiers, and the hash tables they index
    (xpmem_private.h, lines 91-156).

    A segid or apid is a [struct xpmem_id] (thread group, unique number) read
    as one signed 64-bit integer through a pointer cast.  The theorems: the cast
    loses nothing, an identifier is never less than or equal to zero, and
    distinct numbers give distinct identifiers. *)

From S2P Require Import Prelude Kernel World.

(** [INT_MAX >> 1]: "so we can tell when we overflow". *)
Definition XPMEM_MAX_UNIQ_ID : Z := Z.shiftr (2 ^ 31 - 1) 1.

Lemma MAX_UNIQ_ID_val : XPMEM_MAX_UNIQ_ID = 2 ^ 30 - 1.
Proof. done. Qed.

Record xpmem_id := mk_id { id_tgid : Z; id_uniq : Z }.

Section ids.
Context `{K : Kernel}.

(** The eight bytes of [struct xpmem_id] (an [int] then an [unsigned int])
    read as an [__s64], and back. *)
Definition id_to_s64 (i : xpmem_id) : Z :=
  if big_endian then s64 (u32 (id_tgid i) * 2 ^ 32 + u32 (id_uniq i))
  else s64 (u32 (id_tgid i) + u32 (id_uniq i) * 2 ^ 32).

Definition s64_to_id (x : Z) : xpmem_id :=
  let lo := u32 x in
  let hi := u32 (x / 2 ^ 32) in
  if big_endian then mk_id (s32 hi) lo else mk_id (s32 lo) hi.

Definition xpmem_segid_to_tgid (segid : Z) : Z := id_tgid (s64_to_id segid).
Definition xpmem_apid_to_tgid (apid : Z) : Z := id_tgid (s64_to_id apid).

Definition xpmem_tg_hashtable_index (tgid : Z) : nat :=
  Z.to_nat (u32 tgid mod XPMEM_TG_HASHTABLE_SIZE).
Definition xpmem_ap_hashtable_index (apid : Z) : nat :=
  Z.to_nat (id_uniq (s64_to_id apid) mod XPMEM_AP_HASHTABLE_SIZE).

(** The identifiers the module hands out. *)
Definition id_ok (i : xpmem_id) : Prop :=
  0 < id_tgid i < 2 ^ 31 /\ 0 < id_uniq i <= XPMEM_MAX_UNIQ_ID.

Lemma id_to_s64_val i :
  id_ok i ->
  id_to_s64 i = (if big_endian then id_tgid i * 2 ^ 32 + id_uniq i
                 else id_tgid i + id_uniq i * 2 ^ 32).
Proof.
  intros [Ht Hu]. change XPMEM_MAX_UNIQ_ID with (2 ^ 30 - 1) in Hu.
  unfold id_to_s64. rewrite !u32_id by lia. destruct big_endian; apply s64_id; lia.
Qed.

Lemma id_positive i : id_ok i -> 0 < id_to_s64 i < 2 ^ 63.
Proof.
  intros H. rewrite id_to_s64_val by done. destruct H as [Ht Hu].
  change XPMEM_MAX_UNIQ_ID with (2 ^ 30 - 1) in Hu. destruct big_endian; lia.
Qed.

Lemma id_round_trip i : id_ok i -> s64_to_id (id_to_s64 i) = i.
Proof.
  intros H. unfold s64_to_id. rewrite id_to_s64_val by done. destruct H as [Ht Hu].
  change XPMEM_MAX_UNIQ_ID with (2 ^ 30 - 1) in Hu. destruct i as [t u]; cbn in *.
  destruct big_endian.
  - rewrite Z.div_add_l, (Z.div_small u), Z.add_0_r by lia.
    replace (u32 (t * 2 ^ 32 + u)) with u
      by (unfold u32; rewrite Z.add_comm, Z.mod_add, Z.mod_small; lia).
    rewrite u32_id, s32_id by lia. done.
  - rewrite Z.div_add, (Z.div_small t), Z.add_0_l by lia.
    replace (u32 (t + u * 2 ^ 32)) with t
      by (unfold u32; rewrite Z.mod_add, Z.mod_small; lia).
    rewrite (u32_id u), s32_id by lia. done.
Qed.

Lemma id_inj i j : id_ok i -> id_ok j -> id_to_s64 i = id_to_s64 j -> i = j.
Proof. intros Hi Hj E. rewrite <- (id_round_trip i), <- (id_round_trip j) by done. by rewrite E. Qed.

Lemma tg_index_lt tgid : (xpmem_tg_hashtable_index tgid < 8)%nat.
Proof.
  unfold xpmem_tg_hashtable_index, XPMEM_TG_HASHTABLE_SIZE.
  pose proof (Z.mod_pos_bound (u32 tgid) 8). lia.
Qed.

Lemma ap_index_lt apid : (xpmem_ap_hashtable_index apid < 8)%nat.
Proof.
  unfold xpmem_ap_hashtable_index, XPMEM_AP_HASHTABLE_SIZE.
  pose proof (Z.mod_pos_bound (id_uniq (s64_to_id apid)) 8). lia.
Qed.

(** C31: an identifier is a positive signed 64-bit number, the thread group and the number it was
    built from can be read back from it on either byte order, and two thread groups or two
    numbers never give the same one. *)
Theorem id_scheme i j :
  id_ok i -> id_ok j ->
  0 < id_to_s64 i < 2 ^ 63 /\ s64_to_id (id_to_s64 i) = i /\
  xpmem_segid_to_tgid (id_to_s64 i) = id_tgid i /\ (id_to_s64 i = id_to_s64 j -> i = j).
Proof.
  intros Hi Hj. split; [by apply id_positive|]. split; [by apply id_round_trip|].
  split; [|by apply id_inj]. unfold xpmem_segid_to_tgid. by rewrite id_round_trip.
Qed.
End ids.
