(* ===== verification/Misc.v ===== *)
(** References, look-ups and access checks (xpmem_misc.c, the inlines of
    xpmem_private.h, and the recall counter of xpmem_pfn.c they rely on).

    Functions that return [ERR_PTR(e)] or a pointer return [inl (-e)] or [inr p];
    functions with an [int] result and an out parameter return [inl err] or
    [inr value]. *)

From S2P Require Import Prelude Kernel World Monad Ids.

Section misc.
Context `{K : Kernel}.

(** * xpmem_private.h: reference counts *)

Definition xpmem_tg_ref (tg : positive) : M unit :=
  t ← tg_load tg ;
  DBUG_ON (tg_refcnt t <=? 0) ;;
  tg_store tg (fun t => set_tg_refcnt (s32 (tg_refcnt t + 1)) t).

Definition xpmem_seg_ref (seg : positive) : M unit :=
  s ← seg_load seg ;
  DBUG_ON (seg_refcnt s <=? 0) ;;
  seg_store seg (fun s => set_seg_refcnt (s32 (seg_refcnt s + 1)) s).

Definition xpmem_ap_ref (ap : positive) : M unit :=
  a ← ap_load ap ;
  DBUG_ON (ap_refcnt a <=? 0) ;;
  ap_store ap (fun a => set_ap_refcnt (s32 (ap_refcnt a + 1)) a).

Definition xpmem_att_ref (att : positive) : M unit :=
  t ← att_load att ;
  DBUG_ON (att_refcnt t <=? 0) ;;
  att_store att (fun t => set_att_refcnt (s32 (att_refcnt t + 1)) t).

Definition put_task_struct (task : positive) : M unit :=
  modify (fun w => set_task_usage (<[task := default 0 (task_usage w !! task) - 1]> (task_usage w)) w).
Definition get_task_struct (task : positive) : M unit :=
  modify (fun w => set_task_usage (<[task := default 0 (task_usage w !! task) + 1]> (task_usage w)) w).

Definition xpmem_tg_deref (tg : positive) : M unit :=
  t ← tg_load tg ;
  DBUG_ON (tg_refcnt t <=? 0) ;;
  tg_store tg (fun t => set_tg_refcnt (s32 (tg_refcnt t - 1)) t) ;;
  if negb (s32 (tg_refcnt t - 1) =? 0) then mret () else
  DBUG_ON (negb (has (tg_flags t) XPMEM_FLAG_DESTROYED)) ;;
  DBUG_ON (negb (bool_decide (seg_list t = []))) ;;
  leader ← nonnull (group_leader t) ;
  put_task_struct leader ;;
  kfree tgs set_tgs tg.

Definition xpmem_seg_deref (seg : positive) : M unit :=
  s ← seg_load seg ;
  DBUG_ON (seg_refcnt s <=? 0) ;;
  seg_store seg (fun s => set_seg_refcnt (s32 (seg_refcnt s - 1)) s) ;;
  if negb (s32 (seg_refcnt s - 1) =? 0) then mret () else
  DBUG_ON (negb (has (seg_flags s) XPMEM_FLAG_DESTROYING)) ;;
  kfree segs set_segs seg.

Definition xpmem_ap_deref (ap : positive) : M unit :=
  a ← ap_load ap ;
  DBUG_ON (ap_refcnt a <=? 0) ;;
  ap_store ap (fun a => set_ap_refcnt (s32 (ap_refcnt a - 1)) a) ;;
  whenM (s32 (ap_refcnt a - 1) =? 0)
    (DBUG_ON (negb (has (ap_flags a) XPMEM_FLAG_DESTROYING)) ;;
     kfree aps set_aps ap).

Definition xpmem_att_deref (att : positive) : M unit :=
  t ← att_load att ;
  DBUG_ON (att_refcnt t <=? 0) ;;
  att_store att (fun t => set_att_refcnt (s32 (att_refcnt t - 1)) t) ;;
  whenM (s32 (att_refcnt t - 1) =? 0)
    (DBUG_ON (negb (has (att_flags t) XPMEM_FLAG_DESTROYING)) ;;
     kfree atts set_atts att).

(** The creation reference: [refcnt = 1], dropped at destruction. *)
Definition xpmem_tg_not_destroyable (tg : positive) : M unit := tg_store tg (set_tg_refcnt 1).
Definition xpmem_seg_not_destroyable (seg : positive) : M unit := seg_store seg (set_seg_refcnt 1).
Definition xpmem_ap_not_destroyable (ap : positive) : M unit := ap_store ap (set_ap_refcnt 1).
Definition xpmem_att_not_destroyable (att : positive) : M unit := att_store att (set_att_refcnt 1).

Definition xpmem_tg_destroyable := xpmem_tg_deref.
Definition xpmem_seg_destroyable := xpmem_seg_deref.
Definition xpmem_ap_destroyable := xpmem_ap_deref.
Definition xpmem_att_destroyable := xpmem_att_deref.

Definition xpmem_is_vm_ops_set (vma : vm_area_struct) : bool :=
  bool_decide (vm_ops vma = xpmem_vm_ops).

(** * Look-ups *)

(** The [list_for_each_entry] of __xpmem_tg_ref_by_tgid_nolock_internal. *)
Fixpoint tg_scan (l : list positive) (tgid : Z) (return_destroying : bool) : M (Z + positive) :=
  match l with
  | [] => mret (inl (- ENOENT))
  | tg :: l =>
      t ← tg_load tg ;
      if tg_tgid t =? tgid then
        if has (tg_flags t) XPMEM_FLAG_DESTROYING && negb return_destroying
        then tg_scan l tgid return_destroying
        else xpmem_tg_ref tg ;; mret (inr tg)
      else tg_scan l tgid return_destroying
  end.

Definition xpmem_tg_ref_by_tgid_nolock_internal (tgid : Z) (index : nat)
    (return_destroying : bool) : M (Z + positive) :=
  pt ← part_load ;
  l ← nonnull (tg_hashtable pt !! index) ;
  tg_scan l tgid return_destroying.

Definition xpmem_tg_ref_by_tgid_gen (tgid : Z) (return_destroying : bool) : M (Z + positive) :=
  let index := xpmem_tg_hashtable_index tgid in
  read_lock (TgHashLock index) ;;
  tg ← xpmem_tg_ref_by_tgid_nolock_internal tgid index return_destroying ;
  read_unlock (TgHashLock index) ;;
  mret tg.

Definition xpmem_tg_ref_by_tgid (tgid : Z) := xpmem_tg_ref_by_tgid_gen tgid false.
Definition xpmem_tg_ref_by_tgid_all_nolock (tgid : Z) : M (Z + positive) :=
  xpmem_tg_ref_by_tgid_nolock_internal tgid (xpmem_tg_hashtable_index tgid) true.

Definition xpmem_tg_ref_by_segid (segid : Z) : M (Z + positive) :=
  DBUG_ON (segid <=? 0) ;; xpmem_tg_ref_by_tgid (xpmem_segid_to_tgid segid).
Definition xpmem_tg_ref_by_apid (apid : Z) : M (Z + positive) :=
  DBUG_ON (apid <=? 0) ;; xpmem_tg_ref_by_tgid (xpmem_apid_to_tgid apid).

Fixpoint seg_scan (l : list positive) (id : Z) : M (Z + positive) :=
  match l with
  | [] => mret (inl (- ENOENT))
  | seg :: l =>
      s ← seg_load seg ;
      if segid s =? id then
        if has (seg_flags s) XPMEM_FLAG_DESTROYING then seg_scan l id
        else xpmem_seg_ref seg ;; mret (inr seg)
      else seg_scan l id
  end.

Definition xpmem_seg_ref_by_segid (seg_tg : positive) (id : Z) : M (Z + positive) :=
  read_lock (SegListLock seg_tg) ;;
  t ← tg_load seg_tg ;
  r ← seg_scan (seg_list t) id ;
  read_unlock (SegListLock seg_tg) ;;
  mret r.

Fixpoint ap_scan (l : list positive) (id : Z) : M (Z + positive) :=
  match l with
  | [] => mret (inl (- ENOENT))
  | ap :: l =>
      a ← ap_load ap ;
      if apid a =? id then
        if has (ap_flags a) XPMEM_FLAG_DESTROYING then mret (inl (- ENOENT))
        else xpmem_ap_ref ap ;; mret (inr ap)
      else ap_scan l id
  end.

Definition xpmem_ap_ref_by_apid (ap_tg : positive) (id : Z) : M (Z + positive) :=
  DBUG_ON (id <=? 0) ;;
  let index := xpmem_ap_hashtable_index id in
  read_lock (ApHashLock ap_tg index) ;;
  t ← tg_load ap_tg ;
  l ← nonnull (ap_hashtable t !! index) ;
  r ← ap_scan l id ;
  read_unlock (ApHashLock ap_tg index) ;;
  mret r.

(** * The recall counter (xpmem_pfn.c), as one task runs it

    [n_recall_PFNs] is negative while page faults block recalls and positive
    while recalls are in progress.  A task that waits for a condition that
    only another task can establish does not return here: [Deadlock].  The
    [wake_up] calls put other tasks back to their test and have no effect on
    this state; RecallProto has them. *)

Definition wait_event (cond : M bool) : M unit :=
  might_sleep ;; b ← cond ; guardM b Deadlock.

Definition n_recall (tg : positive) : M Z := t ← tg_load tg ; mret (n_recall_PFNs t).

Definition atomic_cmpxchg_recall (tg : positive) (old new : Z) : M Z :=
  v ← n_recall tg ;
  whenM (v =? old) (tg_store tg (set_n_recall_PFNs (s32 new))) ;;
  mret v.

(** The inner loops: returns the last [value] read. *)
Fixpoint block_cmpxchg (fuel : nat) (tg : positive) (value : Z) : M Z :=
  match fuel with
  | O => raise NoFuel
  | S fuel =>
      if value >? 0 then mret value else
      returned_value ← atomic_cmpxchg_recall tg value (value - 1) ;
      if returned_value =? value then mret value else block_cmpxchg fuel tg returned_value
  end.

Fixpoint disallow_cmpxchg (fuel : nat) (tg : positive) (value : Z) : M Z :=
  match fuel with
  | O => raise NoFuel
  | S fuel =>
      if value <? 0 then mret value else
      returned_value ← atomic_cmpxchg_recall tg value (value + 1) ;
      if returned_value =? value then mret value else disallow_cmpxchg fuel tg returned_value
  end.

Fixpoint xpmem_block_recall_PFNs (fuel : nat) (tg : positive) (wait : bool) : M Z :=
  match fuel with
  | O => raise NoFuel
  | S fuel =>
      let wait_label :=
        if negb wait then mret (- EAGAIN) else
        wait_event (v ← n_recall tg ; mret (v <=? 0)) ;;
        xpmem_block_recall_PFNs fuel tg wait in
      t ← tg_load tg ;
      if (0 <? allow_recall_PFNs_wq t)%nat then wait_label else
      value ← block_cmpxchg fuel tg (n_recall_PFNs t) ;
      if value <=? 0 then mret 0 else wait_label
  end.

Definition xpmem_unblock_recall_PFNs (tg : positive) : M unit :=
  tg_store tg (fun t => set_n_recall_PFNs (s32 (n_recall_PFNs t + 1)) t).

Fixpoint xpmem_disallow_blocking_recall_PFNs (fuel : nat) (tg : positive) : M unit :=
  match fuel with
  | O => raise NoFuel
  | S fuel =>
      v ← n_recall tg ;
      value ← disallow_cmpxchg fuel tg v ;
      if value >=? 0 then mret () else
      wait_event (v ← n_recall tg ; mret (v >=? 0)) ;;
      xpmem_disallow_blocking_recall_PFNs fuel tg
  end.

Definition xpmem_allow_blocking_recall_PFNs (tg : positive) : M unit :=
  tg_store tg (fun t => set_n_recall_PFNs (s32 (n_recall_PFNs t - 1)) t).

(** * Access to a segment *)

(** The loops above go round at most twice when no other task interferes. *)
Definition RETRIES : nat := 2.

Definition xpmem_seg_down_read (seg_tg seg : positive) (block_recall_PFNs wait : bool) : M Z :=
  let unblock := whenM block_recall_PFNs (xpmem_unblock_recall_PFNs seg_tg) in
  ret ← (if block_recall_PFNs then xpmem_block_recall_PFNs RETRIES seg_tg wait else mret 0) ;
  if negb (ret =? 0) then mret ret else
  got ← trylock (SegSema seg) ;
  if negb got && negb wait then unblock ;; mret (- EAGAIN) else
  whenM (negb got) (down_read (SegSema seg)) ;;
  s ← seg_load seg ;
  t ← tg_load seg_tg ;
  if has (seg_flags s) XPMEM_FLAG_DESTROYING || has (tg_flags t) XPMEM_FLAG_DESTROYING then
    up_read (SegSema seg) ;; unblock ;; mret (- ENOENT)
  else mret 0.

Definition xpmem_seg_up_read (seg_tg seg : positive) (unblock_recall_PFNs : bool) : M unit :=
  up_read (SegSema seg) ;;
  whenM unblock_recall_PFNs (xpmem_unblock_recall_PFNs seg_tg).

Definition xpmem_seg_down_write (seg : positive) : M unit := down_write (SegSema seg).
Definition xpmem_seg_up_write (seg : positive) : M unit := up_write (SegSema seg).

Definition xpmem_wait_for_seg_destroyed (seg : positive) : M unit :=
  wait_event (s ← seg_load seg ;
    mret (has (seg_flags s) XPMEM_FLAG_DESTROYED
          || negb (has (seg_flags s) (Z.lor XPMEM_FLAG_DESTROYING XPMEM_FLAG_RECALLINGPFNS)))).

(** "Ensure that a user is correctly accessing a segment for a copy or an
    attach"; [offset] is signed, the sum is unsigned. *)
Definition xpmem_validate_access (cur : task) (ap : positive) (offset size mode : Z) : M (Z + Z) :=
  a ← ap_load ap ;
  t ← tg_load (ap_tg a) ;
  if negb (cur_tgid cur =? tg_tgid t) || ((mode =? XPMEM_RDWR) && (ap_mode a =? XPMEM_RDONLY))
  then mret (inl (- EACCES)) else
  if (offset <? 0) || (size =? 0) then mret (inl (- EINVAL)) else
  s ← seg_load (ap_seg a) ;
  if u64 (offset + size) >? seg_size s then mret (inl (- EINVAL))
  else mret (inr (u64 (seg_vaddr s + offset))).
End misc.
