(* ===== verification/Pfn.v ===== *)
(** Page table walks, pinning and unpinning (xpmem_pfn.c, lines 27-377).

    The walks follow the code of kernels from 4.12 on (five levels) and the
    calls of kernels from 5.9 on.  A pte is represented by the pfn it holds. *)

From S2P Require Import Prelude Kernel World Monad Ids Misc.

Section pfn.
Context `{K : Kernel}.

(** #of pages rounded up that vaddr and size occupy *)
Definition num_of_pages (v s : Z) : Z :=
  Z.shiftr (u64 (offset_in_page v + s + (PAGE_SIZE - 1))) PAGE_SHIFT.

(** The pte of a huge page and the offset of [vaddr] in it. *)
Definition xpmem_hugetlb_pte (pte : option Z) (mm : positive) (vaddr : Z) : M (option Z * Z) :=
  w ← get ;
  match find_vma (vmas w) mm vaddr with
  | None => mret (None, 0)
  | Some v =>
      vma ← vma_load v ;
      page_size ← match hugetlb_page_size vma with
                  | Some n => mret n
                  | None => BUG_ON (negb CONFIG_TRANSPARENT_HUGEPAGE) ;; mret HPAGE_PMD_SIZE
                  end ;
      mret (pte, Z.land (Z.land vaddr (page_size - 1)) PAGE_MASK)
  end.

(** The pte for an address, NULL when there is none, and the offset of the
    address in its page when that page is huge. *)
Definition xpmem_vaddr_to_pte_offset (mm : positive) (vaddr : Z) : M (option Z * Z) :=
  w ← get ;
  let pt := pgt w in
  if negb (pgd_present pt mm vaddr) then mret (None, 0) else
  if negb (p4d_present pt mm vaddr) then mret (None, 0) else
  if negb (pud_present pt mm vaddr) then mret (None, 0) else
  if pud_is_huge pt mm vaddr then xpmem_hugetlb_pte (pud_as_pte pt mm vaddr) mm vaddr else
  if negb (pmd_present pt mm vaddr) then mret (None, 0) else
  if pmd_is_huge pt mm vaddr then xpmem_hugetlb_pte (pmd_as_pte pt mm vaddr) mm vaddr else
  mret (pte_at pt mm vaddr, 0).

(** For base pages: the pte, or the size of the hole at the level of the page
    tables where the walk stopped. *)
Definition walk_pte_size (pt : pgtable) (mm : positive) (vaddr : Z) : Z + Z :=
  if negb (pgd_present pt mm vaddr) then inl PGDIR_SIZE else
  if negb (p4d_present pt mm vaddr) then inl P4D_SIZE else
  if negb (pud_present pt mm vaddr) then inl PUD_SIZE else
  if negb (pmd_present pt mm vaddr) then inl PMD_SIZE else
  match pte_at pt mm vaddr with None => inl PAGE_SIZE | Some pfn => inr pfn end.

Definition xpmem_vaddr_to_pte_size (mm : positive) (vaddr : Z) : M (Z + Z) :=
  w ← get ; mret (walk_pte_size (pgt w) mm vaddr).

(** Fault in and pin one page of [src_mm]; [pfn] is the value of the out
    parameter before the call. *)
Definition xpmem_pin_page (tg src_task src_mm : positive) (vaddr pfn : Z) : M (Z * Z) :=
  w ← get ;
  match find_vma (vmas w) src_mm vaddr with
  | None => mret (- ENOENT, pfn)
  | Some v =>
      vma ← vma_load v ;
      if vm_start vma >? vaddr then mret (- ENOENT, pfn) else
      if xpmem_is_vm_ops_set vma then mret (- ENOENT, pfn) else
      pte ← xpmem_vaddr_to_pte_offset src_mm vaddr ;
      saved_mask ←
        (if bool_decide (pte.1 = None) && on_other_node src_task then
           w ← get ;
           modify (set_cpus_mask (cpumask_of_task src_task)) ;;
           mret (cpus_mask w)
         else mret 0) ;
      w ← get ;
      let '(ret, page, pt) := get_user_pages_remote (pgt w) src_mm vaddr in
      modify (set_pgt pt) ;;
      whenM (ret =? 1) (page_add 1 page) ;;
      whenM (negb (saved_mask =? 0)) (modify (set_cpus_mask saved_mask)) ;;
      if ret =? 1 then
        tg_store tg (fun t => set_tg_n_pinned (s32 (tg_n_pinned t + 1)) t) ;;
        part_store (fun p => set_part_n_pinned (s32 (part_n_pinned p + 1)) p) ;;
        mret (0, page)
      else mret (ret, pfn)
  end.

(** One turn of the while loop of [xpmem_unpin_pages] per unit of fuel; the
    result is [n_pgs_unpinned]. *)
Fixpoint unpin_loop (fuel : nat) (mm : positive) (vaddr n_pgs n_pgs_unpinned : Z) : M Z :=
  if n_pgs >? 0 then
    match fuel with
    | O => raise NoFuel
    | S fuel =>
        r ← xpmem_vaddr_to_pte_size mm vaddr ;
        match r with
        | inr pfn =>
            put_page pfn ;;
            unpin_loop fuel mm (u64 (vaddr + PAGE_SIZE)) (n_pgs - 1) (n_pgs_unpinned + 1)
        | inl vsize =>
            let next := Z.land (u64 (vaddr + vsize)) (Z.lnot (vsize - 1)) in
            unpin_loop fuel mm next (s32 (n_pgs - u64 (next - vaddr) / PAGE_SIZE)) n_pgs_unpinned
        end
    end
  else mret n_pgs_unpinned.

Definition xpmem_unpin_pages (seg mm : positive) (vaddr size : Z) : M unit :=
  let n_pgs := s32 (num_of_pages vaddr size) in
  n_pgs_unpinned ← unpin_loop (Z.to_nat n_pgs) mm (Z.land vaddr PAGE_MASK) n_pgs 0 ;
  s ← seg_load seg ;
  tg_store (seg_tg s) (fun t => set_tg_n_pinned (s32 (tg_n_pinned t - n_pgs_unpinned)) t) ;;
  part_store (fun p => set_part_n_unpinned (s32 (part_n_unpinned p + n_pgs_unpinned)) p).

Definition xpmem_ensure_valid_PFN (seg : positive) (vaddr pfn : Z) : M (Z * Z) :=
  s ← seg_load seg ;
  if has (seg_flags s) XPMEM_FLAG_DESTROYING then mret (- ENOENT, pfn) else
  t ← tg_load (seg_tg s) ;
  leader ← nonnull (group_leader t) ;
  mm ← nonnull (tg_mm t) ;
  xpmem_pin_page (seg_tg s) leader mm vaddr pfn.

Definition xpmem_vaddr_to_PFN (mm : positive) (vaddr : Z) : M Z :=
  r ← xpmem_vaddr_to_pte_offset mm vaddr ;
  match r.1 with
  | None => mret 0
  | Some pfn => mret (u64 (pfn + Z.shiftr r.2 PAGE_SHIFT))
  end.
End pfn.
