(* ===== verification/Attach.v ===== *)
(** Attaching, detaching, faulting and invalidating (xpmem_attach.c).

    [cur] is [current].  [vm_mmap] and [vm_munmap] call back into the module:
    the kernel's part is the corresponding field of [Kernel], the callbacks
    ([xpmem_mmap], [xpmem_close_handler]) are run here. *)

From S2P Require Import Prelude Kernel World Monad Ids Misc Pfn.

Definition VM_FAULT_SIGBUS : Z := 0x2.
Definition VM_FAULT_NOPAGE : Z := 0x100.
Definition MAP_SHARED : Z := 0x1.
Definition MAP_FIXED : Z := 0x10.
(** VM_DONTCOPY | VM_DONTDUMP | VM_IO | VM_DONTEXPAND | VM_PFNMAP *)
Definition XPMEM_VM_FLAGS : Z := 0x20000 + 0x4000000 + 0x4000 + 0x40000 + VM_PFNMAP.

(** The entry after [cursor] ([None]: after the head) in a list. *)
Fixpoint list_after (c : positive) (l : list positive) : option positive :=
  match l with
  | [] => None
  | x :: l => if bool_decide (x = c) then head l else list_after c l
  end.
Definition list_next (cursor : option positive) (l : list positive) : option positive :=
  match cursor with None => head l | Some c => list_after c l end.

Section attach.
Context `{K : Kernel}.
Implicit Types (cur : task).

Definition xpmem_mmap_read_lock (mm : positive) : M unit := mutex_lock (MmapLock mm).
Definition xpmem_mmap_read_unlock (mm : positive) : M unit := release (MmapLock mm).
Definition xpmem_mmap_write_lock (mm : positive) : M unit := mutex_lock (MmapLock mm).
Definition xpmem_mmap_write_unlock (mm : positive) : M unit := release (MmapLock mm).
Definition xpmem_mmap_read_trylock (mm : positive) : M bool := trylock (MmapLock mm).

(** Whether a fatal signal interrupted the wait. *)
Definition mutex_lock_killable cur (l : lock) : M bool :=
  if cur_killed cur then might_sleep ;; mret true else mutex_lock l ;; mret false.

Definition att_set_flag (att : positive) (m : Z) : M unit :=
  att_store att (fun t => set_att_flags (Z.lor (att_flags t) m) t).
Definition att_clear_flag (att : positive) (m : Z) : M unit :=
  att_store att (fun t => set_att_flags (clear (att_flags t) m) t).

(** [spin_lock(&ap->lock); list_del_init(&att->att_list); spin_unlock(&ap->lock);] *)
Definition att_list_del (ap att : positive) : M unit :=
  spin_lock (ApLock ap) ;;
  ap_store ap (fun a => set_ap_att_list (unlink att (ap_att_list a)) a) ;;
  spin_unlock (ApLock ap).

(** * vm_operations *)

Definition xpmem_open_handler (v : positive) : M unit :=
  vma ← vma_load v ;
  match vm_private_data vma with
  | None => mret ()
  | Some att =>
      t ← att_load att ;
      whenM (negb (bool_decide (at_vma t = Some v))) (vma_store v (set_vm_private_data None))
  end.

Definition close_remaining cur (vma : vm_area_struct) (remaining_vaddr : Z) : M positive :=
  mm ← nonnull (cur_mm cur) ;
  w ← get ;
  match find_vma (vmas w) mm remaining_vaddr with
  | None => raise BugOn
  | Some r =>
      rv ← vma_load r ;
      BUG_ON ((vm_start rv >? remaining_vaddr)
              || negb (bool_decide (vm_private_data rv = vm_private_data vma))) ;;
      mret r
  end.

Definition xpmem_close_handler cur (v : positive) : M unit :=
  vma ← vma_load v ;
  match vm_private_data vma with
  | None => mret ()
  | Some att =>
      xpmem_att_ref att ;;
      mutex_lock (AttMutex att) ;;
      t ← att_load att ;
      if has (att_flags t) XPMEM_FLAG_DESTROYING then
        mutex_unlock (AttMutex att) ;; xpmem_att_deref att
      else
        (if (vm_start vma =? at_vaddr t) && (u64 (vm_end vma - vm_start vma) =? at_size t) then
           att_set_flag att XPMEM_FLAG_DESTROYING ;;
           xpmem_ap_ref (att_ap t) ;;
           att_list_del (att_ap t) att ;;
           xpmem_ap_deref (att_ap t) ;;
           xpmem_att_destroyable att
         else
           remaining_vaddr ←
             (if vm_start vma =? at_vaddr t then mret (vm_end vma)
              else if vm_end vma =? u64 (at_vaddr t + at_size t) then mret (at_vaddr t)
              else
                r ← close_remaining cur vma (vm_end vma) ;
                vma_store r (set_vm_private_data None) ;;
                vma_store r (set_vm_ops vm_ops_null) ;;
                mret (at_vaddr t)) ;
           r ← close_remaining cur vma remaining_vaddr ;
           rv ← vma_load r ;
           att_store att (set_at_range (vm_start rv) (u64 (vm_end rv - vm_start rv))) ;;
           vma_store v (set_vm_private_data None)) ;;
        mutex_unlock (AttMutex att) ;;
        xpmem_att_deref att ;;
        modify (fun w => set_sigkilled (cur_tgid cur :: sigkilled w) w)
  end.

(** The kernel has made copies of vmas to split them. *)
Fixpoint open_vmas (l : list positive) : M unit :=
  match l with
  | [] => mret ()
  | v :: l =>
      vma ← vma_load v ;
      whenM (xpmem_is_vm_ops_set vma) (xpmem_open_handler v) ;;
      open_vmas l
  end.

(** The kernel closes and frees the vmas it has detached. *)
Fixpoint close_vmas cur (l : list positive) : M unit :=
  match l with
  | [] => mret ()
  | v :: l =>
      vma ← vma_load v ;
      whenM (xpmem_is_vm_ops_set vma) (xpmem_close_handler cur v) ;;
      kfree vmas set_vmas v ;;
      close_vmas cur l
  end.

(** vm_munmap: 0 or an error. *)
Definition do_vm_munmap cur (start len : Z) : M Z :=
  mm ← nonnull (cur_mm cur) ;
  xpmem_mmap_write_lock mm ;;
  w ← get ;
  match vm_munmap (vmas w) mm start len with
  | inl e => xpmem_mmap_write_unlock mm ;; mret e
  | inr r =>
      modify (set_vmas (mu_table r)) ;;
      open_vmas (mu_opened r) ;;
      modify (set_pgt (unmap_ptes (pgt w) mm start len)) ;;
      close_vmas cur (mu_closed r) ;;
      xpmem_mmap_write_unlock mm ;;
      mret 0
  end.

(** [file->f_op->mmap] *)
Definition xpmem_mmap (v : positive) : M unit :=
  vma_store v (set_vm_file false) ;;
  modify (fun w => set_file_usage (file_usage w - 1) w) ;;
  vma_store v (set_vm_ops xpmem_vm_ops).

(** vm_mmap of /dev/xpmem: what a [MAP_FIXED] mapping replaces is unmapped first. *)
Definition do_vm_mmap cur (vaddr size flags offset : Z) : M (Z + Z) :=
  mm ← nonnull (cur_mm cur) ;
  xpmem_mmap_write_lock mm ;;
  w ← get ;
  match vm_mmap (vmas w) mm vaddr size flags offset with
  | inl e => xpmem_mmap_write_unlock mm ;; mret (inl e)
  | inr r =>
      modify (set_vmas (mm_table r)) ;;
      open_vmas (mm_opened r) ;;
      whenM (has flags MAP_FIXED) (modify (fun w => set_pgt (unmap_ptes (pgt w) mm vaddr size) w)) ;;
      modify (fun w => set_file_usage (file_usage w + 1) w) ;;
      close_vmas cur (mm_closed r) ;;
      xpmem_mmap (mm_vma r) ;;
      xpmem_mmap_write_unlock mm ;;
      mret (inr (mm_addr r))
  end.

(** * Attach *)

(** The for loop over the vmas in the requested range: whether one of them is
    an attachment. *)
Fixpoint existing_attachment (fuel : nat) (existing : option positive) (limit : Z) : M bool :=
  match existing with
  | None => mret false
  | Some v =>
      vma ← vma_load v ;
      if vm_start vma <? limit then
        if xpmem_is_vm_ops_set vma then mret true else
        match fuel with
        | O => raise NoFuel
        | S fuel => w ← get ; existing_attachment fuel (vm_next (vmas w) v) limit
        end
      else mret false
  end.

(** From the creation of the attachment to [out_3]: the address, or an error. *)
Definition attach_map cur (att : positive) (vaddr size offset : Z) : M (Z + Z) :=
  mm ← nonnull (cur_mm cur) ;
  let flags := if vaddr =? 0 then MAP_SHARED else Z.lor MAP_SHARED MAP_FIXED in
  clash ←
    (if has flags MAP_FIXED then
       xpmem_mmap_write_lock mm ;;
       w ← get ;
       xpmem_mmap_write_unlock mm ;;
       existing_attachment (base.size (vmas w))
         (find_vma_intersection (vmas w) mm vaddr (u64 (vaddr + size))) (u64 (vaddr + size))
     else mret false) ;
  if clash : bool then mret (inl (- EINVAL)) else
  r ← do_vm_mmap cur vaddr size flags offset ;
  match r with
  | inl e => mret (inl e)
  | inr addr =>
      att_store att (fun t => set_at_range addr (at_size t) t) ;;
      xpmem_mmap_write_lock mm ;;
      w ← get ;
      xpmem_mmap_write_unlock mm ;;
      v ← nonnull (find_vma (vmas w) mm addr) ;
      vma_store v (set_vm_private_data (Some att)) ;;
      vma_store v (fun vma => set_vm_flags (Z.lor (vm_flags vma) XPMEM_VM_FLAGS) vma) ;;
      vma_store v (set_vm_ops xpmem_vm_ops) ;;
      att_store att (set_at_vma (Some v)) ;;
      t ← att_load att ;
      mret (inr (u64 (addr + offset_in_page (att_vaddr t))))
  end.

(** From [out_2] and [out_1]: drop what [xpmem_attach] holds. *)
Definition attach_out_1 (ap ap_tg seg seg_tg : positive) : M unit :=
  xpmem_ap_deref ap ;;
  xpmem_tg_deref ap_tg ;;
  xpmem_seg_deref seg ;;
  xpmem_tg_deref seg_tg.

(** From the successful [xpmem_seg_down_read] to [out_2]. *)
Definition attach_locked cur (ap seg_tg : positive) (offset size vaddr : Z) : M (Z + Z) :=
  r ← xpmem_validate_access cur ap offset size XPMEM_RDWR ;
  match r with
  | inl e => mret (inl e)
  | inr seg_vaddr =>
      let size := u64 (size + offset_in_page seg_vaddr) in
      t ← tg_load seg_tg ;
      if (cur_tgid cur =? tg_tgid t) && negb (vaddr =? 0)
         && (u64 (vaddr + size) >? seg_vaddr) && (vaddr <? u64 (seg_vaddr + size))
      then mret (inl (- EINVAL)) else
      p ← kzalloc ;
      match p with
      | None => mret (inl (- ENOMEM))
      | Some att =>
          init atts set_atts att (mk_att seg_vaddr 0 size None 0 0 ap (cur_mm cur)) ;;
          xpmem_att_not_destroyable att ;;
          xpmem_att_ref att ;;
          mutex_lock (AttMutex att) ;;
          spin_lock (ApLock ap) ;;
          ap_store ap (fun a => set_ap_att_list (ap_att_list a ++ [att]) a) ;;
          a ← ap_load ap ;
          spin_unlock (ApLock ap) ;;
          ret ← (if has (ap_flags a) XPMEM_FLAG_DESTROYING then mret (inl (- ENOENT))
                 else attach_map cur att vaddr size offset) ;
          match ret with
          | inl _ =>
              att_set_flag att XPMEM_FLAG_DESTROYING ;;
              att_list_del ap att ;;
              xpmem_att_destroyable att
          | inr _ => mret ()
          end ;;
          mutex_unlock (AttMutex att) ;;
          xpmem_att_deref att ;;
          mret ret
      end
  end.

Definition xpmem_attach cur (apid offset size vaddr : Z) : M (Z + Z) :=
  if apid <=? 0 then mret (inl (- EINVAL)) else
  if negb (vaddr =? 0) && (u64 (vaddr + PAGE_SIZE - offset_in_page vaddr) >=? TASK_SIZE)
  then mret (inl (- EINVAL)) else
  if negb (offset_in_page vaddr =? 0) || negb (offset_in_page offset =? 0)
  then mret (inl (- EINVAL)) else
  let size := if offset_in_page size =? 0 then size
              else u64 (size + (PAGE_SIZE - offset_in_page size)) in
  r ← xpmem_tg_ref_by_apid apid ;
  match r with
  | inl e => mret (inl e)
  | inr ap_tg =>
      r ← xpmem_ap_ref_by_apid ap_tg apid ;
      match r with
      | inl e => xpmem_tg_deref ap_tg ;; mret (inl e)
      | inr ap =>
          a ← ap_load ap ;
          let seg := ap_seg a in
          xpmem_seg_ref seg ;;
          s ← seg_load seg ;
          let seg_tg := seg_tg s in
          xpmem_tg_ref seg_tg ;;
          ret ← xpmem_seg_down_read seg_tg seg false true ;
          if negb (ret =? 0) then attach_out_1 ap ap_tg seg seg_tg ;; mret (inl ret) else
          ret ← attach_locked cur ap seg_tg offset size vaddr ;
          xpmem_seg_up_read seg_tg seg false ;;
          attach_out_1 ap ap_tg seg seg_tg ;;
          mret ret
      end
  end.

(** * Detach *)

(** The caller owns the permit: up to the last references. *)
Definition detach_owned cur (mm v att ap : positive) (a : xpmem_access_permit) (t : xpmem_attachment) : M Z :=
  xpmem_unpin_pages (ap_seg a) mm (at_vaddr t) (at_size t) ;;
  vma_store v (set_vm_private_data None) ;;
  att_clear_flag att XPMEM_FLAG_VALIDPTEs ;;
  att_list_del ap att ;;
  mutex_unlock (AttMutex att) ;;
  xpmem_mmap_write_unlock mm ;;
  vma ← vma_load v ;
  t ← att_load att ;
  ret ← do_vm_munmap cur (vm_start vma) (at_size t) ;
  DBUG_ON (negb (ret =? 0)) ;;
  xpmem_att_destroyable att ;;
  xpmem_ap_deref ap ;;
  xpmem_att_deref att ;;
  mret 0.

(** The vma at the address shows the attachment; the mmap lock is held. *)
Definition detach_vma cur (mm v att : positive) : M Z :=
  xpmem_att_ref att ;;
  interrupted ← mutex_lock_killable cur (AttMutex att) ;
  if interrupted : bool then
    xpmem_att_deref att ;; xpmem_mmap_write_unlock mm ;; mret (- EINTR)
  else
  mutex_lock (AttInvalidateMutex att) ;;
  t ← att_load att ;
  if has (att_flags t) XPMEM_FLAG_DESTROYING then
    mutex_unlock (AttInvalidateMutex att) ;;
    mutex_unlock (AttMutex att) ;;
    xpmem_att_deref att ;;
    xpmem_mmap_write_unlock mm ;;
    mret 0
  else
  att_set_flag att XPMEM_FLAG_DESTROYING ;;
  mutex_unlock (AttInvalidateMutex att) ;;
  let ap := att_ap t in
  xpmem_ap_ref ap ;;
  a ← ap_load ap ;
  g ← tg_load (ap_tg a) ;
  if negb (cur_tgid cur =? tg_tgid g) then
    att_clear_flag att XPMEM_FLAG_DESTROYING ;;
    xpmem_ap_deref ap ;;
    mutex_unlock (AttMutex att) ;;
    xpmem_att_deref att ;;
    xpmem_mmap_write_unlock mm ;;
    mret (- EACCES)
  else detach_owned cur mm v att ap a t.

Definition xpmem_detach cur (vaddr : Z) : M Z :=
  mm ← nonnull (cur_mm cur) ;
  xpmem_mmap_write_lock mm ;;
  w ← get ;
  match find_vma (vmas w) mm vaddr with
  | None => xpmem_mmap_write_unlock mm ;; mret 0
  | Some v =>
      vma ← vma_load v ;
      if vm_start vma >? vaddr then xpmem_mmap_write_unlock mm ;; mret 0 else
      match vm_private_data vma, xpmem_is_vm_ops_set vma with
      | Some att, true => detach_vma cur mm v att
      | _, _ => xpmem_mmap_write_unlock mm ;; mret (- EINVAL)
      end
  end.

Definition xpmem_detach_att cur (ap att : positive) : M unit :=
  t ← att_load att ;
  mm ← nonnull (match cur_mm cur with Some mm => Some mm | None => att_mm t end) ;
  xpmem_mmap_write_lock mm ;;
  mutex_lock (AttMutex att) ;;
  mutex_lock (AttInvalidateMutex att) ;;
  t ← att_load att ;
  if has (att_flags t) XPMEM_FLAG_DESTROYING then
    mutex_unlock (AttInvalidateMutex att) ;;
    mutex_unlock (AttMutex att) ;;
    xpmem_mmap_write_unlock mm
  else
  att_set_flag att XPMEM_FLAG_DESTROYING ;;
  mutex_unlock (AttInvalidateMutex att) ;;
  w ← get ;
  let not_found :=
    DBUG_ON true ;; mutex_unlock (AttMutex att) ;; xpmem_mmap_write_unlock mm in
  match find_vma (vmas w) mm (at_vaddr t) with
  | None => not_found
  | Some v =>
      vma ← vma_load v ;
      if vm_start vma >? at_vaddr t then not_found else
      DBUG_ON (negb (xpmem_is_vm_ops_set vma)) ;;
      DBUG_ON (negb (u64 (vm_end vma - vm_start vma) =? at_size t)) ;;
      DBUG_ON (negb (bool_decide (vm_private_data vma = Some att))) ;;
      a ← ap_load ap ;
      xpmem_unpin_pages (ap_seg a) mm (at_vaddr t) (at_size t) ;;
      vma_store v (set_vm_private_data None) ;;
      att_clear_flag att XPMEM_FLAG_VALIDPTEs ;;
      att_list_del ap att ;;
      mutex_unlock (AttMutex att) ;;
      xpmem_mmap_write_unlock mm ;;
      whenM (bool_decide (is_Some (cur_mm cur)))
        (vma ← vma_load v ;
         ret ← do_vm_munmap cur (vm_start vma) (at_size t) ;
         DBUG_ON (negb (ret =? 0))) ;;
      xpmem_att_destroyable att
  end.

(** * Invalidation *)

(** The intersection of [start, end) with the attachment, as the address in
    the attachment and the length to unpin; NULL when they do not meet. *)
Definition invalidate_window (t : xpmem_attachment) (start end_ : Z) : option (Z * Z * Z) :=
  let att_vaddr_end := u64 (att_vaddr t + at_size t) in
  let invalidate_start := Z.max start (att_vaddr t) in
  let invalidate_end := Z.min end_ att_vaddr_end in
  if (invalidate_start >=? att_vaddr_end) || (invalidate_end <=? att_vaddr t) then None else
  let offset_start := u64 (invalidate_start - att_vaddr t) in
  let offset_end := u64 (invalidate_end - att_vaddr t) in
  Some (u64 (at_vaddr t + offset_start), u64 (offset_end - offset_start), offset_start).

(** The body under the locks. *)
Definition clear_PTEs_window (att : positive) (start end_ : Z) (from_mmu : bool) : M unit :=
  t ← att_load att ;
  if negb (has (att_flags t) XPMEM_FLAG_VALIDPTEs) then mret () else
  match invalidate_window t start end_ with
  | None => mret ()
  | Some (unpin_at, invalidate_len, offset_start) =>
      DBUG_ON (negb (offset_in_page unpin_at =? 0) || negb (offset_in_page invalidate_len =? 0)) ;;
      a ← ap_load (att_ap t) ;
      mm ← nonnull (att_mm t) ;
      xpmem_unpin_pages (ap_seg a) mm unpin_at invalidate_len ;;
      w ← get ;
      v ← nonnull (if from_mmu then at_vma t else find_vma (vmas w) mm (at_vaddr t)) ;
      vma ← vma_load v ;
      modify (fun w => set_pgt (zap_vma_ptes (pgt w) vma unpin_at invalidate_len) w) ;;
      whenM ((offset_start =? 0) && (at_size t =? invalidate_len))
        (att_clear_flag att XPMEM_FLAG_VALIDPTEs)
  end.

Definition xpmem_clear_PTEs_of_att (att : positive) (start end_ : Z) (from_mmu : bool) : M unit :=
  if from_mmu then
    mutex_lock (AttInvalidateMutex att) ;;
    t ← att_load att ;
    (if has (att_flags t) XPMEM_FLAG_DESTROYING then mret ()
     else clear_PTEs_window att start end_ from_mmu) ;;
    mutex_unlock (AttInvalidateMutex att)
  else
    t ← att_load att ;
    mm ← nonnull (att_mm t) ;
    xpmem_mmap_read_lock mm ;;
    mutex_lock (AttMutex att) ;;
    clear_PTEs_window att start end_ from_mmu ;;
    mutex_unlock (AttMutex att) ;;
    xpmem_mmap_read_unlock mm.

(** [list_for_each_entry] over a list that may change while the lock that
    protects it is dropped: the walk goes on after [cursor], or from the head
    again when the entry was unlinked meanwhile. *)
Fixpoint clear_PTEs_of_ap_loop (fuel : nat) (ap : positive) (cursor : option positive)
    (start end_ : Z) (from_mmu : bool) : M unit :=
  a ← ap_load ap ;
  match list_next cursor (ap_att_list a) with
  | None => mret ()
  | Some att =>
      match fuel with
      | O => raise NoFuel
      | S fuel =>
          t ← att_load att ;
          if negb (has (att_flags t) XPMEM_FLAG_VALIDPTEs)
          then clear_PTEs_of_ap_loop fuel ap (Some att) start end_ from_mmu else
          xpmem_att_ref att ;;
          spin_unlock (ApLock ap) ;;
          xpmem_clear_PTEs_of_att att start end_ from_mmu ;;
          spin_lock (ApLock ap) ;;
          a ← ap_load ap ;
          xpmem_att_deref att ;;
          clear_PTEs_of_ap_loop fuel ap
            (if bool_decide (att ∈ ap_att_list a) then Some att else None) start end_ from_mmu
      end
  end.

Definition xpmem_clear_PTEs_of_ap (ap : positive) (start end_ : Z) (from_mmu : bool) : M unit :=
  spin_lock (ApLock ap) ;;
  a ← ap_load ap ;
  clear_PTEs_of_ap_loop (length (ap_att_list a)) ap None start end_ from_mmu ;;
  spin_unlock (ApLock ap).

Fixpoint clear_PTEs_range_loop (fuel : nat) (seg : positive) (cursor : option positive)
    (start end_ : Z) (from_mmu : bool) : M unit :=
  s ← seg_load seg ;
  match list_next cursor (seg_ap_list s) with
  | None => mret ()
  | Some ap =>
      match fuel with
      | O => raise NoFuel
      | S fuel =>
          xpmem_ap_ref ap ;;
          spin_unlock (SegLock seg) ;;
          xpmem_clear_PTEs_of_ap ap start end_ from_mmu ;;
          spin_lock (SegLock seg) ;;
          s ← seg_load seg ;
          xpmem_ap_deref ap ;;
          clear_PTEs_range_loop fuel seg
            (if bool_decide (ap ∈ seg_ap_list s) then Some ap else None) start end_ from_mmu
      end
  end.

Definition xpmem_clear_PTEs_range (seg : positive) (start end_ : Z) (from_mmu : bool) : M unit :=
  spin_lock (SegLock seg) ;;
  s ← seg_load seg ;
  clear_PTEs_range_loop (length (seg_ap_list s)) seg None start end_ from_mmu ;;
  spin_unlock (SegLock seg).

Definition xpmem_clear_PTEs (seg : positive) : M unit :=
  s ← seg_load seg ;
  xpmem_clear_PTEs_range seg (seg_vaddr s) (u64 (seg_vaddr s + seg_size s)) false.
End attach.
