(* ===== verification/Fault.v ===== *)
(** The page fault handler (xpmem_attach.c, xpmem_fault_handler). *)

From S2P Require Import Prelude Kernel World Monad Ids Misc Pfn Attach.

Section fault.
Context `{K : Kernel}.
Implicit Types (cur : task).

(** "Lock the seg's thread group's mmap_sem in a deadlock safe manner": whether
    the vma must be looked up again because current's lock was dropped. *)
Definition fault_lock_seg_mm (mm seg_mm : positive) : M bool :=
  if (mm <? seg_mm)%positive then xpmem_mmap_read_lock seg_mm ;; mret false else
  got ← xpmem_mmap_read_trylock seg_mm ;
  if got : bool then mret false else
  xpmem_mmap_read_unlock mm ;;
  xpmem_mmap_read_lock seg_mm ;;
  xpmem_mmap_read_lock mm ;;
  mret true.

(** "verify vma hasn't changed due to dropping current->mm->mmap_sem" *)
Definition fault_verify_vma (mm att : positive) (vaddr : Z) : M bool :=
  w ← get ;
  match find_vma (vmas w) mm vaddr with
  | None => mret false
  | Some v =>
      vma ← vma_load v ;
      mret (negb (vm_start vma >? vaddr) && xpmem_is_vm_ops_set vma
            && bool_decide (vm_private_data vma = Some att))
  end.

(** From the verification to [out_2]: the pfn (0 when there is none) and
    whether [att->mutex] is held. *)
Definition fault_pin cur (mm att ap_tg seg seg_tg : positive) (vaddr : Z)
    (vma_verification_needed : bool) : M (Z * bool) :=
  ok ← (if vma_verification_needed then fault_verify_vma mm att vaddr else mret true) ;
  if negb ok then mret (0, false) else
  interrupted ← mutex_lock_killable cur (AttMutex att) ;
  if interrupted : bool then mret (0, false) else
  t ← att_load att ;
  g ← tg_load ap_tg ;
  sg ← tg_load seg_tg ;
  if has (att_flags t) XPMEM_FLAG_DESTROYING || has (tg_flags g) XPMEM_FLAG_DESTROYING
     || has (tg_flags sg) XPMEM_FLAG_DESTROYING
  then mret (0, true) else
  if (vaddr <? at_vaddr t) || (u64 (vaddr + 1) >? u64 (at_vaddr t + at_size t))
  then mret (0, true) else
  let seg_vaddr := u64 (Z.land (att_vaddr t) PAGE_MASK + u64 (vaddr - at_vaddr t)) in
  r ← xpmem_ensure_valid_PFN seg seg_vaddr 0 ;
  if negb (r.1 =? 0) then mret (r.2, true) else
  att_set_flag att XPMEM_FLAG_VALIDPTEs ;;
  mret (r.2, true).

(** From [out_1] to [out]: install the page, or drop the pin when the address
    is mapped already. *)
Definition fault_install (mm v seg : positive) (vaddr pfn : Z) : M Z :=
  if (pfn =? 0) || negb (pfn_valid pfn) then mret VM_FAULT_SIGBUS else
  old_pfn ← xpmem_vaddr_to_PFN mm vaddr ;
  if negb (old_pfn =? 0) then
    put_page pfn ;;
    s ← seg_load seg ;
    tg_store (seg_tg s) (fun t => set_tg_n_pinned (s32 (tg_n_pinned t - 1)) t) ;;
    part_store (fun p => set_part_n_unpinned (s32 (part_n_unpinned p + 1)) p) ;;
    mret (if old_pfn =? pfn then VM_FAULT_NOPAGE else VM_FAULT_SIGBUS)
  else
    vma ← vma_load v ;
    w ← get ;
    let '(ret, pt) := remap_pfn_range (pgt w) vma vaddr pfn in
    modify (set_pgt pt) ;;
    mret (if ret =? 0 then VM_FAULT_NOPAGE else VM_FAULT_SIGBUS).

Definition xpmem_fault_handler cur (v : positive) (vaddr : Z) : M Z :=
  if cur_dumpcore cur then mret VM_FAULT_SIGBUS else
  vma ← vma_load v ;
  match vm_private_data vma with
  | None => mret VM_FAULT_SIGBUS
  | Some att =>
      xpmem_att_ref att ;;
      t ← att_load att ;
      let ap := att_ap t in
      xpmem_ap_ref ap ;;
      a ← ap_load ap ;
      let ap_tg := ap_tg a in
      xpmem_tg_ref ap_tg ;;
      g ← tg_load ap_tg ;
      if has (ap_flags a) XPMEM_FLAG_DESTROYING || has (tg_flags g) XPMEM_FLAG_DESTROYING then
        xpmem_att_deref att ;;
        xpmem_ap_deref ap ;;
        xpmem_tg_deref ap_tg ;;
        mret VM_FAULT_SIGBUS
      else
      DBUG_ON (negb (cur_tgid cur =? tg_tgid g)) ;;
      DBUG_ON (negb (ap_mode a =? XPMEM_RDWR)) ;;
      let seg := ap_seg a in
      xpmem_seg_ref seg ;;
      s ← seg_load seg ;
      let seg_tg := seg_tg s in
      xpmem_tg_ref seg_tg ;;
      sg ← tg_load seg_tg ;
      mm ← nonnull (cur_mm cur) ;
      seg_mm ← nonnull (tg_mm sg) ;
      ret ← xpmem_seg_down_read seg_tg seg true false ;
      lk ← (if ret =? - EAGAIN then
              xpmem_mmap_read_unlock mm ;;
              ret ← xpmem_seg_down_read seg_tg seg true true ;
              xpmem_mmap_read_lock mm ;;
              mret (ret, true)
            else mret (ret, false)) ;
      let other_mm := negb (bool_decide (seg_mm = mm)) in
      res ← (if negb (lk.1 =? 0) then mret (0, false, false) else
               dropped ← (if other_mm then fault_lock_seg_mm mm seg_mm else mret false) ;
               r ← fault_pin cur mm att ap_tg seg seg_tg vaddr (lk.2 || dropped) ;
               xpmem_seg_up_read seg_tg seg true ;;
               mret (r.1, r.2, other_mm)) ;
      let '(pfn, att_locked, seg_tg_mmap_sem_locked) := res in
      xpmem_ap_deref ap ;;
      xpmem_tg_deref ap_tg ;;
      ret ← fault_install mm v seg vaddr pfn ;
      whenM seg_tg_mmap_sem_locked (xpmem_mmap_read_unlock seg_mm) ;;
      whenM att_locked (mutex_unlock (AttMutex att)) ;;
      xpmem_tg_deref seg_tg ;;
      xpmem_seg_deref seg ;;
      xpmem_att_deref att ;;
      mret ret
  end.
End fault.
