(* ===== verification/Make.v ===== *)
(** Making and removing segments (xpmem_make.c). *)

From S2P Require Import Prelude Kernel World Monad Ids Misc Pfn Attach.

Section make.
Context `{K : Kernel}.
Implicit Types (cur : task).

(** A new segid, or [- EBUSY] when the numbers are used up. *)
Definition xpmem_make_segid (seg_tg : positive) : M Z :=
  tg_store seg_tg (fun t => set_uniq_segid (s32 (uniq_segid t + 1)) t) ;;
  t ← tg_load seg_tg ;
  let uniq := uniq_segid t in
  if uniq >? XPMEM_MAX_UNIQ_ID then
    tg_store seg_tg (fun t => set_uniq_segid (s32 (uniq_segid t - 1)) t) ;;
    mret (- EBUSY)
  else
  let segid := id_to_s64 (mk_id (tg_tgid t) (u32 uniq)) in
  DBUG_ON (segid <=? 0) ;;
  mret segid.

(** The size of the segment after the check against the address limit. *)
Definition make_size (limit vaddr size : Z) : option Z :=
  if u64 (vaddr + size) >? limit then
    if size =? XPMEM_MAXADDR_SIZE then Some (u64 (limit - vaddr)) else None
  else Some size.

Definition xpmem_make cur (vaddr size permit_type permit_value : Z) : M (Z + Z) :=
  if negb (permit_type =? XPMEM_PERMIT_MODE)
     || has permit_value (Z.lnot 0x1ff) || (size =? 0)
  then mret (inl (- EINVAL)) else
  r ← xpmem_tg_ref_by_tgid (cur_tgid cur) ;
  match r with
  | inl e => DBUG_ON (negb (e =? - ENOENT)) ;; mret (inl (- XPMEM_ERRNO_NOPROC))
  | inr seg_tg =>
      t ← tg_load seg_tg ;
      match make_size (addr_limit t) vaddr size with
      | None => xpmem_tg_deref seg_tg ;; mret (inl (- EINVAL))
      | Some size =>
          if negb (offset_in_page vaddr =? 0) || negb (offset_in_page size =? 0)
          then xpmem_tg_deref seg_tg ;; mret (inl (- EINVAL)) else
          segid ← xpmem_make_segid seg_tg ;
          if segid <? 0 then xpmem_tg_deref seg_tg ;; mret (inl segid) else
          p ← kzalloc ;
          match p with
          | None => xpmem_tg_deref seg_tg ;; mret (inl (- ENOMEM))
          | Some seg =>
              init segs set_segs seg
                (mk_seg segid vaddr size permit_type permit_value 0 0 seg_tg []) ;;
              xpmem_seg_not_destroyable seg ;;
              write_lock (SegListLock seg_tg) ;;
              tg_store seg_tg (fun t => set_seg_list (seg_list t ++ [seg]) t) ;;
              write_unlock (SegListLock seg_tg) ;;
              xpmem_tg_deref seg_tg ;;
              mret (inr segid)
          end
      end
  end.

Definition seg_set_flag (seg : positive) (m : Z) : M unit :=
  spin_lock (SegLock seg) ;;
  seg_store seg (fun s => set_seg_flags (Z.lor (seg_flags s) m) s) ;;
  spin_unlock (SegLock seg).

Definition xpmem_remove_seg (seg_tg seg : positive) : M unit :=
  s ← seg_load seg ;
  DBUG_ON (seg_refcnt s <=? 0) ;;
  spin_lock (SegLock seg) ;;
  s ← seg_load seg ;
  if has (seg_flags s) XPMEM_FLAG_DESTROYING then
    spin_unlock (SegLock seg) ;; might_sleep
  else
  seg_store seg (fun s => set_seg_flags (Z.lor (seg_flags s) XPMEM_FLAG_DESTROYING) s) ;;
  spin_unlock (SegLock seg) ;;
  xpmem_seg_down_write seg ;;
  xpmem_clear_PTEs seg ;;
  seg_set_flag seg XPMEM_FLAG_DESTROYED ;;
  write_lock (SegListLock seg_tg) ;;
  tg_store seg_tg (fun t => set_seg_list (unlink seg (seg_list t)) t) ;;
  write_unlock (SegListLock seg_tg) ;;
  xpmem_seg_up_write seg ;;
  xpmem_seg_destroyable seg.

(** One turn of the while loop per unit of fuel, under seg_list_lock. *)
Fixpoint remove_segs_loop (fuel : nat) (seg_tg : positive) : M unit :=
  t ← tg_load seg_tg ;
  match seg_list t with
  | [] => mret ()
  | seg :: _ =>
      match fuel with
      | O => raise NoFuel
      | S fuel =>
          xpmem_seg_ref seg ;;
          read_unlock (SegListLock seg_tg) ;;
          xpmem_remove_seg seg_tg seg ;;
          xpmem_seg_deref seg ;;
          read_lock (SegListLock seg_tg) ;;
          remove_segs_loop fuel seg_tg
      end
  end.

Definition xpmem_remove_segs_of_tg (fuel : nat) (seg_tg : positive) : M unit :=
  read_lock (SegListLock seg_tg) ;;
  remove_segs_loop fuel seg_tg ;;
  read_unlock (SegListLock seg_tg).

Definition xpmem_remove cur (id : Z) : M Z :=
  if id <=? 0 then mret (- EINVAL) else
  r ← xpmem_tg_ref_by_segid id ;
  match r with
  | inl e => mret e
  | inr seg_tg =>
      t ← tg_load seg_tg ;
      if negb (cur_tgid cur =? tg_tgid t) then xpmem_tg_deref seg_tg ;; mret (- EACCES) else
      r ← xpmem_seg_ref_by_segid seg_tg id ;
      match r with
      | inl e => xpmem_tg_deref seg_tg ;; mret e
      | inr seg =>
          s ← seg_load seg ;
          DBUG_ON (negb (bool_decide (World.seg_tg s = seg_tg))) ;;
          xpmem_remove_seg seg_tg seg ;;
          xpmem_seg_deref seg ;;
          xpmem_tg_deref seg_tg ;;
          mret 0
      end
  end.
End make.
