(* ===== verification/Get.v ===== *)
(** Permission to access a segment (xpmem_get.c). *)

From S2P Require Import Prelude Kernel World Monad Ids Misc Pfn Attach.

(** The fields of [struct kern_ipc_perm] that are used. *)
Record kern_ipc_perm := mk_perm {
  perm_uid : Z;
  perm_gid : Z;
  perm_cuid : Z;
  perm_cgid : Z;
  perm_mode : Z;
}.

Definition S_IRUSR : Z := 0x100.  (* 00400 *)
Definition S_IWUSR : Z := 0x80.   (* 00200 *)

(** 0 when every bit of [flag] (folded to the low three bits) is granted. *)
Definition xpmem_ipcperms (cur : task) (ipcp : kern_ipc_perm) (flag : Z) : Z :=
  let requested_mode := Z.lor (Z.lor (Z.shiftr flag 6) (Z.shiftr flag 3)) flag in
  let granted_mode :=
    if (cur_euid cur =? perm_cuid ipcp) || (cur_euid cur =? perm_uid ipcp)
    then Z.shiftr (perm_mode ipcp) 6
    else if cur_in_group cur (perm_cgid ipcp) || cur_in_group cur (perm_gid ipcp)
    then Z.shiftr (perm_mode ipcp) 3
    else perm_mode ipcp in
  if has (Z.land requested_mode (Z.lnot granted_mode)) 7 && negb (cur_ipc_owner cur)
  then -1 else 0.

Section get.
Context `{K : Kernel}.
Implicit Types (cur : task).

Definition xpmem_check_permit_mode cur (flags : Z) (seg : positive) : M Z :=
  s ← seg_load seg ;
  DBUG_ON (negb (permit_type s =? XPMEM_PERMIT_MODE)) ;;
  t ← tg_load (seg_tg s) ;
  let perm := mk_perm (tg_uid t) (tg_gid t) (tg_uid t) (tg_gid t) (permit_value s) in
  let ret := xpmem_ipcperms cur perm S_IRUSR in
  mret (if (ret =? 0) && has flags XPMEM_RDWR then xpmem_ipcperms cur perm S_IWUSR else ret).

Definition xpmem_make_apid (ap_tg : positive) : M Z :=
  tg_store ap_tg (fun t => set_uniq_apid (s32 (uniq_apid t + 1)) t) ;;
  t ← tg_load ap_tg ;
  let uniq := uniq_apid t in
  if uniq >? XPMEM_MAX_UNIQ_ID then
    tg_store ap_tg (fun t => set_uniq_apid (s32 (uniq_apid t - 1)) t) ;;
    mret (- EBUSY)
  else mret (id_to_s64 (mk_id (tg_tgid t) (u32 uniq))).

(** The arguments [xpmem_get] refuses before looking anything up. *)
Definition get_args_bad (segid flags permit_type permit_value : Z) : bool :=
  (segid <=? 0)
  || has flags (Z.lnot (Z.lor XPMEM_RDONLY XPMEM_RDWR))
  || (Z.land flags (Z.lor XPMEM_RDONLY XPMEM_RDWR) =? Z.lor XPMEM_RDONLY XPMEM_RDWR)
  || negb (permit_type =? XPMEM_PERMIT_MODE) || negb (permit_value =? 0).

Definition xpmem_get cur (segid flags permit_type permit_value : Z) : M (Z + Z) :=
  if get_args_bad segid flags permit_type permit_value then mret (inl (- EINVAL)) else
  r ← xpmem_tg_ref_by_segid segid ;
  match r with
  | inl e => mret (inl e)
  | inr seg_tg =>
      r ← xpmem_seg_ref_by_segid seg_tg segid ;
      match r with
      | inl e => xpmem_tg_deref seg_tg ;; mret (inl e)
      | inr seg =>
          let drop_seg := xpmem_seg_deref seg ;; xpmem_tg_deref seg_tg in
          ret ← xpmem_check_permit_mode cur flags seg ;
          if negb (ret =? 0) then drop_seg ;; mret (inl (- EACCES)) else
          r ← xpmem_tg_ref_by_tgid (cur_tgid cur) ;
          match r with
          | inl e =>
              DBUG_ON (negb (e =? - ENOENT)) ;;
              drop_seg ;; mret (inl (- XPMEM_ERRNO_NOPROC))
          | inr ap_tg =>
              apid ← xpmem_make_apid ap_tg ;
              if apid <? 0 then xpmem_tg_deref ap_tg ;; drop_seg ;; mret (inl apid) else
              p ← kzalloc ;
              match p with
              | None => xpmem_tg_deref ap_tg ;; drop_seg ;; mret (inl (- ENOMEM))
              | Some ap =>
                  init aps set_aps ap (mk_ap apid flags 0 0 seg ap_tg []) ;;
                  xpmem_ap_not_destroyable ap ;;
                  spin_lock (SegLock seg) ;;
                  seg_store seg (fun s => set_seg_ap_list (seg_ap_list s ++ [ap]) s) ;;
                  spin_unlock (SegLock seg) ;;
                  let index := xpmem_ap_hashtable_index apid in
                  write_lock (ApHashLock ap_tg index) ;;
                  tg_store ap_tg (fun t => set_ap_hashtable (bucket_add index ap (ap_hashtable t)) t) ;;
                  write_unlock (ApHashLock ap_tg index) ;;
                  xpmem_tg_deref ap_tg ;;
                  mret (inr apid)
              end
          end
      end
  end.

(** The loop of [xpmem_release_ap], under ap->lock: detach every attachment.  The assertion on the
    count of the mm_struct, which is the kernel's, is left out. *)
Fixpoint release_atts_loop (fuel : nat) cur (ap : positive) : M unit :=
  a ← ap_load ap ;
  match ap_att_list a with
  | [] => mret ()
  | att :: _ =>
      match fuel with
      | O => raise NoFuel
      | S fuel =>
          xpmem_att_ref att ;;
          spin_unlock (ApLock ap) ;;
          xpmem_detach_att cur ap att ;;
          xpmem_att_deref att ;;
          spin_lock (ApLock ap) ;;
          release_atts_loop fuel cur ap
      end
  end.

Definition xpmem_release_ap (fuel : nat) cur (ap_tg ap : positive) : M unit :=
  spin_lock (ApLock ap) ;;
  a ← ap_load ap ;
  if has (ap_flags a) XPMEM_FLAG_DESTROYING then
    spin_unlock (ApLock ap) ;; might_sleep
  else
  ap_store ap (fun a => set_ap_flags (Z.lor (ap_flags a) XPMEM_FLAG_DESTROYING) a) ;;
  release_atts_loop fuel cur ap ;;
  ap_store ap (fun a => set_ap_flags (Z.lor (ap_flags a) XPMEM_FLAG_DESTROYED) a) ;;
  spin_unlock (ApLock ap) ;;
  a ← ap_load ap ;
  let index := xpmem_ap_hashtable_index (apid a) in
  write_lock (ApHashLock ap_tg index) ;;
  tg_store ap_tg (fun t => set_ap_hashtable (bucket_del index ap (ap_hashtable t)) t) ;;
  write_unlock (ApHashLock ap_tg index) ;;
  let seg := ap_seg a in
  s ← seg_load seg ;
  let seg_tg := seg_tg s in
  spin_lock (SegLock seg) ;;
  seg_store seg (fun s => set_seg_ap_list (unlink ap (seg_ap_list s)) s) ;;
  spin_unlock (SegLock seg) ;;
  xpmem_seg_deref seg ;;
  xpmem_tg_deref seg_tg ;;
  xpmem_ap_destroyable ap.

(** The while loop on one bucket, under its lock; each permit may take up to
    [fuel] turns of its own loop. *)
Fixpoint release_bucket_loop (n fuel : nat) cur (ap_tg : positive) (index : nat) : M unit :=
  t ← tg_load ap_tg ;
  l ← nonnull (ap_hashtable t !! index) ;
  match l with
  | [] => mret ()
  | ap :: _ =>
      match n with
      | O => raise NoFuel
      | S n =>
          xpmem_ap_ref ap ;;
          read_unlock (ApHashLock ap_tg index) ;;
          xpmem_release_ap fuel cur ap_tg ap ;;
          xpmem_ap_deref ap ;;
          read_lock (ApHashLock ap_tg index) ;;
          release_bucket_loop n fuel cur ap_tg index
      end
  end.

Fixpoint release_buckets (n fuel : nat) cur (ap_tg : positive) (indices : list nat) : M unit :=
  match indices with
  | [] => mret ()
  | index :: indices =>
      read_lock (ApHashLock ap_tg index) ;;
      release_bucket_loop n fuel cur ap_tg index ;;
      read_unlock (ApHashLock ap_tg index) ;;
      release_buckets n fuel cur ap_tg indices
  end.

Definition xpmem_release_aps_of_tg (n fuel : nat) cur (ap_tg : positive) : M unit :=
  release_buckets n fuel cur ap_tg (seq 0 (Z.to_nat XPMEM_AP_HASHTABLE_SIZE)).

Definition xpmem_release (fuel : nat) cur (id : Z) : M Z :=
  if id <=? 0 then mret (- EINVAL) else
  r ← xpmem_tg_ref_by_apid id ;
  match r with
  | inl e => mret e
  | inr ap_tg =>
      t ← tg_load ap_tg ;
      if negb (cur_tgid cur =? tg_tgid t) then xpmem_tg_deref ap_tg ;; mret (- EACCES) else
      r ← xpmem_ap_ref_by_apid ap_tg id ;
      match r with
      | inl e => xpmem_tg_deref ap_tg ;; mret e
      | inr ap =>
          a ← ap_load ap ;
          DBUG_ON (negb (bool_decide (World.ap_tg a = ap_tg))) ;;
          xpmem_release_ap fuel cur ap_tg ap ;;
          xpmem_ap_deref ap ;;
          xpmem_tg_deref ap_tg ;;
          mret 0
      end
  end.
End get.
