(* ===== verification/Recall.v ===== *)
(** Recalling the pages of a thread group's segments, around a fork and on
    request through /proc/xpmem (xpmem_pfn.c, lines 379-619). *)

From stdpp Require Import strings pretty.
From S2P Require Import Prelude Kernel World Monad Ids Misc Pfn Attach.

Section recall.
Context `{K : Kernel}.
Implicit Types (cur : task).

Definition xpmem_recall_PFNs (seg : positive) : M unit :=
  s ← seg_load seg ;
  t ← tg_load (seg_tg s) ;
  DBUG_ON (seg_refcnt s <=? 0) ;;
  DBUG_ON (tg_refcnt t <=? 0) ;;
  spin_lock (SegLock seg) ;;
  s ← seg_load seg ;
  if has (seg_flags s) (Z.lor XPMEM_FLAG_DESTROYING XPMEM_FLAG_RECALLINGPFNS) then
    spin_unlock (SegLock seg) ;;
    xpmem_wait_for_seg_destroyed seg
  else
  seg_store seg (fun s => set_seg_flags (Z.lor (seg_flags s) XPMEM_FLAG_RECALLINGPFNS) s) ;;
  spin_unlock (SegLock seg) ;;
  xpmem_seg_down_write seg ;;
  xpmem_clear_PTEs seg ;;
  spin_lock (SegLock seg) ;;
  seg_store seg (fun s => set_seg_flags (clear (seg_flags s) XPMEM_FLAG_RECALLINGPFNS) s) ;;
  spin_unlock (SegLock seg) ;;
  xpmem_seg_up_write seg.

(** The list_for_each_entry over seg_list, under seg_list_lock. *)
Fixpoint recall_loop (fuel : nat) (seg_tg : positive) (cursor : option positive) : M unit :=
  t ← tg_load seg_tg ;
  match list_next cursor (seg_list t) with
  | None => mret ()
  | Some seg =>
      match fuel with
      | O => raise NoFuel
      | S fuel =>
          s ← seg_load seg ;
          if has (seg_flags s) XPMEM_FLAG_DESTROYING then recall_loop fuel seg_tg (Some seg) else
          xpmem_seg_ref seg ;;
          read_unlock (SegListLock seg_tg) ;;
          xpmem_recall_PFNs seg ;;
          read_lock (SegListLock seg_tg) ;;
          t ← tg_load seg_tg ;
          xpmem_seg_deref seg ;;
          recall_loop fuel seg_tg (if bool_decide (seg ∈ seg_list t) then Some seg else None)
      end
  end.

Definition xpmem_recall_PFNs_of_tg (seg_tg : positive) : M unit :=
  read_lock (SegListLock seg_tg) ;;
  t ← tg_load seg_tg ;
  recall_loop (length (seg_list t)) seg_tg None ;;
  read_unlock (SegListLock seg_tg).

Definition xpmem_fork_begin cur : M Z :=
  r ← xpmem_tg_ref_by_tgid (cur_tgid cur) ;
  match r with
  | inl e => mret e
  | inr tg =>
      xpmem_disallow_blocking_recall_PFNs RETRIES tg ;;
      mutex_lock (RecallMutex tg) ;;
      xpmem_recall_PFNs_of_tg tg ;;
      mutex_unlock (RecallMutex tg) ;;
      xpmem_tg_deref tg ;;
      mret 0
  end.

Definition xpmem_fork_end cur : M Z :=
  r ← xpmem_tg_ref_by_tgid (cur_tgid cur) ;
  match r with
  | inl e => mret e
  | inr tg =>
      xpmem_allow_blocking_recall_PFNs tg ;;
      xpmem_tg_deref tg ;;
      mret 0
  end.

(** The do-while over the threads of the group; [fuel] bounds their number. *)
Fixpoint threads_stopped (fuel : nat) (leader task : positive) : M bool :=
  if negb (task_exiting task) && negb (task_stopped task) then mret false else
  if bool_decide (next_thread task = leader) then mret true else
  match fuel with O => raise NoFuel | S fuel => threads_stopped fuel leader (next_thread task) end.

Definition xpmem_is_thread_group_stopped (fuel : nat) (tg : positive) : M bool :=
  t ← tg_load tg ;
  leader ← nonnull (group_leader t) ;
  threads_stopped fuel leader leader.

Definition xpmem_unpin_procfs_write (fuel : nat) (tgid count : Z) : M Z :=
  r ← xpmem_tg_ref_by_tgid tgid ;
  match r with
  | inl _ => mret (- ESRCH)
  | inr tg =>
      stopped ← xpmem_is_thread_group_stopped fuel tg ;
      if negb stopped then xpmem_tg_deref tg ;; mret (- EPERM) else
      xpmem_disallow_blocking_recall_PFNs RETRIES tg ;;
      mutex_lock (RecallMutex tg) ;;
      xpmem_recall_PFNs_of_tg tg ;;
      mutex_unlock (RecallMutex tg) ;;
      xpmem_allow_blocking_recall_PFNs tg ;;
      xpmem_tg_deref tg ;;
      mret count
  end.

(** What /proc/xpmem shows: the counters of the module for tgid 0, the pages
    pinned by one thread group otherwise; nothing for a thread group that is gone. *)
Definition seq_line (text : string) (n : Z) : string :=
  text +:+ pretty n +:+ String (Ascii.ascii_of_nat 10) EmptyString.

Definition xpmem_unpin_procfs_show (tgid : Z) : M string :=
  if tgid =? 0 then
    p ← part_load ;
    mret (seq_line "all pages pinned by XPMEM: " (part_n_pinned p)
          +:+ seq_line "all pages unpinned by XPMEM: " (part_n_unpinned p))
  else
    r ← xpmem_tg_ref_by_tgid tgid ;
    match r with
    | inl _ => mret EmptyString
    | inr tg =>
        t ← tg_load tg ;
        xpmem_tg_deref tg ;;
        mret (seq_line "pages pinned by XPMEM: " (tg_n_pinned t))
    end.
End recall.
