(* ===== verification/Notifier.v ===== *)
(** MMU notifier callbacks (xpmem_mmu_notifier.c) and the teardown they start
    (xpmem_main.c, xpmem_teardown). *)

From S2P Require Import Prelude Kernel World Monad Ids Misc Pfn Attach Make Get.

Section notifier.
Context `{K : Kernel}.
Implicit Types (cur : task).

(** * Invalidation *)

Fixpoint invalidate_loop (fuel : nat) (seg_tg : positive) (cursor : option positive)
    (start end_ : Z) : M unit :=
  t ← tg_load seg_tg ;
  match list_next cursor (seg_list t) with
  | None => mret ()
  | Some seg =>
      match fuel with
      | O => raise NoFuel
      | S fuel =>
          s ← seg_load seg ;
          if negb (has (seg_flags s) XPMEM_FLAG_DESTROYING)
             && (start <=? u64 (seg_vaddr s + seg_size s)) && (end_ >=? seg_vaddr s)
          then
            xpmem_seg_ref seg ;;
            read_unlock (SegListLock seg_tg) ;;
            xpmem_clear_PTEs_range seg start end_ true ;;
            read_lock (SegListLock seg_tg) ;;
            t ← tg_load seg_tg ;
            xpmem_seg_deref seg ;;
            invalidate_loop fuel seg_tg
              (if bool_decide (seg ∈ seg_list t) then Some seg else None) start end_
          else invalidate_loop fuel seg_tg (Some seg) start end_
      end
  end.

Definition xpmem_invalidate_PTEs_range (seg_tg : positive) (start end_ : Z) : M unit :=
  read_lock (SegListLock seg_tg) ;;
  t ← tg_load seg_tg ;
  invalidate_loop (length (seg_list t)) seg_tg None start end_ ;;
  read_unlock (SegListLock seg_tg).

(** The for loop over the vmas of the range. *)
Fixpoint invalidate_vmas (fuel : nat) (seg_tg : positive) (o : option positive)
    (start end_ : Z) : M unit :=
  match o with
  | None => mret ()
  | Some v =>
      vma ← vma_load v ;
      if negb (vm_start vma <? end_) then mret () else
      (if xpmem_is_vm_ops_set vma then mret () else
       let s := Z.max (vm_start vma) start in
       if s >=? vm_end vma then mret () else
       let e := Z.min (vm_end vma) end_ in
       if e <=? vm_start vma then mret () else
       xpmem_invalidate_PTEs_range seg_tg s e) ;;
      match fuel with
      | O => raise NoFuel
      | S fuel => w ← get ; invalidate_vmas fuel seg_tg (vm_next (vmas w) v) start end_
      end
  end.

Definition page_round_down (start : Z) : Z :=
  if offset_in_page start =? 0 then start else u64 (start - offset_in_page start).
Definition page_round_up (end_ : Z) : Z :=
  if offset_in_page end_ =? 0 then end_ else u64 (end_ + (PAGE_SIZE - offset_in_page end_)).

Definition xpmem_invalidate_range cur (seg_tg mm : positive) (start end_ : Z) : M unit :=
  t ← tg_load seg_tg ;
  if negb (tg_tgid t =? cur_tgid cur) then mret () else
  let start := page_round_down start in
  let end_ := page_round_up end_ in
  w ← get ;
  match find_vma_intersection (vmas w) mm start end_ with
  | None => xpmem_invalidate_PTEs_range seg_tg start end_
  | Some v => invalidate_vmas (base.size (vmas w)) seg_tg (Some v) start end_
  end.

Definition xpmem_invalidate_page cur (seg_tg mm : positive) (start : Z) : M unit :=
  let start := page_round_down start in
  xpmem_invalidate_range cur seg_tg mm start (u64 (start + PAGE_SIZE)).

(** * Release *)

Definition tg_set_flag (tg : positive) (m : Z) (unexpected : Z) : M unit :=
  spin_lock (TgLock tg) ;;
  t ← tg_load tg ;
  DBUG_ON (has (tg_flags t) unexpected) ;;
  tg_store tg (fun t => set_tg_flags (Z.lor (tg_flags t) m) t) ;;
  spin_unlock (TgLock tg).

Definition xpmem_teardown (fuel : nat) cur (tg : positive) : M unit :=
  tg_set_flag tg XPMEM_FLAG_DESTROYING XPMEM_FLAG_DESTROYING ;;
  xpmem_release_aps_of_tg fuel fuel cur tg ;;
  xpmem_remove_segs_of_tg fuel tg ;;
  tg_set_flag tg XPMEM_FLAG_DESTROYED XPMEM_FLAG_DESTROYED ;;
  xpmem_tg_deref tg.

(** The list_for_each_entry of [xpmem_mmu_release]: a thread group that owns
    [mm] and is not being destroyed, referenced. *)
Fixpoint mm_scan (l : list positive) (mm : positive) : M (option positive) :=
  match l with
  | [] => mret None
  | tg :: l =>
      t ← tg_load tg ;
      if bool_decide (tg_mm t = Some mm) then
        spin_lock (TgLock tg) ;;
        t ← tg_load tg ;
        spin_unlock (TgLock tg) ;;
        if has (tg_flags t) XPMEM_FLAG_DESTROYING then mm_scan l mm
        else xpmem_tg_ref tg ;; mret (Some tg)
      else mm_scan l mm
  end.

Fixpoint release_search (fuel : nat) cur (mm : positive) (indices : list nat) : M unit :=
  match indices with
  | [] => mret ()
  | i :: indices =>
      read_lock (TgHashLock i) ;;
      pt ← part_load ;
      l ← nonnull (tg_hashtable pt !! i) ;
      r ← mm_scan l mm ;
      read_unlock (TgHashLock i) ;;
      match r with
      | Some tg => xpmem_teardown fuel cur tg
      | None => release_search fuel cur mm indices
      end
  end.

Definition xpmem_mmu_release (fuel : nat) cur (mm : positive) : M unit :=
  let search := release_search fuel cur mm (seq 0 (Z.to_nat XPMEM_TG_HASHTABLE_SIZE)) in
  r ← xpmem_tg_ref_by_tgid (cur_tgid cur) ;
  match r with
  | inr tg =>
      t ← tg_load tg ;
      if bool_decide (tg_mm t = Some mm) then xpmem_teardown fuel cur tg
      else xpmem_tg_deref tg ;; search
  | inl _ => search
  end.

(** * Registration *)

Definition xpmem_mmu_notifier_init (tg : positive) : M Z :=
  t ← tg_load tg ;
  if mmu_initialized t then mret 0 else
  tg_store tg (set_mmu_unregister_called false) ;;
  might_sleep ;;
  let ret := mmu_notifier_register tg in
  if negb (ret =? 0) then mret ret else
  modify (fun w => set_notifiers ((tg, tg_mm t) :: notifiers w) w) ;;
  tg_store tg (set_mmu_initialized true) ;;
  mret 0.

(** mmu_notifier_unregister: "calls MMU release function if exit_mmap() has not
    executed yet", that is, when the notifier is still registered. *)
Definition mmu_notifier_unregister (fuel : nat) cur (tg : positive) (mm : option positive) : M unit :=
  might_sleep ;;
  w ← get ;
  if bool_decide ((tg, mm) ∈ notifiers w) then
    m ← nonnull mm ;
    xpmem_mmu_release fuel cur m ;;
    modify (fun w => set_notifiers (unlink (tg, mm) (notifiers w)) w)
  else mret ().

Definition xpmem_mmu_notifier_unlink (fuel : nat) cur (tg : positive) : M unit :=
  spin_lock (TgLock tg) ;;
  t ← tg_load tg ;
  if negb (mmu_initialized t) || mmu_unregister_called t then spin_unlock (TgLock tg) else
  tg_store tg (set_mmu_unregister_called true) ;;
  spin_unlock (TgLock tg) ;;
  mmu_notifier_unregister fuel cur tg (tg_mm t).
End notifier.
