(* ===== verification/Main.v ===== *)
(** The device: open, close and ioctl (xpmem_main.c). *)

From S2P Require Import Prelude Kernel World Monad Ids Misc Pfn Attach Make Get Recall Notifier.

Inductive xpmem_cmd :=
  | XPMEM_CMD_VERSION
  | XPMEM_CMD_MAKE (vaddr size permit_type permit_value : Z)
  | XPMEM_CMD_REMOVE (segid : Z)
  | XPMEM_CMD_GET (segid flags permit_type permit_value : Z)
  | XPMEM_CMD_RELEASE (apid : Z)
  | XPMEM_CMD_ATTACH (apid offset size vaddr : Z)
  | XPMEM_CMD_DETACH (vaddr : Z)
  | XPMEM_CMD_FORK_BEGIN
  | XPMEM_CMD_FORK_END
  | XPMEM_CMD_UNKNOWN (cmd : Z).

Section main.
Context `{K : Kernel}.
Implicit Types (cur : task).

Definition new_tg cur : xpmem_thread_group :=
  mk_tg (cur_tgid cur) (cur_uid cur) (cur_gid cur) 0 0 0 [] 0 0 TASK_SIZE None (cur_mm cur)
    0 0 false false (replicate (Z.to_nat XPMEM_AP_HASHTABLE_SIZE) []).

(** The process has no thread group: make one. *)
Definition open_new cur : M Z :=
  p ← kzalloc ;
  match p with
  | None => mret (- ENOMEM)
  | Some tg =>
      init tgs set_tgs tg (new_tg cur) ;;
      ret ← xpmem_mmu_notifier_init tg ;
      if negb (ret =? 0) then kfree tgs set_tgs tg ;; mret (- EFAULT) else
      spin_lock ProcfsLock ;;
      modify (fun w => if proc_create_ok (cur_tgid cur)
                       then set_procfs (cur_tgid cur :: procfs w) w else w) ;;
      spin_unlock ProcfsLock ;;
      xpmem_tg_not_destroyable tg ;;
      let index := xpmem_tg_hashtable_index (cur_tgid cur) in
      write_lock (TgHashLock index) ;;
      part_store (fun pt => set_tg_hashtable (bucket_add index tg (tg_hashtable pt)) pt) ;;
      write_unlock (TgHashLock index) ;;
      get_task_struct (cur_leader cur) ;;
      tg_store tg (set_group_leader (Some (cur_leader cur))) ;;
      BUG_ON (negb (bool_decide (cur_mm cur = cur_leader_mm cur))) ;;
      mret 0
  end.

Definition xpmem_open cur : M Z :=
  r ← xpmem_tg_ref_by_tgid (cur_tgid cur) ;
  match r with
  | inr tg => xpmem_tg_deref tg ;; mret 0
  | inl _ => open_new cur
  end.

Definition xpmem_destroy_tg (fuel : nat) cur (tg : positive) : M unit :=
  xpmem_mmu_notifier_unlink fuel cur tg ;;
  xpmem_tg_destroyable tg ;;
  xpmem_tg_deref tg.

Definition xpmem_flush (fuel : nat) cur (owner : option positive) : M Z :=
  if bool_decide (is_Some (cur_files cur)) && negb (bool_decide (cur_files cur = owner))
  then mret 0 else
  let index := xpmem_tg_hashtable_index (cur_tgid cur) in
  write_lock (TgHashLock index) ;;
  r ← xpmem_tg_ref_by_tgid_all_nolock (cur_tgid cur) ;
  match r with
  | inl _ => write_unlock (TgHashLock index) ;; mret 0
  | inr tg =>
      part_store (fun pt => set_tg_hashtable (bucket_del index tg (tg_hashtable pt)) pt) ;;
      write_unlock (TgHashLock index) ;;
      t ← tg_load tg ;
      spin_lock ProcfsLock ;;
      modify (fun w => set_procfs (unlink (tg_tgid t) (procfs w)) w) ;;
      spin_unlock ProcfsLock ;;
      xpmem_destroy_tg fuel cur tg ;;
      mret 0
  end.

(** The result and, when the call writes one, the value stored in the user's
    structure.  [copy_fails] and [put_fails] are the results of
    copy_from_user and put_user. *)
Definition xpmem_ioctl (fuel : nat) cur (copy_fails put_fails : bool) (cmd : xpmem_cmd)
    : M (Z * option Z) :=
  let copied (m : M (Z * option Z)) := if copy_fails then mret (- EFAULT, None) else m in
  let put (r : Z + Z) (undo : Z -> M unit) : M (Z * option Z) :=
    match r with
    | inl e => mret (e, None)
    | inr v => if put_fails then undo v ;; mret (- EFAULT, None) else mret (0, Some v)
    end in
  let plain (m : M Z) : M (Z * option Z) := ret ← m ; mret (ret, None) in
  match cmd with
  | XPMEM_CMD_VERSION => mret (XPMEM_CURRENT_VERSION, None)
  | XPMEM_CMD_MAKE vaddr size permit_type permit_value =>
      copied (r ← xpmem_make cur vaddr size permit_type permit_value ;
              put r (fun v => xpmem_remove cur v ;; mret ()))
  | XPMEM_CMD_REMOVE segid => copied (plain (xpmem_remove cur segid))
  | XPMEM_CMD_GET segid flags permit_type permit_value =>
      copied (r ← xpmem_get cur segid flags permit_type permit_value ;
              put r (fun v => xpmem_release fuel cur v ;; mret ()))
  | XPMEM_CMD_RELEASE apid => copied (plain (xpmem_release fuel cur apid))
  | XPMEM_CMD_ATTACH apid offset size vaddr =>
      copied (r ← xpmem_attach cur apid offset size vaddr ;
              put r (fun v => xpmem_detach cur v ;; mret ()))
  | XPMEM_CMD_DETACH vaddr => copied (plain (xpmem_detach cur vaddr))
  | XPMEM_CMD_FORK_BEGIN => plain (xpmem_fork_begin cur)
  | XPMEM_CMD_FORK_END => plain (xpmem_fork_end cur)
  | XPMEM_CMD_UNKNOWN _ => mret (- ENOIOCTLCMD, None)
  end.
End main.
