(* ===== verification/Module.v ===== *)
(** Loading and unloading the module, its operation tables and its proc files
    (xpmem_main.c, xpmem_misc.c, xpmem_pfn.c).

    The state of the module as a whole: the world the operations run on, the
    directory /proc/xpmem and its entries, the device, and the switch of the
    log messages. *)

From Stdlib Require Import Ascii.
From stdpp Require Import strings pretty.
From S2P Require Import Prelude Kernel World Monad Ids Misc Pfn Attach Fault Make Get Recall Notifier Main.

(** * Operation tables *)

(** struct file_operations: the methods of the device. *)
Record file_operations `{K : Kernel} := mk_fops {
  fop_open : task -> M Z;
  fop_flush : nat -> task -> option positive -> M Z;
  fop_unlocked_ioctl : nat -> task -> bool -> bool -> xpmem_cmd -> M (Z * option Z);
  fop_mmap : positive -> M unit;
}.

Definition xpmem_fops `{K : Kernel} : file_operations :=
  mk_fops K xpmem_open xpmem_flush xpmem_ioctl xpmem_mmap.

(** struct vm_operations_struct: the methods of an attachment's vma. *)
Record vm_operations_struct `{K : Kernel} := mk_vm_ops {
  vm_op_open : positive -> M unit;
  vm_op_close : task -> positive -> M unit;
  vm_op_fault : task -> positive -> Z -> M Z;
}.

Definition xpmem_vm_operations `{K : Kernel} : vm_operations_struct :=
  mk_vm_ops K xpmem_open_handler xpmem_close_handler xpmem_fault_handler.

(** struct mmu_notifier_ops: the callbacks of an address space, of kernels from 4.13 on. *)
Record mmu_notifier_ops `{K : Kernel} := mk_mmuops {
  mmu_invalidate_range_end : task -> positive -> positive -> Z -> Z -> M unit;
  mmu_release : nat -> task -> positive -> M unit;
}.

Definition xpmem_mmuops `{K : Kernel} : mmu_notifier_ops :=
  mk_mmuops K xpmem_invalidate_range xpmem_mmu_release.

(** * The module *)

(** The entries of /proc/xpmem that exist as long as the module is loaded; those of
    the thread groups are in [procfs]. *)
Inductive proc_entry := global_pages | debug_printk.

#[export] Instance proc_entry_eq : EqDecision proc_entry.
Proof. solve_decision. Defined.

(** What the kernel answers when the module is loaded. *)
Class Registration := {
  proc_mkdir_ok : bool;
  misc_register : Z;   (* 0 or an errno *)
  proc_create_entry_ok : proc_entry -> bool;
}.

Record kmod `{K : Kernel} := mk_kmod {
  mod_world : world;
  unpin_procfs_dir : bool;        (* /proc/xpmem *)
  proc_entries : list proc_entry;
  dev_handle : bool;              (* /dev/xpmem *)
  xpmem_debug_on : Z;
}.

Section module.
Context `{K : Kernel} {R : Registration}.

Definition set_mod_world v k := mk_kmod K v (unpin_procfs_dir k) (proc_entries k) (dev_handle k) (xpmem_debug_on k).
Definition set_unpin_procfs_dir v k := mk_kmod K (mod_world k) v (proc_entries k) (dev_handle k) (xpmem_debug_on k).
Definition set_proc_entries v k := mk_kmod K (mod_world k) (unpin_procfs_dir k) v (dev_handle k) (xpmem_debug_on k).
Definition set_dev_handle v k := mk_kmod K (mod_world k) (unpin_procfs_dir k) (proc_entries k) v (xpmem_debug_on k).
Definition set_xpmem_debug_on v k := mk_kmod K (mod_world k) (unpin_procfs_dir k) (proc_entries k) (dev_handle k) v.

(** Computations on the whole module; those on the world are among them. *)
Definition MK (A : Type) : Type := kmod -> outcome kmod A.

#[global] Instance MK_ret : MRet MK := fun A a k => Ok a k.
#[global] Instance MK_bind : MBind MK := fun A B f m k =>
  match m k with Ok a k' => f a k' | Fault e => Fault e end.

Definition liftK {A} (m : M A) : MK A := fun k =>
  match m (mod_world k) with Ok a w => Ok a (set_mod_world w k) | Fault e => Fault e end.
Definition changeK (f : kmod -> kmod) : MK unit := fun k => Ok () (f k).

(** ** Kernel services *)

Definition proc_mkdir : MK bool :=
  if proc_mkdir_ok then changeK (set_unpin_procfs_dir true) ;; mret true else mret false.
Definition proc_create (e : proc_entry) : MK bool :=
  if proc_create_entry_ok e
  then changeK (fun k => set_proc_entries (e :: proc_entries k) k) ;; mret true else mret false.
Definition remove_proc_entry (e : proc_entry) : MK unit :=
  changeK (fun k => set_proc_entries (unlink e (proc_entries k)) k).
Definition remove_proc_dir : MK unit := changeK (set_unpin_procfs_dir false).
Definition register_dev : MK Z :=
  if misc_register =? 0 then changeK (set_dev_handle true) ;; mret 0 else mret misc_register.
Definition misc_deregister : MK unit := changeK (set_dev_handle false).
Definition free_part : MK unit := liftK (modify (set_part None)).

(** ** Loading *)

(** The partition after the loop that makes the lists of its hash table empty. *)
Definition new_part : xpmem_partition := mk_part 0 0 (replicate (Z.to_nat XPMEM_TG_HASHTABLE_SIZE) []).

Definition xpmem_init : MK Z :=
  p ← liftK kzalloc ;
  match p with
  | None => mret (- ENOMEM)
  | Some _ =>
      liftK (modify (set_part (Some new_part))) ;;
      dir ← proc_mkdir ;
      if negb dir then free_part ;; mret (- EBUSY) else
      ret ← register_dev ;
      if negb (ret =? 0) then remove_proc_dir ;; free_part ;; mret ret else
      liftK (part_store (set_part_n_pinned 0)) ;;
      liftK (part_store (set_part_n_unpinned 0)) ;;
      ok ← proc_create global_pages ;
      if negb ok then misc_deregister ;; remove_proc_dir ;; free_part ;; mret (- EBUSY) else
      ok ← proc_create debug_printk ;
      if negb ok then
        remove_proc_entry global_pages ;; misc_deregister ;; remove_proc_dir ;; free_part ;;
        mret (- EBUSY)
      else mret 0
  end.

(** ** Unloading: the statements of xpmem_exit, between which readers of the
    proc files may run. *)

Definition xpmem_exit_steps : list (MK unit) :=
  [free_part; misc_deregister; remove_proc_entry global_pages; remove_proc_entry debug_printk; remove_proc_dir].

Fixpoint run_steps (l : list (MK unit)) : MK unit :=
  match l with [] => mret () | m :: l => m ;; run_steps l end.

Definition xpmem_exit : MK unit := run_steps xpmem_exit_steps.

(** ** The proc files *)

(** The byte read from user space, or [None] when that faults. *)
Definition xpmem_debug_printk_procfs_write (buf : option Ascii.ascii) (count : Z) : MK Z :=
  match buf with
  | None => mret (- EFAULT)
  | Some c =>
      (if bool_decide (c = "0"%char) then changeK (set_xpmem_debug_on 0)
       else if bool_decide (c = "1"%char) then changeK (set_xpmem_debug_on 1)
       else mret ()) ;;
      mret count
  end.

Definition xpmem_debug_printk_procfs_show : MK string := fun k =>
  Ok (seq_line EmptyString (xpmem_debug_on k)) k.

(** The operations of an entry: what its open method passes to single_open, and
    its write method. *)
Record proc_ops := mk_proc_ops {
  proc_show : MK string;
  proc_write : option Ascii.ascii -> Z -> MK Z;
}.

(** [fuel] bounds the number of threads of a thread group that is unpinned. *)
Definition xpmem_unpin_procfs_ops (fuel : nat) (tgid : Z) : proc_ops :=
  mk_proc_ops (liftK (xpmem_unpin_procfs_show tgid))
    (fun _ count => liftK (xpmem_unpin_procfs_write fuel tgid count)).

Definition xpmem_debug_printk_procfs_ops : proc_ops :=
  mk_proc_ops xpmem_debug_printk_procfs_show xpmem_debug_printk_procfs_write.

(** The table an entry was created with; [global_pages] has tgid 0. *)
Definition ops_of (fuel : nat) (e : proc_entry) : proc_ops :=
  match e with
  | global_pages => xpmem_unpin_procfs_ops fuel 0
  | debug_printk => xpmem_debug_printk_procfs_ops
  end.
End module.
