(* ===== verification/Lib.v ===== *)
(** The user library (libxpmem.c, xpmem_internal.h): wrappers of the ioctls of the
    device, for a process that calls them.

    The library keeps the descriptor of /dev/xpmem in [xpmem_fd].  The system calls
    it makes are modelled as far as they concern the module: open and ioctl run
    the methods of the device on the world of the module, and turn a negative
    result into -1 and errno.  Whether stat, open and fcntl succeed is up to the
    system ([Syscalls]). *)

From S2P Require Import Prelude Kernel World Monad Main Module.

Definition EBADF : Z := 9.
Definition ENOTTY : Z := 25.

Class Syscalls := {
  stat_dev : option bool;          (* stat(XPMEM_DEV_PATH): fails, or S_ISCHR of the mode *)
  open_dev : nat -> Z + Z;         (* the n-th open: errno, or the descriptor it would get *)
  fcntl_cloexec_ok : Z -> bool;    (* fcntl(fd, F_SETFD, FD_CLOEXEC) *)
}.

(** What the process has. *)
Record lib_state := mk_lib {
  xpmem_fd : Z;          (* static int xpmem_fd = -1; *)
  errno : Z;
  open_fds : list Z;     (* descriptors of /dev/xpmem *)
  cloexec_fds : list Z;
  opens : nat;
}.

Definition set_xpmem_fd v s := mk_lib v (errno s) (open_fds s) (cloexec_fds s) (opens s).
Definition set_errno v s := mk_lib (xpmem_fd s) v (open_fds s) (cloexec_fds s) (opens s).
Definition set_open_fds v s := mk_lib (xpmem_fd s) (errno s) v (cloexec_fds s) (opens s).
Definition set_cloexec_fds v s := mk_lib (xpmem_fd s) (errno s) (open_fds s) v (opens s).
Definition set_opens v s := mk_lib (xpmem_fd s) (errno s) (open_fds s) (cloexec_fds s) v.

Section lib.
Context `{K : Kernel} {Y : Syscalls}.
Context (fuel : nat) (cur : task).

(** Computations of the process. *)
Definition L (A : Type) : Type := lib_state * world -> outcome (lib_state * world) A.

#[global] Instance L_ret : MRet L := fun A a s => Ok a s.
#[global] Instance L_bind : MBind L := fun A B f m s =>
  match m s with Ok a s' => f a s' | Fault e => Fault e end.

Definition getL : L lib_state := fun s => Ok s.1 s.
Definition changeL (f : lib_state -> lib_state) : L unit := fun s => Ok () (f s.1, s.2).
Definition liftL {A} (m : M A) : L A := fun s =>
  match m s.2 with Ok a w => Ok a (s.1, w) | Fault e => Fault e end.

(** * System calls *)

(** open(XPMEM_DEV_PATH, O_RDWR) *)
Definition sys_open : L Z :=
  s ← getL ;
  changeL (set_opens (S (opens s))) ;;
  match open_dev (opens s) with
  | inl e => changeL (set_errno e) ;; mret (-1)
  | inr fd =>
      ret ← liftL (fop_open xpmem_fops cur) ;
      if ret <? 0 then changeL (set_errno (- ret)) ;; mret (-1) else
      changeL (fun s => set_open_fds (fd :: open_fds s) s) ;;
      mret fd
  end.

(** fcntl(fd, F_SETFD, FD_CLOEXEC) *)
Definition sys_fcntl_cloexec (fd : Z) : L Z :=
  if fcntl_cloexec_ok fd then changeL (fun s => set_cloexec_fds (fd :: cloexec_fds s) s) ;; mret 0
  else mret (-1).

(** ioctl(fd, cmd, &info): the result, and what was written to the structure.
    The structure is a local variable of the library, so that the copies succeed. *)
Definition sys_ioctl (fd : Z) (cmd : xpmem_cmd) : L (Z * option Z) :=
  s ← getL ;
  if negb (bool_decide (fd ∈ open_fds s)) then changeL (set_errno EBADF) ;; mret (-1, None) else
  r ← liftL (fop_unlocked_ioctl xpmem_fops fuel cur false false cmd) ;
  if r.1 <? 0 then
    changeL (set_errno (if r.1 =? - ENOIOCTLCMD then ENOTTY else - r.1)) ;; mret (-1, r.2)
  else mret r.

(** * The library *)

(** [stat(...) != 0 || !S_ISCHR(...) || (xpmem_fd = open(...)) == -1 || fcntl(...) == -1] *)
Definition lib_init : L Z :=
  match stat_dev with
  | None => mret (-1)
  | Some false => mret (-1)
  | Some true =>
      fd ← sys_open ;
      changeL (set_xpmem_fd fd) ;;
      if fd =? -1 then mret (-1) else
      r ← sys_fcntl_cloexec fd ;
      if r =? -1 then mret (-1) else mret 0
  end.

Definition lib_ioctl (cmd : xpmem_cmd) : L (Z * option Z) :=
  s ← getL ;
  failed ← (if xpmem_fd s =? -1 then r ← lib_init ; mret (negb (r =? 0)) else mret false) ;
  if failed : bool then mret (-1, None) else
  s ← getL ;
  ret ← sys_ioctl (xpmem_fd s) cmd ;
  s ← getL ;
  if (ret.1 =? -1) && (errno s =? XPMEM_ERRNO_NOPROC) then
    fd ← sys_open ;
    changeL (set_xpmem_fd fd) ;;
    if fd =? -1 then mret (-1, ret.2) else
    sys_ioctl fd cmd
  else mret ret.

(** [make_info.segid] is not initialised: [junk] is what it holds. *)
Definition lib_make (vaddr size permit_type permit_value junk : Z) : L Z :=
  let cmd := XPMEM_CMD_MAKE vaddr size permit_type permit_value in
  ret ← lib_ioctl cmd ;
  let segid := default junk ret.2 in
  ret ← lib_ioctl cmd ;
  let segid := default segid ret.2 in
  if (ret.1 =? -1) || (segid =? 0) then mret (-1) else mret segid.

Definition lib_remove (segid : Z) : L Z :=
  ret ← lib_ioctl (XPMEM_CMD_REMOVE segid) ;
  if ret.1 =? -1 then mret (-1) else mret 0.

(** The argument [permit_value] is not used. *)
Definition lib_get (segid flags permit_type permit_value junk : Z) : L Z :=
  ret ← lib_ioctl (XPMEM_CMD_GET segid flags permit_type 0) ;
  let apid := default junk ret.2 in
  if (ret.1 =? -1) || (apid =? 0) then mret (-1) else mret apid.

Definition lib_release (apid : Z) : L Z :=
  ret ← lib_ioctl (XPMEM_CMD_RELEASE apid) ;
  if ret.1 =? -1 then mret (-1) else mret 0.

(** [attach_info.vaddr] holds the argument until the call writes it; [fd] and
    [flags] are not used by the module. *)
Definition lib_attach (apid offset size vaddr : Z) : L Z :=
  ret ← lib_ioctl (XPMEM_CMD_ATTACH apid offset size vaddr) ;
  if ret.1 =? -1 then mret (-1) else mret (default vaddr ret.2).

Definition lib_detach (vaddr : Z) : L Z :=
  ret ← lib_ioctl (XPMEM_CMD_DETACH vaddr) ;
  if ret.1 =? -1 then mret (-1) else mret 0.

Definition lib_version : L Z :=
  ret ← lib_ioctl XPMEM_CMD_VERSION ; mret ret.1.
End lib.
