(* ===== verification/Simple.v ===== *)
(** A concrete kernel and start state, on which the theorems are instantiated:
    4 KiB pages, page tables as a finite map in which every upper level is
    present, [vm_mmap] above everything mapped, or replacing whole vmas. *)

From S2P Require Import Prelude Kernel World.

Definition vma_list (tb : vma_table) (mm : positive) : list (positive * vm_area_struct) :=
  filter (fun '(_, v) => vm_mm v = mm /\ vm_detached v = false) (map_to_list tb).

(** The order of the vmas: by their ends. *)
Definition vma_before (x y : positive * vm_area_struct) : Prop :=
  vm_end x.2 < vm_end y.2 \/ (vm_end x.2 = vm_end y.2 /\ (x.1 <= y.1)%positive).

#[export] Instance vma_before_dec x y : Decision (vma_before x y).
Proof. unfold vma_before. apply _. Defined.

(** The first vma among those that satisfy [P]. *)
Fixpoint lowest_pair (P : vm_area_struct -> bool) (l : list (positive * vm_area_struct)) :=
  match l with
  | [] => None
  | x :: l =>
      if P x.2 then
        match lowest_pair P l with
        | Some y => if bool_decide (vma_before x y) then Some x else Some y
        | None => Some x
        end
      else lowest_pair P l
  end.
Definition lowest P l : option positive := fst <$> lowest_pair P l.

Definition simple_find_vma (tb : vma_table) (mm : positive) (addr : Z) : option positive :=
  lowest (fun v => addr <? vm_end v) (vma_list tb mm).

Definition simple_find_vma_intersection (tb : vma_table) (mm : positive) (s e : Z) : option positive :=
  lowest (fun v => (s <? vm_end v) && (vm_start v <? e)) (vma_list tb mm).

Definition simple_vm_next (tb : vma_table) (p : positive) : option positive :=
  v ← tb !! p ; lowest (fun u => vm_end v <? vm_end u) (vma_list tb (vm_mm v)).

Definition simple_top (tb : vma_table) (mm : positive) : Z :=
  foldr (fun x acc => Z.max (vm_end x.2) acc) 0x10000 (vma_list tb mm).

(** What lies in the range; a mapping at a given address replaces it, and fails when it
    would have to split a vma. *)
Definition simple_hits (tb : vma_table) (mm : positive) (addr size : Z) : list (positive * vm_area_struct) :=
  filter (fun '(_, v) => addr < vm_end v /\ vm_start v < addr + size) (vma_list tb mm).

Definition simple_detach (l : list (positive * vm_area_struct)) (tb : vma_table) : vma_table :=
  foldr (fun x m => <[x.1 := set_vm_detached x.2]> m) tb l.

Definition simple_vm_mmap (tb : vma_table) (mm : positive) (vaddr size flags offset : Z) : Z + mmap_result :=
  let addr := if vaddr =? 0 then (simple_top tb mm + 4095) / 4096 * 4096 else vaddr in
  if 0x7ffffffff000 <? addr + size then inl (- ENOMEM) else
  let p := fresh (dom tb) in
  let hits := simple_hits tb mm addr size in
  if forallb (fun x => (addr <=? vm_start x.2) && (vm_end x.2 <=? addr + size)) hits then
    inr (mk_mmap addr p [] hits.*1 (<[p := mk_vma mm addr (addr + size) vm_ops_null None 0 true false]>
      (simple_detach hits tb)))
  else inl (- ENOMEM).

(** Unmapping may split one vma: what is cut off it is a new vma. *)
Definition simple_vm_munmap (tb : vma_table) (mm : positive) (start len : Z) : Z + munmap_result :=
  let hits := simple_hits tb mm start len in
  let inside := filter (fun x => start <= vm_start x.2 /\ vm_end x.2 <= start + len) hits in
  let n := fresh (dom tb) in
  let m := fresh ({[n]} ∪ dom tb) in
  let rest := simple_detach inside tb in
  match filter (fun x => ~ (start <= vm_start x.2 /\ vm_end x.2 <= start + len)) hits with
  | [] => inr (mk_munmap [] inside.*1 rest)
  | [(p, u)] =>
      if start <=? vm_start u then
        inr (mk_munmap [n] (inside.*1 ++ [n])
          (<[n := set_vm_detached (set_vm_range (vm_start u) (start + len) u)]>
            (<[p := set_vm_range (start + len) (vm_end u) u]> rest)))
      else if vm_end u <=? start + len then
        inr (mk_munmap [n] (inside.*1 ++ [n])
          (<[n := set_vm_detached (set_vm_range start (vm_end u) u)]>
            (<[p := set_vm_range (vm_start u) start u]> rest)))
      else
        inr (mk_munmap [n; m] (inside.*1 ++ [m])
          (<[m := set_vm_detached (set_vm_range start (start + len) u)]>
            (<[n := set_vm_range (start + len) (vm_end u) u]> (<[p := set_vm_range (vm_start u) start u]> rest))))
  | _ => inl (- ENOMEM)
  end.

Abbreviation simple_pt := (gmap (positive * Z) Z).

(** Page [addr >> 12] of [mm] is backed by frame [addr >> 12] plus 2^20 mm. *)
Definition simple_gup (pt : simple_pt) (mm : positive) (addr : Z) : Z * Z * simple_pt :=
  let pfn := Z.pos mm * 2 ^ 20 + addr / 4096 in
  (1, pfn, <[(mm, addr / 4096) := pfn]> pt).

(** There is memory for page tables below 0x700000000000 only. *)
Definition simple_remap (pt : simple_pt) (v : vm_area_struct) (addr pfn : Z) : Z * simple_pt :=
  if addr <? 0x700000000000 then (0, <[(vm_mm v, addr / 4096) := pfn]> pt) else (- ENOMEM, pt).

Definition simple_zap (pt : simple_pt) (mm : positive) (addr len : Z) : simple_pt :=
  filter (fun '((m, n), _) => ~ (m = mm /\ addr / 4096 <= n /\ n * 4096 < addr + len)) pt.

#[export] Instance SimpleKernel : Kernel := {|
  USE_DBUG_ON := true;
  big_endian := false;
  CONFIG_TRANSPARENT_HUGEPAGE := true;
  PAGE_SHIFT := 12;
  PMD_SHIFT := 21;
  PUD_SHIFT := 30;
  P4D_SHIFT := 39;
  PGDIR_SHIFT := 39;
  HPAGE_PMD_SIZE := 2 ^ 21;
  TASK_SIZE := 0x7ffffffff000;
  kzalloc_ok := fun _ => true;
  find_vma := simple_find_vma;
  find_vma_intersection := simple_find_vma_intersection;
  vm_next := simple_vm_next;
  vm_mmap := simple_vm_mmap;
  vm_munmap := simple_vm_munmap;
  pgtable := simple_pt;
  pgd_present := fun _ _ _ => true;
  p4d_present := fun _ _ _ => true;
  pud_present := fun _ _ _ => true;
  pud_is_huge := fun _ _ _ => false;
  pmd_present := fun _ _ _ => true;
  pmd_is_huge := fun _ _ _ => false;
  pte_at := fun pt mm addr => pt !! (mm, addr / 4096);
  pmd_as_pte := fun _ _ _ => None;
  pud_as_pte := fun _ _ _ => None;
  hugetlb_page_size := fun _ => None;
  get_user_pages_remote := simple_gup;
  remap_pfn_range := simple_remap;
  zap_vma_ptes := fun pt v addr len => simple_zap pt (vm_mm v) addr len;
  unmap_ptes := simple_zap;
  pfn_valid := fun _ => true;
  on_other_node := fun _ => false;
  cpumask_of_task := fun _ => 1;
  next_thread := fun p => p;
  task_exiting := fun _ => false;
  task_stopped := fun _ => true;
  mmu_notifier_register := fun _ => 0;
  proc_create_ok := fun _ => true;
|}.

#[export] Instance SimpleGeometry : KernelGeometry SimpleKernel.
Proof. split; cbn; lia. Qed.

#[export] Instance SimplePageTables : PageTables SimpleKernel.
Proof. by split. Qed.

(** A thread group's only task, with everything owned by user and group [uid]. *)
Definition simple_task (tgid : Z) (mm : positive) (uid : Z) : task :=
  mk_task tgid (Some mm) (Some mm) uid uid uid (fun g => g =? uid) false mm (Some mm) false false.

(** The module just loaded; each of two processes has four pages of its own. *)
Definition simple_world : world :=
  mk_world (Some (mk_part 0 0 (replicate 8 []))) ∅ ∅ ∅ ∅ 1
    (<[1%positive := mk_vma 1 0x400000 0x404000 vm_ops_other None 0 false false]>
      (<[2%positive := mk_vma 2 0x400000 0x404000 vm_ops_other None 0 false false]> ∅))
    ∅ ∅ [] ∅ 0 [] 1 [] [].
