(* ===== verification/Inv.v ===== *)
(** The object graph of the module and its invariant.

    Thread groups, segments, permits and attachments point at each other and
    count references.  [Inv T S A B w] says that in [w] every counter is exact:
    it is the number of links that own a reference (and fits an [int]), plus the references the
    running code holds, which the multisets [T] (thread groups), [S] (segments),
    [A] (permits) and [B] (attachments) list.  An object is in its heap exactly
    as long as that number is positive, so that the invariant excludes both
    dangling pointers and leaks.

    Who owns a reference:
    - a thread group is owned by the hash table it is in, and once by each
      permit linked to one of its segments;
    - a segment is owned by the list of its thread group, and once by each
      permit linked to it;
    - a permit is owned by the hash table of its thread group;
    - an attachment is owned by the list of its permit.

    The four parts of the invariant each look at one heap and at a view of the
    others, so that an update only concerns the parts whose view it changes. *)

From S2P Require Import Prelude Kernel World Monad Ids.

(** * Views *)

(** What the other parts see of a segment and of a permit. *)
Definition seg_key (s : xpmem_segment) : positive * Z * nat :=
  (seg_tg s, segid s, length (seg_ap_list s)).
Definition ap_key (a : xpmem_access_permit) : positive * Z := (ap_tg a, apid a).

(** The references the permits hold on a thread group. *)
Definition key_refs (p : positive) (k : positive * Z * nat) : nat :=
  if decide (k.1.1 = p) then k.2 else 0%nat.

Definition b2n (P : Prop) `{Decision P} : nat := if decide P then 1%nat else 0%nat.

Lemma b2n_true (P : Prop) `{Decision P} : P -> b2n P = 1%nat.
Proof. unfold b2n. by case_decide. Qed.
Lemma b2n_false (P : Prop) `{Decision P} : ~ P -> b2n P = 0%nat.
Proof. unfold b2n. by case_decide. Qed.
Lemma b2n_ext (P Q : Prop) `{Decision P, Decision Q} : (P <-> Q) -> b2n P = b2n Q.
Proof. intros. unfold b2n. repeat case_decide; tauto. Qed.

Section inv.
Context `{K : Kernel}.
Implicit Types (T S A B : gmultiset positive) (w : world).

(** ** Thread groups *)

Definition tg_refs (H : list (list positive)) (SK : gmap positive (positive * Z * nat)) T p : nat :=
  (b2n (p ∈ mjoin H) + map_sum (key_refs p) SK + multiplicity p T)%nat.

Record tg_ok H SK (AK : gmap positive (positive * Z)) T (p : positive) (t : xpmem_thread_group) : Prop := {
  tg_count : tg_refcnt t = Z.of_nat (tg_refs H SK T p);
  tg_counted : (0 < tg_refs H SK T p)%nat;
  tg_bound : Z.of_nat (tg_refs H SK T p) < 2 ^ 31;
  tg_leader : is_Some (group_leader t);
  tg_tgid_range : 0 < tg_tgid t < 2 ^ 31;
  tg_uniq_range : 0 <= uniq_segid t <= XPMEM_MAX_UNIQ_ID /\ 0 <= uniq_apid t <= XPMEM_MAX_UNIQ_ID;
  tg_segs_nodup : NoDup (seg_list t);
  tg_segs_key : forall s, s ∈ seg_list t -> exists u n,
    SK !! s = Some (p, id_to_s64 (mk_id (tg_tgid t) u), n) /\ 0 < u <= uniq_segid t;
  tg_segs_inj : forall s s' k k', s ∈ seg_list t -> s' ∈ seg_list t ->
    SK !! s = Some k -> SK !! s' = Some k' -> k.1.2 = k'.1.2 -> s = s';
  tg_aps_size : length (ap_hashtable t) = 8%nat;
  tg_aps_nodup : NoDup (mjoin (ap_hashtable t));
  tg_aps_key : forall i l a, ap_hashtable t !! i = Some l -> a ∈ l -> exists u,
    AK !! a = Some (p, id_to_s64 (mk_id (tg_tgid t) u)) /\ 0 < u <= uniq_apid t
    /\ xpmem_ap_hashtable_index (id_to_s64 (mk_id (tg_tgid t) u)) = i;
  tg_aps_inj : forall a a' k k', a ∈ mjoin (ap_hashtable t) -> a' ∈ mjoin (ap_hashtable t) ->
    AK !! a = Some k -> AK !! a' = Some k' -> k.2 = k'.2 -> a = a';
  tg_unhashed : p ∉ mjoin H -> has (tg_flags t) XPMEM_FLAG_DESTROYED = true;
  tg_destroyed : has (tg_flags t) XPMEM_FLAG_DESTROYED = true ->
    has (tg_flags t) XPMEM_FLAG_DESTROYING = true /\ seg_list t = [] /\ mjoin (ap_hashtable t) = [];
}.

Record TgInv H (TG : gmap positive xpmem_thread_group) SK AK T : Prop := {
  hash_size : length H = 8%nat;
  hash_nodup : NoDup (mjoin H);
  hash_entry : forall i l p, H !! i = Some l -> p ∈ l ->
    exists t, TG !! p = Some t /\ xpmem_tg_hashtable_index (tg_tgid t) = i;
  tg_all : forall p t, TG !! p = Some t -> tg_ok H SK AK T p t;
  tg_live : forall p, (0 < tg_refs H SK T p)%nat -> is_Some (TG !! p);
}.

(** ** Segments: [SL] gives the list of a thread group, [AS] the segment of a permit *)

Definition seg_refs (SL : positive -> list positive) S s (g : xpmem_segment) : nat :=
  (b2n (s ∈ SL (seg_tg g)) + length (seg_ap_list g) + multiplicity s S)%nat.

Record seg_ok SL (AS : gmap positive positive) S s (g : xpmem_segment) : Prop := {
  seg_count : seg_refcnt g = Z.of_nat (seg_refs SL S s g);
  seg_counted : (0 < seg_refs SL S s g)%nat;
  seg_bound : Z.of_nat (seg_refs SL S s g) < 2 ^ 31;
  seg_aps_nodup : NoDup (seg_ap_list g);
  seg_aps : forall a, a ∈ seg_ap_list g -> AS !! a = Some s;
  seg_unlisted : s ∉ SL (seg_tg g) -> has (seg_flags g) XPMEM_FLAG_DESTROYING = true;
  seg_permit : permit_type g = XPMEM_PERMIT_MODE;
}.

Record SegInv (SG : gmap positive xpmem_segment) SL AS S : Prop := {
  seg_all : forall s g, SG !! s = Some g -> seg_ok SL AS S s g;
  seg_live : forall s, s ∈ S -> is_Some (SG !! s);
}.

(** ** Permits: [AH] lists the permits of a thread group, [SA] those of a
    segment, [TA] gives the permit of an attachment *)

Definition ap_refs (AH : positive -> list positive) A a (x : xpmem_access_permit) : nat :=
  (b2n (a ∈ AH (ap_tg x)) + multiplicity a A)%nat.

Record ap_ok AH (SA : positive -> list positive) (TA : gmap positive positive) A a
    (x : xpmem_access_permit) : Prop := {
  ap_count : ap_refcnt x = Z.of_nat (ap_refs AH A a x);
  ap_counted : (0 < ap_refs AH A a x)%nat;
  ap_bound : Z.of_nat (ap_refs AH A a x) < 2 ^ 31;
  ap_linked : a ∈ AH (ap_tg x) -> a ∈ SA (ap_seg x);
  ap_unlisted : a ∉ AH (ap_tg x) ->
    has (ap_flags x) XPMEM_FLAG_DESTROYING = true /\ ap_att_list x = [];
  ap_atts_nodup : NoDup (ap_att_list x);
  ap_atts : forall t, t ∈ ap_att_list x -> TA !! t = Some a;
}.

Record ApInv (AP : gmap positive xpmem_access_permit) AH SA TA A : Prop := {
  ap_all : forall a x, AP !! a = Some x -> ap_ok AH SA TA A a x;
  ap_live : forall a, a ∈ A -> is_Some (AP !! a);
}.

(** ** Attachments: [AL] lists those of a permit *)

Definition att_refs (AL : positive -> list positive) B t (x : xpmem_attachment) : nat :=
  (b2n (t ∈ AL (att_ap x)) + multiplicity t B)%nat.

Record att_ok AL B t (x : xpmem_attachment) : Prop := {
  att_count : att_refcnt x = Z.of_nat (att_refs AL B t x);
  att_counted : (0 < att_refs AL B t x)%nat;
  att_bound : Z.of_nat (att_refs AL B t x) < 2 ^ 31;
  att_unlisted : t ∉ AL (att_ap x) -> has (att_flags x) XPMEM_FLAG_DESTROYING = true;
}.

Record AttInv (AT : gmap positive xpmem_attachment) AL B : Prop := {
  att_all : forall t x, AT !! t = Some x -> att_ok AL B t x;
  att_live : forall t, t ∈ B -> is_Some (AT !! t);
}.

(** ** The whole graph *)

Definition hash_of w : list (list positive) := match part w with Some p => tg_hashtable p | None => [] end.
Definition list_of {V} (f : V -> list positive) (m : gmap positive V) (p : positive) : list positive :=
  match m !! p with Some v => f v | None => [] end.

Definition fresh_ok w : Prop := forall p, (next_ptr w <= p)%positive ->
  tgs w !! p = None /\ segs w !! p = None /\ aps w !! p = None /\ atts w !! p = None.

Record Inv T S A B w : Prop := {
  inv_part : is_Some (part w);
  inv_tg : TgInv (hash_of w) (tgs w) (seg_key <$> segs w) (ap_key <$> aps w) T;
  inv_seg : SegInv (segs w) (list_of seg_list (tgs w)) (ap_seg <$> aps w) S;
  inv_ap : ApInv (aps w) (list_of (fun t => mjoin (ap_hashtable t)) (tgs w))
             (list_of seg_ap_list (segs w)) (att_ap <$> atts w) A;
  inv_att : AttInv (atts w) (list_of ap_att_list (aps w)) B;
  inv_fresh : fresh_ok w;
}.

(** * Congruence and local updates, part by part *)

Lemma tg_ok_congr H H' SK SK' AK AK' T T' p t :
  tg_ok H SK AK T p t ->
  tg_refs H' SK' T' p = tg_refs H SK T p ->
  (p ∈ mjoin H -> p ∈ mjoin H') ->
  (forall s, s ∈ seg_list t -> fst <$> SK' !! s = fst <$> SK !! s) ->
  (forall a, a ∈ mjoin (ap_hashtable t) -> AK' !! a = AK !! a) ->
  tg_ok H' SK' AK' T' p t.
Proof.
  intros [] Er Hh Hs Ha. split; rewrite ?Er; try done.
  - intros s Hin. destruct (tg_segs_key0 s Hin) as (u & n & E & ?). specialize (Hs s Hin).
    rewrite E in Hs. destruct (SK' !! s) as [[k n']|] eqn:E'; [|done].
    cbn in Hs. simplify_eq. eauto.
  - intros s s' k k' Hin Hin' E E' Ek. pose proof (Hs s Hin) as H1. pose proof (Hs s' Hin') as H2.
    rewrite E in H1. rewrite E' in H2. cbn in H1, H2.
    destruct (SK !! s) as [j|] eqn:F; [|done]. destruct (SK !! s') as [j'|] eqn:F'; [|done].
    eapply tg_segs_inj0; eauto. cbn in H1, H2. congruence.
  - intros i l a E Hin. rewrite Ha by (apply list_elem_of_join; eauto using list_elem_of_lookup_2). eauto.
  - intros a a' k k' Hin Hin'. rewrite !Ha by done. eauto.
  - auto.
Qed.

Lemma TgInv_update H TG SK AK T T' p t t' :
  TgInv H TG SK AK T -> TG !! p = Some t ->
  (forall q, q <> p -> tg_refs H SK T' q = tg_refs H SK T q) ->
  tg_tgid t' = tg_tgid t -> tg_ok H SK AK T' p t' ->
  TgInv H (<[p := t']> TG) SK AK T'.
Proof.
  intros [] E Hq Et Hok. split; try done.
  - intros i l q El Hin. destruct (hash_entry0 i l q El Hin) as (tq & Eq & Ei).
    destruct (decide (q = p)) as [->|]; simplify_map_eq; [exists t'|exists tq]; by rewrite ?Et.
  - intros q tq. rewrite lookup_insert. case_decide; [by intros; simplify_eq|].
    intros Eq. eapply tg_ok_congr; eauto.
  - intros q Hr. destruct (decide (q = p)) as [->|]; simplify_map_eq; [done|].
    apply tg_live0. by rewrite <- Hq.
Qed.

Lemma TgInv_delete H TG SK AK T T' p :
  TgInv H TG SK AK T -> tg_refs H SK T' p = 0%nat ->
  (forall q, q <> p -> tg_refs H SK T' q = tg_refs H SK T q) ->
  TgInv H (delete p TG) SK AK T'.
Proof.
  intros [] E Hq. split; try done.
  - intros i l q El Hin. destruct (hash_entry0 i l q El Hin) as (tq & Eq & Ei).
    exists tq. rewrite lookup_delete_ne; [done|]. intros <-.
    unfold tg_refs in E. rewrite b2n_true in E; [lia|].
    apply list_elem_of_join; eauto using list_elem_of_lookup_2.
  - intros q tq [? Eq]%lookup_delete_Some. eapply tg_ok_congr; eauto.
  - intros q Hr. destruct (decide (q = p)) as [->|]; [lia|].
    rewrite lookup_delete_ne by done. apply tg_live0. by rewrite <- Hq.
Qed.

Lemma TgInv_congr H TG SK SK' AK AK' T T' :
  TgInv H TG SK AK T ->
  (forall q, tg_refs H SK' T' q = tg_refs H SK T q) ->
  (forall p t s, TG !! p = Some t -> s ∈ seg_list t -> fst <$> SK' !! s = fst <$> SK !! s) ->
  (forall p t a, TG !! p = Some t -> a ∈ mjoin (ap_hashtable t) -> AK' !! a = AK !! a) ->
  TgInv H TG SK' AK' T'.
Proof.
  intros [] Hr Hs Ha. split; try done.
  - intros p t E. eapply tg_ok_congr; eauto.
  - intros p Hp. apply tg_live0. by rewrite <- Hr.
Qed.

Lemma SegInv_congr SG SL SL' AS AS' S :
  SegInv SG SL AS S ->
  (forall s g, SG !! s = Some g -> s ∈ SL' (seg_tg g) <-> s ∈ SL (seg_tg g)) ->
  (forall s g a, SG !! s = Some g -> a ∈ seg_ap_list g -> AS' !! a = AS !! a) ->
  SegInv SG SL' AS' S.
Proof.
  intros [] Hl Ha. split; [|done]. intros s g E. destruct (seg_all0 s g E).
  assert (seg_refs SL' S s g = seg_refs SL S s g) as Er
    by (unfold seg_refs; by rewrite (b2n_ext _ _ (Hl s g E))).
  split; rewrite ?Er; try done.
  - intros a Hin. rewrite (Ha s g a) by done. auto.
  - rewrite (Hl s g E). done.
Qed.

Lemma SegInv_update SG SL AS S S' s g g' :
  SegInv SG SL AS S -> SG !! s = Some g ->
  (forall q, q <> s -> multiplicity q S' = multiplicity q S) ->
  seg_ok SL AS S' s g' -> SegInv (<[s := g']> SG) SL AS S'.
Proof.
  intros [] E Hq Hok. split.
  - intros q gq. rewrite lookup_insert. case_decide; [by intros; simplify_eq|].
    intros Eq. destruct (seg_all0 q gq Eq). split; try done; unfold seg_refs in *; rewrite Hq by done; auto.
  - intros q Hin. destruct (decide (q = s)) as [->|]; simplify_map_eq; [done|].
    apply seg_live0, elem_of_multiplicity. rewrite <- Hq by done. by apply elem_of_multiplicity.
Qed.

Lemma SegInv_delete SG SL AS S S' s :
  SegInv SG SL AS S -> multiplicity s S' = 0%nat ->
  (forall q, q <> s -> multiplicity q S' = multiplicity q S) ->
  SegInv (delete s SG) SL AS S'.
Proof.
  intros [] E Hq. split.
  - intros q gq [? Eq]%lookup_delete_Some. destruct (seg_all0 q gq Eq).
    split; try done; unfold seg_refs in *; rewrite Hq by done; auto.
  - intros q Hin. rewrite elem_of_multiplicity in Hin. destruct (decide (q = s)) as [->|]; [lia|].
    rewrite lookup_delete_ne by done. apply seg_live0, elem_of_multiplicity. by rewrite <- Hq.
Qed.

Lemma ApInv_congr AP AH AH' SA SA' TA TA' A :
  ApInv AP AH SA TA A ->
  (forall a x, AP !! a = Some x -> a ∈ AH' (ap_tg x) <-> a ∈ AH (ap_tg x)) ->
  (forall a x, AP !! a = Some x -> a ∈ AH (ap_tg x) -> a ∈ SA (ap_seg x) -> a ∈ SA' (ap_seg x)) ->
  (forall a x t, AP !! a = Some x -> t ∈ ap_att_list x -> TA' !! t = TA !! t) ->
  ApInv AP AH' SA' TA' A.
Proof.
  intros [] Hl Hs Ha. split; [|done]. intros a x E. destruct (ap_all0 a x E).
  assert (ap_refs AH' A a x = ap_refs AH A a x) as Er
    by (unfold ap_refs; by rewrite (b2n_ext _ _ (Hl a x E))).
  split; rewrite ?Er; try done.
  - rewrite (Hl a x E). eauto.
  - by rewrite (Hl a x E).
  - intros t Hin. rewrite (Ha a x t) by done. auto.
Qed.

Lemma ApInv_update AP AH SA TA A A' a x x' :
  ApInv AP AH SA TA A -> AP !! a = Some x ->
  (forall q, q <> a -> multiplicity q A' = multiplicity q A) ->
  ap_ok AH SA TA A' a x' -> ApInv (<[a := x']> AP) AH SA TA A'.
Proof.
  intros [] E Hq Hok. split.
  - intros q xq. rewrite lookup_insert. case_decide; [by intros; simplify_eq|].
    intros Eq. destruct (ap_all0 q xq Eq). split; try done; unfold ap_refs in *; rewrite Hq by done; auto.
  - intros q Hin. destruct (decide (q = a)) as [->|]; simplify_map_eq; [done|].
    apply ap_live0, elem_of_multiplicity. rewrite <- Hq by done. by apply elem_of_multiplicity.
Qed.

Lemma ApInv_delete AP AH SA TA A A' a :
  ApInv AP AH SA TA A -> multiplicity a A' = 0%nat ->
  (forall q, q <> a -> multiplicity q A' = multiplicity q A) ->
  ApInv (delete a AP) AH SA TA A'.
Proof.
  intros [] E Hq. split.
  - intros q xq [? Eq]%lookup_delete_Some. destruct (ap_all0 q xq Eq).
    split; try done; unfold ap_refs in *; rewrite Hq by done; auto.
  - intros q Hin. rewrite elem_of_multiplicity in Hin. destruct (decide (q = a)) as [->|]; [lia|].
    rewrite lookup_delete_ne by done. apply ap_live0, elem_of_multiplicity. by rewrite <- Hq.
Qed.

Lemma AttInv_congr AT AL AL' B :
  AttInv AT AL B ->
  (forall t x, AT !! t = Some x -> t ∈ AL' (att_ap x) <-> t ∈ AL (att_ap x)) ->
  AttInv AT AL' B.
Proof.
  intros [] Hl. split; [|done]. intros t x E. destruct (att_all0 t x E).
  assert (att_refs AL' B t x = att_refs AL B t x) as Er
    by (unfold att_refs; by rewrite (b2n_ext _ _ (Hl t x E))).
  split; rewrite ?Er; try done. by rewrite (Hl t x E).
Qed.

Lemma AttInv_update AT AL B B' t x x' :
  AttInv AT AL B -> AT !! t = Some x ->
  (forall q, q <> t -> multiplicity q B' = multiplicity q B) ->
  att_ok AL B' t x' -> AttInv (<[t := x']> AT) AL B'.
Proof.
  intros [] E Hq Hok. split.
  - intros q xq. rewrite lookup_insert. case_decide; [by intros; simplify_eq|].
    intros Eq. destruct (att_all0 q xq Eq). split; try done; unfold att_refs in *; rewrite Hq by done; auto.
  - intros q Hin. destruct (decide (q = t)) as [->|]; simplify_map_eq; [done|].
    apply att_live0, elem_of_multiplicity. rewrite <- Hq by done. by apply elem_of_multiplicity.
Qed.

Lemma AttInv_delete AT AL B B' t :
  AttInv AT AL B -> multiplicity t B' = 0%nat ->
  (forall q, q <> t -> multiplicity q B' = multiplicity q B) ->
  AttInv (delete t AT) AL B'.
Proof.
  intros [] E Hq. split.
  - intros q xq [? Eq]%lookup_delete_Some. destruct (att_all0 q xq Eq).
    split; try done; unfold att_refs in *; rewrite Hq by done; auto.
  - intros q Hin. rewrite elem_of_multiplicity in Hin. destruct (decide (q = t)) as [->|]; [lia|].
    rewrite lookup_delete_ne by done. apply att_live0, elem_of_multiplicity. by rewrite <- Hq.
Qed.
End inv.

Arguments tg_count {K H SK AK T p t} _.
Arguments tg_counted {K H SK AK T p t} _.
Arguments tg_bound {K H SK AK T p t} _.
Arguments tg_leader {K H SK AK T p t} _.
Arguments tg_tgid_range {K H SK AK T p t} _.
Arguments tg_uniq_range {K H SK AK T p t} _.
Arguments tg_segs_nodup {K H SK AK T p t} _.
Arguments tg_segs_key {K H SK AK T p t} _ _ _.
Arguments tg_segs_inj {K H SK AK T p t} _ _ _ _ _ _ _ _ _ _.
Arguments tg_aps_size {K H SK AK T p t} _.
Arguments tg_aps_nodup {K H SK AK T p t} _.
Arguments tg_aps_key {K H SK AK T p t} _ _ _ _ _ _.
Arguments tg_aps_inj {K H SK AK T p t} _ _ _ _ _ _ _ _ _ _.
Arguments tg_unhashed {K H SK AK T p t} _ _.
Arguments tg_destroyed {K H SK AK T p t} _ _.
Arguments hash_size {K H TG SK AK T} _.
Arguments hash_nodup {K H TG SK AK T} _.
Arguments hash_entry {K H TG SK AK T} _ _ _ _ _ _.
Arguments tg_all {K H TG SK AK T} _ _ _ _.
Arguments tg_live {K H TG SK AK T} _ _ _.
Arguments seg_count {SL AS S s g} _.
Arguments seg_counted {SL AS S s g} _.
Arguments seg_bound {SL AS S s g} _.
Arguments seg_aps_nodup {SL AS S s g} _.
Arguments seg_aps {SL AS S s g} _ _ _.
Arguments seg_unlisted {SL AS S s g} _ _.
Arguments seg_permit {SL AS S s g} _.
Arguments seg_all {SG SL AS S} _ _ _ _.
Arguments seg_live {SG SL AS S} _ _ _.
Arguments ap_count {AH SA TA A a x} _.
Arguments ap_counted {AH SA TA A a x} _.
Arguments ap_bound {AH SA TA A a x} _.
Arguments ap_linked {AH SA TA A a x} _ _.
Arguments ap_unlisted {AH SA TA A a x} _ _.
Arguments ap_atts_nodup {AH SA TA A a x} _.
Arguments ap_atts {AH SA TA A a x} _ _ _.
Arguments ap_all {AP AH SA TA A} _ _ _ _.
Arguments ap_live {AP AH SA TA A} _ _ _.
Arguments att_count {AL B t x} _.
Arguments att_counted {AL B t x} _.
Arguments att_bound {AL B t x} _.
Arguments att_unlisted {AL B t x} _ _.
Arguments att_all {AT AL B} _ _ _ _.
Arguments att_live {AT AL B} _ _ _.
Arguments inv_part {K T S A B w} _.
Arguments inv_tg {K T S A B w} _.
Arguments inv_seg {K T S A B w} _.
Arguments inv_ap {K T S A B w} _.
Arguments inv_att {K T S A B w} _.
Arguments inv_fresh {K T S A B w} _.
