(* ===== verification/Graph.v ===== *)
(** Operations on the object graph and what they do to its invariant: taking
    and dropping references, updating fields, linking and unlinking. *)

From S2P Require Import Prelude Kernel World Monad Ids Misc Inv.

(** * Views under updates *)

Section views.
Context {V : Type}.
Implicit Types (m : gmap positive V).

Lemma fmap_insert_same {U} (f : V -> U) m k v v' :
  m !! k = Some v -> f v' = f v -> f <$> <[k := v']> m = f <$> m.
Proof.
  intros E Ef. rewrite fmap_insert, Ef. apply insert_id. by rewrite lookup_fmap, E.
Qed.

Lemma list_of_insert (f : V -> list positive) m k v p :
  list_of f (<[k := v]> m) p = if decide (k = p) then f v else list_of f m p.
Proof. unfold list_of. rewrite lookup_insert. by case_decide. Qed.

Lemma list_of_insert_same (f : V -> list positive) m k v v' p :
  m !! k = Some v -> f v' = f v -> list_of f (<[k := v']> m) p = list_of f m p.
Proof. intros E Ef. rewrite list_of_insert. case_decide; subst; [|done]. unfold list_of. by rewrite E. Qed.

Lemma list_of_delete_nil (f : V -> list positive) m k v p :
  m !! k = Some v -> f v = [] -> list_of f (delete k m) p = list_of f m p.
Proof.
  intros E Ef. unfold list_of. rewrite lookup_delete. case_decide; subst; [|done]. by rewrite E.
Qed.

Lemma list_of_Some (f : V -> list positive) m p v : m !! p = Some v -> list_of f m p = f v.
Proof. unfold list_of. by intros ->. Qed.

Lemma elem_of_list_of (f : V -> list positive) m p x :
  x ∈ list_of f m p -> exists v, m !! p = Some v /\ x ∈ f v.
Proof. unfold list_of. destruct (m !! p); [eauto | by intros ?%elem_of_nil]. Qed.
End views.

Section graph.
Context `{K : Kernel}.
Implicit Types (T S A B : gmultiset positive) (w : world).

(** The invariant does not see locks, pages, vmas and the like. *)
Lemma Inv_same T S A B w w' :
  Inv T S A B w ->
  part w' = part w -> tgs w' = tgs w -> segs w' = segs w -> aps w' = aps w ->
  atts w' = atts w -> next_ptr w' = next_ptr w -> Inv T S A B w'.
Proof.
  intros HI E1 E2 E3 E4 E5 E6.
  split; unfold hash_of, fresh_ok; rewrite ?E1, ?E2, ?E3, ?E4, ?E5, ?E6; apply HI.
Qed.

Definition tgrefs T w p : nat := tg_refs (hash_of w) (seg_key <$> segs w) T p.

(** * Thread groups *)

(** An update that keeps the links, the identity and the state of a thread
    group, or marks one that has nothing left as destroyed. *)
Record tg_same (t t' : xpmem_thread_group) : Prop := {
  same_tgid : tg_tgid t' = tg_tgid t;
  same_leader : group_leader t' = group_leader t;
  same_seg_list : seg_list t' = seg_list t;
  same_ap_hashtable : ap_hashtable t' = ap_hashtable t;
  same_uniq_segid : uniq_segid t <= uniq_segid t' <= XPMEM_MAX_UNIQ_ID;
  same_uniq_apid : uniq_apid t <= uniq_apid t' <= XPMEM_MAX_UNIQ_ID;
  same_destroying : has (tg_flags t) XPMEM_FLAG_DESTROYING = true ->
                    has (tg_flags t') XPMEM_FLAG_DESTROYING = true;
  same_destroyed : has (tg_flags t') XPMEM_FLAG_DESTROYED = has (tg_flags t) XPMEM_FLAG_DESTROYED \/
    has (tg_flags t') XPMEM_FLAG_DESTROYED = true /\ has (tg_flags t') XPMEM_FLAG_DESTROYING = true /\
    seg_list t = [] /\ mjoin (ap_hashtable t) = [];
}.

Lemma tg_ok_same H SK AK T T' p t t' :
  tg_ok H SK AK T p t -> tg_same t t' ->
  tg_refcnt t' = Z.of_nat (tg_refs H SK T' p) ->
  (0 < tg_refs H SK T' p)%nat -> Z.of_nat (tg_refs H SK T' p) < 2 ^ 31 ->
  tg_ok H SK AK T' p t'.
Proof.
  intros Ho [E1 E2 E3 E4 ? ? ? E5] Er Hp Hb.
  split; rewrite ?E1, ?E2, ?E3, ?E4; try done; try apply Ho.
  - pose proof (tg_uniq_range Ho). lia.
  - intros s Hin. destruct (tg_segs_key Ho s Hin) as (u & n & ? & ?). exists u, n. split; [done|lia].
  - intros i l a E Hin. destruct (tg_aps_key Ho i l a E Hin) as (u & ? & ? & ?).
    exists u. split; [done|]. split; [lia|done].
  - destruct E5 as [->|(-> & _)]; [apply Ho|done].
  - destruct E5 as [->|(_ & H1 & H2 & H3)]; [|done]. intros Hd. destruct (tg_destroyed Ho Hd) as (? & ? & ?). auto.
Qed.

(** The two parts of the invariant that see the lists of a thread group. *)
Lemma views_tg_update w p t t' S A :
  tgs w !! p = Some t -> seg_list t' = seg_list t -> ap_hashtable t' = ap_hashtable t ->
  SegInv (segs w) (list_of seg_list (tgs w)) (ap_seg <$> aps w) S ->
  ApInv (aps w) (list_of (fun t => mjoin (ap_hashtable t)) (tgs w))
    (list_of seg_ap_list (segs w)) (att_ap <$> atts w) A ->
  SegInv (segs w) (list_of seg_list (<[p := t']> (tgs w))) (ap_seg <$> aps w) S /\
  ApInv (aps w) (list_of (fun t => mjoin (ap_hashtable t)) (<[p := t']> (tgs w)))
    (list_of seg_ap_list (segs w)) (att_ap <$> atts w) A.
Proof.
  intros E E1 E2 H1 H2. split.
  - eapply SegInv_congr; [done| |done]. intros. by erewrite list_of_insert_same.
  - eapply ApInv_congr; [done| |done|done]. intros. erewrite list_of_insert_same; [done|done|].
    cbn. by rewrite E2.
Qed.

Lemma fresh_tg_update w p t t' :
  fresh_ok w -> tgs w !! p = Some t -> fresh_ok (set_tgs (<[p := t']> (tgs w)) w).
Proof.
  intros H E q Hq. destruct (H q Hq) as (? & ? & ? & ?). cbn. repeat split; try done.
  rewrite lookup_insert_ne; [done|]. by intros ->; simplify_eq.
Qed.

Lemma Inv_tg_update T T' S A B w p t t' :
  Inv T S A B w -> tgs w !! p = Some t -> tg_same t t' ->
  (forall q, q <> p -> multiplicity q T' = multiplicity q T) ->
  tg_refcnt t' = Z.of_nat (tgrefs T' w p) ->
  (0 < tgrefs T' w p)%nat -> Z.of_nat (tgrefs T' w p) < 2 ^ 31 ->
  Inv T' S A B (set_tgs (<[p := t']> (tgs w)) w).
Proof.
  intros HI E Hs Hq Er Hp Hb.
  destruct (views_tg_update w p t t' S A) as [? ?]; try apply Hs; try apply HI; try done.
  split; cbn; try done; try apply HI.
  - apply (TgInv_update _ _ _ _ T T' p t t'); try apply HI; try apply Hs; try done.
    + intros q ?. unfold tg_refs. by rewrite Hq.
    + eapply tg_ok_same; try done. by apply (tg_all (inv_tg HI)).
  - eapply fresh_tg_update; [apply HI|done].
Qed.

Lemma Inv_tg_live T S A B w p : Inv T S A B w -> (0 < tgrefs T w p)%nat -> is_Some (tgs w !! p).
Proof. intros HI ?. by apply (tg_live (inv_tg HI)). Qed.

Lemma tgrefs_add T w p q :
  tgrefs (T ⊎ {[+ p +]}) w q = (tgrefs T w q + if decide (p = q) then 1 else 0)%nat.
Proof.
  unfold tgrefs, tg_refs. rewrite mult_add. lia.
Qed.

Lemma tg_token T S A B w p :
  Inv (T ⊎ {[+ p +]}) S A B w -> exists t, tgs w !! p = Some t /\
    tg_ok (hash_of w) (seg_key <$> segs w) (ap_key <$> aps w) (T ⊎ {[+ p +]}) p t.
Proof.
  intros H. destruct (Inv_tg_live _ _ _ _ _ p H) as [t Ht].
  - rewrite tgrefs_add, decide_True by done. lia.
  - exists t. split; [done|]. by apply (tg_all (inv_tg H)).
Qed.

Lemma tg_same_refcnt t n : 
  uniq_segid t <= XPMEM_MAX_UNIQ_ID -> uniq_apid t <= XPMEM_MAX_UNIQ_ID -> tg_same t (set_tg_refcnt n t).
Proof. intros. split; cbn; try done; first [lia | by left]. Qed.

Lemma tg_same_refcnt_ok H SK AK T p t n : tg_ok H SK AK T p t -> tg_same t (set_tg_refcnt n t).
Proof. intros Ho. pose proof (tg_uniq_range Ho). apply tg_same_refcnt; lia. Qed.

Lemma wp_tg_ref T S A B w p t :
  Inv T S A B w -> tgs w !! p = Some t -> Z.of_nat (tgrefs T w p) + 1 < 2 ^ 31 ->
  wp (xpmem_tg_ref p) (fun _ w' =>
    w' = set_tgs (<[p := set_tg_refcnt (tg_refcnt t + 1) t]> (tgs w)) w /\
    Inv (T ⊎ {[+ p +]}) S A B w') w.
Proof.
  intros HI E Hb. pose proof (tg_all (inv_tg HI) p t E) as Hok.
  pose proof (tg_count Hok) as Hc. pose proof (tg_counted Hok) as Hc'.
  fold (tgrefs T w p) in Hc, Hc'.
  apply wp_bind. eapply wp_load; [done|]. apply wp_bind, wp_DBUG_ON; [lia|].
  eapply wp_store; [done|]. cbn. rewrite s32_id by lia. split; [done|].
  eapply Inv_tg_update; [done|done|by eapply tg_same_refcnt_ok| | | |]; cbn.
  - intros q Hq. by apply mult_add_ne.
  - rewrite tgrefs_add, decide_True by done. lia.
  - rewrite tgrefs_add. lia.
  - rewrite tgrefs_add, decide_True by done. lia.
Qed.

Lemma Inv_tg_free T S A B w p t :
  Inv (T ⊎ {[+ p +]}) S A B w -> tgs w !! p = Some t -> tgrefs T w p = 0%nat ->
  Inv T S A B (set_tgs (delete p (tgs w)) w).
Proof.
  intros HI E Hr. pose proof (tg_all (inv_tg HI) p t E) as Hok.
  assert (p ∉ mjoin (hash_of w)) as Hh.
  { intros Hin. unfold tgrefs, tg_refs in Hr. rewrite (b2n_true _ Hin) in Hr. lia. }
  destruct (tg_destroyed Hok (tg_unhashed Hok Hh)) as (_ & Hs & Ha).
  split; cbn; try apply HI.
  - eapply TgInv_delete; [apply HI|done|]. intros q Hq. unfold tg_refs. by rewrite mult_add_ne.
  - eapply SegInv_congr; [apply HI| |done]. intros. by erewrite list_of_delete_nil.
  - eapply ApInv_congr; [apply HI| |done|done]. intros. by erewrite list_of_delete_nil.
  - intros q Hq. destruct (inv_fresh HI q Hq) as (? & ? & ? & ?). cbn. repeat split; try done.
    rewrite lookup_delete. by case_decide.
Qed.

(** [w'] differs from [w] in thread group [p] only, which may be gone. *)
Definition only_tg p w w' : Prop := exists m u,
  w' = set_task_usage u (set_tgs m w) /\ forall q, q <> p -> m !! q = tgs w !! q.

Lemma wp_tg_deref T S A B w p :
  Inv (T ⊎ {[+ p +]}) S A B w ->
  wp (xpmem_tg_deref p) (fun _ w' => Inv T S A B w' /\ only_tg p w w' /\
    forall t, tgs w !! p = Some t -> (0 < tgrefs T w p)%nat ->
      w' = set_tgs (<[p := set_tg_refcnt (tg_refcnt t - 1) t]> (tgs w)) w) w.
Proof.
  intros HI. destruct (tg_token _ _ _ _ _ _ HI) as (t & E & Hok).
  pose proof (tg_count Hok) as Hc. pose proof (tg_bound Hok) as Hb.
  change (tg_refs _ _ _ _) with (tgrefs (T ⊎ {[+ p +]}) w p) in Hc, Hb.
  rewrite tgrefs_add, decide_True in Hc, Hb by done.
  apply wp_bind. eapply wp_load; [done|]. apply wp_bind, wp_DBUG_ON; [lia|].
  apply wp_bind. eapply wp_store; [done|]. rewrite s32_id by lia. apply wp_if.
  - intros Hz%negb_true_iff%Z.eqb_neq. apply wp_ret. split; [|split].
    + eapply Inv_tg_update; [done|done|by eapply tg_same_refcnt_ok| | | |]; cbn; try lia.
      intros q Hq. by rewrite mult_add_ne.
    + exists (<[p := set_tg_refcnt (tg_refcnt t - 1) t]> (tgs w)), (task_usage w).
      split; [done|]. intros q Hq. by apply lookup_insert_ne.
    + intros t' E' _. by simplify_eq.
  - intros Hz%negb_false_iff%Z.eqb_eq. assert (tgrefs T w p = 0%nat) as Hr by lia.
    assert (p ∉ mjoin (hash_of w)) as Hh.
    { intros Hin. unfold tgrefs, tg_refs in Hr. rewrite (b2n_true _ Hin) in Hr. lia. }
    pose proof (tg_unhashed Hok Hh) as Hd. destruct (tg_destroyed Hok Hd) as (_ & Hs & _).
    destruct (tg_leader Hok) as [l Hl].
    apply wp_bind, wp_DBUG_ON; [by rewrite Hd|].
    apply wp_bind, wp_DBUG_ON; [by rewrite Hs|].
    rewrite Hl. apply wp_bind, wp_ret, wp_bind, wp_modify.
    eapply wp_kfree; [cbn; apply lookup_insert_eq|]. cbn. rewrite delete_insert_eq.
    split; [|split].
    + eapply Inv_same; [by eapply (Inv_tg_free T S A B w p t)|done..].
    + exists (delete p (tgs w)). eexists. split; [done|]. intros q Hq. by apply lookup_delete_ne.
    + intros. lia.
Qed.

(** * Segments *)

Definition segrefs S w s g : nat := seg_refs (list_of seg_list (tgs w)) S s g.

(** An update that keeps the identity and the links of a segment. *)
Record seg_same (g g' : xpmem_segment) : Prop := {
  same_seg_tg : seg_tg g' = seg_tg g;
  same_segid : segid g' = segid g;
  same_seg_ap_list : seg_ap_list g' = seg_ap_list g;
  same_permit_type : permit_type g' = permit_type g;
  same_seg_destroying : has (seg_flags g) XPMEM_FLAG_DESTROYING = true ->
                        has (seg_flags g') XPMEM_FLAG_DESTROYING = true;
}.

Lemma seg_same_refcnt g n : seg_same g (set_seg_refcnt n g).
Proof. by split. Qed.

Lemma seg_same_flags g m : seg_same g (set_seg_flags (Z.lor (seg_flags g) m) g).
Proof.
  split; try done. cbn. change XPMEM_FLAG_DESTROYING with (2 ^ 6). intros H.
  rewrite has_lor by lia. by rewrite H.
Qed.

Lemma segrefs_same S w s g g' :
  seg_same g g' -> segrefs S w s g' = segrefs S w s g.
Proof. intros [E1 _ E2 _ _]. unfold segrefs, seg_refs. by rewrite E1, E2. Qed.

Lemma segrefs_add S w s g q :
  segrefs (S ⊎ {[+ q +]}) w s g = (segrefs S w s g + if decide (q = s) then 1 else 0)%nat.
Proof. unfold segrefs, seg_refs. rewrite mult_add. lia. Qed.

Lemma Inv_seg_update T S S' A B w s g g' :
  Inv T S A B w -> segs w !! s = Some g -> seg_same g g' ->
  (forall q, q <> s -> multiplicity q S' = multiplicity q S) ->
  seg_refcnt g' = Z.of_nat (segrefs S' w s g) ->
  (0 < segrefs S' w s g)%nat -> Z.of_nat (segrefs S' w s g) < 2 ^ 31 ->
  Inv T S' A B (set_segs (<[s := g']> (segs w)) w).
Proof.
  intros HI E Hs Hq Er Hp Hb. pose proof (seg_all (inv_seg HI) s g E) as Hok.
  rewrite <- (segrefs_same S' w s g g' Hs) in Er, Hp, Hb.
  destruct Hs as [E1 E2 E3 E4 Hd]. split; cbn; try apply HI.
  - rewrite (fmap_insert_same seg_key _ _ g) by (try done; unfold seg_key; congruence). apply HI.
  - eapply SegInv_update; [apply HI|done|done|]. split; rewrite ?E1, ?E3, ?E4; try done; try apply Hok.
    intros Hn. apply Hd. by apply Hok.
  - eapply ApInv_congr; [apply HI|done| |done]. intros. by erewrite list_of_insert_same.
  - intros q Hq'. destruct (inv_fresh HI q Hq') as (? & ? & ? & ?). cbn. repeat split; try done.
    rewrite lookup_insert_ne; [done|]. by intros ->; simplify_eq.
Qed.

Lemma seg_token T S A B w s :
  Inv T (S ⊎ {[+ s +]}) A B w -> exists g, segs w !! s = Some g /\
    seg_ok (list_of seg_list (tgs w)) (ap_seg <$> aps w) (S ⊎ {[+ s +]}) s g.
Proof.
  intros H. destruct (seg_live (inv_seg H) s) as [g Hg]; [multiset_solver|].
  exists g. split; [done|]. by apply (seg_all (inv_seg H)).
Qed.

Lemma wp_seg_ref T S A B w s g :
  Inv T S A B w -> segs w !! s = Some g -> Z.of_nat (segrefs S w s g) + 1 < 2 ^ 31 ->
  wp (xpmem_seg_ref s) (fun _ w' =>
    w' = set_segs (<[s := set_seg_refcnt (seg_refcnt g + 1) g]> (segs w)) w /\
    Inv T (S ⊎ {[+ s +]}) A B w') w.
Proof.
  intros HI E Hb. pose proof (seg_all (inv_seg HI) s g E) as Hok.
  pose proof (seg_count Hok) as Hc. pose proof (seg_counted Hok) as Hc'.
  change (seg_refs _ _ _ _) with (segrefs S w s g) in Hc, Hc'.
  apply wp_bind. eapply wp_load; [done|]. apply wp_bind, wp_DBUG_ON; [lia|].
  eapply wp_store; [done|]. cbn. rewrite s32_id by lia. split; [done|].
  eapply Inv_seg_update; [done|done|by apply seg_same_refcnt| | | |]; cbn;
    rewrite ?segrefs_add, ?decide_True by done; try lia.
  intros q Hq. by apply mult_add_ne.
Qed.

Lemma segrefs_unlisted S w s g :
  segrefs S w s g = 0%nat -> (s ∉ list_of seg_list (tgs w) (seg_tg g)) /\ seg_ap_list g = [].
Proof.
  unfold segrefs, seg_refs. intros H. split.
  - intros Hin. rewrite (b2n_true _ Hin) in H. lia.
  - apply nil_length_inv. lia.
Qed.

Lemma Inv_seg_free T S A B w s g :
  Inv T (S ⊎ {[+ s +]}) A B w -> segs w !! s = Some g -> segrefs S w s g = 0%nat ->
  Inv T S A B (set_segs (delete s (segs w)) w).
Proof.
  intros HI E Hr. destruct (segrefs_unlisted _ _ _ _ Hr) as [Hl Hn].
  split; cbn; try apply HI.
  - rewrite fmap_delete. eapply TgInv_congr; [apply HI| | |done].
    + intros q. unfold tg_refs. f_equal. f_equal. eapply map_sum_delete_zero.
      { by rewrite lookup_fmap, E. }
      unfold key_refs, seg_key. cbn. rewrite Hn. by case_decide.
    + intros p t s' Et Hin. rewrite lookup_delete_ne; [done|]. intros <-. apply Hl.
      destruct (tg_segs_key (tg_all (inv_tg HI) p t Et) s Hin) as (u & n & Ek & _).
      rewrite lookup_fmap, E in Ek. cbn in Ek. injection Ek as E1 _ _.
      rewrite E1. unfold list_of. by rewrite Et.
  - eapply SegInv_delete; [apply HI| |].
    + unfold segrefs, seg_refs in Hr. lia.
    + intros q Hq. by rewrite mult_add_ne.
  - eapply ApInv_congr; [apply HI|done| |done]. intros. by erewrite list_of_delete_nil.
  - intros q Hq. destruct (inv_fresh HI q Hq) as (? & ? & ? & ?). cbn. repeat split; try done.
    rewrite lookup_delete. by case_decide.
Qed.

(** Dropping a reference that is not the last one only decrements. *)
Lemma wp_seg_deref T S A B w s g :
  Inv T (S ⊎ {[+ s +]}) A B w -> segs w !! s = Some g ->
  wp (xpmem_seg_deref s) (fun _ w' => Inv T S A B w' /\
    w' = set_segs (if decide (segrefs S w s g = 0%nat) then delete s (segs w)
                   else <[s := set_seg_refcnt (seg_refcnt g - 1) g]> (segs w)) w) w.
Proof.
  intros HI E. pose proof (seg_all (inv_seg HI) s g E) as Hok.
  pose proof (seg_count Hok) as Hc. pose proof (seg_bound Hok) as Hb.
  change (seg_refs _ _ _ _) with (segrefs (S ⊎ {[+ s +]}) w s g) in Hc, Hb.
  rewrite segrefs_add, decide_True in Hc, Hb by done.
  apply wp_bind. eapply wp_load; [done|]. apply wp_bind, wp_DBUG_ON; [lia|].
  apply wp_bind. eapply wp_store; [done|]. rewrite s32_id by lia. apply wp_if.
  - intros Hz%negb_true_iff%Z.eqb_neq. apply wp_ret. rewrite decide_False by lia. split; [|done].
    eapply Inv_seg_update; [done|done|by apply seg_same_refcnt| | | |]; cbn; try lia.
    intros q Hq. by rewrite mult_add_ne.
  - intros Hz%negb_false_iff%Z.eqb_eq. assert (segrefs S w s g = 0%nat) as Hr by lia.
    destruct (segrefs_unlisted _ _ _ _ Hr) as [Hl _]. pose proof (seg_unlisted Hok Hl) as Hd.
    apply wp_bind, wp_DBUG_ON; [by rewrite Hd|].
    eapply wp_kfree; [cbn; apply lookup_insert_eq|]. cbn. rewrite delete_insert_eq, decide_True by done.
    split; [|done]. by eapply (Inv_seg_free T S A B w s g).
Qed.

(** * Permits *)

Definition hashed_aps (t : xpmem_thread_group) : list positive := mjoin (ap_hashtable t).
Definition aprefs A w a x : nat := ap_refs (list_of hashed_aps (tgs w)) A a x.

(** An update that keeps the identity and the links of a permit. *)
Record ap_same (x x' : xpmem_access_permit) : Prop := {
  same_ap_tg : ap_tg x' = ap_tg x;
  same_apid : apid x' = apid x;
  same_ap_seg : ap_seg x' = ap_seg x;
  same_ap_att_list : ap_att_list x' = ap_att_list x;
  same_ap_destroying : has (ap_flags x) XPMEM_FLAG_DESTROYING = true ->
                       has (ap_flags x') XPMEM_FLAG_DESTROYING = true;
}.

Lemma ap_same_refcnt x n : ap_same x (set_ap_refcnt n x).
Proof. by split. Qed.

Lemma ap_same_flags x m : ap_same x (set_ap_flags (Z.lor (ap_flags x) m) x).
Proof.
  split; try done. cbn. change XPMEM_FLAG_DESTROYING with (2 ^ 6). intros H.
  rewrite has_lor by lia. by rewrite H.
Qed.

Lemma aprefs_add A w a x q :
  aprefs (A ⊎ {[+ q +]}) w a x = (aprefs A w a x + if decide (q = a) then 1 else 0)%nat.
Proof. unfold aprefs, ap_refs. rewrite mult_add. lia. Qed.

Lemma fresh_ap_update w a x x' :
  fresh_ok w -> aps w !! a = Some x -> fresh_ok (set_aps (<[a := x']> (aps w)) w).
Proof.
  intros H E q Hq. destruct (H q Hq) as (? & ? & ? & ?). cbn. repeat split; try done.
  rewrite lookup_insert_ne; [done|]. by intros ->; simplify_eq.
Qed.

Lemma Inv_ap_update T S A A' B w a x x' :
  Inv T S A B w -> aps w !! a = Some x -> ap_same x x' ->
  (forall q, q <> a -> multiplicity q A' = multiplicity q A) ->
  ap_refcnt x' = Z.of_nat (aprefs A' w a x) ->
  (0 < aprefs A' w a x)%nat -> Z.of_nat (aprefs A' w a x) < 2 ^ 31 ->
  Inv T S A' B (set_aps (<[a := x']> (aps w)) w).
Proof.
  intros HI E [E1 E2 E3 E4 Hd] Hq Er Hp Hb. pose proof (ap_all (inv_ap HI) a x E) as Hok.
  split; cbn; try apply HI.
  - rewrite (fmap_insert_same ap_key _ _ x) by (try done; unfold ap_key; congruence). apply HI.
  - rewrite (fmap_insert_same ap_seg _ _ x) by done. apply HI.
  - eapply ApInv_update; [apply HI|done|done|].
    change (fun t => mjoin (ap_hashtable t)) with hashed_aps in *.
    assert (ap_refs (list_of hashed_aps (tgs w)) A' a x' = aprefs A' w a x) as Er'
      by (unfold aprefs, ap_refs; by rewrite E1).
    split; rewrite ?Er', ?E1, ?E3, ?E4; try done; try apply Hok.
    intros Hn. destruct (ap_unlisted Hok Hn). auto.
  - eapply AttInv_congr; [apply HI|]. intros. by erewrite list_of_insert_same.
  - by eapply fresh_ap_update; [apply HI|].
Qed.

Lemma ap_token T S A B w a :
  Inv T S (A ⊎ {[+ a +]}) B w -> exists x, aps w !! a = Some x.
Proof. intros H. apply (ap_live (inv_ap H)). multiset_solver. Qed.

Lemma wp_ap_ref T S A B w a x :
  Inv T S A B w -> aps w !! a = Some x -> Z.of_nat (aprefs A w a x) + 1 < 2 ^ 31 ->
  wp (xpmem_ap_ref a) (fun _ w' =>
    w' = set_aps (<[a := set_ap_refcnt (ap_refcnt x + 1) x]> (aps w)) w /\
    Inv T S (A ⊎ {[+ a +]}) B w') w.
Proof.
  intros HI E Hb. pose proof (ap_all (inv_ap HI) a x E) as Hok.
  pose proof (ap_count Hok) as Hc. pose proof (ap_counted Hok) as Hc'.
  change (ap_refs _ _ _ _) with (aprefs A w a x) in Hc, Hc'.
  apply wp_bind. eapply wp_load; [done|]. apply wp_bind, wp_DBUG_ON; [lia|].
  eapply wp_store; [done|]. cbn. rewrite s32_id by lia. split; [done|].
  eapply Inv_ap_update; [done|done|by apply ap_same_refcnt| | | |]; cbn;
    rewrite ?aprefs_add, ?decide_True by done; try lia.
  intros q Hq. by apply mult_add_ne.
Qed.

Lemma aprefs_unlisted A w a x :
  aprefs A w a x = 0%nat -> a ∉ list_of hashed_aps (tgs w) (ap_tg x).
Proof. unfold aprefs, ap_refs. intros H Hin. rewrite (b2n_true _ Hin) in H. lia. Qed.

Lemma Inv_ap_free T S A B w a x :
  Inv T S (A ⊎ {[+ a +]}) B w -> aps w !! a = Some x -> aprefs A w a x = 0%nat ->
  a ∉ list_of seg_ap_list (segs w) (ap_seg x) ->
  Inv T S A B (set_aps (delete a (aps w)) w).
Proof.
  intros HI E Hr Hs. pose proof (aprefs_unlisted _ _ _ _ Hr) as Hl.
  pose proof (ap_all (inv_ap HI) a x E) as Hok. destruct (ap_unlisted Hok Hl) as [_ Hn].
  split; cbn; try apply HI; rewrite ?fmap_delete.
  - eapply TgInv_congr; [apply HI|done|done|].
    intros p t a' Et Hin. rewrite lookup_delete_ne; [done|]. intros <-. apply Hl.
    apply list_elem_of_join in Hin as (l & Ha & [i Hi]%list_elem_of_lookup).
    destruct (tg_aps_key (tg_all (inv_tg HI) p t Et) i l a Hi Ha) as (u & Ek & _).
    rewrite lookup_fmap, E in Ek. cbn in Ek. injection Ek as -> _.
    rewrite (list_of_Some _ _ _ t) by done. apply list_elem_of_join. eauto using list_elem_of_lookup_2.
  - eapply SegInv_congr; [apply HI|done|]. intros s g a' Eg Hin.
    rewrite lookup_delete_ne; [done|]. intros <-. apply Hs.
    pose proof (seg_aps (seg_all (inv_seg HI) s g Eg) a Hin) as Ea.
    rewrite lookup_fmap, E in Ea. cbn in Ea. injection Ea as ->. by rewrite (list_of_Some _ _ _ g).
  - eapply ApInv_delete; [apply HI| |].
    + unfold aprefs, ap_refs in Hr. lia.
    + intros q Hq. by rewrite mult_add_ne.
  - eapply AttInv_congr; [apply HI|]. intros. by erewrite list_of_delete_nil.
  - intros q Hq. destruct (inv_fresh HI q Hq) as (? & ? & ? & ?). cbn. repeat split; try done.
    rewrite lookup_delete. by case_decide.
Qed.

(** A permit is freed only when it is no longer linked to its segment. *)
Lemma wp_ap_deref T S A B w a x :
  Inv T S (A ⊎ {[+ a +]}) B w -> aps w !! a = Some x ->
  (aprefs A w a x = 0%nat -> a ∉ list_of seg_ap_list (segs w) (ap_seg x)) ->
  wp (xpmem_ap_deref a) (fun _ w' => Inv T S A B w' /\
    w' = set_aps (if decide (aprefs A w a x = 0%nat) then delete a (aps w)
                  else <[a := set_ap_refcnt (ap_refcnt x - 1) x]> (aps w)) w) w.
Proof.
  intros HI E Hs. pose proof (ap_all (inv_ap HI) a x E) as Hok.
  pose proof (ap_count Hok) as Hc. pose proof (ap_bound Hok) as Hb.
  change (ap_refs _ _ _ _) with (aprefs (A ⊎ {[+ a +]}) w a x) in Hc, Hb.
  rewrite aprefs_add, decide_True in Hc, Hb by done.
  apply wp_bind. eapply wp_load; [done|]. apply wp_bind, wp_DBUG_ON; [lia|].
  apply wp_bind. eapply wp_store; [done|]. rewrite s32_id by lia. apply wp_when.
  - intros Hz%Z.eqb_eq. assert (aprefs A w a x = 0%nat) as Hr by lia.
    pose proof (aprefs_unlisted _ _ _ _ Hr) as Hl. destruct (ap_unlisted Hok Hl) as [Hd _].
    apply wp_bind, wp_DBUG_ON; [by rewrite Hd|].
    eapply wp_kfree; [cbn; apply lookup_insert_eq|]. cbn. rewrite delete_insert_eq, decide_True by done.
    split; [|done]. eapply (Inv_ap_free T S A B w a x); auto.
  - intros Hz%Z.eqb_neq. rewrite decide_False by lia. split; [|done].
    eapply Inv_ap_update; [done|done|by apply ap_same_refcnt| | | |]; cbn; try lia.
    intros q Hq. by rewrite mult_add_ne.
Qed.

(** * Attachments *)

Definition attrefs B w t x : nat := att_refs (list_of ap_att_list (aps w)) B t x.

Lemma attrefs_add B w t x q :
  attrefs (B ⊎ {[+ q +]}) w t x = (attrefs B w t x + if decide (q = t) then 1 else 0)%nat.
Proof. unfold attrefs, att_refs. rewrite mult_add. lia. Qed.

Lemma Inv_att_update T S A B B' w t x x' :
  Inv T S A B w -> atts w !! t = Some x -> att_ap x' = att_ap x ->
  (t ∉ list_of ap_att_list (aps w) (att_ap x) -> has (att_flags x') XPMEM_FLAG_DESTROYING = true) ->
  (forall q, q <> t -> multiplicity q B' = multiplicity q B) ->
  att_refcnt x' = Z.of_nat (attrefs B' w t x) ->
  (0 < attrefs B' w t x)%nat -> Z.of_nat (attrefs B' w t x) < 2 ^ 31 ->
  Inv T S A B' (set_atts (<[t := x']> (atts w)) w).
Proof.
  intros HI E E1 Hd Hq Er Hp Hb. pose proof (att_all (inv_att HI) t x E) as Hok.
  split; cbn; try apply HI.
  - rewrite (fmap_insert_same att_ap _ _ x) by done. apply HI.
  - eapply AttInv_update; [apply HI|done|done|].
    assert (att_refs (list_of ap_att_list (aps w)) B' t x' = attrefs B' w t x) as Er'
      by (unfold attrefs, att_refs; by rewrite E1).
    split; rewrite ?Er', ?E1; done.
  - intros q Hq'. destruct (inv_fresh HI q Hq') as (? & ? & ? & ?). cbn. repeat split; try done.
    rewrite lookup_insert_ne; [done|]. by intros ->; simplify_eq.
Qed.

Lemma att_token T S A B w t :
  Inv T S A (B ⊎ {[+ t +]}) w -> exists x, atts w !! t = Some x.
Proof. intros H. apply (att_live (inv_att H)). multiset_solver. Qed.

Lemma wp_att_ref T S A B w t x :
  Inv T S A B w -> atts w !! t = Some x -> Z.of_nat (attrefs B w t x) + 1 < 2 ^ 31 ->
  wp (xpmem_att_ref t) (fun _ w' =>
    w' = set_atts (<[t := set_att_refcnt (att_refcnt x + 1) x]> (atts w)) w /\
    Inv T S A (B ⊎ {[+ t +]}) w') w.
Proof.
  intros HI E Hb. pose proof (att_all (inv_att HI) t x E) as Hok.
  pose proof (att_count Hok) as Hc. pose proof (att_counted Hok) as Hc'.
  change (att_refs _ _ _ _) with (attrefs B w t x) in Hc, Hc'.
  apply wp_bind. eapply wp_load; [done|]. apply wp_bind, wp_DBUG_ON; [lia|].
  eapply wp_store; [done|]. cbn. rewrite s32_id by lia. split; [done|].
  eapply Inv_att_update; [done|done|done|apply Hok| | | |]; cbn;
    rewrite ?attrefs_add, ?decide_True by done; try lia.
  intros q Hq. by apply mult_add_ne.
Qed.

Lemma attrefs_unlisted B w t x :
  attrefs B w t x = 0%nat -> t ∉ list_of ap_att_list (aps w) (att_ap x).
Proof. unfold attrefs, att_refs. intros H Hin. rewrite (b2n_true _ Hin) in H. lia. Qed.

Lemma Inv_att_free T S A B w t x :
  Inv T S A (B ⊎ {[+ t +]}) w -> atts w !! t = Some x -> attrefs B w t x = 0%nat ->
  Inv T S A B (set_atts (delete t (atts w)) w).
Proof.
  intros HI E Hr. pose proof (attrefs_unlisted _ _ _ _ Hr) as Hl.
  split; cbn; try apply HI; rewrite ?fmap_delete.
  - eapply ApInv_congr; [apply HI|done|done|]. intros a y t' Ey Hin.
    rewrite lookup_delete_ne; [done|]. intros <-. apply Hl.
    pose proof (ap_atts (ap_all (inv_ap HI) a y Ey) t Hin) as Et.
    rewrite lookup_fmap, E in Et. cbn in Et. injection Et as ->. by rewrite (list_of_Some _ _ _ y).
  - eapply AttInv_delete; [apply HI| |].
    + unfold attrefs, att_refs in Hr. lia.
    + intros q Hq. by rewrite mult_add_ne.
  - intros q Hq. destruct (inv_fresh HI q Hq) as (? & ? & ? & ?). cbn. repeat split; try done.
    rewrite lookup_delete. by case_decide.
Qed.

Lemma wp_att_deref T S A B w t x :
  Inv T S A (B ⊎ {[+ t +]}) w -> atts w !! t = Some x ->
  wp (xpmem_att_deref t) (fun _ w' => Inv T S A B w' /\
    w' = set_atts (if decide (attrefs B w t x = 0%nat) then delete t (atts w)
                   else <[t := set_att_refcnt (att_refcnt x - 1) x]> (atts w)) w) w.
Proof.
  intros HI E. pose proof (att_all (inv_att HI) t x E) as Hok.
  pose proof (att_count Hok) as Hc. pose proof (att_bound Hok) as Hb.
  change (att_refs _ _ _ _) with (attrefs (B ⊎ {[+ t +]}) w t x) in Hc, Hb.
  rewrite attrefs_add, decide_True in Hc, Hb by done.
  apply wp_bind. eapply wp_load; [done|]. apply wp_bind, wp_DBUG_ON; [lia|].
  apply wp_bind. eapply wp_store; [done|]. rewrite s32_id by lia. apply wp_when.
  - intros Hz%Z.eqb_eq. assert (attrefs B w t x = 0%nat) as Hr by lia.
    apply wp_bind, wp_DBUG_ON; [by rewrite (att_unlisted Hok (attrefs_unlisted _ _ _ _ Hr))|].
    eapply wp_kfree; [cbn; apply lookup_insert_eq|]. cbn. rewrite delete_insert_eq, decide_True by done.
    split; [|done]. by eapply (Inv_att_free T S A B w t x).
  - intros Hz%Z.eqb_neq. rewrite decide_False by lia. split; [|done].
    eapply Inv_att_update; [done|done|done|apply Hok| | | |]; cbn; try lia.
    intros q Hq. by rewrite mult_add_ne.
Qed.
End graph.
