(* ===== verification/Link.v ===== *)
(** Linking and unlinking the objects of the graph: what creating, publishing
    and removing an object does to the invariant. *)

From S2P Require Import Prelude Kernel World Monad Ids Misc Inv Graph.

Section link.
Context `{K : Kernel}.
Implicit Types (T S A B : gmultiset positive) (w : world).

Lemma Inv_fresh_mult T S A B w p :
  Inv T S A B w -> (next_ptr w <= p)%positive ->
  multiplicity p T = 0%nat /\ multiplicity p S = 0%nat /\
  multiplicity p A = 0%nat /\ multiplicity p B = 0%nat.
Proof.
  intros HI Hp. destruct (inv_fresh HI p Hp) as (E1 & E2 & E3 & E4).
  assert (forall X : gmultiset positive, (p ∈ X -> False) -> multiplicity p X = 0%nat) as Hz.
  { intros X HX. destruct (multiplicity p X) eqn:E; [done|]. exfalso. apply HX.
    rewrite elem_of_multiplicity. lia. }
  repeat split; apply Hz; intros Hin.
  - destruct (tg_live (inv_tg HI) p) as [t Ht]; [|congruence].
    unfold tg_refs. rewrite elem_of_multiplicity in Hin. lia.
  - destruct (seg_live (inv_seg HI) p Hin). congruence.
  - destruct (ap_live (inv_ap HI) p Hin). congruence.
  - destruct (att_live (inv_att HI) p Hin). congruence.
Qed.

Lemma fresh_bump w w' p :
  fresh_ok w -> next_ptr w = p -> next_ptr w' = Pos.succ p ->
  (forall q, q <> p -> tgs w !! q = None -> tgs w' !! q = None) ->
  (forall q, q <> p -> segs w !! q = None -> segs w' !! q = None) ->
  (forall q, q <> p -> aps w !! q = None -> aps w' !! q = None) ->
  (forall q, q <> p -> atts w !! q = None -> atts w' !! q = None) -> fresh_ok w'.
Proof.
  intros H <- E H1 H2 H3 H4 q Hq. rewrite E in Hq. assert (q <> next_ptr w) by lia.
  destruct (H q) as (? & ? & ? & ?); [lia|]. auto.
Qed.

(** Allocating leaves the graph as it is. *)
Lemma Inv_bump T S A B w :
  Inv T S A B w -> Inv T S A B (set_next_ptr (Pos.succ (next_ptr w)) w).
Proof.
  intros HI. split; try apply HI. eapply fresh_bump; [apply HI|done..].
Qed.

(** * Segments *)

(** The segment [xpmem_make] publishes: new, referenced by the list only. *)
Definition new_seg (tg : positive) id vaddr size permit_value : xpmem_segment :=
  mk_seg id vaddr size XPMEM_PERMIT_MODE permit_value 0 1 tg [].

Definition link_seg (tg s : positive) (t : xpmem_thread_group) (g : xpmem_segment) w : world :=
  set_tgs (<[tg := set_seg_list (seg_list t ++ [s]) t]> (tgs w))
    (set_segs (<[s := g]> (segs w)) (set_next_ptr (Pos.succ (next_ptr w)) w)).

Lemma tg_ok_seg_link H SK AK T tg t s u :
  tg_ok H SK AK T tg t -> SK !! s = None -> 0 < u <= uniq_segid t ->
  (forall s' k, s' ∈ seg_list t -> SK !! s' = Some k -> k.1.2 <> id_to_s64 (mk_id (tg_tgid t) u)) ->
  has (tg_flags t) XPMEM_FLAG_DESTROYED = false ->
  tg_ok H (<[s := (tg, id_to_s64 (mk_id (tg_tgid t) u), 0%nat)]> SK) AK T tg
    (set_seg_list (seg_list t ++ [s]) t).
Proof.
  intros Hok Hs Hu Hne Hd.
  assert (tg_refs H (<[s := (tg, id_to_s64 (mk_id (tg_tgid t) u), 0%nat)]> SK) T tg
          = tg_refs H SK T tg) as Er.
  { unfold tg_refs. rewrite map_sum_insert by done. unfold key_refs at 1. cbn. case_decide; lia. }
  assert (forall x, x ∈ seg_list t -> s <> x) as Hnin.
  { intros x Hin <-. destruct (tg_segs_key Hok s Hin) as (? & ? & ? & ?). congruence. }
  split; rewrite ?Er; try apply Hok; cbn.
  - apply NoDup_app. split; [apply Hok|]. split; [|apply NoDup_singleton].
    intros x Hx ->%list_elem_of_singleton. by eapply Hnin.
  - intros x [Hx| ->%list_elem_of_singleton]%elem_of_app.
    + destruct (tg_segs_key Hok x Hx) as (v & n & E & ?). exists v, n.
      rewrite lookup_insert_ne by congruence. done.
    + exists u, 0%nat. by rewrite lookup_insert_eq.
  - intros x x' k k' Hx Hx'. rewrite !lookup_insert.
    apply elem_of_app in Hx as [Hx|Hx%list_elem_of_singleton];
      apply elem_of_app in Hx' as [Hx'|Hx'%list_elem_of_singleton]; subst; try done.
    + rewrite !decide_False by auto. by apply Hok.
    + rewrite (decide_True (P := s = s)), decide_False by auto. intros E E' Ek. simplify_eq.
      cbn in Ek. by destruct (Hne x k).
    + rewrite decide_True, decide_False by (done || by auto). intros E E' Ek. simplify_eq.
      cbn in Ek. by destruct (Hne x' k').
  - congruence.
Qed.

Lemma Inv_seg_link T S A B w tg t s id u vaddr size pv :
  Inv T S A B w -> tgs w !! tg = Some t -> s = next_ptr w ->
  id = id_to_s64 (mk_id (tg_tgid t) u) -> 0 < u <= uniq_segid t ->
  (forall s' g', s' ∈ seg_list t -> segs w !! s' = Some g' -> segid g' <> id) ->
  has (tg_flags t) XPMEM_FLAG_DESTROYED = false ->
  Inv T S A B (link_seg tg s t (new_seg tg id vaddr size pv) w).
Proof.
  intros HI Et -> -> Hu Hne Hd. set (s := next_ptr w).
  destruct (inv_fresh HI s) as (F1 & F2 & F3 & F4); [lia|].
  destruct (Inv_fresh_mult _ _ _ _ _ s HI) as (_ & M & _); [lia|].
  pose proof (tg_all (inv_tg HI) tg t Et) as Hok.
  assert ((seg_key <$> segs w) !! s = None) as Fs by (by rewrite lookup_fmap, F2).
  split; cbn; try apply HI.
  - rewrite fmap_insert. eapply (TgInv_update _ _ _ _ T T tg t); try done.
    + eapply TgInv_congr; [apply HI| | |done].
      * intros q. unfold tg_refs. rewrite map_sum_insert by done.
        unfold key_refs at 1. cbn. case_decide; lia.
      * intros p t' s' Et' Hin.
        destruct (tg_segs_key (tg_all (inv_tg HI) p t' Et') s' Hin) as (? & ? & ? & ?).
        rewrite lookup_insert_ne by congruence. done.
    + apply tg_ok_seg_link; try done. intros s' k Hin. rewrite lookup_fmap.
      intros (g' & Eg' & ->)%fmap_Some. by eapply Hne.
  - split.
    + intros s' g'. rewrite lookup_insert. case_decide as Hs'.
      * intros [= <-]. subst s'. split; cbn; try done; unfold seg_refs; cbn;
          rewrite ?M, ?list_of_insert, ?decide_True by done.
        -- rewrite b2n_true by set_solver. done.
        -- rewrite b2n_true by set_solver. lia.
        -- rewrite b2n_true by set_solver. done.
        -- constructor.
        -- by intros a ?%elem_of_nil.
        -- intros Hn. destruct Hn. set_solver.
      * intros Eg'. assert (s' ∈ list_of seg_list (<[tg := set_seg_list (seg_list t ++ [s]) t]> (tgs w)) (seg_tg g')
          <-> s' ∈ list_of seg_list (tgs w) (seg_tg g')) as Hl.
        { rewrite list_of_insert. case_decide as Ht; [|done]. cbn. rewrite <- Ht.
          rewrite (list_of_Some _ _ _ t) by done. set_solver. }
        pose proof (seg_all (inv_seg HI) s' g' Eg') as Hg.
        split; unfold seg_refs; rewrite ?(b2n_ext _ _ Hl); try apply Hg.
        rewrite Hl. apply Hg.
    + intros s' Hin. rewrite lookup_insert. case_decide; [done|]. by apply (seg_live (inv_seg HI)).
  - eapply ApInv_congr; [apply HI| | |done].
    + intros. by erewrite list_of_insert_same.
    + intros a x Ex _. rewrite list_of_insert. case_decide as Hs; [|done]. rewrite <- Hs.
      unfold list_of. rewrite F2. by intros ?%elem_of_nil.
  - eapply fresh_bump; [apply HI|done|done| | |done|done]; cbn; intros q Hq Hn.
    + rewrite lookup_insert_ne; [done|]. intros ->. congruence.
    + by rewrite lookup_insert_ne.
Qed.

(** Taking a segment off the list of its thread group: the list's reference is
    now the caller's. *)
Lemma Inv_seg_unlink T S A B w tg t s g :
  Inv T S A B w -> tgs w !! tg = Some t -> segs w !! s = Some g -> s ∈ seg_list t ->
  has (seg_flags g) XPMEM_FLAG_DESTROYING = true ->
  Inv T (S ⊎ {[+ s +]}) A B (set_tgs (<[tg := set_seg_list (unlink s (seg_list t)) t]> (tgs w)) w).
Proof.
  intros HI Et Eg Hin Hd. pose proof (tg_all (inv_tg HI) tg t Et) as Hok.
  assert (seg_tg g = tg) as Hg.
  { destruct (tg_segs_key Hok s Hin) as (? & ? & E & _). rewrite lookup_fmap, Eg in E.
    cbn in E. by injection E. }
  split; cbn; try apply HI.
  - eapply (TgInv_update _ _ _ _ T T tg t); try done; [apply HI|].
    split; cbn; try apply Hok.
    + apply NoDup_unlink, Hok.
    + intros x [_ Hx]%elem_of_unlink. by apply Hok.
    + intros x x' k k' [_ Hx]%elem_of_unlink [_ Hx']%elem_of_unlink. by apply Hok.
    + intros Hd'. destruct (tg_destroyed Hok Hd') as (? & Hs & ?). rewrite Hs in Hin.
      by apply elem_of_nil in Hin.
  - split.
    + intros s' g' Eg'. pose proof (seg_all (inv_seg HI) s' g' Eg') as Hg'.
      assert (seg_refs (list_of seg_list (<[tg := set_seg_list (unlink s (seg_list t)) t]> (tgs w)))
                (S ⊎ {[+ s +]}) s' g' = seg_refs (list_of seg_list (tgs w)) S s' g') as Er.
      { unfold seg_refs. rewrite mult_add, list_of_insert. destruct (decide (s = s')) as [<-|Hne].
        - simplify_eq. rewrite decide_True by done. rewrite (list_of_Some _ _ _ t), (b2n_true _ Hin) by done.
          rewrite b2n_false by (cbn; rewrite elem_of_unlink; tauto). lia.
        - case_decide as Ht; [|lia]. cbn. rewrite <- Ht, (list_of_Some _ _ _ t) by done.
          rewrite (b2n_ext _ (s' ∈ seg_list t)); [lia|]. rewrite elem_of_unlink. naive_solver. }
      split; rewrite ?Er; try apply Hg'.
      intros Hn. destruct (decide (s = s')) as [<-|Hne]; [congruence|]. apply Hg'.
      intros Hl. apply Hn. rewrite list_of_insert. case_decide as Ht; [|done].
      cbn. rewrite <- Ht, (list_of_Some _ _ _ t) in Hl by done. by apply elem_of_unlink.
    + intros s' Hs'. destruct (decide (s' = s)) as [->|]; [done|].
      apply (seg_live (inv_seg HI)). multiset_solver.
  - eapply ApInv_congr; [apply HI| |done|done]. intros. by erewrite list_of_insert_same.
  - by eapply fresh_tg_update; [apply HI|].
Qed.

(** * Permits *)

Definition new_ap (tg s : positive) id mode : xpmem_access_permit := mk_ap id mode 0 1 s tg [].

Definition link_ap (tg s a : positive) (i : nat) t g x w : world :=
  set_tgs (<[tg := set_ap_hashtable (bucket_add i a (ap_hashtable t)) t]> (tgs w))
    (set_segs (<[s := set_seg_ap_list (seg_ap_list g ++ [a]) g]> (segs w))
      (set_aps (<[a := x]> (aps w)) (set_next_ptr (Pos.succ (next_ptr w)) w))).

Lemma tg_ok_ap_link H SK AK T tg t a i u :
  tg_ok H SK AK T tg t -> AK !! a = None -> 0 < u <= uniq_apid t ->
  i = xpmem_ap_hashtable_index (id_to_s64 (mk_id (tg_tgid t) u)) ->
  (forall a' k, a' ∈ hashed_aps t -> AK !! a' = Some k -> k.2 <> id_to_s64 (mk_id (tg_tgid t) u)) ->
  has (tg_flags t) XPMEM_FLAG_DESTROYED = false ->
  tg_ok H SK (<[a := (tg, id_to_s64 (mk_id (tg_tgid t) u))]> AK) T tg
    (set_ap_hashtable (bucket_add i a (ap_hashtable t)) t).
Proof.
  intros Hok Ha Hu Hi Hne Hd.
  assert ((i < length (ap_hashtable t))%nat) as Hlt
    by (rewrite (tg_aps_size Hok), Hi; apply ap_index_lt).
  pose proof (bucket_add_perm i a (ap_hashtable t) Hlt) as Hp.
  assert (forall i l x, ap_hashtable t !! i = Some l -> x ∈ l -> a <> x) as Hn1.
  { intros j l x El Hin <-. destruct (tg_aps_key Hok j l a El Hin) as (? & ? & ?). congruence. }
  assert (forall x, x ∈ mjoin (ap_hashtable t) -> a <> x) as Hn2.
  { intros x (l & ? & [j ?]%list_elem_of_lookup)%list_elem_of_join. eauto. }
  split; try apply Hok; cbn.
  - rewrite length_bucket_add. apply Hok.
  - rewrite Hp. apply NoDup_cons. split; [|apply Hok]. intros Hin. by eapply Hn2.
  - intros j l x El Hx. destruct (lookup_bucket_add _ _ _ _ _ _ El Hx) as [[-> ->]|(l' & El' & Hx')].
    + exists u. by rewrite lookup_insert_eq.
    + rewrite lookup_insert_ne by eauto. by eapply Hok.
  - intros x x' k k'. rewrite Hp, !lookup_insert.
    intros [->|Hx]%elem_of_cons [->|Hx']%elem_of_cons; try done.
    + rewrite (decide_True (P := a = a)), decide_False by auto. intros E E' Ek. simplify_eq.
      cbn in Ek. by destruct (Hne x' k').
    + rewrite (decide_True (P := a = a)), decide_False by auto. intros E E' Ek. simplify_eq.
      cbn in Ek. by destruct (Hne x k).
    + rewrite !decide_False by auto. by apply Hok.
  - congruence.
Qed.

(** The references on thread groups when a permit is added to a segment. *)
Lemma tg_refs_ap_link H SK T s k id n q :
  SK !! s = Some (k, id, n) ->
  tg_refs H (<[s := (k, id, Datatypes.S n)]> SK) T q = tg_refs H SK (T ⊎ {[+ k +]}) q.
Proof.
  intros E. unfold tg_refs. rewrite mult_add.
  pose proof (map_sum_update (key_refs q) SK s _ (k, id, Datatypes.S n) E) as Hs.
  unfold key_refs at 2 4 in Hs. cbn in Hs. repeat case_decide; try congruence; lia.
Qed.

Lemma TgInv_ap_link H TG SK AK T tg t s k n sid a u :
  TgInv H TG SK AK (T ⊎ {[+ k +]}) -> TG !! tg = Some t ->
  SK !! s = Some (k, sid, n) -> AK !! a = None -> 0 < u <= uniq_apid t ->
  (forall a' k, a' ∈ hashed_aps t -> AK !! a' = Some k -> k.2 <> id_to_s64 (mk_id (tg_tgid t) u)) ->
  has (tg_flags t) XPMEM_FLAG_DESTROYED = false ->
  TgInv H (<[tg := set_ap_hashtable
               (bucket_add (xpmem_ap_hashtable_index (id_to_s64 (mk_id (tg_tgid t) u))) a
                  (ap_hashtable t)) t]> TG)
    (<[s := (k, sid, Datatypes.S n)]> SK) (<[a := (tg, id_to_s64 (mk_id (tg_tgid t) u))]> AK) T.
Proof.
  intros HI Et Es Ea Hu Hne Hd.
  assert (TgInv H TG (<[s := (k, sid, Datatypes.S n)]> SK) AK T) as H1.
  { eapply TgInv_congr; [done| | |done].
    - intros q. by apply tg_refs_ap_link.
    - intros p t' s' _ _. rewrite lookup_insert. case_decide as Hs; [|done]. by rewrite <- Hs, Es. }
  assert (TgInv H TG (<[s := (k, sid, Datatypes.S n)]> SK)
            (<[a := (tg, id_to_s64 (mk_id (tg_tgid t) u))]> AK) T) as H2.
  { eapply TgInv_congr; [done|done|done|].
    intros p t' a' Et' (l & Ha' & [j Hj]%list_elem_of_lookup)%list_elem_of_join.
    apply lookup_insert_ne. intros <-.
    destruct (tg_aps_key (tg_all H1 p t' Et') j l a Hj Ha') as (? & E & _). congruence. }
  eapply (TgInv_update _ _ _ _ T T tg t); try done.
  apply tg_ok_ap_link; try done. by apply (tg_all H1).
Qed.

Lemma SegInv_ap_link SG SL AS S s g a :
  SegInv SG SL AS (S ⊎ {[+ s +]}) -> SG !! s = Some g -> AS !! a = None ->
  SegInv (<[s := set_seg_ap_list (seg_ap_list g ++ [a]) g]> SG) SL (<[a := s]> AS) S.
Proof.
  intros HI Eg Ha. pose proof (seg_all HI s g Eg) as Hok.
  assert (forall s' g' a', SG !! s' = Some g' -> a' ∈ seg_ap_list g' -> a <> a') as Hn.
  { intros s' g' a' E Hin <-. pose proof (seg_aps (seg_all HI s' g' E) a Hin). congruence. }
  eapply (SegInv_update _ _ _ (S ⊎ {[+ s +]})); [|done| |].
  - eapply SegInv_congr; [done|done|]. intros. apply lookup_insert_ne. eauto.
  - intros q Hq. by rewrite mult_add_ne.
  - assert (seg_refs SL S s (set_seg_ap_list (seg_ap_list g ++ [a]) g)
            = seg_refs SL (S ⊎ {[+ s +]}) s g) as Er
      by (unfold seg_refs; cbn; rewrite length_app, mult_add_eq; cbn; lia).
    split; rewrite ?Er; try apply Hok; cbn.
    + apply NoDup_app. split; [apply Hok|]. split; [|apply NoDup_singleton].
      intros x Hx ->%list_elem_of_singleton. by eapply Hn.
    + intros x [Hx| ->%list_elem_of_singleton]%elem_of_app; [|by rewrite lookup_insert_eq].
      rewrite lookup_insert_ne by eauto. by apply Hok.
Qed.

Lemma ApInv_ap_link AP AH SA AH' SA' TA A a x :
  ApInv AP AH SA TA A -> AP !! a = None -> multiplicity a A = 0%nat ->
  (forall a' x', AP !! a' = Some x' -> a' ∈ AH' (ap_tg x') <-> a' ∈ AH (ap_tg x')) ->
  (forall a' x', AP !! a' = Some x' -> a' ∈ SA (ap_seg x') -> a' ∈ SA' (ap_seg x')) ->
  a ∈ AH' (ap_tg x) -> a ∈ SA' (ap_seg x) -> ap_refcnt x = 1 -> ap_att_list x = [] ->
  ApInv (<[a := x]> AP) AH' SA' TA A.
Proof.
  intros HI Ha Hm Hl Hs Hh Hg Hr Hn. split.
  - intros a' x'. rewrite lookup_insert. case_decide as E.
    + intros [= <-]. subst a'. split; unfold ap_refs; rewrite ?Hm, ?(b2n_true _ Hh), ?Hn; try done.
      * lia.
      * constructor.
      * by intros t ?%elem_of_nil.
    + intros Ex'. pose proof (ap_all HI a' x' Ex') as Hok.
      assert (ap_refs AH' A a' x' = ap_refs AH A a' x') as Er
        by (unfold ap_refs; by rewrite (b2n_ext _ _ (Hl a' x' Ex'))).
      split; rewrite ?Er, ?(Hl a' x' Ex'); try apply Hok.
      intros Hin. apply Hs; [done|]. by apply Hok.
  - intros a' Hin. rewrite lookup_insert. case_decide; [done|]. by apply (ap_live HI).
Qed.

(** Publishing a permit consumes a reference on its segment and one on the
    thread group of the segment. *)
Lemma Inv_ap_link T S A B w tg t s g a id u mode :
  Inv (T ⊎ {[+ seg_tg g +]}) (S ⊎ {[+ s +]}) A B w ->
  tgs w !! tg = Some t -> segs w !! s = Some g -> a = next_ptr w ->
  id = id_to_s64 (mk_id (tg_tgid t) u) -> 0 < u <= uniq_apid t ->
  (forall a' x', a' ∈ hashed_aps t -> aps w !! a' = Some x' -> apid x' <> id) ->
  has (tg_flags t) XPMEM_FLAG_DESTROYED = false ->
  Inv T S A B (link_ap tg s a (xpmem_ap_hashtable_index id) t g (new_ap tg s id mode) w).
Proof.
  intros HI Et Eg -> -> Hu Hne Hd. set (a := next_ptr w).
  destruct (inv_fresh HI a) as (F1 & F2 & F3 & F4); [lia|].
  destruct (Inv_fresh_mult _ _ _ _ _ a HI) as (_ & _ & M & _); [lia|].
  pose proof (tg_all (inv_tg HI) tg t Et) as Hok.
  set (i := xpmem_ap_hashtable_index (id_to_s64 (mk_id (tg_tgid t) u))).
  assert (hashed_aps (set_ap_hashtable (bucket_add i a (ap_hashtable t)) t) ≡ₚ a :: hashed_aps t) as Hp.
  { apply bucket_add_perm. rewrite (tg_aps_size Hok). apply ap_index_lt. }
  split; cbn; try apply HI; rewrite ?fmap_insert.
  - replace (seg_key (set_seg_ap_list (seg_ap_list g ++ [a]) g))
      with (seg_tg g, segid g, Datatypes.S (length (seg_ap_list g)))
      by (unfold seg_key; cbn; rewrite length_app; cbn; do 2 f_equal; lia).
    eapply TgInv_ap_link; try done; [apply HI|by rewrite lookup_fmap, Eg|by rewrite lookup_fmap, F3|].
    intros a' k Hin. rewrite lookup_fmap. intros (x' & Ex' & ->)%fmap_Some. by eapply Hne.
  - eapply SegInv_congr; [eapply SegInv_ap_link; [apply HI|done|]| |].
    + by rewrite lookup_fmap, F3.
    + intros. by erewrite list_of_insert_same.
    + done.
  - eapply ApInv_ap_link; [apply HI|done|done| | | | |done|done].
    + intros a' x' Ex'. rewrite list_of_insert. case_decide as Ht; [|done].
      change (fun t => mjoin (ap_hashtable t)) with hashed_aps. rewrite Hp, <- Ht.
      rewrite (list_of_Some _ _ _ t) by done. rewrite elem_of_cons. split; [|auto].
      intros [->|]; [congruence|done].
    + intros a' x' Ex' Hin. rewrite list_of_insert. case_decide as Hs; [|done].
      rewrite <- Hs, (list_of_Some _ _ _ g) in Hin by done. cbn. set_solver.
    + cbn. rewrite list_of_insert, decide_True by done.
      change (a ∈ hashed_aps (set_ap_hashtable (bucket_add i a (ap_hashtable t)) t)).
      rewrite Hp. set_solver.
    + cbn. rewrite list_of_insert, decide_True by done. cbn. set_solver.
  - eapply AttInv_congr; [apply HI|]. intros t' x' _. rewrite list_of_insert.
    case_decide as Ha; [|done]. rewrite <- Ha. unfold list_of. by rewrite F3.
  - eapply fresh_bump; [apply HI|done|done| | | |done]; cbn; intros q Hq Hn.
    + rewrite lookup_insert_ne; [done|]. intros ->. congruence.
    + rewrite lookup_insert_ne; [done|]. intros ->. congruence.
    + by rewrite lookup_insert_ne.
Qed.

(** The bucket of a hashed permit. *)
Lemma hashed_bucket T S A B w tg t a x :
  Inv T S A B w -> tgs w !! tg = Some t -> aps w !! a = Some x -> a ∈ hashed_aps t ->
  ap_tg x = tg /\ exists l, ap_hashtable t !! xpmem_ap_hashtable_index (apid x) = Some l /\ a ∈ l.
Proof.
  intros HI Et Ex (l & Ha & [i Hi]%list_elem_of_lookup)%list_elem_of_join.
  destruct (tg_aps_key (tg_all (inv_tg HI) tg t Et) i l a Hi Ha) as (u & E & _ & Ei).
  rewrite lookup_fmap, Ex in E. cbn in E. injection E as E1 E2. subst i. rewrite E2. eauto.
Qed.

(** Taking a permit that is being destroyed out of the hash table: the table's
    reference is now the caller's. *)
Lemma Inv_ap_unhash T S A B w tg t a x :
  Inv T S A B w -> tgs w !! tg = Some t -> aps w !! a = Some x -> a ∈ hashed_aps t ->
  has (ap_flags x) XPMEM_FLAG_DESTROYING = true -> ap_att_list x = [] ->
  Inv T S (A ⊎ {[+ a +]}) B
    (set_tgs (<[tg := set_ap_hashtable
      (bucket_del (xpmem_ap_hashtable_index (apid x)) a (ap_hashtable t)) t]> (tgs w)) w).
Proof.
  intros HI Et Ex Hin Hd Hn. pose proof (tg_all (inv_tg HI) tg t Et) as Hok.
  destruct (hashed_bucket _ _ _ _ _ _ _ _ _ HI Et Ex Hin) as (Htg & l & El & Hl).
  set (i := xpmem_ap_hashtable_index (apid x)) in *.
  set (t' := set_ap_hashtable (bucket_del i a (ap_hashtable t)) t).
  assert (hashed_aps t' = unlink a (hashed_aps t)) as Hp
    by (eapply bucket_del_unlink; [apply Hok|done|done]).
  assert (forall q, q <> a -> q ∈ hashed_aps t' <-> q ∈ hashed_aps t) as Hq
    by (intros q ?; rewrite Hp, elem_of_unlink; tauto).
  split; cbn; try apply HI.
  - eapply (TgInv_update _ _ _ _ T T tg t); try done; [apply HI|].
    split; cbn; try apply Hok.
    + rewrite length_bucket_del. apply Hok.
    + change (NoDup (hashed_aps t')). rewrite Hp. apply NoDup_unlink, Hok.
    + intros j k b Ej Hb. destruct (lookup_bucket_del _ _ _ _ _ _ Ej Hb) as (k' & Ek & Hb').
      by eapply Hok.
    + intros b b' k k'. change (b ∈ hashed_aps t' -> b' ∈ hashed_aps t' -> (ap_key <$> aps w) !! b = Some k ->
        (ap_key <$> aps w) !! b' = Some k' -> k.2 = k'.2 -> b = b').
      rewrite Hp. intros [_ Hb]%elem_of_unlink [_ Hb']%elem_of_unlink. by apply Hok.
    + intros Hd'. destruct (tg_destroyed Hok Hd') as (? & ? & Hh). unfold hashed_aps in Hin.
      rewrite Hh in Hin. by apply elem_of_nil in Hin.
  - eapply SegInv_congr; [apply HI| |done]. intros. by erewrite list_of_insert_same.
  - change (fun t => mjoin (ap_hashtable t)) with hashed_aps. split.
    + intros b y Ey. pose proof (ap_all (inv_ap HI) b y Ey) as Hb.
      change (fun t => mjoin (ap_hashtable t)) with hashed_aps in Hb.
      destruct (decide (a = b)) as [<-|Hne].
      * assert (y = x) as -> by congruence. subst tg.
        assert (a ∉ hashed_aps t') as Hna by (rewrite Hp, elem_of_unlink; tauto).
        assert (ap_refs (list_of hashed_aps (<[ap_tg x := t']> (tgs w))) (A ⊎ {[+ a +]}) a x
                = ap_refs (list_of hashed_aps (tgs w)) A a x) as Er.
        { unfold ap_refs. rewrite mult_add_eq, list_of_insert, decide_True by done.
          rewrite (list_of_Some _ _ _ t), (b2n_true _ Hin), (b2n_false _ Hna) by done. lia. }
        split; rewrite ?Er, ?list_of_insert, ?decide_True by done; try done; try apply Hb.
      * assert (b ∈ list_of hashed_aps (<[tg := t']> (tgs w)) (ap_tg y)
                <-> b ∈ list_of hashed_aps (tgs w) (ap_tg y)) as Hl'.
        { rewrite list_of_insert. case_decide as Ht; [|done].
          rewrite <- Ht, (list_of_Some _ _ _ t) by done. by apply Hq. }
        assert (ap_refs (list_of hashed_aps (<[tg := t']> (tgs w))) (A ⊎ {[+ a +]}) b y
                = ap_refs (list_of hashed_aps (tgs w)) A b y) as Er.
        { unfold ap_refs. rewrite mult_add_ne by done. by rewrite (b2n_ext _ _ Hl'). }
        split; rewrite ?Er, ?Hl'; try apply Hb.
    + intros b Hb. destruct (decide (b = a)) as [->|]; [done|]. apply (ap_live (inv_ap HI)). multiset_solver.
  - by eapply fresh_tg_update; [apply HI|].
Qed.

(** Taking an unhashed permit off the list of its segment gives back the
    references on the segment and its thread group. *)
Lemma Inv_ap_unlink T S A B w s g a x :
  Inv T S A B w -> segs w !! s = Some g -> aps w !! a = Some x -> a ∈ seg_ap_list g ->
  a ∉ list_of hashed_aps (tgs w) (ap_tg x) ->
  Inv (T ⊎ {[+ seg_tg g +]}) (S ⊎ {[+ s +]}) A B
    (set_segs (<[s := set_seg_ap_list (unlink a (seg_ap_list g)) g]> (segs w)) w).
Proof.
  intros HI Eg Ex Hin Hh. pose proof (seg_all (inv_seg HI) s g Eg) as Hok.
  pose proof (length_unlink a _ (seg_aps_nodup Hok) Hin) as Hlen.
  set (g' := set_seg_ap_list (unlink a (seg_ap_list g)) g).
  split; cbn; try apply HI.
  - eapply TgInv_congr; [apply HI| | |done].
    + intros q. change (hash_of (set_segs _ w)) with (hash_of w). rewrite fmap_insert.
      change (seg_key g') with (seg_tg g, segid g, length (unlink a (seg_ap_list g))).
      rewrite <- (tg_refs_ap_link _ _ _ s (seg_tg g) (segid g) (length (unlink a (seg_ap_list g))))
        by apply lookup_insert_eq.
      rewrite insert_insert_eq, <- Hlen, insert_id; [done|]. by rewrite lookup_fmap, Eg.
    + intros p t s' _ _. rewrite fmap_insert, lookup_insert. case_decide as Hs; [|done].
      by rewrite <- Hs, lookup_fmap, Eg.
  - eapply SegInv_update; [apply HI|done| |].
    + intros q Hq. by apply mult_add_ne.
    + assert (seg_refs (list_of seg_list (tgs w)) (S ⊎ {[+ s +]}) s g'
              = seg_refs (list_of seg_list (tgs w)) S s g) as Er
        by (unfold seg_refs; cbn; rewrite mult_add_eq; lia).
      split; rewrite ?Er; try apply Hok; cbn.
      * apply NoDup_unlink, Hok.
      * intros b [_ Hb]%elem_of_unlink. by apply Hok.
  - eapply ApInv_congr; [apply HI|done| |done]. intros b y Ey Hb. rewrite list_of_insert.
    case_decide as Hs; [|done]. rewrite <- Hs, (list_of_Some _ _ _ g) by done. intros Hg. cbn.
    apply elem_of_unlink. split; [|done]. intros ->. by simplify_eq.
  - intros q Hq'. destruct (inv_fresh HI q Hq') as (? & ? & ? & ?). cbn. repeat split; try done.
    rewrite lookup_insert_ne; [done|]. by intros ->; simplify_eq.
Qed.

(** * Attachments *)

Definition link_att (a t : positive) x y w : world :=
  set_aps (<[a := set_ap_att_list (ap_att_list x ++ [t]) x]> (aps w))
    (set_atts (<[t := y]> (atts w)) (set_next_ptr (Pos.succ (next_ptr w)) w)).

Lemma ap_ok_att_link AH SA TA A a x t :
  ap_ok AH SA TA A a x -> a ∈ AH (ap_tg x) -> TA !! t = None ->
  ap_ok AH SA (<[t := a]> TA) A a (set_ap_att_list (ap_att_list x ++ [t]) x).
Proof.
  intros Hok Hh Ht.
  assert (forall q, q ∈ ap_att_list x -> t <> q) as Hn.
  { intros q Hq <-. pose proof (ap_atts Hok t Hq). congruence. }
  split; try apply Hok; cbn.
  - done.
  - apply NoDup_app. split; [apply Hok|]. split; [|apply NoDup_singleton].
    intros q Hq ->%list_elem_of_singleton. by eapply Hn.
  - intros q [Hq| ->%list_elem_of_singleton]%elem_of_app; [|by rewrite lookup_insert_eq].
    rewrite lookup_insert_ne by auto. by apply Hok.
Qed.

Lemma AttInv_link AT AL AL' B t y :
  AttInv AT AL B -> AT !! t = None -> multiplicity t B = 0%nat ->
  (forall q z, AT !! q = Some z -> q ∈ AL' (att_ap z) <-> q ∈ AL (att_ap z)) ->
  t ∈ AL' (att_ap y) -> att_refcnt y = 2 ->
  AttInv (<[t := y]> AT) AL' (B ⊎ {[+ t +]}).
Proof.
  intros HI Et Hm Hl Hin Hr. split.
  - intros q z. rewrite lookup_insert. case_decide as Hq.
    + intros [= <-]. subst q.
      assert (att_refs AL' (B ⊎ {[+ t +]}) t y = 2%nat) as Er
        by (unfold att_refs; rewrite mult_add_eq, Hm; by rewrite (b2n_true _ Hin)).
      split; rewrite ?Er; try done; lia.
    + intros Ez. pose proof (att_all HI q z Ez) as Hok.
      assert (att_refs AL' (B ⊎ {[+ t +]}) q z = att_refs AL B q z) as Er
        by (unfold att_refs; rewrite mult_add_ne by done; by rewrite (b2n_ext _ _ (Hl q z Ez))).
      split; rewrite ?Er, ?(Hl q z Ez); apply Hok.
  - intros q Hq. rewrite lookup_insert. case_decide as Hqt; [done|].
    apply (att_live HI). multiset_solver.
Qed.

(** A new attachment, referenced by the list of its permit and by its creator. *)
Lemma Inv_att_link T S A B w a x t y :
  Inv T S A B w -> aps w !! a = Some x -> a ∈ list_of hashed_aps (tgs w) (ap_tg x) ->
  t = next_ptr w -> att_ap y = a -> att_refcnt y = 2 ->
  Inv T S A (B ⊎ {[+ t +]}) (link_att a t x y w).
Proof.
  intros HI Ex Hh -> Hy Hr. set (t := next_ptr w).
  destruct (inv_fresh HI t) as (F1 & F2 & F3 & F4); [lia|].
  destruct (Inv_fresh_mult _ _ _ _ _ t HI) as (_ & _ & _ & M); [lia|].
  pose proof (ap_all (inv_ap HI) a x Ex) as Hok.
  assert ((att_ap <$> atts w) !! t = None) as F4' by (by rewrite lookup_fmap, F4).
  split; cbn; try apply HI.
  - rewrite (fmap_insert_same ap_key _ _ x) by done. apply HI.
  - rewrite (fmap_insert_same ap_seg _ _ x) by done. apply HI.
  - rewrite fmap_insert, Hy. eapply (ApInv_update _ _ _ _ A); [|done|done|by apply ap_ok_att_link].
    eapply ApInv_congr; [apply HI|done|done|]. intros a' x' q Ex' Hq. apply lookup_insert_ne.
    intros <-. pose proof (ap_atts (ap_all (inv_ap HI) a' x' Ex') t Hq). congruence.
  - eapply AttInv_link; [apply HI|done|done| | |done].
    + intros q z Ez. rewrite list_of_insert. case_decide as Ha; [|done]. cbn.
      rewrite <- Ha, (list_of_Some _ _ _ x), elem_of_app, list_elem_of_singleton by done.
      split; [|auto]. intros [|Hq]; [done|]. congruence.
    + rewrite list_of_insert, decide_True by done. cbn. set_solver.
  - eapply fresh_bump; [apply HI|done|done|done|done| |]; cbn; intros q Hq Hn.
    + rewrite lookup_insert_ne; [done|]. intros ->. congruence.
    + by rewrite lookup_insert_ne.
Qed.

(** Taking an attachment that is being destroyed off the list of its permit. *)
Lemma Inv_att_unlink T S A B w a x t y :
  Inv T S A B w -> aps w !! a = Some x -> atts w !! t = Some y -> t ∈ ap_att_list x ->
  has (att_flags y) XPMEM_FLAG_DESTROYING = true ->
  Inv T S A (B ⊎ {[+ t +]}) (set_aps (<[a := set_ap_att_list (unlink t (ap_att_list x)) x]> (aps w)) w).
Proof.
  intros HI Ex Ey Hin Hd. pose proof (ap_all (inv_ap HI) a x Ex) as Hok.
  assert (att_ap y = a) as Hy.
  { pose proof (ap_atts Hok t Hin) as E. rewrite lookup_fmap, Ey in E. cbn in E. congruence. }
  set (x' := set_ap_att_list (unlink t (ap_att_list x)) x).
  assert (forall q, q ∈ ap_att_list x' <-> q <> t /\ q ∈ ap_att_list x) as Hx'
    by (intros q; apply elem_of_unlink).
  assert (forall p, list_of ap_att_list (<[a := x']> (aps w)) p
                    = if decide (a = p) then ap_att_list x' else list_of ap_att_list (aps w) p) as HL
    by (intros; apply list_of_insert).
  split; cbn; try apply HI.
  - rewrite (fmap_insert_same ap_key _ _ x) by done. apply HI.
  - rewrite (fmap_insert_same ap_seg _ _ x) by done. apply HI.
  - eapply (ApInv_update _ _ _ _ A); [apply HI|done|done|]. split; try apply Hok; cbn.
    + intros Hn. destruct (ap_unlisted Hok Hn) as [? E]. by rewrite E.
    + apply NoDup_unlink, Hok.
    + intros q [_ Hq]%elem_of_unlink. by apply Hok.
  - split.
    + intros q z Ez. pose proof (att_all (inv_att HI) q z Ez) as Hz.
      destruct (decide (t = q)) as [<-|Hne].
      * assert (z = y) as -> by congruence. assert (t ∉ ap_att_list x') as Hn by (rewrite Hx'; tauto).
        assert (att_refs (list_of ap_att_list (<[a := x']> (aps w))) (B ⊎ {[+ t +]}) t y
                = att_refs (list_of ap_att_list (aps w)) B t y) as Er.
        { unfold att_refs. rewrite mult_add_eq, HL, Hy, decide_True by done.
          rewrite (b2n_false _ Hn), (list_of_Some _ _ _ x), (b2n_true _ Hin) by done. lia. }
        split; rewrite ?Er; try done; apply Hz.
      * assert (q ∈ list_of ap_att_list (<[a := x']> (aps w)) (att_ap z)
                <-> q ∈ list_of ap_att_list (aps w) (att_ap z)) as Hl.
        { rewrite HL. case_decide as Ha; [|done].
          rewrite <- Ha, (list_of_Some _ _ _ x), Hx' by done. naive_solver. }
        assert (att_refs (list_of ap_att_list (<[a := x']> (aps w))) (B ⊎ {[+ t +]}) q z
                = att_refs (list_of ap_att_list (aps w)) B q z) as Er.
        { unfold att_refs. rewrite mult_add_ne by done. by rewrite (b2n_ext _ _ Hl). }
        split; rewrite ?Er, ?Hl; apply Hz.
    + intros q Hq. destruct (decide (q = t)) as [->|]; [done|]. apply (att_live (inv_att HI)). multiset_solver.
  - by eapply fresh_ap_update; [apply HI|].
Qed.

(** * Thread groups *)

(** A thread group as [xpmem_open] publishes it. *)
Record tg_new (t : xpmem_thread_group) : Prop := {
  new_refcnt : tg_refcnt t = 1;
  new_leader : is_Some (group_leader t);
  new_tgid : 0 < tg_tgid t < 2 ^ 31;
  new_uniq : uniq_segid t = 0 /\ uniq_apid t = 0;
  new_segs : seg_list t = [];
  new_aps : ap_hashtable t = replicate 8 [];
  new_flags : tg_flags t = 0;
}.

Definition link_tg (p : positive) t pt w : world :=
  set_part (Some (set_tg_hashtable
    (bucket_add (xpmem_tg_hashtable_index (tg_tgid t)) p (tg_hashtable pt)) pt))
    (set_tgs (<[p := t]> (tgs w)) (set_next_ptr (Pos.succ (next_ptr w)) w)).

Lemma tg_ok_new H SK AK T p t :
  tg_new t -> tg_refs H SK T p = 1%nat -> p ∈ mjoin H -> tg_ok H SK AK T p t.
Proof.
  intros [E1 E2 E3 [E4 E4'] E5 E6 E7] Er Hin.
  assert (mjoin (replicate 8 []) = @nil positive) as Hnil by done.
  split; rewrite ?Er, ?E4, ?E4', ?E5, ?E6, ?E7; try done; try lia.
  - constructor.
  - by intros s ?%elem_of_nil.
  - by intros s s' k k' ?%elem_of_nil.
  - constructor.
  - intros i l a [-> _]%lookup_replicate. by intros ?%elem_of_nil.
  - rewrite Hnil. by intros a a' k k' ?%elem_of_nil.
Qed.

Lemma Inv_tg_link T S A B w p t pt :
  Inv T S A B w -> part w = Some pt -> p = next_ptr w -> tg_new t ->
  Inv T S A B (link_tg p t pt w).
Proof.
  intros HI Ep -> Hn. set (p := next_ptr w). set (i := xpmem_tg_hashtable_index (tg_tgid t)).
  destruct (inv_fresh HI p) as (F1 & F2 & F3 & F4); [lia|].
  pose proof (inv_tg HI) as HT. unfold hash_of in HT. rewrite Ep in HT.
  assert (mjoin (bucket_add i p (tg_hashtable pt)) ≡ₚ p :: mjoin (tg_hashtable pt)) as Hp
    by (apply bucket_add_perm; rewrite (hash_size HT); apply tg_index_lt).
  assert (tg_refs (tg_hashtable pt) (seg_key <$> segs w) T p = 0%nat) as Hz.
  { destruct (tg_refs (tg_hashtable pt) (seg_key <$> segs w) T p) eqn:E; [done|].
    destruct (tg_live HT p); [lia|]. congruence. }
  assert (p ∉ mjoin (tg_hashtable pt)) as Hnp.
  { intros Hin. unfold tg_refs in Hz. rewrite (b2n_true _ Hin) in Hz. lia. }
  assert (forall q, q <> p -> tg_refs (bucket_add i p (tg_hashtable pt)) (seg_key <$> segs w) T q
                   = tg_refs (tg_hashtable pt) (seg_key <$> segs w) T q) as Hq.
  { intros q ?. unfold tg_refs. rewrite (b2n_ext _ (q ∈ mjoin (tg_hashtable pt))); [done|].
    rewrite Hp, elem_of_cons. naive_solver. }
  split; cbn; try apply HI; try done.
  - unfold hash_of. cbn. fold i. split.
    + rewrite length_bucket_add. apply HT.
    + rewrite Hp. apply NoDup_cons. split; [done|apply HT].
    + intros j l q Ej Hin. destruct (lookup_bucket_add _ _ _ _ _ _ Ej Hin) as [[-> ->]|(l' & El & Hl)].
      * exists t. by rewrite lookup_insert_eq.
      * destruct (hash_entry HT j l' q El Hl) as (tq & Eq & ?). exists tq.
        rewrite lookup_insert_ne; [done|]. intros <-. congruence.
    + intros q tq. rewrite lookup_insert. case_decide as Hqp.
      * intros [= <-]. subst q. apply tg_ok_new; [done| |rewrite Hp; set_solver].
        unfold tg_refs in *. rewrite (b2n_false _ Hnp) in Hz.
        rewrite b2n_true by (rewrite Hp; set_solver). lia.
      * intros Eq. eapply tg_ok_congr; [by apply (tg_all HT)|by apply Hq| |done|done].
        rewrite Hp. set_solver.
    + intros q Hr. rewrite lookup_insert. case_decide as Hqp; [done|]. apply (tg_live HT).
      rewrite <- Hq; [done|]. intros ->. done.
  - eapply SegInv_congr; [apply HI| |done]. intros s g _. rewrite list_of_insert.
    case_decide as Hs; [|done]. rewrite <- Hs, (new_segs _ Hn). unfold list_of. by rewrite F1.
  - eapply ApInv_congr; [apply HI| |done|done]. intros a x _. rewrite list_of_insert.
    case_decide as Hs; [|done]. rewrite <- Hs, (new_aps _ Hn). unfold list_of. by rewrite F1.
  - eapply fresh_bump; [apply HI|done|done| |done|done|done]; cbn; intros q Hne Hnone.
    by rewrite lookup_insert_ne.
Qed.

(** Taking a destroyed thread group out of the hash table. *)
Lemma hash_unlink T S A B w p t :
  Inv T S A B w -> tgs w !! p = Some t -> p ∈ mjoin (hash_of w) ->
  mjoin (bucket_del (xpmem_tg_hashtable_index (tg_tgid t)) p (hash_of w)) = unlink p (mjoin (hash_of w)).
Proof.
  intros HI Et Hin. pose proof (inv_tg HI) as HT.
  pose proof Hin as (l & Hl & [j Hj]%list_elem_of_lookup)%list_elem_of_join.
  destruct (hash_entry HT j l p Hj Hl) as (t' & Et' & Ej). simplify_eq.
  by eapply bucket_del_unlink; [apply HT|..].
Qed.

Lemma Inv_tg_unhash T S A B w p t pt :
  Inv T S A B w -> part w = Some pt -> tgs w !! p = Some t -> p ∈ mjoin (tg_hashtable pt) ->
  has (tg_flags t) XPMEM_FLAG_DESTROYED = true ->
  Inv (T ⊎ {[+ p +]}) S A B (set_part (Some (set_tg_hashtable
    (bucket_del (xpmem_tg_hashtable_index (tg_tgid t)) p (tg_hashtable pt)) pt)) w).
Proof.
  intros HI Ep Et Hin Hd. set (i := xpmem_tg_hashtable_index (tg_tgid t)).
  pose proof (inv_tg HI) as HT. unfold hash_of in HT. rewrite Ep in HT.
  assert (mjoin (bucket_del i p (tg_hashtable pt)) = unlink p (mjoin (tg_hashtable pt))) as Hp.
  { pose proof (hash_unlink _ _ _ _ _ _ _ HI Et) as H. unfold hash_of in H. rewrite Ep in H. by apply H. }
  assert (forall q, tg_refs (bucket_del i p (tg_hashtable pt)) (seg_key <$> segs w) (T ⊎ {[+ p +]}) q
                   = tg_refs (tg_hashtable pt) (seg_key <$> segs w) T q) as Hq.
  { intros q. unfold tg_refs. rewrite mult_add, Hp. destruct (decide (p = q)) as [<-|Hne].
    - rewrite (b2n_true _ Hin), b2n_false by (rewrite elem_of_unlink; tauto). lia.
    - rewrite (b2n_ext _ (q ∈ mjoin (tg_hashtable pt))); [lia|]. rewrite elem_of_unlink. naive_solver. }
  split; cbn; try apply HI; try done.
  unfold hash_of. cbn. fold i. split.
  - rewrite length_bucket_del. apply HT.
  - rewrite Hp. apply NoDup_unlink, HT.
  - intros j l q Ej Hl. destruct (lookup_bucket_del _ _ _ _ _ _ Ej Hl) as (l' & El & Hl').
    by eapply (hash_entry HT).
  - intros q tq Eq. pose proof (tg_all HT q tq Eq) as Hok.
    split; rewrite ?Hq; try apply Hok. rewrite Hp. intros Hn.
    destruct (decide (q = p)) as [->|]; [congruence|]. apply Hok. intros Hh. apply Hn.
    by apply elem_of_unlink.
  - intros q Hr. apply (tg_live HT). by rewrite <- Hq.
Qed.

(** * Bounds *)

(** The references on a thread group are bounded by the number of permits. *)
Lemma permits_of_segs T S A B w m :
  Inv T S A B w -> m ⊆ segs w ->
  exists l, NoDup l /\ length l = map_sum (fun g => length (seg_ap_list g)) m /\
    forall a, a ∈ l -> exists s g, m !! s = Some g /\ a ∈ seg_ap_list g.
Proof.
  intros HI. induction m as [|s g m Hs IH] using map_ind; intros Hm.
  - exists []. split; [constructor|]. split; [done|]. by intros a ?%elem_of_nil.
  - assert (segs w !! s = Some g) as Eg by (eapply lookup_weaken; [apply lookup_insert_eq|done]).
    destruct IH as (l & Hl & Hlen & Hin).
    { etrans; [|done]. by apply insert_subseteq. }
    exists (seg_ap_list g ++ l). split; [|split].
    + apply NoDup_app. split; [apply (seg_all (inv_seg HI) s g Eg)|]. split; [|done].
      intros a Ha Hal. destruct (Hin a Hal) as (s' & g' & Es' & Ha').
      assert (segs w !! s' = Some g') as Eg'.
      { eapply lookup_weaken; [|done]. rewrite lookup_insert_ne; [done|]. intros ->. congruence. }
      pose proof (seg_aps (seg_all (inv_seg HI) s g Eg) a Ha).
      pose proof (seg_aps (seg_all (inv_seg HI) s' g' Eg') a Ha'). simplify_eq.
    + rewrite length_app, Hlen, map_sum_insert by done. done.
    + intros a [Ha|Ha]%elem_of_app.
      * exists s, g. by rewrite lookup_insert_eq.
      * destruct (Hin a Ha) as (s' & g' & Es' & Ha'). exists s', g'.
        rewrite lookup_insert_ne; [done|]. intros ->. congruence.
Qed.

Lemma permits_bound T S A B w :
  Inv T S A B w -> (map_sum (fun g => length (seg_ap_list g)) (segs w) <= base.size (aps w))%nat.
Proof.
  intros HI. destruct (permits_of_segs T S A B w (segs w) HI) as (l & Hl & <- & Hin); [done|].
  assert (length l = base.size (list_to_set l : gset positive)) as -> by (by rewrite size_list_to_set).
  rewrite <- size_dom. apply subseteq_size. intros a Ha%elem_of_list_to_set.
  destruct (Hin a Ha) as (s & g & Eg & Hg).
  pose proof (seg_aps (seg_all (inv_seg HI) s g Eg) a Hg) as E.
  apply elem_of_dom. rewrite lookup_fmap in E. destruct (aps w !! a); [done|]. done.
Qed.

Lemma tgrefs_bound T S A B w p :
  Inv T S A B w -> (tgrefs T w p <= 1 + base.size (aps w) + multiplicity p T)%nat.
Proof.
  intros HI. unfold tgrefs, tg_refs.
  assert (map_sum (key_refs p) (seg_key <$> segs w)
          <= map_sum (fun g => length (seg_ap_list g)) (segs w))%nat as Hle.
  { clear HI. induction (segs w) as [|s g m Hs IH] using map_ind; [done|].
    rewrite fmap_insert, !map_sum_insert by (try done; by rewrite lookup_fmap, Hs).
    unfold key_refs at 1, seg_key at 1. cbn. case_decide; lia. }
  pose proof (permits_bound _ _ _ _ _ HI). unfold b2n. case_decide; lia.
Qed.

Lemma segrefs_bound T S A B w s g :
  Inv T S A B w -> segs w !! s = Some g ->
  (segrefs S w s g <= 1 + base.size (aps w) + multiplicity s S)%nat.
Proof.
  intros HI Eg. pose proof (permits_bound _ _ _ _ _ HI).
  pose proof (map_sum_ge (fun g => length (seg_ap_list g)) (segs w) s g Eg) as Hs. cbn in Hs.
  unfold segrefs, seg_refs, b2n. case_decide; lia.
Qed.
End link.
