(* ===== verification/Refs.v ===== *)
(** Worlds up to reference counts.

    [w ≡ w'] when the two worlds only differ in reference counts.  Taking and
    dropping references stays within a class, and the invariant determines the
    counts ([Inv_equiv_eq]): a path that drops every reference it took leaves
    exactly the world it found. *)

From S2P Require Import Prelude Kernel World Monad Ids Misc Inv Graph Link.

Section refs.
Context `{K : Kernel}.
Implicit Types (T S A B : gmultiset positive) (w : world).

Definition erase w : world :=
  set_tgs (set_tg_refcnt 0 <$> tgs w) (set_segs (set_seg_refcnt 0 <$> segs w)
    (set_aps (set_ap_refcnt 0 <$> aps w) (set_atts (set_att_refcnt 0 <$> atts w) w))).

Record same_but_counts w w' : Prop := { same_erase : erase w = erase w' }.
#[global] Instance world_equiv : Equiv world := same_but_counts.

#[global] Instance world_equivalence : Equivalence (≡@{world}).
Proof.
  split.
  - by intros w.
  - intros w w' [H]. by constructor.
  - intros w1 w2 w3 [H1] [H2]. constructor. by transitivity (erase w2).
Qed.

(** * What equivalent worlds share *)

Lemma equiv_part w w' : w ≡ w' -> part w = part w'.
Proof. intros [H]. exact (f_equal part H). Qed.
Lemma equiv_next_ptr w w' : w ≡ w' -> next_ptr w = next_ptr w'.
Proof. intros [H]. exact (f_equal next_ptr H). Qed.
Lemma equiv_held w w' : w ≡ w' -> held w = held w'.
Proof. intros [H]. exact (f_equal held H). Qed.
Lemma equiv_vmas w w' : w ≡ w' -> vmas w = vmas w'.
Proof. intros [H]. exact (f_equal vmas H). Qed.
Lemma equiv_pgt w w' : w ≡ w' -> pgt w = pgt w'.
Proof. intros [H]. exact (f_equal pgt H). Qed.
Lemma equiv_pages w w' : w ≡ w' -> pages w = pages w'.
Proof. intros [H]. exact (f_equal pages H). Qed.

Lemma erase_tgs w w' : w ≡ w' -> set_tg_refcnt 0 <$> tgs w = set_tg_refcnt 0 <$> tgs w'.
Proof. intros [H]. exact (f_equal tgs H). Qed.
Lemma erase_segs w w' : w ≡ w' -> set_seg_refcnt 0 <$> segs w = set_seg_refcnt 0 <$> segs w'.
Proof. intros [H]. exact (f_equal segs H). Qed.
Lemma erase_aps w w' : w ≡ w' -> set_ap_refcnt 0 <$> aps w = set_ap_refcnt 0 <$> aps w'.
Proof. intros [H]. exact (f_equal aps H). Qed.
Lemma erase_atts w w' : w ≡ w' -> set_att_refcnt 0 <$> atts w = set_att_refcnt 0 <$> atts w'.
Proof. intros [H]. exact (f_equal atts H). Qed.

Section fields.
Context {V : Type} (norm : V -> V).

Lemma fmap_norm {U} (f : V -> U) (m m' : gmap positive V) :
  (forall v, f (norm v) = f v) -> norm <$> m = norm <$> m' -> f <$> m = f <$> m'.
Proof.
  intros Hf E. rewrite <- (map_fmap_ext (f ∘ norm) f m) by (intros; apply Hf).
  rewrite <- (map_fmap_ext (f ∘ norm) f m') by (intros; apply Hf).
  by rewrite !map_fmap_compose, E.
Qed.

Lemma lookup_norm (m m' : gmap positive V) p v :
  norm <$> m = norm <$> m' -> m !! p = Some v -> exists v', m' !! p = Some v' /\ norm v = norm v'.
Proof.
  intros E Ev. assert ((norm <$> m') !! p = Some (norm v)) as H
    by (by rewrite <- E, lookup_fmap, Ev).
  rewrite lookup_fmap in H. destruct (m' !! p) as [v'|]; [|done]. cbn in H.
  exists v'. split; [done|congruence].
Qed.

Lemma map_norm_eq (m m' : gmap positive V) :
  norm <$> m = norm <$> m' ->
  (forall p v v', m !! p = Some v -> m' !! p = Some v' -> norm v = norm v' -> v = v') -> m = m'.
Proof.
  intros E Hv. apply map_eq. intros p. destruct (m !! p) as [v|] eqn:Ev.
  - destruct (lookup_norm _ _ _ _ E Ev) as (v' & Ev' & En). rewrite Ev'. f_equal. eauto.
  - destruct (m' !! p) as [v'|] eqn:Ev'; [|done].
    destruct (lookup_norm _ _ _ _ (symmetry E) Ev') as (? & ? & ?). congruence.
Qed.
End fields.

Lemma norm_tg t t' : set_tg_refcnt 0 t = set_tg_refcnt 0 t' -> t' = set_tg_refcnt (tg_refcnt t') t.
Proof. destruct t, t'; unfold set_tg_refcnt; cbn. by intros [= <-]; subst. Qed.
Lemma norm_seg t t' : set_seg_refcnt 0 t = set_seg_refcnt 0 t' -> t' = set_seg_refcnt (seg_refcnt t') t.
Proof. destruct t, t'; unfold set_seg_refcnt; cbn. by intros [= <-]; subst. Qed.
Lemma norm_ap t t' : set_ap_refcnt 0 t = set_ap_refcnt 0 t' -> t' = set_ap_refcnt (ap_refcnt t') t.
Proof. destruct t, t'; unfold set_ap_refcnt; cbn. by intros [= <-]; subst. Qed.
Lemma norm_att t t' : set_att_refcnt 0 t = set_att_refcnt 0 t' -> t' = set_att_refcnt (att_refcnt t') t.
Proof. destruct t, t'; unfold set_att_refcnt; cbn. by intros [= <-]; subst. Qed.

Lemma equiv_tg w w' p t :
  w ≡ w' -> tgs w !! p = Some t -> exists n, tgs w' !! p = Some (set_tg_refcnt n t).
Proof.
  intros H E. destruct (lookup_norm _ _ _ _ _ (erase_tgs _ _ H) E) as (t' & E' & Et%norm_tg).
  exists (tg_refcnt t'). by rewrite <- Et.
Qed.
Lemma equiv_seg w w' p t :
  w ≡ w' -> segs w !! p = Some t -> exists n, segs w' !! p = Some (set_seg_refcnt n t).
Proof.
  intros H E. destruct (lookup_norm _ _ _ _ _ (erase_segs _ _ H) E) as (t' & E' & Et%norm_seg).
  exists (seg_refcnt t'). by rewrite <- Et.
Qed.
Lemma equiv_ap w w' p t :
  w ≡ w' -> aps w !! p = Some t -> exists n, aps w' !! p = Some (set_ap_refcnt n t).
Proof.
  intros H E. destruct (lookup_norm _ _ _ _ _ (erase_aps _ _ H) E) as (t' & E' & Et%norm_ap).
  exists (ap_refcnt t'). by rewrite <- Et.
Qed.
Lemma equiv_att w w' p t :
  w ≡ w' -> atts w !! p = Some t -> exists n, atts w' !! p = Some (set_att_refcnt n t).
Proof.
  intros H E. destruct (lookup_norm _ _ _ _ _ (erase_atts _ _ H) E) as (t' & E' & Et%norm_att).
  exists (att_refcnt t'). by rewrite <- Et.
Qed.

(** Any view that does not look at the counts. *)
Lemma equiv_tgs {U} (f : xpmem_thread_group -> U) w w' :
  (forall t, f (set_tg_refcnt 0 t) = f t) -> w ≡ w' -> f <$> tgs w = f <$> tgs w'.
Proof. intros Hf H. exact (fmap_norm _ f _ _ Hf (erase_tgs _ _ H)). Qed.
Lemma equiv_segs {U} (f : xpmem_segment -> U) w w' :
  (forall t, f (set_seg_refcnt 0 t) = f t) -> w ≡ w' -> f <$> segs w = f <$> segs w'.
Proof. intros Hf H. exact (fmap_norm _ f _ _ Hf (erase_segs _ _ H)). Qed.
Lemma equiv_aps {U} (f : xpmem_access_permit -> U) w w' :
  (forall t, f (set_ap_refcnt 0 t) = f t) -> w ≡ w' -> f <$> aps w = f <$> aps w'.
Proof. intros Hf H. exact (fmap_norm _ f _ _ Hf (erase_aps _ _ H)). Qed.
Lemma equiv_atts {U} (f : xpmem_attachment -> U) w w' :
  (forall t, f (set_att_refcnt 0 t) = f t) -> w ≡ w' -> f <$> atts w = f <$> atts w'.
Proof. intros Hf H. exact (fmap_norm _ f _ _ Hf (erase_atts _ _ H)). Qed.

Lemma equiv_size w w' : w ≡ w' -> base.size (aps w) = base.size (aps w').
Proof.
  intros H. rewrite <- (map_size_fmap (set_ap_refcnt 0) (aps w)).
  by rewrite (erase_aps w w' H), map_size_fmap.
Qed.

Lemma list_of_fmap {V} (f : V -> list positive) (m m' : gmap positive V) p :
  f <$> m = f <$> m' -> list_of f m p = list_of f m' p.
Proof.
  intros E. unfold list_of. assert ((f <$> m) !! p = (f <$> m') !! p) as H by (by rewrite E).
  rewrite !lookup_fmap in H. destruct (m !! p), (m' !! p); cbn in H; congruence.
Qed.

(** * Updates respect the equivalence *)

#[global] Instance set_held_proper L : Proper ((≡@{world}) ==> (≡@{world})) (set_held L).
Proof. intros w w' [H]. constructor. exact (f_equal (set_held L) H). Qed.
#[global] Instance set_next_ptr_proper L : Proper ((≡@{world}) ==> (≡@{world})) (set_next_ptr L).
Proof. intros w w' [H]. constructor. exact (f_equal (set_next_ptr L) H). Qed.
#[global] Instance set_part_proper L : Proper ((≡@{world}) ==> (≡@{world})) (set_part L).
Proof. intros w w' [H]. constructor. exact (f_equal (set_part L) H). Qed.
#[global] Instance set_vmas_proper X : Proper ((≡@{world}) ==> (≡@{world})) (set_vmas X).
Proof. intros w w' [H]. constructor. exact (f_equal (set_vmas X) H). Qed.
#[global] Instance set_pgt_proper X : Proper ((≡@{world}) ==> (≡@{world})) (set_pgt X).
Proof. intros w w' [H]. constructor. exact (f_equal (set_pgt X) H). Qed.
#[global] Instance set_pages_proper X : Proper ((≡@{world}) ==> (≡@{world})) (set_pages X).
Proof. intros w w' [H]. constructor. exact (f_equal (set_pages X) H). Qed.

Lemma equiv_insert_tg w w' p t t' :
  w ≡ w' -> set_tg_refcnt 0 t = set_tg_refcnt 0 t' ->
  set_tgs (<[p := t]> (tgs w)) w ≡ set_tgs (<[p := t']> (tgs w')) w'.
Proof.
  intros H Et. constructor. unfold erase. cbn. rewrite !fmap_insert, Et.
  rewrite (erase_tgs w w' H).
  exact (f_equal (set_tgs (<[p := set_tg_refcnt 0 t']> (set_tg_refcnt 0 <$> tgs w'))) (same_erase _ _ H)).
Qed.

Lemma equiv_insert_seg w w' p t t' :
  w ≡ w' -> set_seg_refcnt 0 t = set_seg_refcnt 0 t' ->
  set_segs (<[p := t]> (segs w)) w ≡ set_segs (<[p := t']> (segs w')) w'.
Proof.
  intros H Et. constructor. unfold erase. cbn. rewrite !fmap_insert, Et.
  rewrite (erase_segs w w' H).
  exact (f_equal (set_segs (<[p := set_seg_refcnt 0 t']> (set_seg_refcnt 0 <$> segs w'))) (same_erase _ _ H)).
Qed.

Lemma equiv_insert_ap w w' p t t' :
  w ≡ w' -> set_ap_refcnt 0 t = set_ap_refcnt 0 t' ->
  set_aps (<[p := t]> (aps w)) w ≡ set_aps (<[p := t']> (aps w')) w'.
Proof.
  intros H Et. constructor. unfold erase. cbn. rewrite !fmap_insert, Et.
  rewrite (erase_aps w w' H).
  exact (f_equal (set_aps (<[p := set_ap_refcnt 0 t']> (set_ap_refcnt 0 <$> aps w'))) (same_erase _ _ H)).
Qed.

Lemma equiv_insert_att w w' p t t' :
  w ≡ w' -> set_att_refcnt 0 t = set_att_refcnt 0 t' ->
  set_atts (<[p := t]> (atts w)) w ≡ set_atts (<[p := t']> (atts w')) w'.
Proof.
  intros H Et. constructor. unfold erase. cbn. rewrite !fmap_insert, Et.
  rewrite (erase_atts w w' H).
  exact (f_equal (set_atts (<[p := set_att_refcnt 0 t']> (set_att_refcnt 0 <$> atts w'))) (same_erase _ _ H)).
Qed.

(** * The invariant determines the counts *)

Lemma Inv_equiv_eq T S A B w w' : Inv T S A B w -> Inv T S A B w' -> w ≡ w' -> w = w'.
Proof.
  intros HI HI' H.
  assert (seg_key <$> segs w = seg_key <$> segs w') as Ek by (by apply equiv_segs).
  assert (hash_of w = hash_of w') as Eh by (unfold hash_of; by rewrite (equiv_part w w' H)).
  assert (forall p, list_of seg_list (tgs w) p = list_of seg_list (tgs w') p) as El
    by (intros; apply list_of_fmap; by apply equiv_tgs).
  assert (forall p, list_of hashed_aps (tgs w) p = list_of hashed_aps (tgs w') p) as Ea
    by (intros; apply list_of_fmap; by apply equiv_tgs).
  assert (forall p, list_of ap_att_list (aps w) p = list_of ap_att_list (aps w') p) as Et
    by (intros; apply list_of_fmap; by apply equiv_aps).
  assert (tgs w = tgs w') as E1.
  { eapply map_norm_eq; [by apply erase_tgs|]. intros p t t' Et1 Et2 En.
    pose proof (tg_count (tg_all (inv_tg HI) p t Et1)) as C.
    pose proof (tg_count (tg_all (inv_tg HI') p t' Et2)) as C'.
    rewrite <- Eh, <- Ek, <- C in C'. apply norm_tg in En. rewrite En, C'. by destruct t. }
  assert (segs w = segs w') as E2.
  { eapply map_norm_eq; [by apply erase_segs|]. intros p t t' Et1 Et2 En.
    pose proof (seg_count (seg_all (inv_seg HI) p t Et1)) as C.
    pose proof (seg_count (seg_all (inv_seg HI') p t' Et2)) as C'.
    apply norm_seg in En. unfold seg_refs in C, C'. rewrite <- El, En in C'. cbn in C'.
    rewrite <- C in C'. rewrite En, C'. by destruct t. }
  assert (aps w = aps w') as E3.
  { eapply map_norm_eq; [by apply erase_aps|]. intros p t t' Et1 Et2 En.
    pose proof (ap_count (ap_all (inv_ap HI) p t Et1)) as C.
    pose proof (ap_count (ap_all (inv_ap HI') p t' Et2)) as C'.
    change (fun t => mjoin (ap_hashtable t)) with hashed_aps in *.
    apply norm_ap in En. unfold ap_refs in C, C'. rewrite <- Ea, En in C'. cbn in C'.
    rewrite <- C in C'. rewrite En, C'. by destruct t. }
  assert (atts w = atts w') as E4.
  { eapply map_norm_eq; [by apply erase_atts|]. intros p t t' Et1 Et2 En.
    pose proof (att_count (att_all (inv_att HI) p t Et1)) as C.
    pose proof (att_count (att_all (inv_att HI') p t' Et2)) as C'.
    apply norm_att in En. unfold att_refs in C, C'. rewrite <- Et, En in C'. cbn in C'.
    rewrite <- C in C'. rewrite En, C'. by destruct t. }
  clear -H E1 E2 E3 E4. destruct H as [H]. destruct w, w'. unfold erase in H. cbn in *.
  by simplify_eq.
Qed.

(** The invariant determines every reference count: two states that agree on everything else
    and satisfy the invariant with the same references held by running code are equal.  A path
    that drops all the references it took restores the state exactly. *)
Theorem refcounts_determined T S A B w w' :
  Inv T S A B w -> Inv T S A B w' -> erase w = erase w' -> w = w'.
Proof. intros HI HI' E. by eapply Inv_equiv_eq. Qed.
End refs.
