(* ===== verification/Lookup.v ===== *)
(** What the look-ups find (xpmem_misc.c): the look-ups of thread groups,
    segments and permits return the first live object with the identifier, with
    a reference on it, or [- ENOENT]; they change nothing but that reference. *)

From S2P Require Import Prelude Kernel World Monad Ids Misc Inv Graph Link Refs.

(** * The first entry of a list that satisfies a test *)

Section first_where.
Context {V : Type}.
Implicit Types (P : V -> bool) (m : gmap positive V) (l : list positive).

Fixpoint first_where P m l : option positive :=
  match l with
  | [] => None
  | p :: l =>
      match m !! p with
      | Some v => if P v then Some p else first_where P m l
      | None => None
      end
  end.

Lemma first_where_Some P m l p :
  first_where P m l = Some p -> p ∈ l /\ exists v, m !! p = Some v /\ P v = true.
Proof.
  induction l as [|q l IH]; [done|]. cbn. destruct (m !! q) as [v|] eqn:E; [|done].
  destruct (P v) eqn:HP.
  - intros [= ->]. split; [apply list_elem_of_here|eauto].
  - intros (? & ?)%IH. split; [by apply list_elem_of_further|done].
Qed.

Lemma first_where_None P m l p v :
  (forall q, q ∈ l -> is_Some (m !! q)) -> first_where P m l = None ->
  p ∈ l -> m !! p = Some v -> P v = false.
Proof.
  induction l as [|q l IH]; [by intros _ _ ?%elem_of_nil|]. intros Hl. cbn.
  destruct (Hl q) as [v' E]; [apply list_elem_of_here|]. rewrite E. destruct (P v') eqn:HP; [done|].
  intros H [->|Hp]%elem_of_cons; [congruence|]. apply IH; [|done|done].
  intros ??. apply Hl. by apply list_elem_of_further.
Qed.

Lemma first_where_unique P m l p v :
  (forall q, q ∈ l -> is_Some (m !! q)) -> p ∈ l -> m !! p = Some v -> P v = true ->
  (forall q v', q ∈ l -> m !! q = Some v' -> P v' = true -> q = p) ->
  first_where P m l = Some p.
Proof.
  intros Hl Hp Ep HP Hu. destruct (first_where P m l) as [q|] eqn:E.
  - apply first_where_Some in E as (Hq & v' & Eq & HP'). f_equal. eauto.
  - by rewrite (first_where_None P m l p v) in HP.
Qed.

Lemma first_where_ext P m m' l : P <$> m = P <$> m' -> first_where P m l = first_where P m' l.
Proof.
  intros E. induction l as [|q l IH]; [done|]. cbn.
  assert ((P <$> m) !! q = (P <$> m') !! q) as H by (by rewrite E). rewrite !lookup_fmap in H.
  destruct (m !! q), (m' !! q); cbn in H; simplify_eq; try done. by rewrite H, IH.
Qed.
End first_where.

(** * What there is to find *)

Section find.
Context `{K : Kernel}.
Implicit Types (w : world).

Definition is_tg (tgid : Z) (destroying_too : bool) (t : xpmem_thread_group) : bool :=
  (tg_tgid t =? tgid) && (destroying_too || negb (has (tg_flags t) XPMEM_FLAG_DESTROYING)).
Definition is_seg (id : Z) (s : xpmem_segment) : bool :=
  (segid s =? id) && negb (has (seg_flags s) XPMEM_FLAG_DESTROYING).
Definition is_ap (id : Z) (a : xpmem_access_permit) : bool :=
  (apid a =? id) && negb (has (ap_flags a) XPMEM_FLAG_DESTROYING).

Definition bucket (h : list (list positive)) (i : nat) : list positive := default [] (h !! i).

(** The live thread group [tgid], its live segment [id], its live permit [id]. *)
Definition find_tg_gen w tgid d : option positive :=
  first_where (is_tg tgid d) (tgs w) (bucket (hash_of w) (xpmem_tg_hashtable_index tgid)).
Definition find_tg w tgid : option positive := find_tg_gen w tgid false.
Definition find_seg w tg id : option positive :=
  first_where (is_seg id) (segs w) (list_of seg_list (tgs w) tg).
Definition find_ap w tg id : option positive :=
  first_where (is_ap id) (aps w)
    (list_of (fun t => bucket (ap_hashtable t) (xpmem_ap_hashtable_index id)) (tgs w) tg).

#[global] Instance find_tg_gen_proper : Proper ((≡@{world}) ==> (=) ==> (=) ==> (=)) find_tg_gen.
Proof.
  intros w w' H tgid ? <- d ? <-. unfold find_tg_gen, hash_of. rewrite (equiv_part _ _ H).
  apply first_where_ext. by apply equiv_tgs.
Qed.
#[global] Instance find_tg_proper : Proper ((≡@{world}) ==> (=) ==> (=)) find_tg.
Proof. intros w w' H tgid ? <-. by apply find_tg_gen_proper. Qed.
#[global] Instance find_seg_proper : Proper ((≡@{world}) ==> (=) ==> (=) ==> (=)) find_seg.
Proof.
  intros w w' H tg ? <- id ? <-. unfold find_seg.
  rewrite (list_of_fmap seg_list (tgs w) (tgs w') tg) by (by apply equiv_tgs).
  apply first_where_ext. by apply equiv_segs.
Qed.
#[global] Instance find_ap_proper : Proper ((≡@{world}) ==> (=) ==> (=) ==> (=)) find_ap.
Proof.
  intros w w' H tg ? <- id ? <-. unfold find_ap.
  rewrite (list_of_fmap _ (tgs w) (tgs w') tg) by (by apply equiv_tgs).
  apply first_where_ext. by apply equiv_aps.
Qed.

Lemma find_tg_equiv w w' tgid : w ≡ w' -> find_tg w tgid = find_tg w' tgid.
Proof. by intros ->. Qed.
Lemma find_seg_equiv w w' tg id : w ≡ w' -> find_seg w tg id = find_seg w' tg id.
Proof. by intros ->. Qed.
Lemma find_ap_equiv w w' tg id : w ≡ w' -> find_ap w tg id = find_ap w' tg id.
Proof. by intros ->. Qed.
End find.

(** * References, up to counts *)

Section lookup.
Context `{K : Kernel}.
Implicit Types (T S A B : gmultiset positive) (w : world).

(** What keeps the reference counts within an [int]: fewer than 2^30 permits
    in the system, and few references held by the running code. *)
Definition permits_ok w : Prop := Z.of_nat (base.size (aps w)) < 2 ^ 30.
Definition few (X : gmultiset positive) : Prop := (base.size X <= 64)%nat.

Lemma mult_size (X : gmultiset positive) p : (multiplicity p X <= base.size X)%nat.
Proof.
  induction X as [|q X IH] using gmultiset_ind; [rewrite multiplicity_empty; lia|].
  rewrite gmultiset_size_disj_union, gmultiset_size_singleton, multiplicity_disj_union,
    multiplicity_singleton. case_decide; lia.
Qed.

#[global] Instance permits_ok_proper : Proper ((≡@{world}) ==> iff) permits_ok.
Proof. intros w w' H. unfold permits_ok. by rewrite (equiv_size _ _ H). Qed.

Lemma tg_room T S A B w p :
  Inv T S A B w -> permits_ok w -> few T -> Z.of_nat (tgrefs T w p) + 1 < 2 ^ 31.
Proof.
  intros HI Hw HT. pose proof (tgrefs_bound _ _ _ _ _ p HI). pose proof (mult_size T p).
  unfold permits_ok, few in *. lia.
Qed.

Lemma seg_room T S A B w s g :
  Inv T S A B w -> permits_ok w -> few S -> segs w !! s = Some g ->
  Z.of_nat (segrefs S w s g) + 1 < 2 ^ 31.
Proof.
  intros HI Hw HT E. pose proof (segrefs_bound _ _ _ _ _ _ _ HI E). pose proof (mult_size S s).
  unfold permits_ok, few in *. lia.
Qed.

Lemma ap_room A w a x : few A -> Z.of_nat (aprefs A w a x) + 1 < 2 ^ 31.
Proof.
  intros HA. pose proof (mult_size A a). unfold few, aprefs, ap_refs, b2n in *. case_decide; lia.
Qed.

Lemma att_room B w t y : few B -> Z.of_nat (attrefs B w t y) + 1 < 2 ^ 31.
Proof.
  intros HB. pose proof (mult_size B t). unfold few, attrefs, att_refs, b2n in *. case_decide; lia.
Qed.

Lemma equiv_tg_refcnt w p t n :
  tgs w !! p = Some t -> set_tgs (<[p := set_tg_refcnt n t]> (tgs w)) w ≡ w.
Proof.
  intros E. transitivity (set_tgs (<[p := t]> (tgs w)) w); [by apply equiv_insert_tg|].
  rewrite insert_id by done. by destruct w.
Qed.
Lemma equiv_seg_refcnt w p t n :
  segs w !! p = Some t -> set_segs (<[p := set_seg_refcnt n t]> (segs w)) w ≡ w.
Proof.
  intros E. transitivity (set_segs (<[p := t]> (segs w)) w); [by apply equiv_insert_seg|].
  rewrite insert_id by done. by destruct w.
Qed.
Lemma equiv_ap_refcnt w p t n :
  aps w !! p = Some t -> set_aps (<[p := set_ap_refcnt n t]> (aps w)) w ≡ w.
Proof.
  intros E. transitivity (set_aps (<[p := t]> (aps w)) w); [by apply equiv_insert_ap|].
  rewrite insert_id by done. by destruct w.
Qed.
Lemma equiv_att_refcnt w p t n :
  atts w !! p = Some t -> set_atts (<[p := set_att_refcnt n t]> (atts w)) w ≡ w.
Proof.
  intros E. transitivity (set_atts (<[p := t]> (atts w)) w); [by apply equiv_insert_att|].
  rewrite insert_id by done. by destruct w.
Qed.

(** Taking a reference. *)
Lemma tg_ref_ok T S A B w p t :
  Inv T S A B w -> permits_ok w -> few T -> tgs w !! p = Some t ->
  wp (xpmem_tg_ref p) (fun _ w' => Inv (T ⊎ {[+ p +]}) S A B w' /\ w' ≡ w) w.
Proof.
  intros HI Hw HT E. eapply wp_mono; [by eapply wp_tg_ref, tg_room|].
  intros _ w' [-> HI']. split; [done|]. by apply equiv_tg_refcnt.
Qed.
Lemma seg_ref_ok T S A B w s g :
  Inv T S A B w -> permits_ok w -> few S -> segs w !! s = Some g ->
  wp (xpmem_seg_ref s) (fun _ w' => Inv T (S ⊎ {[+ s +]}) A B w' /\ w' ≡ w) w.
Proof.
  intros HI Hw HT E. eapply wp_mono; [by eapply wp_seg_ref, seg_room|].
  intros _ w' [-> HI']. split; [done|]. by apply equiv_seg_refcnt.
Qed.
Lemma ap_ref_ok T S A B w a x :
  Inv T S A B w -> few A -> aps w !! a = Some x ->
  wp (xpmem_ap_ref a) (fun _ w' => Inv T S (A ⊎ {[+ a +]}) B w' /\ w' ≡ w) w.
Proof.
  intros HI HT E. eapply wp_mono; [by eapply wp_ap_ref, ap_room|].
  intros _ w' [-> HI']. split; [done|]. by apply equiv_ap_refcnt.
Qed.
Lemma att_ref_ok T S A B w t y :
  Inv T S A B w -> few B -> atts w !! t = Some y ->
  wp (xpmem_att_ref t) (fun _ w' => Inv T S A (B ⊎ {[+ t +]}) w' /\ w' ≡ w) w.
Proof.
  intros HI HT E. eapply wp_mono; [by eapply wp_att_ref, att_room|].
  intros _ w' [-> HI']. split; [done|]. by apply equiv_att_refcnt.
Qed.

(** Dropping a reference that is not the last one. *)
Lemma tg_deref_ok T S A B w p :
  Inv (T ⊎ {[+ p +]}) S A B w -> (0 < tgrefs T w p)%nat ->
  wp (xpmem_tg_deref p) (fun _ w' => Inv T S A B w' /\ w' ≡ w) w.
Proof.
  intros HI Hp. destruct (tg_token _ _ _ _ _ _ HI) as (t & E & _).
  eapply wp_mono; [by apply wp_tg_deref|]. intros _ w' (HI' & _ & Hw).
  split; [done|]. rewrite (Hw t E Hp). by apply equiv_tg_refcnt.
Qed.
Lemma seg_deref_ok T S A B w s g :
  Inv T (S ⊎ {[+ s +]}) A B w -> segs w !! s = Some g -> (0 < segrefs S w s g)%nat ->
  wp (xpmem_seg_deref s) (fun _ w' => Inv T S A B w' /\ w' ≡ w) w.
Proof.
  intros HI E Hp. eapply wp_mono; [by apply wp_seg_deref|]. intros _ w' (HI' & ->).
  split; [done|]. rewrite decide_False by lia. by apply equiv_seg_refcnt.
Qed.
Lemma ap_deref_ok T S A B w a x :
  Inv T S (A ⊎ {[+ a +]}) B w -> aps w !! a = Some x -> (0 < aprefs A w a x)%nat ->
  wp (xpmem_ap_deref a) (fun _ w' => Inv T S A B w' /\ w' ≡ w) w.
Proof.
  intros HI E Hp. eapply wp_mono; [eapply wp_ap_deref; [done|done|lia]|]. intros _ w' (HI' & ->).
  split; [done|]. rewrite decide_False by lia. by apply equiv_ap_refcnt.
Qed.
Lemma att_deref_ok T S A B w t y :
  Inv T S A (B ⊎ {[+ t +]}) w -> atts w !! t = Some y -> (0 < attrefs B w t y)%nat ->
  wp (xpmem_att_deref t) (fun _ w' => Inv T S A B w' /\ w' ≡ w) w.
Proof.
  intros HI E Hp. eapply wp_mono; [by apply wp_att_deref|]. intros _ w' (HI' & ->).
  split; [done|]. rewrite decide_False by lia. by apply equiv_att_refcnt.
Qed.

(** A critical section: the lock is released, the rest is up to the body. *)
Lemma wp_locked {V} (l : lock) (m : M V) (P : V -> world -> Prop) Q w :
  l ∉ held w ->
  wp m (fun a w' => held w' = l :: held w /\ P a w') (set_held (l :: held w) w) ->
  (forall a w', P a w' -> Q a (set_held (held w) w')) ->
  wp (acquire l ;; a ← m ; release l ;; mret a) Q w.
Proof.
  intros Hl Hm HQ. apply wp_bind, wp_acquire; [done|]. apply wp_bind.
  eapply wp_mono; [done|]. intros a w' [Hh HP]. apply wp_bind.
  eapply wp_release; [done|done|]. apply wp_ret. auto.
Qed.

Lemma equiv_unlock l w w' : w' ≡ set_held l w -> set_held (held w) w' ≡ w.
Proof. intros H. rewrite H. by destruct w. Qed.

(** * Look-ups *)

Lemma hash_bucket_live T S A B w i p :
  Inv T S A B w -> p ∈ bucket (hash_of w) i -> p ∈ mjoin (hash_of w) /\ is_Some (tgs w !! p).
Proof.
  intros HI. unfold bucket. destruct (hash_of w !! i) as [l|] eqn:E; cbn; [|by intros ?%elem_of_nil].
  intros Hp. split.
  - apply list_elem_of_join. eauto using list_elem_of_lookup_2.
  - destruct (hash_entry (inv_tg HI) i l p E Hp) as (t & -> & _). done.
Qed.

Lemma tg_scan_ok T S A B w l tgid d :
  Inv T S A B w -> permits_ok w -> few T -> (forall p, p ∈ l -> is_Some (tgs w !! p)) ->
  wp (tg_scan l tgid d) (fun r w' =>
    match first_where (is_tg tgid d) (tgs w) l with
    | Some p => r = inr p /\ Inv (T ⊎ {[+ p +]}) S A B w' /\ w' ≡ w
    | None => r = inl (- ENOENT) /\ w' = w
    end) w.
Proof.
  intros HI Hw HT. induction l as [|p l IH]; intros Hl; [done|]. cbn.
  destruct (Hl p) as [t E]; [apply list_elem_of_here|]. rewrite E.
  assert (forall q, q ∈ l -> is_Some (tgs w !! q)) as Hl' by (intros; apply Hl; by apply list_elem_of_further).
  apply wp_bind. eapply wp_load; [done|]. unfold is_tg at 1.
  destruct (tg_tgid t =? tgid); cbn; [|by apply IH].
  destruct (has (tg_flags t) XPMEM_FLAG_DESTROYING), d; cbn; try (by apply IH);
    (eapply wp_seq; [by eapply tg_ref_ok|]; intros _ w' [? ?]; by apply wp_ret).
Qed.

(** Looking up a thread group without its lock. *)
Lemma tg_lookup_nolock_ok T S A B w tgid d :
  Inv T S A B w -> permits_ok w -> few T ->
  wp (xpmem_tg_ref_by_tgid_nolock_internal tgid (xpmem_tg_hashtable_index tgid) d) (fun r w' =>
    match find_tg_gen w tgid d with
    | Some p => r = inr p /\ Inv (T ⊎ {[+ p +]}) S A B w' /\ w' ≡ w
    | None => r = inl (- ENOENT) /\ w' = w
    end) w.
Proof.
  intros HI Hw HT. destruct (inv_part HI) as [pt Ep].
  apply wp_bind. eapply wp_part_load; [done|]. apply wp_bind.
  assert (hash_of w = tg_hashtable pt) as Eh by (unfold hash_of; by rewrite Ep).
  destruct (lookup_lt_is_Some_2 (tg_hashtable pt) (xpmem_tg_hashtable_index tgid)) as [l El].
  { rewrite <- Eh, (hash_size (inv_tg HI)). apply tg_index_lt. }
  rewrite El. apply wp_ret. unfold find_tg_gen, bucket. rewrite Eh, El. cbn.
  apply tg_scan_ok; try done. intros p Hp.
  apply (hash_bucket_live _ _ _ _ _ (xpmem_tg_hashtable_index tgid) _ HI).
  unfold bucket. by rewrite Eh, El.
Qed.

Lemma tg_lookup_ok T S A B w tgid :
  Inv T S A B w -> permits_ok w -> few T ->
  TgHashLock (xpmem_tg_hashtable_index tgid) ∉ held w ->
  wp (xpmem_tg_ref_by_tgid tgid) (fun r w' =>
    match find_tg w tgid with
    | Some p => r = inr p /\ Inv (T ⊎ {[+ p +]}) S A B w' /\ w' ≡ w
    | None => r = inl (- ENOENT) /\ w' = w
    end) w.
Proof.
  intros HI Hw HT Hl. set (w1 := set_held (TgHashLock (xpmem_tg_hashtable_index tgid) :: held w) w).
  assert (Inv T S A B w1) as HI1 by (by eapply Inv_same).
  assert (find_tg_gen w1 tgid false = find_tg w tgid) as Ef by done.
  eapply wp_locked; [done| |].
  - fold w1. eapply wp_mono; [by apply tg_lookup_nolock_ok|]. rewrite Ef.
    intros r w' Hr. split; [|exact Hr]. destruct (find_tg w tgid); destruct Hr as [_ Hr].
    + by rewrite (equiv_held _ _ (proj2 Hr)).
    + by subst w'.
  - intros r w'. destruct (find_tg w tgid) as [p|].
    + intros (-> & HI' & E). split; [done|]. split; [by eapply Inv_same|]. by eapply equiv_unlock.
    + intros [-> ->]. split; [done|]. by destruct w.
Qed.

Lemma tg_lookup_by_id_ok T S A B w id :
  Inv T S A B w -> permits_ok w -> few T -> 0 < id ->
  TgHashLock (xpmem_tg_hashtable_index (xpmem_segid_to_tgid id)) ∉ held w ->
  wp (xpmem_tg_ref_by_segid id) (fun r w' =>
    match find_tg w (xpmem_segid_to_tgid id) with
    | Some p => r = inr p /\ Inv (T ⊎ {[+ p +]}) S A B w' /\ w' ≡ w
    | None => r = inl (- ENOENT) /\ w' = w
    end) w.
Proof. intros. apply wp_bind, wp_DBUG_ON; [lia|]. by apply tg_lookup_ok. Qed.

(** What a live thread group that was found is. *)
Lemma find_tg_gen_Some T S A B w tgid d p :
  Inv T S A B w -> find_tg_gen w tgid d = Some p ->
  p ∈ mjoin (hash_of w) /\ exists t, tgs w !! p = Some t /\ tg_tgid t = tgid
    /\ (d = false -> has (tg_flags t) XPMEM_FLAG_DESTROYING = false).
Proof.
  intros HI (Hp & t & Et & [E1 E2]%andb_true_iff)%first_where_Some.
  split; [by eapply hash_bucket_live|]. exists t. split; [done|]. split; [lia|].
  intros ->. by apply negb_true_iff.
Qed.

Lemma find_tg_hashed T S A B w tgid p :
  Inv T S A B w -> find_tg w tgid = Some p -> (0 < tgrefs T w p)%nat.
Proof.
  intros HI [Hp _]%(find_tg_gen_Some _ _ _ _ _ _ _ _ HI). unfold tgrefs, tg_refs.
  rewrite (b2n_true _ Hp). lia.
Qed.

(** ** Segments *)

Lemma seg_list_live T S A B w tg s :
  Inv T S A B w -> s ∈ list_of seg_list (tgs w) tg ->
  exists g, segs w !! s = Some g /\ seg_tg g = tg.
Proof.
  intros HI (t & Et & Hs)%elem_of_list_of.
  destruct (tg_segs_key (tg_all (inv_tg HI) tg t Et) s Hs) as (u & n & E & _).
  rewrite lookup_fmap in E. destruct (segs w !! s) as [g|]; [|done].
  exists g. split; [done|]. cbn in E. by injection E.
Qed.

Lemma seg_scan_ok T S A B w l id :
  Inv T S A B w -> permits_ok w -> few S -> (forall p, p ∈ l -> is_Some (segs w !! p)) ->
  wp (seg_scan l id) (fun r w' =>
    match first_where (is_seg id) (segs w) l with
    | Some p => r = inr p /\ Inv T (S ⊎ {[+ p +]}) A B w' /\ w' ≡ w
    | None => r = inl (- ENOENT) /\ w' = w
    end) w.
Proof.
  intros HI Hw HT. induction l as [|p l IH]; intros Hl; [done|]. cbn.
  destruct (Hl p) as [t E]; [apply list_elem_of_here|]. rewrite E.
  assert (forall q, q ∈ l -> is_Some (segs w !! q)) as Hl' by (intros; apply Hl; by apply list_elem_of_further).
  apply wp_bind. eapply wp_load; [done|]. unfold is_seg at 1.
  destruct (segid t =? id); cbn; [|by apply IH].
  destruct (has (seg_flags t) XPMEM_FLAG_DESTROYING); cbn; [by apply IH|].
  eapply wp_seq; [by eapply seg_ref_ok|]. intros _ w' [? ?]. by apply wp_ret.
Qed.

Lemma seg_lookup_ok T S A B w tg t id :
  Inv T S A B w -> permits_ok w -> few S -> tgs w !! tg = Some t -> SegListLock tg ∉ held w ->
  wp (xpmem_seg_ref_by_segid tg id) (fun r w' =>
    match find_seg w tg id with
    | Some p => r = inr p /\ Inv T (S ⊎ {[+ p +]}) A B w' /\ w' ≡ w
    | None => r = inl (- ENOENT) /\ w' = w
    end) w.
Proof.
  intros HI Hw HT Et Hl. set (w1 := set_held (SegListLock tg :: held w) w).
  assert (Inv T S A B w1) as HI1 by (by eapply Inv_same).
  apply wp_bind, wp_acquire; [done|]. fold w1.
  apply wp_bind. eapply wp_load; [done|]. apply wp_bind.
  eapply wp_mono; [apply (seg_scan_ok T S A B w1); try done|].
  - intros p Hp. destruct (seg_list_live _ _ _ _ w tg p HI) as (g & E & _); [|done].
    by rewrite (list_of_Some _ _ _ t).
  - change (segs w1) with (segs w). unfold find_seg. rewrite (list_of_Some _ _ _ t) by done.
    intros r w' Hr. apply wp_bind. eapply (wp_release _ (held w)); [|done|].
    { destruct (first_where _ _ _); destruct Hr as [_ Hr].
      - by rewrite (equiv_held _ _ (proj2 Hr)).
      - by subst w'. }
    apply wp_ret. destruct (first_where _ _ _) as [p|].
    + destruct Hr as (-> & HI' & E). split; [done|]. split; [by eapply Inv_same|]. by eapply equiv_unlock.
    + destruct Hr as [-> ->]. split; [done|]. by destruct w.
Qed.

Lemma find_seg_Some T S A B w tg id s :
  Inv T S A B w -> find_seg w tg id = Some s -> exists g, segs w !! s = Some g /\
    seg_tg g = tg /\ segid g = id /\ has (seg_flags g) XPMEM_FLAG_DESTROYING = false /\
    s ∈ list_of seg_list (tgs w) tg.
Proof.
  intros HI (Hp & g & Eg & [E1 E2]%andb_true_iff)%first_where_Some.
  destruct (seg_list_live _ _ _ _ _ _ _ HI Hp) as (g' & Eg' & Et).
  assert (g' = g) as -> by congruence. exists g. repeat split; try done; [lia|by apply negb_true_iff].
Qed.

Lemma listed_segrefs S w s g tg :
  seg_tg g = tg -> s ∈ list_of seg_list (tgs w) tg -> (0 < segrefs S w s g)%nat.
Proof. intros <- Hs. unfold segrefs, seg_refs. rewrite (b2n_true _ Hs). lia. Qed.

(** ** Permits *)

Lemma ap_bucket_live T S A B w tg t i a :
  Inv T S A B w -> tgs w !! tg = Some t -> a ∈ bucket (ap_hashtable t) i ->
  a ∈ hashed_aps t /\ exists x, aps w !! a = Some x /\ ap_tg x = tg.
Proof.
  intros HI Et. unfold bucket. destruct (ap_hashtable t !! i) as [l|] eqn:E; cbn;
    [|by intros ?%elem_of_nil].
  intros Ha. split; [apply list_elem_of_join; eauto using list_elem_of_lookup_2|].
  destruct (tg_aps_key (tg_all (inv_tg HI) tg t Et) i l a E Ha) as (u & Ek & _).
  rewrite lookup_fmap in Ek. destruct (aps w !! a) as [x|]; [|done]. exists x.
  cbn in Ek. by injection Ek.
Qed.

(** The loop stops at the first permit with the identifier, which is the only
    one. *)
Lemma ap_scan_ok T S A B w l id :
  Inv T S A B w -> few A -> (forall p, p ∈ l -> is_Some (aps w !! p)) -> NoDup l ->
  (forall p q x y, p ∈ l -> q ∈ l -> aps w !! p = Some x -> aps w !! q = Some y ->
     apid x = apid y -> p = q) ->
  wp (ap_scan l id) (fun r w' =>
    match first_where (is_ap id) (aps w) l with
    | Some p => r = inr p /\ Inv T S (A ⊎ {[+ p +]}) B w' /\ w' ≡ w
    | None => r = inl (- ENOENT) /\ w' = w
    end) w.
Proof.
  intros HI HT. induction l as [|p l IH]; intros Hl Hd Hu; [done|]. cbn.
  destruct (Hl p) as [x E]; [apply list_elem_of_here|]. rewrite E.
  assert (forall q, q ∈ l -> is_Some (aps w !! q)) as Hl' by (intros; apply Hl; by apply list_elem_of_further).
  apply NoDup_cons in Hd as [Hp Hd].
  assert (forall q q' y z, q ∈ l -> q' ∈ l -> aps w !! q = Some y -> aps w !! q' = Some z ->
     apid y = apid z -> q = q') as Hu'.
  { intros q q' y z Hq Hq'. apply Hu; by apply list_elem_of_further. }
  apply wp_bind. eapply wp_load; [done|]. unfold is_ap at 1.
  destruct (Z.eqb_spec (apid x) id) as [Hid|]; cbn; [|by apply IH].
  destruct (has (ap_flags x) XPMEM_FLAG_DESTROYING); cbn.
  - destruct (first_where (is_ap id) (aps w) l) as [q|] eqn:Ef; [|by split].
    apply first_where_Some in Ef as (Hq & y & Ey & [Hy _]%andb_true_iff).
    destruct Hp. replace p with q; [done|].
    eapply Hu; [by apply list_elem_of_further|apply list_elem_of_here|done|done|lia].
  - eapply wp_seq; [by eapply ap_ref_ok|]. intros _ w' [? ?]. by apply wp_ret.
Qed.

Lemma ap_lookup_ok T S A B w tg t id :
  Inv T S A B w -> few A -> tgs w !! tg = Some t -> 0 < id ->
  ApHashLock tg (xpmem_ap_hashtable_index id) ∉ held w ->
  wp (xpmem_ap_ref_by_apid tg id) (fun r w' =>
    match find_ap w tg id with
    | Some p => r = inr p /\ Inv T S (A ⊎ {[+ p +]}) B w' /\ w' ≡ w
    | None => r = inl (- ENOENT) /\ w' = w
    end) w.
Proof.
  intros HI HT Et Hid Hl. set (i := xpmem_ap_hashtable_index id) in *.
  set (w1 := set_held (ApHashLock tg i :: held w) w).
  assert (Inv T S A B w1) as HI1 by (by eapply Inv_same).
  pose proof (tg_all (inv_tg HI) tg t Et) as Hok.
  apply wp_bind, wp_DBUG_ON; [lia|]. apply wp_bind, wp_acquire; [done|]. fold w1.
  apply wp_bind. eapply wp_load; [done|]. apply wp_bind.
  destruct (lookup_lt_is_Some_2 (ap_hashtable t) i) as [l El].
  { rewrite (tg_aps_size Hok). apply ap_index_lt. }
  fold i. rewrite El. apply wp_ret. apply wp_bind.
  assert (bucket (ap_hashtable t) i = l) as Eb by (unfold bucket; by rewrite El).
  assert (forall a, a ∈ l -> a ∈ hashed_aps t /\ exists x, aps w !! a = Some x /\ ap_tg x = tg) as Hb.
  { intros a Ha. eapply ap_bucket_live; [done|done|]. rewrite Eb. done. }
  eapply wp_mono; [apply (ap_scan_ok T S A B w1); try done|].
  - intros p Hp. destruct (Hb p Hp) as (_ & x & E & _). done.
  - eapply NoDup_join_bucket; [apply Hok|done].
  - intros p q x y Hp Hq Ex Ey Eid.
    apply (tg_aps_inj Hok p q (ap_key x) (ap_key y)); try by apply Hb.
    + rewrite lookup_fmap. cbn in Ex. by rewrite Ex.
    + rewrite lookup_fmap. cbn in Ey. by rewrite Ey.
    + done.
  - change (aps w1) with (aps w). unfold find_ap. rewrite (list_of_Some _ _ _ t) by done.
    fold i. rewrite Eb.
    intros r w' Hr. apply wp_bind. eapply (wp_release _ (held w)); [|done|].
    { destruct (first_where _ _ _); destruct Hr as [_ Hr].
      - by rewrite (equiv_held _ _ (proj2 Hr)).
      - by subst w'. }
    apply wp_ret. destruct (first_where _ _ _) as [p|].
    + destruct Hr as (-> & HI' & E). split; [done|]. split; [by eapply Inv_same|]. by eapply equiv_unlock.
    + destruct Hr as [-> ->]. split; [done|]. by destruct w.
Qed.

Lemma find_ap_Some T S A B w tg t id a :
  Inv T S A B w -> tgs w !! tg = Some t -> find_ap w tg id = Some a ->
  exists x, aps w !! a = Some x /\ ap_tg x = tg /\ apid x = id /\
    has (ap_flags x) XPMEM_FLAG_DESTROYING = false /\ a ∈ hashed_aps t.
Proof.
  intros HI Et (Hp & x & Ex & [E1 E2]%andb_true_iff)%first_where_Some.
  rewrite (list_of_Some _ _ _ t) in Hp by done.
  destruct (ap_bucket_live _ _ _ _ _ _ _ _ _ HI Et Hp) as (Hh & x' & Ex' & Htg).
  assert (x' = x) as -> by congruence. exists x. repeat split; try done; [lia|by apply negb_true_iff].
Qed.
End lookup.

(** Side conditions of the lemmas above: a known number of tokens, and locks
    that are not in a known list. *)
Ltac tokens :=
  unfold few in *;
  rewrite ?gmultiset_size_disj_union, ?gmultiset_size_singleton, ?gmultiset_size_empty in *; lia.
Ltac unheld :=
  cbn; repeat match goal with H : held _ = _ |- _ => rewrite H; clear H end;
  rewrite ?not_elem_of_cons; repeat split; try apply not_elem_of_nil; try done; congruence.
Ltac side := first [done | assumption | solve [tokens] | solve [unheld]].

Section lookup_claims.
Context `{K : Kernel}.

(** [xpmem_tg_ref_by_tgid] returns the live thread group with the number, with one more
    reference on it, or -ENOENT; it takes and releases the lock of the bucket, does not fault,
    and changes nothing but the reference count. *)
Theorem tg_ref_by_tgid_correct T S A B w tgid :
  Inv T S A B w -> permits_ok w -> few T -> held w = [] ->
  exists r w', xpmem_tg_ref_by_tgid tgid w = Ok r w' /\ w' ≡ w /\ held w' = [] /\
    match find_tg w tgid with
    | Some p => r = inr p /\ Inv (T ⊎ {[+ p +]}) S A B w'
    | None => r = inl (- ENOENT) /\ w' = w
    end.
Proof.
  intros HI Hw HT Hh. destruct (wp_inv _ _ _ (tg_lookup_ok T S A B w tgid HI Hw HT ltac:(side)))
    as (r & w' & E & Hr).
  exists r, w'. split; [done|]. destruct (find_tg w tgid).
  - destruct Hr as (-> & HI' & Hq). by rewrite (equiv_held _ _ Hq).
  - by destruct Hr as [-> ->].
Qed.

(** [xpmem_ap_ref_by_apid] stops at the first permit with the identifier and refuses it when
    it is being destroyed; because identifiers are unique this is the search for a live permit
    with the identifier. *)
Theorem ap_ref_by_apid_correct T S A B w tg t id :
  Inv T S A B w -> few A -> tgs w !! tg = Some t -> 0 < id -> held w = [] ->
  exists r w', xpmem_ap_ref_by_apid tg id w = Ok r w' /\ w' ≡ w /\ held w' = [] /\
    match find_ap w tg id with
    | Some p => r = inr p /\ Inv T S (A ⊎ {[+ p +]}) B w'
    | None => r = inl (- ENOENT) /\ w' = w
    end.
Proof.
  intros HI HA Et Hid Hh. destruct (wp_inv _ _ _ (ap_lookup_ok T S A B w tg t id HI HA Et Hid ltac:(side)))
    as (r & w' & E & Hr).
  exists r, w'. split; [done|]. destruct (find_ap w tg id).
  - destruct Hr as (-> & HI' & Hq). by rewrite (equiv_held _ _ Hq).
  - by destruct Hr as [-> ->].
Qed.
End lookup_claims.
