(* ===== verification/MakeSpec.v ===== *)
(** [xpmem_make] does what it promises: the code, with its locks and reference
    counts, computes the lock-free, count-free function [make_spec], and keeps
    the invariant of the object graph. *)

From S2P Require Import Prelude Kernel World Monad Ids Misc Pfn Attach Make Inv Graph Link Refs Lookup.

Section make_spec.
Context `{K : Kernel}.
Implicit Types (T S A B : gmultiset positive) (w : world) (cur : task).

(** * Dropping the reference a look-up took *)

Lemma tgrefs_equiv T w w' p : w ≡ w' -> tgrefs T w p = tgrefs T w' p.
Proof.
  intros H. unfold tgrefs, hash_of. rewrite (equiv_part _ _ H). f_equal. by apply equiv_segs.
Qed.

Lemma tg_deref_back T S A B w1 w p :
  Inv (T ⊎ {[+ p +]}) S A B w1 -> Inv T S A B w -> w1 ≡ w -> (0 < tgrefs T w p)%nat ->
  wp (xpmem_tg_deref p) (fun _ w' => w' = w) w1.
Proof.
  intros HI1 HI H Hp. eapply wp_mono; [eapply tg_deref_ok; [done|]|].
  - by rewrite (tgrefs_equiv _ _ _ _ H).
  - intros _ w' [HI' H']. eapply Inv_equiv_eq; [done|done|]. by rewrite H'.
Qed.

(** * New identifiers *)

Lemma make_segid_ok T S A B w p t :
  Inv T S A B w -> tgs w !! p = Some t ->
  wp (xpmem_make_segid p) (fun r w' =>
    if uniq_segid t =? XPMEM_MAX_UNIQ_ID then r = - EBUSY /\ w' = w
    else r = id_to_s64 (mk_id (tg_tgid t) (uniq_segid t + 1)) /\
         w' = set_tgs (<[p := set_uniq_segid (uniq_segid t + 1) t]> (tgs w)) w /\
         Inv T S A B w') w.
Proof.
  intros HI E. pose proof (tg_all (inv_tg HI) p t E) as Hok.
  pose proof (tg_uniq_range Hok) as Hu. pose proof (tg_tgid_range Hok) as Ht.
  pose proof MAX_UNIQ_ID_val as Hmax.
  apply wp_bind. eapply wp_store; [done|]. apply wp_bind. eapply wp_load; [apply lookup_insert_eq|].
  cbn. rewrite s32_id by lia. apply wp_if.
  - intros Hgt%Z.gtb_lt. rewrite (proj2 (Z.eqb_eq (uniq_segid t) XPMEM_MAX_UNIQ_ID)) by lia.
    apply wp_bind. eapply wp_store; [apply lookup_insert_eq|]. cbn.
    apply wp_ret. split; [done|]. rewrite insert_insert_eq, s32_id by lia.
    replace (uniq_segid t + 1 - 1) with (uniq_segid t) by lia.
    replace (set_uniq_segid _ _) with t by (by destruct t). rewrite insert_id by done. by destruct w.
  - intros Hle. rewrite Z.gtb_ltb, Z.ltb_ge in Hle.
    rewrite (proj2 (Z.eqb_neq (uniq_segid t) XPMEM_MAX_UNIQ_ID)) by lia. rewrite u32_id by lia.
    apply wp_bind, wp_DBUG_ON.
    { apply Z.leb_gt. apply id_positive. split; cbn; lia. }
    apply wp_ret. split; [done|]. split; [done|].
    eapply Inv_tg_update; [done|done| |done|apply Hok|apply Hok|apply Hok].
    split; cbn; try done; first [lia | by left].
Qed.

(** The number a thread group hands out next is not in use. *)
Lemma next_segid_unused T S A B w tg t s g :
  Inv T S A B w -> tgs w !! tg = Some t -> uniq_segid t < XPMEM_MAX_UNIQ_ID ->
  s ∈ seg_list t -> segs w !! s = Some g ->
  segid g <> id_to_s64 (mk_id (tg_tgid t) (uniq_segid t + 1)).
Proof.
  intros HI Et Hm Hs Eg E. pose proof (tg_all (inv_tg HI) tg t Et) as Hok.
  destruct (tg_segs_key Hok s Hs) as (u & n & Ek & Hu). rewrite lookup_fmap, Eg in Ek.
  cbn in Ek. injection Ek as _ E' _. rewrite E in E'.
  pose proof (tg_uniq_range Hok). pose proof (tg_tgid_range Hok).
  apply id_inj in E'; [injection E' as ?; lia|split; cbn; lia..].
Qed.

(** * The specification *)

Definition make_args_bad (size permit_type permit_value : Z) : bool :=
  negb (permit_type =? XPMEM_PERMIT_MODE) || has permit_value (Z.lnot 0x1ff) || (size =? 0).

Definition with_next_segid (tg : positive) t w : world :=
  set_tgs (<[tg := set_uniq_segid (uniq_segid t + 1) t]> (tgs w)) w.

(** What [xpmem_make] returns and what it does to the state. *)
Definition make_spec cur (vaddr size permit_type permit_value : Z) w : (Z + Z) * world :=
  if make_args_bad size permit_type permit_value then (inl (- EINVAL), w) else
  match find_tg w (cur_tgid cur) with
  | None => (inl (- XPMEM_ERRNO_NOPROC), w)
  | Some tg =>
      match tgs w !! tg with
      | None => (inl (- XPMEM_ERRNO_NOPROC), w)
      | Some t =>
          match make_size (addr_limit t) vaddr size with
          | None => (inl (- EINVAL), w)
          | Some size =>
              if negb (offset_in_page vaddr =? 0) || negb (offset_in_page size =? 0)
              then (inl (- EINVAL), w) else
              if uniq_segid t =? XPMEM_MAX_UNIQ_ID then (inl (- EBUSY), w) else
              let id := id_to_s64 (mk_id (tg_tgid t) (uniq_segid t + 1)) in
              let w1 := with_next_segid tg t w in
              if kzalloc_ok (next_ptr w) then
                (inr id, link_seg tg (next_ptr w) (set_uniq_segid (uniq_segid t + 1) t)
                           (new_seg tg id vaddr size permit_value) w1)
              else (inl (- ENOMEM), set_next_ptr (Pos.succ (next_ptr w)) w1)
          end
      end
  end.

Lemma set_held_nil w : held w = [] -> set_held [] w = w.
Proof. destruct w. cbn. by intros ->. Qed.

Lemma link_seg_equiv tg s t t' g w w' :
  w ≡ w' -> set_tg_refcnt 0 t = set_tg_refcnt 0 t' -> link_seg tg s t g w ≡ link_seg tg s t' g w'.
Proof.
  intros H Et. unfold link_seg. rewrite (equiv_next_ptr _ _ H).
  apply (equiv_insert_tg (set_segs (<[s := g]> (segs w)) (set_next_ptr (Pos.succ (next_ptr w')) w))
           (set_segs (<[s := g]> (segs w')) (set_next_ptr (Pos.succ (next_ptr w')) w'))).
  - apply (equiv_insert_seg (set_next_ptr (Pos.succ (next_ptr w')) w)
             (set_next_ptr (Pos.succ (next_ptr w')) w')); [|done]. by rewrite H.
  - apply norm_tg in Et. by rewrite Et.
Qed.

Lemma make_link T S A B w1 w tg t n id vaddr size pv s :
  let t' := set_uniq_segid (uniq_segid t + 1) t in
  let w2 := set_tgs (<[tg := set_uniq_segid (uniq_segid t + 1) (set_tg_refcnt n t)]> (tgs w1)) w1 in
  Inv (T ⊎ {[+ tg +]}) S A B w2 -> Inv T S A B (with_next_segid tg t w) -> Inv T S A B w ->
  w1 ≡ w -> held w = [] -> tgs w !! tg = Some t -> tgs w1 !! tg = Some (set_tg_refcnt n t) ->
  (0 < tgrefs T w tg)%nat -> has (tg_flags t) XPMEM_FLAG_DESTROYED = false ->
  uniq_segid t < XPMEM_MAX_UNIQ_ID ->
  id = id_to_s64 (mk_id (tg_tgid t) (uniq_segid t + 1)) -> s = next_ptr w ->
  wp (init segs set_segs s (set_seg_refcnt 0 (new_seg tg id vaddr size pv)) ;;
      xpmem_seg_not_destroyable s ;;
      write_lock (SegListLock tg) ;;
      tg_store tg (fun t => set_seg_list (seg_list t ++ [s]) t) ;;
      write_unlock (SegListLock tg) ;;
      xpmem_tg_deref tg ;;
      mret (inr id : Z + Z))
    (fun r w' => r = inr id /\ w' = link_seg tg s t' (new_seg tg id vaddr size pv) (with_next_segid tg t w)
                 /\ Inv T S A B w')
    (set_next_ptr (Pos.succ s) w2).
Proof.
  intros t' w2 HI2 HIw HI Hq Hh Et Et1 Hr Hd Hm -> ->.
  pose proof (equiv_held _ _ Hq) as Hh1. rewrite Hh in Hh1.
  pose proof (equiv_next_ptr _ _ Hq) as Hn. set (id := id_to_s64 _). set (s := next_ptr w).
  pose proof (tg_uniq_range (tg_all (inv_tg HI) tg t Et)) as Hu.
  assert (Inv T S A B (link_seg tg s t' (new_seg tg id vaddr size pv) (with_next_segid tg t w))) as HIf.
  { eapply (Inv_seg_link _ _ _ _ _ _ _ _ _ (uniq_segid t + 1)); try done; [apply lookup_insert_eq|cbn; lia|].
    intros s' g' Hin Eg. by apply (next_segid_unused _ _ _ _ w tg t s' g' HI). }
  apply wp_bind, wp_modify. apply wp_bind. eapply wp_store; [cbn; apply lookup_insert_eq|]. cbn. rewrite insert_insert_eq.
  apply wp_bind, wp_acquire; [cbn; rewrite Hh1; set_solver|].
  apply wp_bind. eapply wp_store; [cbn; apply lookup_insert_eq|]. cbn. rewrite Hh1.
  apply wp_bind. eapply (wp_release _ []); [done|set_solver|].
  match goal with |- wp _ _ ?W => replace W with
    (link_seg tg s (set_uniq_segid (uniq_segid t + 1) (set_tg_refcnt n t)) (new_seg tg id vaddr size pv) w2)
    by (unfold link_seg, w2; destruct w1; cbn in *; by subst) end.
  eapply wp_seq; [eapply (tg_deref_back T S A B _ _ tg); [|exact HIf| |]|intros _ w' ->; by apply wp_ret].
  - eapply (Inv_seg_link _ _ _ _ w2 tg _ s id (uniq_segid t + 1) vaddr size pv); try done.
    + apply lookup_insert_eq.
    + cbn. lia.
    + intros s' g' Hin Eg. cbn in Hin, Eg.
      destruct (equiv_seg _ _ _ _ Hq Eg) as [m Eg']. change (segid g') with (segid (set_seg_refcnt m g')).
      by eapply (next_segid_unused _ _ _ _ w tg t s' _ HI).
  - apply link_seg_equiv; [|done]. by apply equiv_insert_tg.
  - unfold tgrefs, link_seg. cbn. rewrite fmap_insert. 
    destruct (inv_fresh HI s) as (_ & F & _); [lia|].
    change (hash_of _) with (hash_of w). unfold tg_refs.
    rewrite map_sum_insert by (by rewrite lookup_fmap, F). unfold tgrefs, tg_refs in Hr. lia.
Qed.

(** [xpmem_make] computes [make_spec], without faulting, and keeps the
    invariant. *)
Lemma make_ok cur vaddr size permit_type permit_value w :
  Inv ∅ ∅ ∅ ∅ w -> permits_ok w -> held w = [] ->
  wp (xpmem_make cur vaddr size permit_type permit_value) (fun r w' =>
    (r, w') = make_spec cur vaddr size permit_type permit_value w /\ Inv ∅ ∅ ∅ ∅ w') w.
Proof.
  intros HI Hw Hh. unfold xpmem_make, make_spec. fold (make_args_bad size permit_type permit_value).
  destruct (make_args_bad size permit_type permit_value) eqn:Ha; [by apply wp_ret|].
  eapply wp_seq; [apply (tg_lookup_ok ∅ ∅ ∅ ∅); side|].
  intros r w1. destruct (find_tg w (cur_tgid cur)) as [tg|] eqn:Ef.
  2: { intros [-> ->]. apply wp_bind, wp_DBUG_ON; [done|]. by apply wp_ret. }
  intros (-> & HI1 & Hq).
  pose proof (find_tg_hashed _ _ _ _ _ _ _ HI Ef) as Hr.
  destruct (find_tg_gen_Some _ _ _ _ _ _ _ _ HI Ef) as (_ & t & Et & _ & Hd). specialize (Hd eq_refl).
  rewrite Et. destruct (equiv_tg _ _ _ _ (symmetry Hq) Et) as [n Et1].
  assert (forall r : Z + Z, wp (xpmem_tg_deref tg ;; mret r) (fun r' w' => (r', w') = (r, w) /\ Inv ∅ ∅ ∅ ∅ w') w1) as Hout.
  { intros r. eapply wp_seq; [by eapply (tg_deref_back ∅ ∅ ∅ ∅ w1 w)|]. intros _ w' ->. by apply wp_ret. }
  apply wp_bind. eapply wp_load; [done|]. cbn.
  destruct (make_size (addr_limit t) vaddr size) as [sz|]; [|by apply Hout].
  destruct (negb _ || negb _); [by apply Hout|].
  eapply wp_seq; [by eapply make_segid_ok|]. cbn. intros id w2.
  destruct (Z.eqb_spec (uniq_segid t) XPMEM_MAX_UNIQ_ID) as [Hm|Hm].
  { intros [-> ->]. by apply Hout. }
  intros (-> & -> & HI2).
  pose proof (tg_all (inv_tg HI) tg t Et) as Hok. pose proof (tg_uniq_range Hok) as Hu.
  pose proof (tg_tgid_range Hok) as Ht.
  assert (has (tg_flags t) XPMEM_FLAG_DESTROYED = false) as Hdd.
  { destruct (has (tg_flags t) XPMEM_FLAG_DESTROYED) eqn:E; [|done].
    destruct (tg_destroyed Hok E) as [? _]. congruence. }
  assert (Inv ∅ ∅ ∅ ∅ (with_next_segid tg t w)) as HIw.
  { destruct (wp_inv _ _ _ (make_segid_ok _ _ _ _ w tg t HI Et)) as (a & w' & _ & Hp).
    rewrite (proj2 (Z.eqb_neq _ _) Hm) in Hp. destruct Hp as (_ & -> & ?). done. }
  rewrite (proj2 (Z.ltb_ge _ 0)).
  2: { assert (0 < id_to_s64 (mk_id (tg_tgid t) (uniq_segid t + 1))); [|lia].
       apply id_positive. split; cbn; lia. }
  apply wp_bind, wp_kzalloc; [cbn; by rewrite (equiv_held _ _ Hq), Hh| |]; cbn;
    rewrite (equiv_next_ptr _ _ Hq); intros Hk; rewrite Hk.
  - assert (permit_type = XPMEM_PERMIT_MODE) as ->.
    { unfold make_args_bad in Ha. apply orb_false_iff in Ha as [Ha _].
      apply orb_false_iff in Ha as [Ha _]. by apply negb_false_iff, Z.eqb_eq in Ha. }
    eapply wp_mono.
    + eapply (make_link ∅ ∅ ∅ ∅ w1 w tg t n _ vaddr sz permit_value (next_ptr w)); try done. lia.
    + intros r w' (-> & -> & ?). done.
  - eapply wp_seq.
    + eapply (tg_deref_back ∅ ∅ ∅ ∅ _ (set_next_ptr (Pos.succ (next_ptr w)) (with_next_segid tg t w))).
      * rewrite <- (equiv_next_ptr _ _ Hq). by apply (Inv_bump _ _ _ _ _ HI2).
      * by apply (Inv_bump _ _ _ _ _ HIw).
      * apply set_next_ptr_proper. by apply equiv_insert_tg.
      * done.
    + intros _ w' ->. apply wp_ret. split; [done|]. by apply (Inv_bump _ _ _ _ _ HIw).
Qed.

(** C7: from every consistent state, [xpmem_make] returns without faulting, holds no lock
    afterwards, returns and does exactly what [make_spec] says on every branch (errors leave the
    state as it was, except for the number and the memory that were used up), and keeps the
    state consistent. *)
Theorem xpmem_make_refines cur vaddr size permit_type permit_value w :
  Inv ∅ ∅ ∅ ∅ w -> permits_ok w -> held w = [] ->
  exists r w', xpmem_make cur vaddr size permit_type permit_value w = Ok r w' /\
    (r, w') = make_spec cur vaddr size permit_type permit_value w /\ Inv ∅ ∅ ∅ ∅ w'.
Proof. intros. apply wp_inv. by apply make_ok. Qed.
End make_spec.

Section make_limits.
Context `{K : Kernel} {G : KernelGeometry K}.

(** What [make_size] accepts when nothing wraps around: a range below the limit, or, when it is
    XPMEM_MAXADDR_SIZE that is asked for from address 0, everything up to the limit. *)
Lemma make_size_in_range limit vaddr size :
  0 <= limit < 2 ^ 64 -> 0 <= vaddr -> 0 < size -> vaddr + size < 2 ^ 64 -> size <> XPMEM_MAXADDR_SIZE ->
  make_size limit vaddr size = if vaddr + size <=? limit then Some size else None.
Proof.
  intros. unfold make_size. rewrite u64_id by lia. rewrite (proj2 (Z.eqb_neq _ _)) by done.
  rewrite Z.gtb_ltb. destruct (Z.leb_spec (vaddr + size) limit), (Z.ltb_spec limit (vaddr + size)); done || lia.
Qed.

Lemma offset_maxaddr : offset_in_page XPMEM_MAXADDR_SIZE <> 0.
Proof.
  rewrite offset_in_page_mod. change XPMEM_MAXADDR_SIZE with (2 ^ 64 - 1).
  pose proof PAGE_SHIFT_range. unfold PAGE_SIZE.
  assert (2 ^ 64 = 2 ^ (64 - PAGE_SHIFT) * 2 ^ PAGE_SHIFT) as E64 by (rewrite <- Z.pow_add_r by lia; f_equal; lia).
  assert (2 ^ 1 <= 2 ^ PAGE_SHIFT) by (apply Z.pow_le_mono_r; lia).
  rewrite E64. replace (_ - 1) with (2 ^ PAGE_SHIFT - 1 + (2 ^ (64 - PAGE_SHIFT) - 1) * 2 ^ PAGE_SHIFT) by lia.
  rewrite Z.mod_add, Z.mod_small by lia. lia.
Qed.

(** The sum of the address and XPMEM_MAXADDR_SIZE wraps around but for address 0. *)
Lemma make_size_maxaddr limit vaddr :
  0 <= vaddr < 2 ^ 64 -> 0 <= limit < 2 ^ 64 - 1 -> vaddr <> limit + 1 ->
  make_size limit vaddr XPMEM_MAXADDR_SIZE =
    Some (if decide (0 < vaddr <= limit) then XPMEM_MAXADDR_SIZE else u64 (limit - vaddr)).
Proof.
  intros Hv Hl Hne. unfold make_size. rewrite Z.eqb_refl. change XPMEM_MAXADDR_SIZE with (2 ^ 64 - 1). rewrite Z.gtb_ltb.
  destruct (decide (vaddr = 0)) as [->|H0].
  - rewrite u64_id, decide_False by lia. by destruct (Z.ltb_spec limit (0 + (2 ^ 64 - 1))); [|lia].
  - assert (u64 (vaddr + (2 ^ 64 - 1)) = vaddr - 1) as ->.
    { unfold u64. replace (vaddr + (2 ^ 64 - 1)) with (vaddr - 1 + 1 * 2 ^ 64) by lia.
      rewrite Z.mod_add by lia. apply Z.mod_small. lia. }
    destruct (Z.ltb_spec limit (vaddr - 1)), (decide (0 < vaddr <= limit)); done || lia.
Qed.

Lemma offset_u64 x : offset_in_page (u64 x) = offset_in_page x.
Proof.
  rewrite !offset_in_page_mod. unfold u64. pose proof PAGE_SHIFT_range. unfold PAGE_SIZE.
  assert (2 ^ 64 = 2 ^ PAGE_SHIFT * 2 ^ (64 - PAGE_SHIFT)) as -> by (rewrite <- Z.pow_add_r by lia; f_equal; lia).
  rewrite Z.rem_mul_r by lia. rewrite Z.mul_comm, Z.mod_add, Z.mod_mod by lia. done.
Qed.

(** C34: what XPMEM_MAXADDR_SIZE, "everything up to the highest address", does from every page of
    the address space when nothing else stands in the way: from address 0 it shares everything
    below the limit; from any other address up to the limit the call is refused, because the sum
    of the address and the size wraps around and the size is not cut; from an address above the
    limit it is accepted, with a size that wraps around the end of the address space. *)
Theorem maxaddr_exact cur vaddr permit_value w tg t :
  Inv ∅ ∅ ∅ ∅ w -> permits_ok w -> held w = [] ->
  find_tg w (cur_tgid cur) = Some tg -> tgs w !! tg = Some t ->
  has permit_value (Z.lnot 0x1ff) = false -> uniq_segid t <> XPMEM_MAX_UNIQ_ID -> kzalloc_ok (next_ptr w) = true ->
  0 <= vaddr < 2 ^ 64 -> 0 <= addr_limit t < 2 ^ 64 - 1 ->
  offset_in_page vaddr = 0 -> offset_in_page (addr_limit t) = 0 ->
  exists r w', xpmem_make cur vaddr XPMEM_MAXADDR_SIZE XPMEM_PERMIT_MODE permit_value w = Ok r w' /\
    (0 < vaddr <= addr_limit t -> r = inl (- EINVAL) /\ w' = w) /\
    (~ 0 < vaddr <= addr_limit t -> exists id s g, r = inr id /\ segs w' !! s = Some g /\ segid g = id /\
       seg_vaddr g = vaddr /\
       seg_size g = if decide (vaddr = 0) then addr_limit t else 2 ^ 64 - (vaddr - addr_limit t)).
Proof.
  intros HI Hw Hh Hf Et Hp Hu Hk Hv Hl Av Al.
  destruct (wp_inv _ _ _ (make_ok cur vaddr XPMEM_MAXADDR_SIZE XPMEM_PERMIT_MODE permit_value w HI Hw Hh))
    as (r & w' & E & Hs & _). exists r, w'. split; [done|].
  unfold make_spec, make_args_bad in Hs. rewrite Hp, Hf, Et in Hs.
  assert (vaddr <> addr_limit t + 1) as Hne.
  { intros ->. rewrite offset_in_page_mod in Av, Al. pose proof PAGE_SHIFT_range. pose proof PAGE_SIZE_pos.
    assert (2 ^ 1 <= PAGE_SIZE) by (apply Z.pow_le_mono_r; lia). rewrite Z.add_mod, Al, (Z.mod_small 1) in Av by lia.
    rewrite Z.mod_small in Av by lia. lia. }
  rewrite make_size_maxaddr in Hs by done.
  change (negb (XPMEM_PERMIT_MODE =? XPMEM_PERMIT_MODE) || false || (XPMEM_MAXADDR_SIZE =? 0)) with false in Hs.
  rewrite Av in Hs. split; intros Hr.
  - rewrite decide_True in Hs by done. rewrite (proj2 (Z.eqb_neq _ _) offset_maxaddr) in Hs. cbn in Hs. by injection Hs.
  - rewrite decide_False, offset_u64 in Hs by done.
    assert (offset_in_page (addr_limit t - vaddr) = 0) as Ao.
    { rewrite offset_in_page_mod in *. rewrite Zminus_mod, Av, Al. apply Z.mod_0_l. pose proof PAGE_SIZE_pos. lia. }
    rewrite Ao, (proj2 (Z.eqb_neq _ _) Hu), Hk in Hs. cbn in Hs. injection Hs as -> ->.
    eexists _, (next_ptr w), _. split; [done|]. split; [apply lookup_insert_eq|]. split; [done|]. split; [done|]. cbn.
    destruct (decide (vaddr = 0)) as [->|H0]; [rewrite u64_id by lia; lia|].
    unfold u64. replace (addr_limit t - vaddr) with (2 ^ 64 - (vaddr - addr_limit t) + -1 * 2 ^ 64) by lia.
    rewrite Z.mod_add by lia. apply Z.mod_small. lia.
Qed.
End make_limits.
