(* ===== verification/GetSpec.v ===== *)
(** [xpmem_get] does what it promises: it computes the function [get_spec], and
    keeps the invariant of the object graph. *)

From S2P Require Import Prelude Kernel World Monad Ids Misc Pfn Attach Make Get Inv Graph Link Refs.
From S2P Require Import Lookup MakeSpec.

Section get_spec.
Context `{K : Kernel}.
Implicit Types (T S A B : gmultiset positive) (w : world) (cur : task).

Lemma seg_deref_back T S A B w1 w s g :
  Inv T (S ⊎ {[+ s +]}) A B w1 -> Inv T S A B w -> w1 ≡ w -> segs w !! s = Some g ->
  s ∈ list_of seg_list (tgs w) (seg_tg g) ->
  wp (xpmem_seg_deref s) (fun _ w' => w' = w) w1.
Proof.
  intros HI1 HI H Es Hs. destruct (equiv_seg _ _ _ _ (symmetry H) Es) as [n Es1].
  eapply wp_mono; [eapply seg_deref_ok; [done|done|]|].
  - eapply (listed_segrefs _ _ _ _ (seg_tg g)); [done|].
    rewrite (list_of_fmap _ (tgs w1) (tgs w)); [done|]. by apply equiv_tgs.
  - intros _ w' [HI' H']. eapply Inv_equiv_eq; [done|done|]. by rewrite H'.
Qed.

(** * New identifiers *)

Definition with_next_apid (tg : positive) t w : world :=
  set_tgs (<[tg := set_uniq_apid (uniq_apid t + 1) t]> (tgs w)) w.

Lemma make_apid_ok T S A B w p t :
  Inv T S A B w -> tgs w !! p = Some t ->
  wp (xpmem_make_apid p) (fun r w' =>
    if uniq_apid t =? XPMEM_MAX_UNIQ_ID then r = - EBUSY /\ w' = w
    else r = id_to_s64 (mk_id (tg_tgid t) (uniq_apid t + 1)) /\
         w' = with_next_apid p t w /\ Inv T S A B w') w.
Proof.
  intros HI E. pose proof (tg_all (inv_tg HI) p t E) as Hok.
  pose proof (tg_uniq_range Hok) as Hu. pose proof (tg_tgid_range Hok) as Ht.
  pose proof MAX_UNIQ_ID_val as Hmax.
  apply wp_bind. eapply wp_store; [done|]. apply wp_bind. eapply wp_load; [apply lookup_insert_eq|].
  cbn. rewrite s32_id by lia. apply wp_if.
  - intros Hgt%Z.gtb_lt. rewrite (proj2 (Z.eqb_eq (uniq_apid t) XPMEM_MAX_UNIQ_ID)) by lia.
    apply wp_bind. eapply wp_store; [apply lookup_insert_eq|]. cbn.
    apply wp_ret. split; [done|]. rewrite insert_insert_eq, s32_id by lia.
    replace (uniq_apid t + 1 - 1) with (uniq_apid t) by lia.
    replace (set_uniq_apid _ _) with t by (by destruct t). rewrite insert_id by done. by destruct w.
  - intros Hle. rewrite Z.gtb_ltb, Z.ltb_ge in Hle.
    rewrite (proj2 (Z.eqb_neq (uniq_apid t) XPMEM_MAX_UNIQ_ID)) by lia. rewrite u32_id by lia.
    apply wp_ret. split; [done|]. split; [done|].
    eapply Inv_tg_update; [done|done| |done|apply Hok|apply Hok|apply Hok].
    split; cbn; try done; first [lia | by left].
Qed.

Lemma next_apid_unused T S A B w tg t a x :
  Inv T S A B w -> tgs w !! tg = Some t -> uniq_apid t < XPMEM_MAX_UNIQ_ID ->
  a ∈ hashed_aps t -> aps w !! a = Some x ->
  apid x <> id_to_s64 (mk_id (tg_tgid t) (uniq_apid t + 1)).
Proof.
  intros HI Et Hm (l & Hl & [i Hi]%list_elem_of_lookup)%list_elem_of_join Ex E.
  pose proof (tg_all (inv_tg HI) tg t Et) as Hok.
  destruct (tg_aps_key Hok i l a Hi Hl) as (u & Ek & Hu & _). rewrite lookup_fmap, Ex in Ek.
  cbn in Ek. injection Ek as _ E'. rewrite E in E'.
  pose proof (tg_uniq_range Hok). pose proof (tg_tgid_range Hok).
  apply id_inj in E'; [injection E' as ?; lia|split; cbn; lia..].
Qed.

(** * The specification *)

(** Whether [cur] may access the segment [g] of the thread group [t]. *)
Definition permit_mode cur (flags : Z) t g : Z :=
  let perm := mk_perm (tg_uid t) (tg_gid t) (tg_uid t) (tg_gid t) (permit_value g) in
  let ret := xpmem_ipcperms cur perm S_IRUSR in
  if (ret =? 0) && has flags XPMEM_RDWR then xpmem_ipcperms cur perm S_IWUSR else ret.

Definition get_spec cur (segid flags permit_type permit_value : Z) w : (Z + Z) * world :=
  if get_args_bad segid flags permit_type permit_value then (inl (- EINVAL), w) else
  match find_tg w (xpmem_segid_to_tgid segid) with
  | None => (inl (- ENOENT), w)
  | Some stg =>
      match tgs w !! stg, find_seg w stg segid with
      | Some st, Some s =>
          match segs w !! s with
          | Some g =>
              if negb (permit_mode cur flags st g =? 0) then (inl (- EACCES), w) else
              match find_tg w (cur_tgid cur) with
              | None => (inl (- XPMEM_ERRNO_NOPROC), w)
              | Some tg =>
                  match tgs w !! tg with
                  | Some t =>
                      if uniq_apid t =? XPMEM_MAX_UNIQ_ID then (inl (- EBUSY), w) else
                      let id := id_to_s64 (mk_id (tg_tgid t) (uniq_apid t + 1)) in
                      let w1 := with_next_apid tg t w in
                      if kzalloc_ok (next_ptr w) then
                        (inr id, link_ap tg s (next_ptr w) (xpmem_ap_hashtable_index id)
                           (set_uniq_apid (uniq_apid t + 1) t) g (new_ap tg s id flags) w1)
                      else (inl (- ENOMEM), set_next_ptr (Pos.succ (next_ptr w)) w1)
                  | None => (inl (- XPMEM_ERRNO_NOPROC), w)
                  end
              end
          | None => (inl (- ENOENT), w)
          end
      | _, _ => (inl (- ENOENT), w)
      end
  end.

Lemma check_permit_mode_ok cur flags w s g t :
  segs w !! s = Some g -> permit_type g = XPMEM_PERMIT_MODE -> tgs w !! seg_tg g = Some t ->
  wp (xpmem_check_permit_mode cur flags s) (fun r w' => r = permit_mode cur flags t g /\ w' = w) w.
Proof.
  intros Es Hp Et. apply wp_bind. eapply wp_load; [done|]. apply wp_bind, wp_DBUG_ON.
  { by rewrite Hp. }
  apply wp_bind. eapply wp_load; [done|]. by apply wp_ret.
Qed.

(** ** The references [xpmem_get] holds: [stg], [s] and, later, [tg] *)

(** Dropping the segment and its thread group. *)
Lemma drop_seg_ok {V} T S A B w1 w stg s g (r : V) :
  Inv (T ⊎ {[+ stg +]}) (S ⊎ {[+ s +]}) A B w1 -> Inv T S A B w -> w1 ≡ w ->
  segs w !! s = Some g -> s ∈ list_of seg_list (tgs w) (seg_tg g) -> (0 < tgrefs T w stg)%nat ->
  wp ((xpmem_seg_deref s ;; xpmem_tg_deref stg) ;; mret r) (fun r' w' => r' = r /\ w' = w) w1.
Proof.
  intros HI1 HI H Es Hs Hr. destruct (equiv_seg _ _ _ _ (symmetry H) Es) as [n Es1].
  apply wp_bind. eapply wp_seq; [eapply seg_deref_ok; [done|done|]|].
  { eapply (listed_segrefs _ _ _ _ (seg_tg g)); [done|].
    rewrite (list_of_fmap _ (tgs w1) (tgs w)); [done|]. by apply equiv_tgs. }
  intros _ w2 [HI2 H2]. eapply wp_mono; [eapply (tg_deref_back T S A B w2 w)|].
  - done.
  - done.
  - by rewrite H2.
  - done.
  - intros _ w' ->. by apply wp_ret.
Qed.

Lemma link_ap_equiv tg s a i t t' g g' x w w' :
  w ≡ w' -> set_tg_refcnt 0 t = set_tg_refcnt 0 t' -> set_seg_refcnt 0 g = set_seg_refcnt 0 g' ->
  link_ap tg s a i t g x w ≡ link_ap tg s a i t' g' x w'.
Proof.
  intros H Et Eg. unfold link_ap. rewrite (equiv_next_ptr _ _ H).
  set (v := set_next_ptr (Pos.succ (next_ptr w')) w). set (v' := set_next_ptr (Pos.succ (next_ptr w')) w').
  assert (v ≡ v') as Hv by (unfold v, v'; by rewrite H).
  apply norm_tg in Et. apply norm_seg in Eg. rewrite Et, Eg.
  apply (equiv_insert_tg (set_segs _ (set_aps (<[a := x]> (aps w)) v)) (set_segs _ (set_aps (<[a := x]> (aps w')) v')));
    [|done].
  apply (equiv_insert_seg (set_aps (<[a := x]> (aps w)) v) (set_aps (<[a := x]> (aps w')) v')); [|done].
  by apply (equiv_insert_ap v v').
Qed.

Lemma tgrefs_link_ap T w tg t s g a i x p :
  segs w !! s = Some g -> (tgrefs T w p <= tgrefs T (link_ap tg s a i t g x w) p)%nat.
Proof.
  intros Eg. unfold tgrefs, tg_refs. change (hash_of (link_ap _ _ _ _ _ _ _ _)) with (hash_of w).
  cbn. rewrite fmap_insert. pose proof (map_sum_update (key_refs p) (seg_key <$> segs w) s (seg_key g)
    (seg_key (set_seg_ap_list (seg_ap_list g ++ [a]) g))) as Hs.
  rewrite lookup_fmap, Eg in Hs. specialize (Hs eq_refl). revert Hs.
  unfold key_refs at 2 4, seg_key at 3 5. cbn. rewrite length_app. case_decide; cbn; lia.
Qed.

Lemma get_link w1 w tg t n stg s g m id a flags :
  let t1 := set_uniq_apid (uniq_apid t + 1) (set_tg_refcnt n t) in
  let w2 := set_tgs (<[tg := t1]> (tgs w1)) w1 in
  let wf := link_ap tg s a (xpmem_ap_hashtable_index id) (set_uniq_apid (uniq_apid t + 1) t) g
              (new_ap tg s id flags) (with_next_apid tg t w) in
  Inv (∅ ⊎ {[+ stg +]} ⊎ {[+ tg +]}) (∅ ⊎ {[+ s +]}) ∅ ∅ w2 ->
  Inv ∅ ∅ ∅ ∅ w -> w1 ≡ w -> held w = [] -> tgs w !! tg = Some t ->
  segs w1 !! s = Some (set_seg_refcnt m g) -> seg_tg g = stg ->
  (0 < tgrefs ∅ w tg)%nat -> has (tg_flags t) XPMEM_FLAG_DESTROYED = false ->
  uniq_apid t < XPMEM_MAX_UNIQ_ID ->
  id = id_to_s64 (mk_id (tg_tgid t) (uniq_apid t + 1)) -> a = next_ptr w ->
  wp (init aps set_aps a (set_ap_refcnt 0 (new_ap tg s id flags)) ;;
      xpmem_ap_not_destroyable a ;;
      spin_lock (SegLock s) ;;
      seg_store s (fun s => set_seg_ap_list (seg_ap_list s ++ [a]) s) ;;
      spin_unlock (SegLock s) ;;
      write_lock (ApHashLock tg (xpmem_ap_hashtable_index id)) ;;
      tg_store tg (fun t => set_ap_hashtable (bucket_add (xpmem_ap_hashtable_index id) a (ap_hashtable t)) t) ;;
      write_unlock (ApHashLock tg (xpmem_ap_hashtable_index id)) ;;
      xpmem_tg_deref tg ;;
      mret (inr id : Z + Z))
    (fun r w' => r = inr id /\ w' ≡ wf /\ Inv ∅ ∅ ∅ ∅ w') (set_next_ptr (Pos.succ a) w2).
Proof.
  intros t1 w2 wf HI2 HI Hq Hh Et Es1 Hs Hr Hd Hm -> ->.
  pose proof (equiv_held _ _ Hq) as Hh1. rewrite Hh in Hh1.
  pose proof (equiv_next_ptr _ _ Hq) as Hn. set (id := id_to_s64 _) in *. set (a := next_ptr w) in *.
  set (i := xpmem_ap_hashtable_index id) in *.
  pose proof (tg_uniq_range (tg_all (inv_tg HI) tg t Et)) as Hu.
  apply wp_bind, wp_modify. apply wp_bind. eapply wp_store; [cbn; apply lookup_insert_eq|]. cbn. rewrite insert_insert_eq.
  apply wp_bind, wp_acquire; [cbn; rewrite Hh1; set_solver|].
  apply wp_bind. eapply wp_store; [exact Es1|]. cbn. rewrite Hh1.
  apply wp_bind. eapply (wp_release _ []); [done|set_solver|].
  apply wp_bind, wp_acquire; [set_solver|].
  apply wp_bind. eapply wp_store; [cbn; apply lookup_insert_eq|]. cbn.
  apply wp_bind. eapply (wp_release _ []); [done|set_solver|].
  match goal with |- wp _ _ ?W => replace W with
    (link_ap tg s a i t1 (set_seg_refcnt m g) (new_ap tg s id flags) w2)
    by (unfold link_ap, w2; destruct w1; cbn in *; by subst) end.
  eapply wp_seq; [eapply (tg_deref_ok ∅ ∅ ∅ ∅ _ tg)|intros _ w' [HI' H']; apply wp_ret].
  - assert (∅ ⊎ {[+ stg +]} ⊎ {[+ tg +]} = ∅ ⊎ {[+ tg +]} ⊎ {[+ stg +]} :> gmultiset positive) as ET
      by multiset_solver.
    rewrite ET, <- Hs in HI2.
    eapply (Inv_ap_link _ _ _ _ w2 tg t1 s (set_seg_refcnt m g) a id (uniq_apid t + 1) flags); try done.
    + apply lookup_insert_eq.
    + cbn. lia.
    + intros a' x' Hin Ex. cbn in Hin, Ex.
      destruct (equiv_ap _ _ _ _ Hq Ex) as [k Ex']. change (apid x') with (apid (set_ap_refcnt k x')).
      by eapply (next_apid_unused _ _ _ _ w tg t a' _ HI).
  - eapply Nat.lt_le_trans; [|by apply (tgrefs_link_ap ∅ w2)].
    change (tgrefs ∅ w2 tg) with (tgrefs ∅ w1 tg). by rewrite (tgrefs_equiv _ _ _ _ Hq).
  - split; [done|]. split; [|done]. rewrite H'. apply link_ap_equiv; [|done|done].
    by apply equiv_insert_tg.
Qed.

Lemma not_destroyed H SK AK T p t :
  tg_ok H SK AK T p t -> has (tg_flags t) XPMEM_FLAG_DESTROYING = false ->
  has (tg_flags t) XPMEM_FLAG_DESTROYED = false.
Proof.
  intros Hok Hd. destruct (has (tg_flags t) XPMEM_FLAG_DESTROYED) eqn:E; [|done].
  destruct (tg_destroyed Hok E) as [? _]. congruence.
Qed.

(** Dropping all three. *)
Lemma drop_all_ok {V} w1 w stg tg s g (r : V) :
  Inv (∅ ⊎ {[+ stg +]} ⊎ {[+ tg +]}) (∅ ⊎ {[+ s +]}) ∅ ∅ w1 -> Inv ∅ ∅ ∅ ∅ w -> w1 ≡ w ->
  segs w !! s = Some g -> s ∈ list_of seg_list (tgs w) (seg_tg g) ->
  (0 < tgrefs ∅ w stg)%nat -> (0 < tgrefs ∅ w tg)%nat ->
  wp (xpmem_tg_deref tg ;; (xpmem_seg_deref s ;; xpmem_tg_deref stg) ;; mret r)
    (fun r' w' => r' = r /\ w' = w) w1.
Proof.
  intros HI1 HI H Es Hs Hr1 Hr2. eapply wp_seq; [apply (tg_deref_ok _ _ ∅ ∅ w1 tg HI1)|].
  - rewrite (tgrefs_equiv _ _ _ _ H), tgrefs_add. lia.
  - intros _ w2 [HI2 H2]. eapply (drop_seg_ok ∅ ∅ ∅ ∅ w2 w); try done. by rewrite H2.
Qed.

(** From the new identifier on. *)
Lemma get_permit_ok w1 w tg t n stg s g m flags :
  Inv (∅ ⊎ {[+ stg +]} ⊎ {[+ tg +]}) (∅ ⊎ {[+ s +]}) ∅ ∅ w1 -> Inv ∅ ∅ ∅ ∅ w -> w1 ≡ w ->
  held w = [] -> tgs w !! tg = Some t -> tgs w1 !! tg = Some (set_tg_refcnt n t) ->
  segs w !! s = Some g -> segs w1 !! s = Some (set_seg_refcnt m g) -> seg_tg g = stg ->
  s ∈ list_of seg_list (tgs w) (seg_tg g) ->
  (0 < tgrefs ∅ w stg)%nat -> (0 < tgrefs ∅ w tg)%nat ->
  has (tg_flags t) XPMEM_FLAG_DESTROYED = false ->
  let drop_seg := xpmem_seg_deref s ;; xpmem_tg_deref stg in
  let id := id_to_s64 (mk_id (tg_tgid t) (uniq_apid t + 1)) in
  wp (apid ← xpmem_make_apid tg ;
      if apid <? 0 then xpmem_tg_deref tg ;; drop_seg ;; mret (inl apid) else
      p ← kzalloc ;
      match p with
      | None => xpmem_tg_deref tg ;; drop_seg ;; mret (inl (- ENOMEM))
      | Some ap =>
          init aps set_aps ap (mk_ap apid flags 0 0 s tg []) ;;
          xpmem_ap_not_destroyable ap ;;
          spin_lock (SegLock s) ;;
          seg_store s (fun s => set_seg_ap_list (seg_ap_list s ++ [ap]) s) ;;
          spin_unlock (SegLock s) ;;
          let index := xpmem_ap_hashtable_index apid in
          write_lock (ApHashLock tg index) ;;
          tg_store tg (fun t => set_ap_hashtable (bucket_add index ap (ap_hashtable t)) t) ;;
          write_unlock (ApHashLock tg index) ;;
          xpmem_tg_deref tg ;;
          mret (inr apid)
      end)
    (fun r w' =>
       let spec := if uniq_apid t =? XPMEM_MAX_UNIQ_ID then (inl (- EBUSY), w) else
         if kzalloc_ok (next_ptr w) then
           (inr id, link_ap tg s (next_ptr w) (xpmem_ap_hashtable_index id)
              (set_uniq_apid (uniq_apid t + 1) t) g (new_ap tg s id flags) (with_next_apid tg t w))
         else (inl (- ENOMEM), set_next_ptr (Pos.succ (next_ptr w)) (with_next_apid tg t w)) in
       r = spec.1 /\ w' ≡ spec.2 /\ Inv ∅ ∅ ∅ ∅ w') w1.
Proof.
  intros HI1 HI Hq Hh Et Et1 Es Es1 Hs Hin Hrs Hrt Hd drop_seg id.
  eapply wp_seq; [by eapply make_apid_ok|]. cbn. intros r w2.
  pose proof (tg_all (inv_tg HI) tg t Et) as Hok. pose proof (tg_uniq_range Hok) as Hu.
  pose proof (tg_tgid_range Hok) as Ht.
  destruct (Z.eqb_spec (uniq_apid t) XPMEM_MAX_UNIQ_ID) as [Hm|Hm].
  { intros [-> ->]. change (- EBUSY <? 0) with true. cbn [negb].
    eapply wp_mono; [by eapply (drop_all_ok w1 w stg tg s g)|]. by intros r w' [-> ->]. }
  intros (-> & -> & HI2). assert (0 < id) as Hid by (apply id_positive; split; cbn; lia).
  fold id. rewrite (proj2 (Z.ltb_ge id 0)) by lia.
  assert (Inv ∅ ∅ ∅ ∅ (with_next_apid tg t w)) as HIw.
  { destruct (wp_inv _ _ _ (make_apid_ok _ _ _ _ w tg t HI Et)) as (a & w' & _ & Hp).
    rewrite (proj2 (Z.eqb_neq _ _) Hm) in Hp. by destruct Hp as (_ & -> & ?). }
  apply wp_bind, wp_kzalloc; [cbn; by rewrite (equiv_held _ _ Hq), Hh| |]; cbn;
    rewrite (equiv_next_ptr _ _ Hq); intros Hk; rewrite Hk.
  - eapply (get_link w1 w tg t n stg s g m id (next_ptr w) flags); try done. lia.
  - eapply wp_mono; [eapply (drop_all_ok _ (set_next_ptr (Pos.succ (next_ptr w)) (with_next_apid tg t w)) stg tg s g)|].
    + rewrite <- (equiv_next_ptr _ _ Hq). by apply (Inv_bump _ _ _ _ _ HI2).
    + by apply (Inv_bump _ _ _ _ _ HIw).
    + apply set_next_ptr_proper. by apply equiv_insert_tg.
    + done.
    + cbn. by rewrite (list_of_insert_same _ _ _ t).
    + done.
    + done.
    + intros r w' [-> ->]. split; [done|]. split; [done|]. by apply (Inv_bump _ _ _ _ _ HIw).
Qed.

(** [xpmem_get] computes [get_spec], without faulting, and keeps the invariant. *)
Lemma get_ok cur id flags permit_type permit_value w :
  Inv ∅ ∅ ∅ ∅ w -> permits_ok w -> held w = [] ->
  wp (xpmem_get cur id flags permit_type permit_value) (fun r w' =>
    let spec := get_spec cur id flags permit_type permit_value w in
    r = spec.1 /\ w' ≡ spec.2 /\ Inv ∅ ∅ ∅ ∅ w') w.
Proof.
  intros HI Hw Hh. unfold xpmem_get, get_spec.
  destruct (get_args_bad id flags permit_type permit_value) eqn:Ha; [by apply wp_ret|].
  assert (0 < id) as Hid by (unfold get_args_bad in Ha; repeat rewrite orb_false_iff in Ha; lia).
  eapply wp_seq; [apply (tg_lookup_by_id_ok ∅ ∅ ∅ ∅); side|].
  intros r w1. destruct (find_tg w (xpmem_segid_to_tgid id)) as [stg|] eqn:Ef.
  2: { intros [-> ->]. by apply wp_ret. }
  intros (-> & HI1 & Hq1). pose proof (find_tg_hashed _ _ _ _ _ _ _ HI Ef) as Hr.
  destruct (find_tg_gen_Some _ _ _ _ _ _ _ _ HI Ef) as (_ & st & Est & _ & Hd). rewrite Est.
  destruct (equiv_tg _ _ _ _ (symmetry Hq1) Est) as [n1 Est1].
  assert (held w1 = []) as Hh1 by (by rewrite (equiv_held _ _ Hq1)).
  eapply wp_seq; [eapply (seg_lookup_ok _ ∅ ∅ ∅); try done; [by rewrite Hq1|side|side]|].
  intros r w2. rewrite (find_seg_equiv _ _ _ _ Hq1). destruct (find_seg w stg id) as [s|] eqn:Es.
  2: { intros [-> ->]. eapply wp_seq; [by eapply (tg_deref_back ∅ ∅ ∅ ∅ w1 w)|].
       intros _ w' ->. by apply wp_ret. }
  intros (-> & HI2 & Hq2). assert (w2 ≡ w) as Hq by (by rewrite Hq2). clear Hq2.
  destruct (find_seg_Some _ _ _ _ _ _ _ _ HI Es) as (g & Eg & Hg & Hgid & Hgd & Hin).
  rewrite Eg. destruct (equiv_seg _ _ _ _ (symmetry Hq) Eg) as [m2 Eg2].
  destruct (equiv_tg _ _ _ _ (symmetry Hq) Est) as [n2 Est2].
  assert (s ∈ list_of seg_list (tgs w) (seg_tg g)) as Hin' by (by rewrite Hg).
  eapply wp_seq; [eapply check_permit_mode_ok; [done|exact (seg_permit (seg_all (inv_seg HI) s g Eg))|]|].
  { cbn. by rewrite Hg. }
  intros r w' [-> ->]. change (permit_mode cur flags _ _) with (permit_mode cur flags st g).
  destruct (negb (permit_mode cur flags st g =? 0)).
  { eapply wp_mono; [by eapply (drop_seg_ok ∅ ∅ ∅ ∅ w2 w stg s g)|]. by intros r w' [-> ->]. }
  assert (held w2 = []) as Hh2 by (by rewrite (equiv_held _ _ Hq)).
  eapply wp_seq; [eapply (tg_lookup_ok _ _ ∅ ∅); [done|by rewrite Hq|side|side]|].
  intros r w3. rewrite (find_tg_equiv _ _ _ Hq). destruct (find_tg w (cur_tgid cur)) as [tg|] eqn:Eft.
  2: { intros [-> ->]. apply wp_bind, wp_DBUG_ON; [done|].
       eapply wp_mono; [by eapply (drop_seg_ok ∅ ∅ ∅ ∅ w2 w stg s g)|]. by intros r w' [-> ->]. }
  intros (-> & HI3 & Hq3). assert (w3 ≡ w) as Hq' by (by rewrite Hq3). clear Hq3.
  pose proof (find_tg_hashed _ _ _ _ _ _ _ HI Eft) as Hrt.
  destruct (find_tg_gen_Some _ _ _ _ _ _ _ _ HI Eft) as (_ & t & Et & _ & Htd). specialize (Htd eq_refl).
  rewrite Et. destruct (equiv_tg _ _ _ _ (symmetry Hq') Et) as [n3 Et3].
  destruct (equiv_seg _ _ _ _ (symmetry Hq') Eg) as [m3 Eg3].
  eapply wp_mono; [eapply (get_permit_ok w3 w tg t n3 stg s g m3 flags); try done|].
  - eapply not_destroyed; [|exact Htd]. by apply (tg_all (inv_tg HI)).
  - intros r w'. cbn. by destruct (uniq_apid t =? XPMEM_MAX_UNIQ_ID), (kzalloc_ok (next_ptr w)).
Qed.

(** C6: from every consistent state, [xpmem_get] returns without faulting, returns and does
    exactly what [get_spec] says on every branch (up to the reference counts, which the
    invariant determines; an error before the identifier is made leaves the very same state),
    and keeps the state consistent. *)
Theorem xpmem_get_refines cur id flags permit_type permit_value w :
  Inv ∅ ∅ ∅ ∅ w -> permits_ok w -> held w = [] ->
  exists r w', xpmem_get cur id flags permit_type permit_value w = Ok r w' /\
    r = (get_spec cur id flags permit_type permit_value w).1 /\
    w' ≡ (get_spec cur id flags permit_type permit_value w).2 /\
    ((get_spec cur id flags permit_type permit_value w).2 = w -> w' = w) /\ Inv ∅ ∅ ∅ ∅ w'.
Proof.
  intros HI Hw Hh. destruct (wp_inv _ _ _ (get_ok cur id flags permit_type permit_value w HI Hw Hh))
    as (r & w' & E & Hr & Hq & HI'). exists r, w'. split; [done|]. split; [done|]. split; [done|].
  split; [|done]. intros Es. rewrite Es in Hq. by eapply Inv_equiv_eq.
Qed.
End get_spec.

(** * Permissions *)

(** The class of the mode bits that applies to a task: owner, group or others. *)
Definition perm_class (cur : task) (p : kern_ipc_perm) : Z :=
  if (cur_euid cur =? perm_cuid p) || (cur_euid cur =? perm_uid p) then 6
  else if cur_in_group cur (perm_cgid p) || cur_in_group cur (perm_gid p) then 3 else 0.

Lemma ipcperms_bit cur p flag k :
  0 <= k < 3 -> Z.land (Z.lor (Z.lor (Z.shiftr flag 6) (Z.shiftr flag 3)) flag) 7 = 2 ^ k ->
  xpmem_ipcperms cur p flag = 0 <-> cur_ipc_owner cur = true \/ Z.testbit (perm_mode p) (perm_class cur p + k) = true.
Proof.
  intros Hk Hf. unfold xpmem_ipcperms. set (granted := if _ || _ then _ else _).
  assert (Z.testbit granted k = Z.testbit (perm_mode p) (perm_class cur p + k)) as Hg.
  { unfold granted, perm_class. destruct (_ || _); [|destruct (_ || _)].
    - rewrite Z.shiftr_spec by lia. f_equal. lia.
    - rewrite Z.shiftr_spec by lia. f_equal. lia.
    - f_equal. }
  set (req := Z.lor _ flag) in *.
  assert (has (Z.land req (Z.lnot granted)) 7 = negb (Z.testbit granted k)) as ->.
  { unfold has. rewrite (Z.land_comm req), <- Z.land_assoc, Hf, land_pow2, Z.lnot_spec by lia.
    destruct (Z.testbit granted k); cbn; [done|]. destruct (Z.eqb_spec (2 ^ k) 0); [lia|done]. }
  rewrite Hg. destruct (Z.testbit (perm_mode p) (perm_class cur p + k)), (cur_ipc_owner cur); cbn; intuition congruence.
Qed.

Section permissions.
Context `{K : Kernel}.

(** [xpmem_get] grants what the Unix permission bits of the segment grant to the class of the
    caller (owner of the segment, its group, others): reading for any access, and writing too
    when XPMEM_RDWR is asked for; CAP_IPC_OWNER overrides the bits. *)
Lemma permit_bits cur flags t g :
  let p := mk_perm (tg_uid t) (tg_gid t) (tg_uid t) (tg_gid t) (permit_value g) in
  permit_mode cur flags t g = 0 <->
  cur_ipc_owner cur = true \/
  (Z.testbit (permit_value g) (perm_class cur p + 2) = true /\
   (has flags XPMEM_RDWR = true -> Z.testbit (permit_value g) (perm_class cur p + 1) = true)).
Proof.
  intros p. unfold permit_mode. fold p.
  pose proof (ipcperms_bit cur p S_IRUSR 2 ltac:(lia) eq_refl) as HR.
  pose proof (ipcperms_bit cur p S_IWUSR 1 ltac:(lia) eq_refl) as HW. cbn [perm_mode p] in HR, HW.
  destruct (Z.eqb_spec (xpmem_ipcperms cur p S_IRUSR) 0) as [E|E]; cbn [andb].
  - pose proof (proj1 HR E). destruct (has flags XPMEM_RDWR); [rewrite HW|]; intuition congruence.
  - intuition congruence.
Qed.
End permissions.
