(* ===== verification/AccessSpec.v ===== *)
(** What a permit lets its owner do (xpmem_misc.c, xpmem_validate_access; the
    checks of xpmem_get.c and xpmem_attach.c that use it). *)

From S2P Require Import Prelude Kernel World Monad Ids Misc Pfn Attach Get Inv Graph Link Refs Lookup.
From S2P Require Import MakeSpec GetSpec.

Section access.
Context `{K : Kernel}.
Implicit Types (w : world) (cur : task).

(** Everything the check reads. *)
Record access_objects w (ap : positive) (x : xpmem_access_permit) t g : Prop := {
  access_ap : aps w !! ap = Some x;
  access_tg : tgs w !! ap_tg x = Some t;
  access_seg : segs w !! ap_seg x = Some g;
}.

Lemma validate_access_eq cur ap offset size mode w x t g :
  access_objects w ap x t g ->
  xpmem_validate_access cur ap offset size mode w =
    if negb (cur_tgid cur =? tg_tgid t) || ((mode =? XPMEM_RDWR) && (ap_mode x =? XPMEM_RDONLY))
    then Ok (inl (- EACCES)) w else
    if (offset <? 0) || (size =? 0) then Ok (inl (- EINVAL)) w else
    if u64 (offset + size) >? seg_size g then Ok (inl (- EINVAL)) w
    else Ok (inr (u64 (seg_vaddr g + offset))) w.
Proof.
  intros [E1 E2 E3]. unfold xpmem_validate_access, mbind, M_bind, ap_load, tg_load, seg_load, load.
  rewrite E1, E2. destruct (_ || _); [done|]. destruct (_ || _); [done|]. rewrite E3. by destruct (_ >? _).
Qed.

(** As long as no sum wraps around, [xpmem_validate_access] accepts an access exactly when it
    is made by the process that owns the permit, the permit is not read-only or the access is
    not for writing, and the range is not empty and lies in the segment; it returns the address
    of the range in the source process. *)
Theorem validate_access_exact cur ap offset size mode w x t g :
  access_objects w ap x t g -> 0 <= size -> offset + size < 2 ^ 64 ->
  0 <= seg_vaddr g -> seg_vaddr g + seg_size g < 2 ^ 64 ->
  exists r, xpmem_validate_access cur ap offset size mode w = Ok r w /\
    let mine := cur_tgid cur = tg_tgid t /\ ~ (mode = XPMEM_RDWR /\ ap_mode x = XPMEM_RDONLY) in
    let inside := 0 <= offset /\ 0 < size /\ offset + size <= seg_size g in
    match r with
    | inr v => mine /\ inside /\ v = seg_vaddr g + offset /\
        forall a, v <= a < v + size -> seg_vaddr g <= a < seg_vaddr g + seg_size g
    | inl e => (e = - EACCES /\ ~ mine) \/ (e = - EINVAL /\ mine /\ ~ inside)
    end.
Proof.
  intros HO Hs Hos Hv Hvs. rewrite (validate_access_eq _ _ _ _ _ _ _ _ _ HO).
  destruct (Z.eqb_spec (cur_tgid cur) (tg_tgid t)) as [Ht|Ht]; cbn [negb orb].
  2: { eexists. split; [done|]. left. split; [done|]. tauto. }
  destruct (Z.eqb_spec mode XPMEM_RDWR) as [Hm|Hm], (Z.eqb_spec (ap_mode x) XPMEM_RDONLY) as [Ha|Ha]; cbn [andb].
  1: { eexists. split; [done|]. left. split; [done|]. tauto. }
  all: destruct ((offset <? 0) || (size =? 0)) eqn:E1;
    [eexists; split; [done|]; right; apply orb_true_iff in E1; split; [done|]; split; [tauto|lia]|].
  all: apply orb_false_iff in E1 as [E1 E1']; rewrite u64_id by lia.
  all: rewrite Z.gtb_ltb; destruct (Z.ltb_spec (seg_size g) (offset + size)) as [E2|E2];
    [eexists; split; [done|]; right; split; [done|]; split; [tauto|lia]|].
  all: eexists; split; [done|]; rewrite u64_id by lia; split; [tauto|]; split; [lia|]; split; [done|]; intros; lia.
Qed.

(** C33: a read-only permit can be obtained and never be attached: [xpmem_attach] asks for write
    access whatever the permit says. *)
Theorem readonly_permit_never_attaches cur ap seg_tg offset size vaddr w x t g :
  access_objects w ap x t g -> ap_mode x = XPMEM_RDONLY ->
  attach_locked cur ap seg_tg offset size vaddr w = Ok (inl (- EACCES)) w.
Proof.
  intros HO Ha. unfold attach_locked, mbind at 1, M_bind at 1.
  rewrite (validate_access_eq _ _ _ _ _ _ _ _ _ HO), Ha. cbn. by rewrite orb_true_r.
Qed.

(** The segment [id] is [g], of the thread group [st]; the caller has a thread group [tg], which
    can have one more permit. *)
Record get_ready w cur (id : Z) st s g tg : Prop := {
  ready_seg : exists stg, find_tg w (xpmem_segid_to_tgid id) = Some stg /\ tgs w !! stg = Some st /\
    find_seg w stg id = Some s /\ segs w !! s = Some g;
  ready_tg : find_tg w (cur_tgid cur) = Some tg;
  ready_id : forall t, tgs w !! tg = Some t -> uniq_apid t <> XPMEM_MAX_UNIQ_ID;
  ready_memory : kzalloc_ok (next_ptr w) = true;
}.

(** What [get_spec] says then, by the permissions. *)
Lemma get_spec_ready w cur id st s g tg flags :
  Inv ∅ ∅ ∅ ∅ w -> get_ready w cur id st s g tg -> get_args_bad id flags XPMEM_PERMIT_MODE 0 = false ->
  (permit_mode cur flags st g <> 0 -> get_spec cur id flags XPMEM_PERMIT_MODE 0 w = (inl (- EACCES), w)) /\
  (permit_mode cur flags st g = 0 -> exists t i, tgs w !! tg = Some t /\ tg_tgid t = cur_tgid cur /\
     let nid := id_to_s64 (mk_id (tg_tgid t) (uniq_apid t + 1)) in
     get_spec cur id flags XPMEM_PERMIT_MODE 0 w = (inr nid,
       link_ap tg s (next_ptr w) i (set_uniq_apid (uniq_apid t + 1) t) g (new_ap tg s nid flags) (with_next_apid tg t w))).
Proof.
  intros HI [(stg & E1 & E2 & E3 & E4) E5 E6 E7] Ha. unfold get_spec. rewrite Ha, E1, E2, E3, E4, E5. split.
  - intros Hp. by destruct (Z.eqb_spec (permit_mode cur flags st g) 0).
  - intros ->. destruct (find_tg_gen_Some _ _ _ _ _ _ _ _ HI E5) as (_ & t & Et & Ht & _).
    rewrite Et. specialize (E6 t Et). cbn. destruct (Z.eqb_spec (uniq_apid t) XPMEM_MAX_UNIQ_ID); [done|].
    rewrite E7. by eexists t, _.
Qed.

(** C32: a process that the mode bits of a segment let read but not write is refused XPMEM_RDWR by
    [xpmem_get], and is given a permit when it asks for neither XPMEM_RDONLY nor XPMEM_RDWR (flags
    0); this permit then passes the check for XPMEM_RDWR that [xpmem_attach] makes, for every range
    of the segment. *)
Theorem zero_flags_gain_write cur id w st s g tg :
  let p := mk_perm (tg_uid st) (tg_gid st) (tg_uid st) (tg_gid st) (permit_value g) in
  Inv ∅ ∅ ∅ ∅ w -> permits_ok w -> held w = [] -> 0 < id -> get_ready w cur id st s g tg ->
  cur_ipc_owner cur = false ->
  Z.testbit (permit_value g) (perm_class cur p + 2) = true ->
  Z.testbit (permit_value g) (perm_class cur p + 1) = false ->
  xpmem_get cur id XPMEM_RDWR XPMEM_PERMIT_MODE 0 w = Ok (inl (- EACCES)) w /\
  exists nid w' ap x, xpmem_get cur id 0 XPMEM_PERMIT_MODE 0 w = Ok (inr nid) w' /\
    aps w' !! ap = Some x /\ apid x = nid /\
    forall offset size, 0 <= offset -> 0 < size -> offset + size <= seg_size g < 2 ^ 64 ->
      xpmem_validate_access cur ap offset size XPMEM_RDWR w' = Ok (inr (u64 (seg_vaddr g + offset))) w'.
Proof.
  intros p HI Hw Hh Hid HR Hc Hr Hwr.
  assert (forall f, f = 0 \/ f = XPMEM_RDWR -> get_args_bad id f XPMEM_PERMIT_MODE 0 = false) as Ha
    by (intros f [->| ->]; unfold get_args_bad; cbn; destruct (Z.leb_spec id 0); lia || done).
  assert (permit_mode cur XPMEM_RDWR st g <> 0 /\ permit_mode cur 0 st g = 0) as [P1 P2].
  { pose proof (permit_bits cur 0 st g) as B0. pose proof (permit_bits cur XPMEM_RDWR st g) as B1. cbn zeta in B0, B1. fold p in B0, B1.
    split; [rewrite B1, Hc, Hwr; intros [?|[_ H]]; [done|by specialize (H eq_refl)]|]. apply B0. right. by split. }
  destruct (get_spec_ready w cur id st s g tg XPMEM_RDWR HI HR) as [S1 _]; [by apply Ha; right|]. specialize (S1 P1).
  destruct (get_spec_ready w cur id st s g tg 0 HI HR) as [_ S2]; [by apply Ha; left|].
  destruct (S2 P2) as (t & i & Et & Htid & S3). clear S2. cbn zeta in S3. split.
  - destruct (wp_inv _ _ _ (get_ok cur id XPMEM_RDWR XPMEM_PERMIT_MODE 0 w HI Hw Hh)) as (r & w' & E & Er & Hq & HI').
    rewrite S1 in Er, Hq. rewrite E, Er. f_equal. by eapply Inv_equiv_eq.
  - destruct (wp_inv _ _ _ (get_ok cur id 0 XPMEM_PERMIT_MODE 0 w HI Hw Hh)) as (r & w' & E & Er & Hq & HI').
    rewrite S3 in Er, Hq. cbn [fst snd] in Er, Hq. set (nid := id_to_s64 _) in *. symmetry in Hq.
    destruct (equiv_ap _ _ (next_ptr w) (new_ap tg s nid 0) Hq (lookup_insert_eq _ _ _)) as [n1 A1].
    destruct (equiv_tg _ _ tg _ Hq (lookup_insert_eq _ _ _)) as [n2 A2].
    destruct (equiv_seg _ _ s _ Hq (lookup_insert_eq _ _ _)) as [n3 A3].
    eexists nid, w', (next_ptr w), _. split; [by rewrite E, Er|]. split; [exact A1|]. split; [done|].
    intros offset size Ho Hs Hin. eassert (access_objects w' (next_ptr w) _ _ _) as HO by (split; [exact A1|exact A2|exact A3]).
    rewrite (validate_access_eq _ _ _ _ _ _ _ _ _ HO). cbn. rewrite Htid, Z.eqb_refl. cbn.
    destruct (Z.ltb_spec offset 0); [lia|]. destruct (Z.eqb_spec size 0); [lia|]. cbn.
    rewrite u64_id, Z.gtb_ltb by lia. by destruct (Z.ltb_spec (seg_size g) (offset + size)); [lia|].
Qed.
End access.
