(* ===== verification/OpenSpec.v ===== *)
(** [xpmem_open] does what it promises: it computes the function [open_spec]
    and keeps the invariant of the object graph, which holds of the module as
    it is loaded. *)

From S2P Require Import Prelude Kernel World Monad Ids Misc Pfn Attach Make Get Recall Notifier Main Inv.
From S2P Require Import Graph Link Refs Lookup MakeSpec.

Section open_spec.
Context `{K : Kernel}.
Implicit Types (w : world) (cur : task).

(** The thread group of [cur], as it is when [xpmem_open] returns. *)
Definition opened_tg cur : xpmem_thread_group :=
  set_group_leader (Some (cur_leader cur)) (set_tg_refcnt 1 (set_mmu_initialized true
    (set_mmu_unregister_called false (new_tg cur)))).

(** A new thread group, with its notifier, its proc entry and a reference on the group leader. *)
Definition created cur (pt : xpmem_partition) w : Z * world :=
  let tg := next_ptr w in
  let w1 := set_next_ptr (Pos.succ tg) w in
  if negb (kzalloc_ok tg) then (- ENOMEM, w1) else
  if negb (mmu_notifier_register tg =? 0) then (- EFAULT, w1) else
  (0, set_notifiers ((tg, cur_mm cur) :: notifiers w)
        (set_procfs (if proc_create_ok (cur_tgid cur) then cur_tgid cur :: procfs w else procfs w)
          (set_task_usage (<[cur_leader cur := default 0 (task_usage w !! cur_leader cur) + 1]> (task_usage w))
            (link_tg tg (opened_tg cur) pt w)))).

Definition open_spec cur w : Z * world :=
  match find_tg w (cur_tgid cur), part w with
  | Some _, _ => (0, w)
  | None, None => (0, w)
  | None, Some pt => created cur pt w
  end.

Lemma opened_tg_new cur : 0 < cur_tgid cur < 2 ^ 31 -> tg_new (opened_tg cur).
Proof. by intros; split. Qed.

Lemma open_spec_inv cur w :
  Inv ∅ ∅ ∅ ∅ w -> 0 < cur_tgid cur < 2 ^ 31 -> Inv ∅ ∅ ∅ ∅ (open_spec cur w).2.
Proof.
  intros HI Ht. unfold open_spec. destruct (find_tg w (cur_tgid cur)); [done|].
  destruct (part w) as [pt|] eqn:Ep; [|done]. unfold created.
  destruct (negb (kzalloc_ok _)); [by apply Inv_bump|].
  destruct (negb (mmu_notifier_register _ =? 0)); [by apply Inv_bump|].
  eapply Inv_same; [apply (Inv_tg_link _ _ _ _ w (next_ptr w) (opened_tg cur) pt)|done..].
  1-3: done. by apply opened_tg_new.
Qed.

Lemma open_new_ok cur pt w :
  part w = Some pt -> tgs w !! next_ptr w = None -> held w = [] -> cur_mm cur = cur_leader_mm cur ->
  wp (open_new cur) (fun r w' => (r, w') = created cur pt w) w.
Proof.
  intros Ep F Hh Hmm. unfold open_new, created.
  apply wp_bind, wp_kzalloc; [by rewrite Hh| |]; intros Hk; rewrite Hk; cbn [negb]; [|by apply wp_ret].
  apply wp_bind, wp_modify. apply wp_bind, wp_bind. eapply wp_load; [apply lookup_insert_eq|].
  cbn. apply wp_bind. eapply wp_store; [apply lookup_insert_eq|]. cbn.
  apply wp_bind, wp_might_sleep; [cbn; by rewrite Hh|].
  destruct (mmu_notifier_register (next_ptr w) =? 0) eqn:Er; cbn [negb].
  - apply wp_bind, wp_modify. apply wp_bind. eapply wp_store; [cbn; apply lookup_insert_eq|].
    apply wp_ret. cbn. apply wp_bind, wp_acquire; [cbn; rewrite Hh; set_solver|]. cbn. rewrite Hh.
    apply wp_bind, wp_modify. apply wp_bind. eapply (wp_release _ []); [by case_match|set_solver|].
    apply wp_bind. eapply wp_store; [case_match; cbn; apply lookup_insert_eq|].
    apply wp_bind, wp_acquire; [set_solver|]. cbn.
    apply wp_bind. eapply wp_part_store; [case_match; exact Ep|].
    apply wp_bind. eapply (wp_release _ []); [done|set_solver|].
    apply wp_bind, wp_modify. apply wp_bind. eapply wp_store; [cbn; apply lookup_insert_eq|].
    apply wp_bind, wp_BUG_ON; [by rewrite bool_decide_eq_true_2|]. apply wp_ret. f_equal.
    unfold link_tg, opened_tg. destruct w; cbn in *. subst.
    destruct (proc_create_ok (cur_tgid cur)); cbn; by rewrite !insert_insert_eq.
  - apply wp_ret. cbn. rewrite Er. cbn [negb]. apply wp_bind.
    eapply wp_kfree; [cbn; apply lookup_insert_eq|]. apply wp_ret. f_equal.
    cbn. rewrite insert_insert_eq, delete_insert_id by done. by destruct w.
Qed.

Lemma open_ok cur w :
  Inv ∅ ∅ ∅ ∅ w -> permits_ok w -> held w = [] -> cur_mm cur = cur_leader_mm cur ->
  wp (xpmem_open cur) (fun r w' => (r, w') = open_spec cur w) w.
Proof.
  intros HI Hw Hh Hmm. unfold xpmem_open, open_spec.
  eapply wp_seq; [apply (tg_lookup_ok ∅ ∅ ∅ ∅); side|].
  intros r w1. destruct (find_tg w (cur_tgid cur)) as [tg|] eqn:Ef.
  { intros (-> & HI1 & Hq). eapply wp_seq.
    - eapply (tg_deref_back ∅ ∅ ∅ ∅ w1 w); try done. by eapply find_tg_hashed.
    - intros _ w' ->. by apply wp_ret. }
  intros [-> ->]. destruct (inv_part HI) as [pt Ep]. rewrite Ep.
  destruct (inv_fresh HI (next_ptr w)) as (F & _); [lia|]. by apply open_new_ok.
Qed.

(** The module as it is loaded: an empty hash table and empty heaps. *)
Lemma Inv_init w :
  part w = Some (mk_part 0 0 (replicate 8 [])) ->
  tgs w = ∅ -> segs w = ∅ -> aps w = ∅ -> atts w = ∅ -> Inv ∅ ∅ ∅ ∅ w.
Proof.
  intros E0 E1 E2 E3 E4. split.
  - by rewrite E0.
  - unfold hash_of. rewrite E0, E1, E2, E3, !fmap_empty. split; cbn [tg_hashtable].
    + done.
    + constructor.
    + intros i l p [-> _]%lookup_replicate. by intros ?%elem_of_nil.
    + done.
    + intros p. unfold tg_refs. rewrite b2n_false, multiplicity_empty by (cbn; apply not_elem_of_nil).
      unfold map_sum. rewrite map_fold_empty. lia.
  - rewrite E2. split; [done|]. by intros s ?%gmultiset_not_elem_of_empty.
  - rewrite E3. split; [done|]. by intros s ?%gmultiset_not_elem_of_empty.
  - rewrite E4. split; [done|]. by intros s ?%gmultiset_not_elem_of_empty.
  - intros p _. by rewrite E1, E2, E3, E4.
Qed.

(** C29: from every consistent state, [xpmem_open] returns without faulting, creates the thread
    group of the calling process when there is no live one, with its notifier, its proc entry and
    a reference on the group leader, undoes everything when the notifier cannot be registered,
    and keeps the state consistent. *)
Theorem xpmem_open_refines cur w :
  Inv ∅ ∅ ∅ ∅ w -> permits_ok w -> held w = [] -> cur_mm cur = cur_leader_mm cur ->
  0 < cur_tgid cur < 2 ^ 31 ->
  exists r w', xpmem_open cur w = Ok r w' /\ (r, w') = open_spec cur w /\ Inv ∅ ∅ ∅ ∅ w'.
Proof.
  intros HI Hw Hh Hmm Ht. destruct (wp_inv _ _ _ (open_ok cur w HI Hw Hh Hmm)) as (r & w' & E & Hs).
  exists r, w'. split; [done|]. split; [done|].
  replace w' with ((open_spec cur w).2) by (by rewrite <- Hs). by apply open_spec_inv.
Qed.

(** * Two threads *)

(** What the creation of a thread group leaves behind. *)
Lemma created_hashed cur pt w :
  part w = Some pt -> length (tg_hashtable pt) = Z.to_nat XPMEM_TG_HASHTABLE_SIZE ->
  kzalloc_ok (next_ptr w) = true -> mmu_notifier_register (next_ptr w) = 0 ->
  let w' := (created cur pt w).2 in exists pt', (created cur pt w).1 = 0 /\ part w' = Some pt' /\
    length (tg_hashtable pt') = Z.to_nat XPMEM_TG_HASHTABLE_SIZE /\ held w' = held w /\ next_ptr w' = Pos.succ (next_ptr w) /\
    tgs w' = <[next_ptr w := opened_tg cur]> (tgs w) /\ mjoin (tg_hashtable pt') ≡ₚ next_ptr w :: mjoin (tg_hashtable pt).
Proof.
  intros Ep Hl Hk Hm. unfold created. rewrite Hk, Hm. eexists. split_and!; try done; cbn.
  - unfold bucket_add. by rewrite length_alter.
  - apply bucket_add_perm. rewrite Hl. apply tg_index_lt.
Qed.

(** Two threads of a process open the device at the same time.  [xpmem_open] releases the lock
    between the look-up and the addition to the hash table: when both threads look first and neither
    finds a thread group, both make one, and the hash table has two of the same process. *)
Theorem open_race cur w :
  let p := next_ptr w in let q := Pos.succ p in
  Inv ∅ ∅ ∅ ∅ w -> permits_ok w -> held w = [] -> cur_mm cur = cur_leader_mm cur -> find_tg w (cur_tgid cur) = None ->
  kzalloc_ok p = true -> kzalloc_ok q = true -> mmu_notifier_register p = 0 -> mmu_notifier_register q = 0 ->
  exists w1 w2, xpmem_tg_ref_by_tgid (cur_tgid cur) w = Ok (inl (- ENOENT)) w /\
    open_new cur w = Ok 0 w1 /\ open_new cur w1 = Ok 0 w2 /\
    p ∈ mjoin (hash_of w2) /\ q ∈ mjoin (hash_of w2) /\ p <> q /\
    tgs w2 !! p = Some (opened_tg cur) /\ tgs w2 !! q = Some (opened_tg cur).
Proof.
  intros p q HI Hw Hh Hmm Hf Hk1 Hk2 Hm1 Hm2. destruct (inv_part HI) as [pt Ep]. pose proof (hash_size (inv_tg HI)) as Hl. unfold hash_of in Hl. rewrite Ep in Hl.
  destruct (wp_inv _ _ _ (tg_lookup_ok ∅ ∅ ∅ ∅ w (cur_tgid cur) HI Hw ltac:(side) ltac:(side))) as (r0 & w0 & E0 & H0). rewrite Hf in H0. destruct H0 as [-> ->].
  destruct (created_hashed cur pt w Ep Hl Hk1 Hm1) as (pt1 & R1 & Ep1 & Hl1 & Hh1 & Hn1 & Et1 & Hj1).
  destruct (inv_fresh HI p) as (Fp & _); [unfold p; lia|]. destruct (inv_fresh HI q) as (Fq & _); [unfold q, p; lia|].
  destruct (wp_inv _ _ _ (open_new_ok cur pt w Ep Fp Hh Hmm)) as (r1 & w1 & E1 & H1). rewrite (surjective_pairing (created cur pt w)), R1 in H1. injection H1 as -> ->.
  set (w1 := (created cur pt w).2) in *. fold p in Et1, Hn1. fold q in Hn1. assert (p <> q) as Hne by (unfold q; lia).
  destruct (created_hashed cur pt1 w1 Ep1 Hl1 ltac:(by rewrite Hn1) ltac:(by rewrite Hn1)) as (pt2 & R2 & Ep2 & Hl2 & Hh2 & Hn2 & Et2 & Hj2).
  destruct (wp_inv _ _ _ (open_new_ok cur pt1 w1 Ep1 ltac:(rewrite Hn1, Et1, lookup_insert_ne by done; exact Fq) ltac:(by rewrite Hh1) Hmm)) as (r2 & w2 & E2 & H2).
  rewrite (surjective_pairing (created cur pt1 w1)), R2 in H2. injection H2 as -> ->. exists w1, (created cur pt1 w1).2.
  rewrite Et2, Et1, Hn1. unfold hash_of. rewrite Ep2, Hj2, Hj1, Hn1. split_and!; try done.
  - right. left.
  - left.
  - rewrite lookup_insert_ne by done. apply lookup_insert_eq.
  - apply lookup_insert_eq.
Qed.
End open_spec.
