(* ===== verification/ModuleSpec.v ===== *)
(** Loading and unloading: the module is registered completely or not at all,
    unloading undoes loading, and what a reader of the proc files sees. *)

From Stdlib Require Import Ascii.
From stdpp Require Import strings pretty.
From S2P Require Import Prelude Kernel World Monad Ids Misc Recall Main Module Inv OpenSpec.

Section module_spec.
Context `{K : Kernel} {R : Registration}.

Definition unloaded (k : kmod) : Prop :=
  part (mod_world k) = None /\ unpin_procfs_dir k = false /\ proc_entries k = [] /\ dev_handle k = false /\
  held (mod_world k) = [].

Definition registered (k : kmod) : Prop :=
  unpin_procfs_dir k = true /\ proc_entries k = [debug_printk; global_pages] /\ dev_handle k = true.

(** All that loading leaves behind when it does not succeed: one more allocation. *)
Definition after_kzalloc (k : kmod) : kmod :=
  set_mod_world (set_next_ptr (Pos.succ (next_ptr (mod_world k))) (mod_world k)) k.

(** Whether the kernel grants all that the module asks for. *)
Definition grants (k : kmod) : bool :=
  kzalloc_ok (next_ptr (mod_world k)) && proc_mkdir_ok && (misc_register =? 0)
  && proc_create_entry_ok global_pages && proc_create_entry_ok debug_printk.

Definition loaded (k : kmod) : kmod :=
  mk_kmod K (set_part (Some new_part) (mod_world (after_kzalloc k))) true [debug_printk; global_pages] true
    (xpmem_debug_on k).

Lemma init_ok k :
  unloaded k -> exists r, xpmem_init k = Ok r (if grants k then loaded k else after_kzalloc k) /\
    (r = 0 <-> grants k = true).
Proof.
  intros (Hp & Hd & He & Hv & Hh). unfold grants.
  destruct k as [w dir es dev dbg]. cbn in *. subst dir es dev.
  unfold xpmem_init, kzalloc, might_sleep, liftK, mbind, M_bind, MK_bind, mret, M_ret, MK_ret, get, modify. cbn.
  rewrite Hh. cbn. destruct (kzalloc_ok (next_ptr w)); cbn; [|by eexists].
  unfold proc_mkdir, register_dev, proc_create, free_part, liftK, changeK, mbind, MK_bind, mret, MK_ret. cbn.
  destruct w as [pt ? ? ? ? ? ? ? ? ? ? ? ? ? ? ?]. cbn in *. subst pt.
  destruct proc_mkdir_ok; cbn; [|by eexists; split; [|split]].
  destruct (Z.eqb_spec misc_register 0) as [|Hr]; cbn; [|].
  2: { rewrite (proj2 (Z.eqb_neq _ _) Hr). cbn. by eexists; split; [|split]. }
  destruct (proc_create_entry_ok global_pages); cbn; [|by eexists; split; [|split]].
  destruct (proc_create_entry_ok debug_printk); cbn; [by eexists; split; [|split]|].
  by eexists; split; [|split].
Qed.

(** C37: loading the module registers everything, with an empty hash table in a consistent state,
    when the kernel grants all that is asked for, and returns an error and leaves nothing
    registered and nothing allocated otherwise. *)
Theorem init_all_or_nothing k :
  unloaded k -> tgs (mod_world k) = ∅ -> segs (mod_world k) = ∅ -> aps (mod_world k) = ∅ -> atts (mod_world k) = ∅ ->
  exists r k', xpmem_init k = Ok r k' /\
    if grants k then r = 0 /\ registered k' /\ Inv ∅ ∅ ∅ ∅ (mod_world k')
    else r <> 0 /\ k' = after_kzalloc k.
Proof.
  intros Hu E1 E2 E3 E4. destruct (init_ok k Hu) as (r & E & Hr). do 2 eexists. split; [exact E|].
  destruct (grants k).
  - split; [by apply Hr|]. split; [done|]. by apply Inv_init.
  - split; [|done]. intros Hz. apply Hr in Hz. done.
Qed.

(** C38: unloading undoes loading. *)
Theorem exit_undoes_init k k1 :
  unloaded k -> xpmem_init k = Ok 0 k1 -> xpmem_exit k1 = Ok () (after_kzalloc k).
Proof.
  intros Hu E. destruct (init_ok k Hu) as (r & E' & Hr). rewrite E in E'. injection E' as <- ->.
  rewrite (proj1 Hr eq_refl). destruct Hu as (Hp & Hd & He & Hv & Hh).
  destruct k as [[] dir es dev dbg]. cbn in *. by subst.
Qed.

(** xpmem_exit frees the partition first: until /proc/xpmem/global_pages is removed, two
    statements later, reading it accesses memory that was freed. *)
Theorem exit_readers_fault fuel k k1 n :
  registered k -> (1 <= n <= 2)%nat -> run_steps (take n xpmem_exit_steps) k = Ok () k1 ->
  global_pages ∈ proc_entries k1 /\ proc_show (ops_of fuel global_pages) k1 = Fault UseAfterFree.
Proof.
  intros (_ & He & _) Hn E. destruct k as [w dir es dev dbg]. cbn in He. subst es.
  assert (n = 1 \/ n = 2)%nat as [-> | ->] by lia;
    injection E as <-; (split; [by right; left|done]).
Qed.

(** The debug_printk file: after a write of a character it shows 0 or 1 as it was told, and what it
    showed before for any other character. *)
Theorem debug_printk_roundtrip c count k :
  exists k', proc_write (ops_of 0 debug_printk) (Some c) count k = Ok count k' /\
    proc_show (ops_of 0 debug_printk) k' =
      Ok (if bool_decide (c = "0"%char \/ c = "1"%char)
          then String c (String (ascii_of_nat 10) EmptyString)
          else seq_line EmptyString (xpmem_debug_on k)) k' /\
    mod_world k' = mod_world k.
Proof.
  cbn. unfold xpmem_debug_printk_procfs_write, xpmem_debug_printk_procfs_show.
  unfold mbind, MK_bind, mret, MK_ret, changeK.
  destruct (decide (c = "0"%char)) as [->|H0]; [by eexists|].
  destruct (decide (c = "1"%char)) as [->|H1]; [by eexists|].
  rewrite !bool_decide_eq_false_2 by naive_solver. by eexists.
Qed.
End module_spec.
