(* ===== verification/PfnSpec.v ===== *)
(** Unpinning (xpmem_pfn.c, xpmem_unpin_pages): the walk that skips holes of the
    page tables drops exactly one reference on every page that is mapped in the
    range, and counts them. *)

From S2P Require Import Prelude Kernel World Monad Ids Misc Pfn.

Section pages.
Context `{K : Kernel}.

(** The reference: look at every page of the range. *)
Definition mapped_pfn (pt : pgtable) (mm : positive) (vaddr : Z) : option Z :=
  match walk_pte_size pt mm vaddr with inr pfn => Some pfn | inl _ => None end.

Fixpoint mapped_pfns (pt : pgtable) (mm : positive) (vaddr : Z) (n : nat) : list Z :=
  match n with
  | O => []
  | S n => option_list (mapped_pfn pt mm vaddr) ++ mapped_pfns pt mm (vaddr + PAGE_SIZE) n
  end.

(** [put_page] on each page of a list. *)
Definition put_pages (l : list Z) (m : gmap Z Z) : gmap Z Z :=
  foldl (fun m pfn => <[pfn := default 0 (m !! pfn) + -1]> m) m l.

Lemma mapped_pfns_skip pt mm v m n :
  (forall k : nat, (k < m)%nat -> mapped_pfn pt mm (v + Z.of_nat k * PAGE_SIZE) = None) ->
  mapped_pfns pt mm v (m + n) = mapped_pfns pt mm (v + Z.of_nat m * PAGE_SIZE) n.
Proof.
  revert v. induction m as [|m IH]; intros v Hm; cbn [Nat.add mapped_pfns].
  - by rewrite Z.mul_0_l, Z.add_0_r.
  - pose proof (Hm 0%nat) as H0. rewrite Z.mul_0_l, Z.add_0_r in H0. rewrite H0 by lia. cbn [option_list app].
    assert (forall k, v + PAGE_SIZE + Z.of_nat k * PAGE_SIZE = v + Z.of_nat (S k) * PAGE_SIZE) as Hk
      by (intros; rewrite Nat2Z.inj_succ; ring).
    rewrite IH; [by rewrite Hk|]. intros k ?. rewrite Hk. apply Hm. lia.
Qed.

(** The addresses of the [n] pages from [v]. *)
Fixpoint page_addrs (v : Z) (n : nat) : list Z :=
  match n with O => [] | S n => v :: page_addrs (v + PAGE_SIZE) n end.

Lemma page_addrs_elem v n a :
  a ∈ page_addrs v n <-> exists k : nat, (k < n)%nat /\ a = v + Z.of_nat k * PAGE_SIZE.
Proof.
  revert v. induction n as [|n IH]; intros v; cbn [page_addrs].
  - rewrite elem_of_nil. split; [done|]. intros (k & ? & _). lia.
  - rewrite elem_of_cons, IH. split.
    + intros [->|(k & Hk & ->)]; [exists 0%nat; lia|]. exists (S k). split; [lia|]. rewrite Nat2Z.inj_succ. ring.
    + intros ([|k] & Hk & ->); [left; lia|]. right. exists k. split; [lia|]. rewrite Nat2Z.inj_succ. ring.
Qed.

Lemma page_addrs_NoDup v n : 0 < PAGE_SIZE -> NoDup (page_addrs v n).
Proof.
  intros HP. revert v. induction n as [|n IH]; intros v; cbn [page_addrs]; constructor; [|done].
  rewrite page_addrs_elem. intros (k & _ & E). nia.
Qed.

(** The mapped ones. *)
Definition mapped_addrs (pt : pgtable) (mm : positive) (v : Z) (n : nat) : list Z :=
  filter (fun a => is_Some (mapped_pfn pt mm a)) (page_addrs v n).

Lemma mapped_addrs_length pt mm v n : length (mapped_addrs pt mm v n) = length (mapped_pfns pt mm v n).
Proof.
  unfold mapped_addrs. revert v. induction n as [|n IH]; intros v; [done|]. cbn [page_addrs mapped_pfns].
  rewrite filter_cons, length_app. destruct (mapped_pfn pt mm v) as [q|] eqn:E.
  - rewrite decide_True by eauto. cbn. by rewrite IH.
  - rewrite decide_False by (by intros []). cbn. apply IH.
Qed.

Lemma mapped_addrs_count pt mm v n p :
  length (filter (fun a => mapped_pfn pt mm a = Some p) (mapped_addrs pt mm v n))
  = length (filter (fun q => q = p) (mapped_pfns pt mm v n)).
Proof.
  unfold mapped_addrs. revert v. induction n as [|n IH]; intros v; [done|]. cbn [page_addrs mapped_pfns].
  rewrite filter_cons, filter_app, length_app. destruct (mapped_pfn pt mm v) as [q|] eqn:E.
  - rewrite decide_True by eauto. cbn [option_list]. rewrite !filter_cons, E.
    cbn [filter list_filter]. repeat case_decide; simplify_eq; cbn; rewrite ?IH; repeat case_decide; congruence || done.
  - rewrite decide_False by (by intros []). cbn. apply IH.
Qed.

(** How many references on [p] a list of pages drops. *)
Lemma put_pages_count l m p :
  default 0 (put_pages l m !! p) = default 0 (m !! p) - Z.of_nat (length (filter (fun q => q = p) l)).
Proof.
  unfold put_pages. revert m. induction l as [|q l IH]; intros m; [cbn; lia|]. cbn [foldl].
  rewrite IH, lookup_insert, filter_cons. repeat case_decide; subst; cbn; try done; lia.
Qed.
End pages.

(** The references held on a page. *)
Definition page_count `{K : Kernel} (w : world) (pfn : Z) : Z := default 0 (pages w !! pfn).

(** zap_vma_ptes "remove[s] ptes mapping the vma": nothing is left mapped in a
    range inside a VM_PFNMAP vma, nothing new is mapped anywhere, and the pages
    outside the range stay as they are. *)
Class ZapPtes `(K : Kernel) : Prop := {
  zap_unmaps : forall pt vma a len v,
    vm_start vma <= a -> a + len <= vm_end vma -> has (vm_flags vma) VM_PFNMAP = true ->
    a <= v < a + len -> mapped_pfn (zap_vma_ptes pt vma a len) (vm_mm vma) v = None;
  zap_maps_nothing : forall pt vma a len mm v,
    mapped_pfn pt mm v = None -> mapped_pfn (zap_vma_ptes pt vma a len) mm v = None;
  zap_keeps : forall pt vma a len mm v,
    offset_in_page a = 0 -> offset_in_page len = 0 -> offset_in_page v = 0 ->
    ~ (mm = vm_mm vma /\ a <= v < a + len) ->
    mapped_pfn (zap_vma_ptes pt vma a len) mm v = mapped_pfn pt mm v;
}.

Section unpin.
Context `{K : Kernel} {G : KernelGeometry K} {PT : PageTables K}.

(** A level of the page tables: blocks of [2 ^ k] bytes. *)
Lemma hole_next k v :
  0 <= k < 64 -> 0 <= v < 2 ^ 64 ->
  let next := Z.land (u64 (v + 2 ^ k)) (Z.lnot (2 ^ k - 1)) in
  u64 (next - v) = (2 ^ k - v mod 2 ^ k) mod 2 ^ 64 /\
  (v + (2 ^ k - v mod 2 ^ k) < 2 ^ 64 -> next = v + (2 ^ k - v mod 2 ^ k)).
Proof.
  intros Hk Hv next.
  assert (0 < 2 ^ k) as Hp by lia.
  assert (forall x, Z.land x (Z.lnot (2 ^ k - 1)) = x - x mod 2 ^ k) as Hl.
  { intros x. replace (2 ^ k - 1) with (Z.ones k) by (rewrite Z.ones_equiv; lia).
    rewrite <- Z.ldiff_land, Z.ldiff_ones_r, Z.shiftl_mul_pow2, Z.shiftr_div_pow2 by lia.
    pose proof (Z.div_mod x (2 ^ k)). lia. }
  assert (2 ^ 64 = 2 ^ (64 - k) * 2 ^ k) as Hd by (rewrite <- Z.pow_add_r by lia; f_equal; lia).
  assert (u64 (v + 2 ^ k) mod 2 ^ k = v mod 2 ^ k) as Hm.
  { unfold u64. rewrite Hd, Z.mul_comm, Z.rem_mul_r by lia.
    rewrite Z.mul_comm, Z.mod_add, Z.mod_mod by lia.
    replace (v + 2 ^ k) with (v + 1 * 2 ^ k) by lia. by rewrite Z.mod_add by lia. }
  unfold next. rewrite Hl, Hm. split.
  - unfold u64. rewrite <- Z.sub_add_distr, Zminus_mod_idemp_l. f_equal. lia.
  - intros Hlt. rewrite u64_id; [lia|]. 
    pose proof (Z.div_mod v (2 ^ k)). pose proof (Z.mod_pos_bound v (2 ^ k)).
    assert ((v / 2 ^ k + 1) * 2 ^ k < 2 ^ (64 - k) * 2 ^ k) by nia.
    assert (v / 2 ^ k + 1 < 2 ^ (64 - k)) by nia. nia.
Qed.

(** Where the walk stops there is nothing mapped in the whole block. *)
Lemma walk_hole pt mm v vsize :
  walk_pte_size pt mm v = inl vsize -> v mod PAGE_SIZE = 0 ->
  exists k, PAGE_SHIFT <= k <= PGDIR_SHIFT /\ vsize = 2 ^ k /\
    forall v', v' mod PAGE_SIZE = 0 -> v' / 2 ^ k = v / 2 ^ k -> mapped_pfn pt mm v' = None.
Proof.
  destruct G as [G1 G2 G3 G4 G5 G6]. intros E Hv. unfold walk_pte_size in E. unfold mapped_pfn.
  destruct (pgd_present pt mm v) eqn:E1; cbn in E.
  2: { injection E as <-. exists PGDIR_SHIFT. split; [lia|]. split; [done|]. intros v' _ Hb.
       unfold walk_pte_size. by rewrite (pgd_block pt mm v' v Hb), E1. }
  destruct (p4d_present pt mm v) eqn:E2; cbn in E.
  2: { injection E as <-. exists P4D_SHIFT. split; [lia|]. split; [done|]. intros v' _ Hb.
       unfold walk_pte_size. rewrite (p4d_block pt mm v' v Hb), E2. by destruct (pgd_present pt mm v'). }
  destruct (pud_present pt mm v) eqn:E3; cbn in E.
  2: { injection E as <-. exists PUD_SHIFT. split; [lia|]. split; [done|]. intros v' _ Hb.
       unfold walk_pte_size. rewrite (pud_block pt mm v' v Hb), E3.
       by destruct (pgd_present pt mm v'), (p4d_present pt mm v'). }
  destruct (pmd_present pt mm v) eqn:E4; cbn in E.
  2: { injection E as <-. exists PMD_SHIFT. split; [lia|]. split; [done|]. intros v' _ Hb.
       unfold walk_pte_size. rewrite (pmd_block pt mm v' v Hb), E4.
       by destruct (pgd_present pt mm v'), (p4d_present pt mm v'), (pud_present pt mm v'). }
  destruct (pte_at pt mm v) eqn:E5; [done|]. injection E as <-.
  exists PAGE_SHIFT. split; [lia|]. split; [done|]. intros v' Hv' Hb. fold PAGE_SIZE in Hb.
  assert (v' = v) as ->.
  { pose proof (Z.div_mod v PAGE_SIZE). pose proof (Z.div_mod v' PAGE_SIZE).
    pose proof PAGE_SIZE_pos. rewrite Hb in *. lia. }
  unfold walk_pte_size. by rewrite E1, E2, E3, E4, E5.
Qed.

Lemma page_divides k : PAGE_SHIFT <= k -> 2 ^ k = 2 ^ (k - PAGE_SHIFT) * PAGE_SIZE.
Proof.
  intros. pose proof PAGE_SHIFT_range. unfold PAGE_SIZE. rewrite <- Z.pow_add_r by lia. f_equal. lia.
Qed.

(** The distance to the end of the block, in pages. *)
Lemma hole_pages k v :
  PAGE_SHIFT <= k -> v mod PAGE_SIZE = 0 ->
  let d := 2 ^ k - v mod 2 ^ k in
  exists m : nat, d = Z.of_nat m * PAGE_SIZE /\ (0 < m)%nat /\ Z.of_nat m <= 2 ^ (k - PAGE_SHIFT).
Proof.
  intros Hk Hv d. pose proof PAGE_SHIFT_range. pose proof PAGE_SIZE_pos.
  pose proof (page_divides k Hk) as Ek. assert (0 < 2 ^ k) by lia.
  pose proof (Z.mod_pos_bound v (2 ^ k)).
  assert (d mod PAGE_SIZE = 0) as Hd.
  { replace d with (- v + (2 ^ (k - PAGE_SHIFT) * (1 + v / 2 ^ k)) * PAGE_SIZE).
    - rewrite Z.mod_add by lia. by rewrite Z.mod_opp_l_z by lia.
    - unfold d. rewrite Z.mod_eq by lia. generalize (v / 2 ^ k). intros q. rewrite Ek. ring. }
  exists (Z.to_nat (d / PAGE_SIZE)). assert (0 < d <= 2 ^ k) by (unfold d; lia).
  pose proof (Z.div_mod d PAGE_SIZE). assert (0 < d / PAGE_SIZE) by nia.
  assert (d / PAGE_SIZE <= 2 ^ (k - PAGE_SHIFT)) by nia. rewrite Z2Nat.id by lia. lia.
Qed.

(** The pages skipped are not mapped. *)
Lemma hole_unmapped pt mm v vsize k m :
  walk_pte_size pt mm v = inl vsize -> v mod PAGE_SIZE = 0 -> vsize = 2 ^ k -> 0 < 2 ^ k ->
  2 ^ k - v mod 2 ^ k = Z.of_nat m * PAGE_SIZE ->
  (forall v', v' mod PAGE_SIZE = 0 -> v' / 2 ^ k = v / 2 ^ k -> mapped_pfn pt mm v' = None) ->
  forall j : nat, (j < m)%nat -> mapped_pfn pt mm (v + Z.of_nat j * PAGE_SIZE) = None.
Proof.
  intros _ Hv _ Hp Hd Hh j Hj. pose proof PAGE_SIZE_pos. apply Hh.
  - rewrite Z.mod_add by lia. done.
  - pose proof (Z.div_mod v (2 ^ k)). pose proof (Z.mod_pos_bound v (2 ^ k)).
    symmetry. apply (Z.div_unique _ _ _ (v mod 2 ^ k + Z.of_nat j * PAGE_SIZE)); [left; nia|lia].
Qed.

Lemma mapped_pfns_nil pt mm v m n :
  (forall j : nat, (j < m)%nat -> mapped_pfn pt mm (v + Z.of_nat j * PAGE_SIZE) = None) ->
  (n <= m)%nat -> mapped_pfns pt mm v n = [].
Proof.
  intros H Hn. rewrite <- (Nat.add_0_r n), mapped_pfns_skip; [done|]. intros. apply H. lia.
Qed.

(** The loop computes the reference; one unit of fuel per page is enough. *)
Lemma unpin_loop_ok fuel mm v n acc w :
  PGDIR_SHIFT <= PAGE_SHIFT + 31 -> n < 2 ^ 31 -> n <= Z.of_nat fuel ->
  (0 < n -> 0 <= v /\ v mod PAGE_SIZE = 0 /\ v + n * PAGE_SIZE <= 2 ^ 64) ->
  let l := mapped_pfns (pgt w) mm v (Z.to_nat n) in
  unpin_loop fuel mm v n acc w = Ok (acc + Z.of_nat (length l)) (set_pages (put_pages l (pages w)) w).
Proof.
  intros HG. revert v n acc w. induction fuel as [|fuel IH]; intros v n acc w Hn Hf Hv.
  { unfold unpin_loop. destruct (Z.gtb_spec n 0); [lia|].
    replace (Z.to_nat n) with 0%nat by lia. cbn. rewrite Z.add_0_r. by destruct w. }
  cbn [unpin_loop]. destruct (Z.gtb_spec n 0) as [Hp|].
  2: { replace (Z.to_nat n) with 0%nat by lia. cbn. rewrite Z.add_0_r. by destruct w. }
  destruct Hv as (Hv0 & Hva & Hv); [lia|]. pose proof PAGE_SIZE_pos as HP.
  assert (0 <= v < 2 ^ 64) as Hv64 by nia.
  change ((xpmem_vaddr_to_pte_size mm v ≫= ?f) w) with (f (walk_pte_size (pgt w) mm v) w). cbv beta.
  destruct (walk_pte_size (pgt w) mm v) as [vsize|pfn] eqn:E.
  - destruct (walk_hole _ _ _ _ E Hva) as (k & Hk & -> & Hh).
    pose proof PAGE_SHIFT_range as HS. destruct G as [_ _ _ _ _ G6].
    destruct (hole_next k v) as [Hu Hnx]; [lia|done|].
    destruct (hole_pages k v) as (m & Hd & Hm & Hm'); [lia|done|].
    assert (Z.of_nat m <= 2 ^ 31).
    { transitivity (2 ^ (k - PAGE_SHIFT)); [done|]. apply Z.pow_le_mono_r; lia. }
    assert (0 < 2 ^ k) as Hkp by lia.
    pose proof (hole_unmapped _ _ _ _ k m E Hva eq_refl Hkp Hd Hh) as Hum.
    cbv zeta. rewrite Hu, Hd in *.
    assert (Z.of_nat m * PAGE_SIZE < 2 ^ 64).
    { rewrite <- Hd. pose proof (Z.mod_pos_bound v (2 ^ k) Hkp).
      assert (2 ^ k <= 2 ^ 63) by (apply Z.pow_le_mono_r; lia). lia. }
    rewrite Z.mod_small, Z.div_mul, s32_id by nia.
    destruct (Z.le_gt_cases n (Z.of_nat m)) as [Hle|Hgt].
    + rewrite (mapped_pfns_nil _ _ _ m) by (done || lia).
      rewrite IH by lia. by replace (Z.to_nat (n - Z.of_nat m)) with 0%nat by lia.
    + rewrite Hnx by nia. replace (Z.to_nat n) with (m + Z.to_nat (n - Z.of_nat m))%nat by lia.
      rewrite mapped_pfns_skip by done. apply IH; [lia|lia|]. intros _.
      split; [nia|]. split; [by rewrite Z.mod_add by lia|nia].
  - change ((put_page pfn ≫= ?f) w) with
      (f () (set_pages (<[pfn := default 0 (pages w !! pfn) + -1]> (pages w)) w)). cbv beta.
    replace (Z.to_nat n) with (S (Z.to_nat (n - 1))) by lia. cbn [mapped_pfns].
    unfold mapped_pfn. rewrite E. change (option_list (Some pfn)) with [pfn].
    cbn [app length]. rewrite Nat2Z.inj_succ.
    destruct (Z.eq_dec n 1) as [->|].
    + rewrite IH by lia. change (Z.to_nat (1 - 1)) with 0%nat. cbn [mapped_pfns length]. f_equal. lia.
    + rewrite u64_id by nia. rewrite IH; [f_equal; cbn; lia|lia|lia|]. intros _.
      split; [lia|]. split; [by rewrite <- (Z.mul_1_l PAGE_SIZE) at 1; rewrite Z.mod_add by lia|nia].
Qed.

Lemma num_of_pages_aligned v size :
  offset_in_page v = 0 -> offset_in_page size = 0 -> 0 <= size < 2 ^ 64 ->
  num_of_pages v size = size / PAGE_SIZE.
Proof.
  intros Hv Hs Hr. unfold num_of_pages. rewrite Hv. rewrite offset_in_page_mod in Hs.
  pose proof PAGE_SHIFT_range. pose proof PAGE_SIZE_pos.
  assert (size <= 2 ^ 64 - PAGE_SIZE).
  { assert (2 ^ 64 = 2 ^ (64 - PAGE_SHIFT) * PAGE_SIZE) as E
      by (unfold PAGE_SIZE; rewrite <- Z.pow_add_r by lia; f_equal; lia).
    pose proof (Z.div_mod size PAGE_SIZE).
    assert (size / PAGE_SIZE < 2 ^ (64 - PAGE_SHIFT)) by (apply Z.div_lt_upper_bound; lia).
    rewrite E. nia. }
  rewrite Z.shiftr_div_pow2, u64_id by lia. fold PAGE_SIZE.
  pose proof (Z.div_mod size PAGE_SIZE). symmetry.
  apply (Z.div_unique _ _ _ (PAGE_SIZE - 1)); lia.
Qed.

(** The ranges the module unpins: whole pages, within the address space, and
    fewer than 2^31 of them. *)
Record page_range (v size : Z) : Prop := {
  range_start : 0 <= v;
  range_size : 0 <= size;
  range_end : v + size <= 2 ^ 64;
  range_aligned : offset_in_page v = 0 /\ offset_in_page size = 0;
  range_pages : size / PAGE_SIZE < 2 ^ 31;
  range_small : size < 2 ^ 64;
}.

(** The state after unpinning a range. *)
Definition unpinned (tg mm : positive) (v size : Z) t pt w : world :=
  let l := mapped_pfns (pgt w) mm v (Z.to_nat (size / PAGE_SIZE)) in
  let n := Z.of_nat (length l) in
  set_part (Some (set_part_n_unpinned (s32 (part_n_unpinned pt + n)) pt))
    (set_tgs (<[tg := set_tg_n_pinned (s32 (tg_n_pinned t - n)) t]> (tgs w))
      (set_pages (put_pages l (pages w)) w)).

Lemma unpin_pages_ok seg mm v size w s t pt :
  PGDIR_SHIFT <= PAGE_SHIFT + 31 -> page_range v size ->
  segs w !! seg = Some s -> tgs w !! seg_tg s = Some t -> part w = Some pt ->
  xpmem_unpin_pages seg mm v size w = Ok () (unpinned (seg_tg s) mm v size t pt w).
Proof.
  intros HG [H1 H2 H3 [H4 H5] H6 H7] Es Et Ep. unfold xpmem_unpin_pages.
  pose proof PAGE_SIZE_pos. assert (v < 2 ^ 64 \/ size = 0) as Hv by lia.
  rewrite num_of_pages_aligned by (done || lia). pose proof (Z.div_pos size PAGE_SIZE).
  rewrite s32_id by lia. unfold mbind, M_bind.
  rewrite offset_in_page_mod in H4, H5. pose proof (Z.div_mod size PAGE_SIZE).
  rewrite unpin_loop_ok; [|done|done|lia|].
  2: { intros Hp. assert (v < 2 ^ 64) by nia. rewrite land_PAGE_MASK, offset_in_page_mod, H4 by lia.
       rewrite Z.sub_0_r. split; [done|]. split; [done|]. lia. }
  unfold unpinned. cbv zeta. rewrite Z.add_0_l.
  assert (mapped_pfns (pgt w) mm (Z.land v PAGE_MASK) (Z.to_nat (size / PAGE_SIZE))
          = mapped_pfns (pgt w) mm v (Z.to_nat (size / PAGE_SIZE))) as ->.
  { destruct Hv as [Hv| ->]; [|by rewrite Z.div_0_l by lia].
    rewrite land_PAGE_MASK, offset_in_page_mod, H4 by lia. by rewrite Z.sub_0_r. }
  unfold seg_load, load. cbn. rewrite Es. unfold tg_store, store. cbn. rewrite Et.
  unfold part_store. cbn. by rewrite Ep.
Qed.

(** C19: [xpmem_unpin_pages] terminates within one turn per page and drops exactly one reference
    on every page that is mapped in the range, however many holes its walk skips; the counters
    of the thread group and of the module move by the number of those pages, and nothing else
    changes. *)
Theorem unpin_pages_exact seg mm v size w s t pt :
  PGDIR_SHIFT <= PAGE_SHIFT + 31 -> page_range v size ->
  segs w !! seg = Some s -> tgs w !! seg_tg s = Some t -> part w = Some pt ->
  let l := mapped_pfns (pgt w) mm v (Z.to_nat (size / PAGE_SIZE)) in
  exists w', xpmem_unpin_pages seg mm v size w = Ok () w' /\ w' = unpinned (seg_tg s) mm v size t pt w /\
    forall pfn, default 0 (pages w' !! pfn)
      = default 0 (pages w !! pfn) - Z.of_nat (length (filter (fun q => q = pfn) l)).
Proof.
  intros HG Hr Es Et Ep l. exists (unpinned (seg_tg s) mm v size t pt w).
  split; [by apply unpin_pages_ok|]. split; [done|]. intros pfn. apply put_pages_count.
Qed.
End unpin.
