(* ===== verification/Invalidated.v ===== *)
(** Invalidation, what it may change: the pages that were taken away from attachments are gone
    and unpinned, once each; every other page, object, list and lock is as it was. *)

From S2P Require Import Prelude Kernel World Monad Ids Misc Pfn Attach Inv Graph Link Refs Lookup.
From S2P Require Import MakeSpec PfnSpec.

(** * What invalidation may change *)

Section invalidated.
Context `{K : Kernel}.
Implicit Types (T S A B : gmultiset positive) (w : world).

Definition norm_pins (t : xpmem_thread_group) := set_tg_refcnt 0 (set_tg_n_pinned 0 t).
Definition norm_valid (y : xpmem_attachment) :=
  set_att_refcnt 0 (set_att_flags (clear (att_flags y) XPMEM_FLAG_VALIDPTEs) y).
Definition valid_PTEs (y : xpmem_attachment) : bool := has (att_flags y) XPMEM_FLAG_VALIDPTEs.

(** Everything but the page tables, the pages and their counts, the reference
    counts and VALIDPTEs. *)
Definition links w :=
  (tg_hashtable <$> part w, norm_pins <$> tgs w, set_seg_refcnt 0 <$> segs w,
   set_ap_refcnt 0 <$> aps w, norm_valid <$> atts w, next_ptr w, vmas w,
   (notifiers w, task_usage w, file_usage w, procfs w, cpus_mask w, sigkilled w, held w)).

(** No page is mapped where the attachment is. *)
Definition unmapped (pt : pgtable) (y : xpmem_attachment) : Prop :=
  forall mm v, att_mm y = Some mm -> at_vaddr y <= v < at_vaddr y + at_size y -> mapped_pfn pt mm v = None.

(** A page taken away: the thread group it was charged to, the address space and the address
    it was mapped at. *)
Record drop := mk_drop { drop_tg : positive; drop_mm : positive; drop_addr : Z }.
Definition drop_at (d : drop) : positive * Z := (drop_mm d, drop_addr d).

(** The page was shown by an attachment, as the address of the source that [P] allows for its
    permit, and is charged to the thread group that owns the permit's segment. *)
Record drop_ok (P : positive -> Z -> Prop) w (d : drop) : Prop := {
  drop_aligned : offset_in_page (drop_addr d) = 0;
  drop_mapped : is_Some (mapped_pfn (pgt w) (drop_mm d) (drop_addr d));
  drop_shown : exists t y, atts w !! t = Some y /\ att_mm y = Some (drop_mm d) /\
    at_vaddr y <= drop_addr d < at_vaddr y + at_size y /\
    P (att_ap y) (att_vaddr y + (drop_addr d - at_vaddr y)) /\
    forall x g, aps w !! att_ap y = Some x -> segs w !! ap_seg x = Some g -> drop_tg d = seg_tg g;
}.

Definition shows w (p : Z) (d : drop) : Prop := mapped_pfn (pgt w) (drop_mm d) (drop_addr d) = Some p.
#[global] Instance shows_dec w p d : Decision (shows w p d).
Proof. unfold shows. apply _. Defined.
Definition tally (Q : drop -> Prop) `{forall d, Decision (Q d)} (D : list drop) : Z := Z.of_nat (length (filter Q D)).

(** The pages [D], each mapped once, are gone and every other page is mapped as before; each of
    them gave back one reference, in the count of the page, of the thread group and of the
    module. *)
Record dropped (P : positive -> Z -> Prop) (D : list drop) w w' : Prop := {
  dropped_once : NoDup (drop_at <$> D);
  dropped_ok : forall d, d ∈ D -> drop_ok P w d;
  dropped_gone : forall d, d ∈ D -> mapped_pfn (pgt w') (drop_mm d) (drop_addr d) = None;
  dropped_else : forall mm v, offset_in_page v = 0 -> (mm, v) ∉ drop_at <$> D ->
    mapped_pfn (pgt w') mm v = mapped_pfn (pgt w) mm v;
  dropped_pages : forall p, page_count w' p = page_count w p - tally (shows w p) D;
  dropped_tgs : forall q t t', tgs w !! q = Some t -> tgs w' !! q = Some t' ->
    s32 (tg_n_pinned t') = s32 (tg_n_pinned t - tally (fun d => drop_tg d = q) D);
  dropped_part : forall pt pt', part w = Some pt -> part w' = Some pt' ->
    part_n_pinned pt' = part_n_pinned pt /\
    s32 (part_n_unpinned pt') = s32 (part_n_unpinned pt + Z.of_nat (length D));
}.

(** VALIDPTEs may be cleared, once the pages are unmapped; pages that [P] allows may be unmapped
    and unpinned. *)
Record invalidated_by (P : positive -> Z -> Prop) w w' : Prop := {
  same_links : links w = links w';
  fewer_valid : forall t y y', atts w !! t = Some y -> atts w' !! t = Some y' ->
    valid_PTEs y' = true -> valid_PTEs y = true;
  fewer_mapped : forall mm v, mapped_pfn (pgt w) mm v = None -> mapped_pfn (pgt w') mm v = None;
  unmapped_first : forall t y y', atts w !! t = Some y -> atts w' !! t = Some y' ->
    valid_PTEs y = true -> valid_PTEs y' = false -> unmapped (pgt w') y;
  pages_dropped : exists D, dropped P D w w';
}.
#[global] Arguments same_links {P} w w' _.
#[global] Arguments fewer_valid {P} w w' _ _ _ _ _ _ _.
#[global] Arguments fewer_mapped {P} w w' _ _ _ _.
#[global] Arguments unmapped_first {P} w w' _ _ _ _ _ _ _ _ _ _ _.
#[global] Arguments pages_dropped {P} w w' _.

Lemma tally_ext (Q Q' : drop -> Prop) `{forall d, Decision (Q d), forall d, Decision (Q' d)} D :
  (forall d, d ∈ D -> Q d <-> Q' d) -> tally Q D = tally Q' D.
Proof. intros E. unfold tally. do 2 f_equal. induction D as [|d D IH]; [done|].
  rewrite !filter_cons, IH by (intros; apply E; by right). specialize (E d ltac:(left)). repeat case_decide; tauto || done. Qed.
Lemma tally_app (Q : drop -> Prop) `{forall d, Decision (Q d)} D D' : tally Q (D ++ D') = tally Q D + tally Q D'.
Proof. unfold tally. rewrite filter_app, length_app. lia. Qed.

Lemma tally_all (Q : drop -> Prop) `{forall d, Decision (Q d)} D : Forall Q D -> tally Q D = Z.of_nat (length D).
Proof.
  unfold tally. intros HD. f_equal. induction HD as [|d D Hd _ IH]; [done|]. rewrite filter_cons, decide_True by done. cbn. by rewrite IH.
Qed.
Lemma tally_none (Q : drop -> Prop) `{forall d, Decision (Q d)} D : Forall (fun d => ~ Q d) D -> tally Q D = 0.
Proof.
  unfold tally. intros HD. induction HD as [|d D Hd _ IH]; [done|]. by rewrite filter_cons, decide_False.
Qed.

Section by_P.
Context {G : KernelGeometry K} {ZP : ZapPtes K}.
Context {P : positive -> Z -> Prop}.

Lemma inv_held w w' : invalidated_by P w w' -> held w = held w'.
Proof. intros H%same_links. by injection H. Qed.
Lemma inv_vmas w w' : invalidated_by P w w' -> vmas w = vmas w'.
Proof. intros H%same_links. by injection H. Qed.

Lemma inv_seg_lookup w w' s g :
  invalidated_by P w w' -> segs w !! s = Some g -> exists n, segs w' !! s = Some (set_seg_refcnt n g).
Proof.
  intros H%same_links E. injection H as _ _ Hs _ _ _ _ _ _ _ _ _ _ _.
  destruct (lookup_norm _ _ _ _ _ Hs E) as (g' & E' & En%norm_seg). exists (seg_refcnt g'). by rewrite <- En.
Qed.
Lemma inv_ap_lookup w w' s g :
  invalidated_by P w w' -> aps w !! s = Some g -> exists n, aps w' !! s = Some (set_ap_refcnt n g).
Proof.
  intros H%same_links E. injection H as _ _ _ Hs _ _ _ _ _ _ _ _ _ _.
  destruct (lookup_norm _ _ _ _ _ Hs E) as (g' & E' & En%norm_ap). exists (ap_refcnt g'). by rewrite <- En.
Qed.
Lemma inv_tg_lookup w w' p t :
  invalidated_by P w w' -> tgs w !! p = Some t -> exists t', tgs w' !! p = Some t' /\ norm_pins t = norm_pins t'.
Proof.
  intros H%same_links E. injection H as _ Hs _ _ _ _ _ _ _ _ _ _ _ _. exact (lookup_norm _ _ _ _ _ Hs E).
Qed.
Lemma inv_att_lookup w w' t y :
  invalidated_by P w w' -> atts w !! t = Some y ->
  exists y', atts w' !! t = Some y' /\ norm_valid y = norm_valid y' /\
    (valid_PTEs y' = true -> valid_PTEs y = true).
Proof.
  intros [H Hv _ _ _] E. injection H as _ _ _ _ Hs _ _ _ _ _ _ _ _ _.
  destruct (lookup_norm _ _ _ _ _ Hs E) as (y' & E' & En). exists y'. eauto.
Qed.

Lemma unmapped_norm pt y y' : norm_valid y' = norm_valid y -> unmapped pt y -> unmapped pt y'.
Proof.
  intros En H mm v Em Hr. apply H.
  - by rewrite <- Em; exact (f_equal att_mm (eq_sym En)).
  - assert (at_vaddr y' = at_vaddr y) as <- by exact (f_equal at_vaddr En).
    by assert (at_size y' = at_size y) as <- by exact (f_equal at_size En).
Qed.

(** ** Transitivity *)

Lemma drop_ok_back (D : list drop) w1 w2 d :
  links w1 = links w2 -> dropped P D w1 w2 -> drop_ok P w2 d ->
  drop_ok P w1 d /\ forall p, shows w1 p d <-> shows w2 p d.
Proof.
  intros Hl HD [Ha Hm (t & y2 & E2 & Em & Hr & HP & Hc)].
  assert (drop_at d ∉ drop_at <$> D) as Hn.
  { intros (d' & Ed & Hd)%list_elem_of_fmap. injection Ed as E1 E3.
    destruct Hm as [p Hm]. rewrite E1, E3, (dropped_gone _ _ _ _ HD d' Hd) in Hm. done. }
  assert (mapped_pfn (pgt w2) (drop_mm d) (drop_addr d) = mapped_pfn (pgt w1) (drop_mm d) (drop_addr d)) as Ep
    by (by apply (dropped_else _ _ _ _ HD)).
  split; [|intros p; unfold shows; by rewrite Ep]. split; [done|by rewrite <- Ep|].
  injection Hl as _ _ Hs Hap Hat _ _ _ _ _ _ _ _ _.
  destruct (lookup_norm _ _ _ _ _ (eq_sym Hat) E2) as (y1 & E1 & En). exists t, y1. split; [done|].
  assert (att_mm y1 = att_mm y2) as -> by exact (eq_sym (f_equal att_mm En)).
  assert (at_vaddr y1 = at_vaddr y2) as -> by exact (eq_sym (f_equal at_vaddr En)).
  assert (at_size y1 = at_size y2) as -> by exact (eq_sym (f_equal at_size En)).
  assert (att_vaddr y1 = att_vaddr y2) as -> by exact (eq_sym (f_equal att_vaddr En)).
  assert (att_ap y1 = att_ap y2) as -> by exact (eq_sym (f_equal att_ap En)).
  split; [done|]. split; [done|]. split; [done|]. intros x g Ex Eg.
  destruct (lookup_norm _ _ _ _ _ Hap Ex) as (x' & Ex' & Ex2). destruct (lookup_norm _ _ _ _ _ Hs Eg) as (g' & Eg' & Eg2).
  assert (ap_seg x' = ap_seg x) as Es by exact (eq_sym (f_equal ap_seg Ex2)).
  assert (seg_tg g = seg_tg g') as -> by exact (f_equal seg_tg Eg2). apply (Hc x'); [done|by rewrite Es].
Qed.

Lemma dropped_trans D1 D2 w1 w2 w3 :
  links w1 = links w2 -> (forall mm v, mapped_pfn (pgt w2) mm v = None -> mapped_pfn (pgt w3) mm v = None) ->
  dropped P D1 w1 w2 -> dropped P D2 w2 w3 -> dropped P (D1 ++ D2) w1 w3.
Proof.
  intros Hl Hf H1 H2. pose proof (fun d Hd => drop_ok_back D1 w1 w2 d Hl H1 (dropped_ok _ _ _ _ H2 d Hd)) as Hb. split.
  - rewrite fmap_app. apply NoDup_app. split; [apply H1|]. split; [|apply H2].
    intros k (d & -> & Hd)%list_elem_of_fmap (d' & Ed & Hd')%list_elem_of_fmap. injection Ed as E1 E2.
    destruct (drop_mapped _ _ _ (dropped_ok _ _ _ _ H2 d' Hd')) as [p Hp].
    pose proof (dropped_gone _ _ _ _ H1 d Hd) as Hg. congruence.
  - intros d [Hd|Hd]%elem_of_app; [by apply (dropped_ok _ _ _ _ H1)|by apply Hb].
  - intros d [Hd|Hd]%elem_of_app; [by apply Hf, (dropped_gone _ _ _ _ H1)|by apply (dropped_gone _ _ _ _ H2)].
  - intros mm v Hv. rewrite fmap_app, not_elem_of_app. intros [N1 N2].
    by rewrite (dropped_else _ _ _ _ H2), (dropped_else _ _ _ _ H1).
  - intros p. rewrite tally_app, (dropped_pages _ _ _ _ H2), (dropped_pages _ _ _ _ H1).
    rewrite (tally_ext (shows w1 p) (shows w2 p) D2); [lia|]. intros d Hd. by apply Hb.
  - intros q t t3 E E3. injection Hl as _ Ht _ _ _ _ _ _ _ _ _ _ _ _.
    destruct (lookup_norm _ _ _ _ _ Ht E) as (t2 & E2 & _). rewrite tally_app.
    rewrite (dropped_tgs _ _ _ _ H2 q t2 t3 E2 E3), <- s32_sub_l, (dropped_tgs _ _ _ _ H1 q t t2 E E2), s32_sub_l.
    f_equal. lia.
  - intros pt pt3 E E3. assert (exists pt2, part w2 = Some pt2) as [pt2 E2].
    { injection Hl as Hp _ _ _ _ _ _ _ _ _ _ _ _ _. rewrite E in Hp. destruct (part w2); [eauto|done]. }
    destruct (dropped_part _ _ _ _ H1 pt pt2 E E2) as [A1 B1]. destruct (dropped_part _ _ _ _ H2 pt2 pt3 E2 E3) as [A2 B2].
    split; [congruence|]. rewrite B2, <- s32_add_l, B1, s32_add_l, length_app. f_equal. lia.
Qed.

#[global] Instance invalidated_trans : Transitive (invalidated_by P).
Proof.
  intros w1 w2 w3 H1 H2. split.
  - by rewrite (same_links _ _ H1), (same_links _ _ H2).
  - intros t y y'' E E'' Hv. destruct (inv_att_lookup _ _ _ _ H1 E) as (y' & E' & _ & Hv').
    apply Hv'. by eapply (fewer_valid _ _ H2).
  - intros mm v E. by apply (fewer_mapped _ _ H2), (fewer_mapped _ _ H1).
  - intros t y y'' E E'' Hv Hv''. destruct (inv_att_lookup _ _ _ _ H1 E) as (y' & E' & En & _).
    destruct (valid_PTEs y') eqn:Hv'.
    + apply (unmapped_norm _ y' y); [done|]. by eapply (unmapped_first _ _ H2).
    + intros mm v Em Hr. apply (fewer_mapped _ _ H2). by eapply (unmapped_first _ _ H1).
  - destruct (pages_dropped _ _ H1) as [D1 HD1], (pages_dropped _ _ H2) as [D2 HD2]. exists (D1 ++ D2).
    eapply dropped_trans; [apply H1|apply H2|done|done].
Qed.

(** Nothing was dropped. *)
Lemma dropped_nil w w' :
  (forall mm v, mapped_pfn (pgt w') mm v = mapped_pfn (pgt w) mm v) -> pages w' = pages w ->
  (forall q t t', tgs w !! q = Some t -> tgs w' !! q = Some t' -> tg_n_pinned t' = tg_n_pinned t) ->
  (forall pt pt', part w = Some pt -> part w' = Some pt' ->
    part_n_pinned pt' = part_n_pinned pt /\ part_n_unpinned pt' = part_n_unpinned pt) ->
  dropped P [] w w'.
Proof.
  intros Hm Hp Ht Hpt. split.
  - constructor.
  - by intros d ?%elem_of_nil.
  - by intros d ?%elem_of_nil.
  - auto.
  - intros p. unfold page_count, tally. rewrite Hp. cbn. lia.
  - intros q t t' E E'. rewrite (Ht q t t' E E'). unfold tally. cbn. f_equal. lia.
  - intros pt pt' E E'. destruct (Hpt pt pt' E E') as [-> ->]. split; [done|]. f_equal. cbn. lia.
Qed.

#[global] Instance invalidated_refl : Reflexive (invalidated_by P).
Proof.
  intros w. split; try done; try (intros; congruence). exists []. apply dropped_nil; intros; split_and?; congruence.
Qed.

Lemma equiv_invalidated_by w w' : w ≡ w' -> invalidated_by P w w'.
Proof.
  intros H. split.
  - unfold links. rewrite (equiv_part _ _ H), (equiv_next_ptr _ _ H), (equiv_vmas _ _ H), (equiv_held _ _ H).
    rewrite (equiv_tgs norm_pins w w'), (equiv_segs (set_seg_refcnt 0) w w'),
      (equiv_aps (set_ap_refcnt 0) w w'), (equiv_atts norm_valid w w') by done.
    destruct H as [H].
    assert (notifiers w = notifiers w') as -> by exact (f_equal notifiers H).
    assert (task_usage w = task_usage w') as -> by exact (f_equal task_usage H).
    assert (file_usage w = file_usage w') as -> by exact (f_equal file_usage H).
    assert (procfs w = procfs w') as -> by exact (f_equal procfs H).
    assert (cpus_mask w = cpus_mask w') as -> by exact (f_equal cpus_mask H).
    by assert (sigkilled w = sigkilled w') as -> by exact (f_equal sigkilled H).
  - intros t y y' E E'. destruct (equiv_att _ _ _ _ H E) as [n En].
    rewrite En in E'. by injection E' as <-.
  - destruct H as [H]. by assert (pgt w = pgt w') as -> by exact (f_equal pgt H).
  - intros t y y' E E'. destruct (equiv_att _ _ _ _ H E) as [n En].
    rewrite En in E'. injection E' as <-. change (valid_PTEs (set_att_refcnt n y)) with (valid_PTEs y). congruence.
  - exists []. apply dropped_nil.
    + destruct H as [H]. by assert (pgt w = pgt w') as -> by exact (f_equal pgt H).
    + destruct H as [H]. exact (eq_sym (f_equal pages H)).
    + intros q t t' E E'. destruct (equiv_tg _ _ _ _ H E) as [n En]. rewrite En in E'. by injection E' as <-.
    + intros pt pt' E E'. rewrite (equiv_part _ _ H), E' in E. by injection E as ->.
Qed.

(** Updates that touch neither pages, page tables, attachments nor pin counts. *)
Lemma dropped_step D w w' v v' :
  dropped P D w w' -> pgt v = pgt w -> pgt v' = pgt w' -> pages v = pages w -> pages v' = pages w' ->
  atts v = atts w -> aps v = aps w ->
  (forall s g, segs v !! s = Some g -> exists g', segs w !! s = Some g' /\ seg_tg g' = seg_tg g) ->
  (forall q t, tgs v !! q = Some t -> exists t0, tgs w !! q = Some t0 /\ tg_n_pinned t0 = tg_n_pinned t) ->
  (forall q t, tgs v' !! q = Some t -> exists t0, tgs w' !! q = Some t0 /\ tg_n_pinned t0 = tg_n_pinned t) ->
  part v = part w -> part v' = part w' -> dropped P D v v'.
Proof.
  intros [D1 D2 D3 D4 D5 D6 D7] Ep Ep' Eg Eg' Ea Eaps Hs Ht Ht' Epa Epa'. split.
  - done.
  - intros d Hd. destruct (D2 d Hd) as [F1 F2 (t & y & F3 & F4 & F5 & F6 & F7)]. split; [done|by rewrite Ep|].
    exists t, y. rewrite Ea. do 4 (split; [done|]). intros x g. rewrite Eaps. intros Ex (g' & Es & <-)%Hs. by eapply F7.
  - intros d Hd. rewrite Ep'. by apply D3.
  - intros mm a. rewrite Ep, Ep'. apply D4.
  - intros p. unfold page_count in *. rewrite Eg, Eg', D5. f_equal. apply tally_ext. intros d _. unfold shows. by rewrite Ep.
  - intros q t t' (t0 & E0 & <-)%Ht (t1 & E1 & <-)%Ht'. by apply D6.
  - rewrite Epa, Epa'. done.
Qed.

Lemma set_held_invalidated L w w' : invalidated_by P w w' -> invalidated_by P (set_held L w) (set_held L w').
Proof.
  intros [H Hv Hm Hu [D HD]]. split; [|exact Hv|exact Hm|exact Hu|].
  - unfold links in *. cbn. injection H. intros. congruence.
  - exists D. eapply dropped_step; [exact HD|try done; eauto..].
Qed.

Lemma inv_unlock L w w' : invalidated_by P (set_held L w) w' -> invalidated_by P w (set_held (held w) w').
Proof.
  intros H%(set_held_invalidated (held w)). cbn in H. by destruct w.
Qed.

Lemma invalidated_att_back w w' t y' :
  invalidated_by P w w' -> atts w' !! t = Some y' -> exists y, atts w !! t = Some y /\ norm_valid y = norm_valid y'.
Proof.
  intros H%same_links E. injection H as _ _ _ _ Hs _ _ _ _ _ _ _ _ _.
  destruct (lookup_norm _ _ _ _ _ (eq_sym Hs) E) as (y & E' & En). eauto.
Qed.

(** ** Steps *)

Lemma Inv_part_counts T S A B w pt pt' :
  Inv T S A B w -> part w = Some pt -> tg_hashtable pt' = tg_hashtable pt ->
  Inv T S A B (set_part (Some pt') w).
Proof.
  intros HI Ep Eh. split; try apply HI; [done|]. unfold hash_of. cbn. rewrite Eh.
  pose proof (inv_tg HI) as H. unfold hash_of in H. by rewrite Ep in H.
Qed.

Lemma Inv_pinned T S A B w tg t n :
  Inv T S A B w -> tgs w !! tg = Some t ->
  Inv T S A B (set_tgs (<[tg := set_tg_n_pinned n t]> (tgs w)) w).
Proof.
  intros HI Et. pose proof (tg_all (inv_tg HI) tg t Et) as Hok. pose proof (tg_uniq_range Hok).
  eapply Inv_tg_update; [done|done| |done|apply Hok|apply Hok|apply Hok].
  split; cbn; try done; first [lia | by left].
Qed.

Lemma Inv_unpinned T S A B w tg mm v size t pt :
  Inv T S A B w -> tgs w !! tg = Some t -> part w = Some pt ->
  Inv T S A B (unpinned tg mm v size t pt w).
Proof.
  intros HI Et Ep. eapply (Inv_part_counts _ _ _ _ _ pt); [|done|done].
  eapply Inv_same; [by apply Inv_pinned|done..].
Qed.

(** ** The pages of a window are unpinned and unmapped *)

Lemma page_addrs_range v len a :
  page_range v len ->
  a ∈ page_addrs v (Z.to_nat (len / PAGE_SIZE)) <-> offset_in_page a = 0 /\ v <= a < v + len.
Proof.
  intros [H1 H2 _ [H4 H5] _ _]. rewrite page_addrs_elem. rewrite offset_in_page_mod in H4, H5 |- *.
  pose proof PAGE_SIZE_pos as HP. pose proof (Z.div_mod len PAGE_SIZE). pose proof (Z.div_pos len PAGE_SIZE). split.
  - intros (k & Hk & ->). rewrite Z.mod_add by lia. split; [done|]. nia.
  - intros [Ha Hr]. exists (Z.to_nat ((a - v) / PAGE_SIZE)).
    assert ((a - v) mod PAGE_SIZE = 0) as Hd by (rewrite Zminus_mod, Ha, H4; by apply Z.mod_0_l; lia).
    pose proof (Z.div_mod (a - v) PAGE_SIZE). pose proof (Z.div_pos (a - v) PAGE_SIZE).
    split; [|lia]. apply Z2Nat.inj_lt; [lia..|]. nia.
Qed.

Definition window_drops (pt : pgtable) (tg mm : positive) (v len : Z) : list drop :=
  mk_drop tg mm <$> mapped_addrs pt mm v (Z.to_nat (len / PAGE_SIZE)).

Lemma window_drops_elem pt tg mm v len d : page_range v len ->
  d ∈ window_drops pt tg mm v len <->
  drop_tg d = tg /\ drop_mm d = mm /\ is_Some (mapped_pfn pt mm (drop_addr d)) /\
  offset_in_page (drop_addr d) = 0 /\ v <= drop_addr d < v + len.
Proof.
  intros Hr. unfold window_drops, mapped_addrs. rewrite list_elem_of_fmap. split.
  - intros (a & -> & [Hm Ha%page_addrs_range]%list_elem_of_filter); [|done]. cbn. split; [done|]. by split.
  - intros (E1 & E2 & Hm & Ha). exists (drop_addr d). split; [destruct d; cbn in *; congruence|].
    apply list_elem_of_filter. split; [done|]. by apply page_addrs_range.
Qed.

Lemma window_drops_length pt tg mm v len :
  length (window_drops pt tg mm v len) = length (mapped_pfns pt mm v (Z.to_nat (len / PAGE_SIZE))).
Proof. unfold window_drops. by rewrite length_fmap, mapped_addrs_length. Qed.

Lemma window_drops_pages w tg mm v len p :
  tally (shows w p) (window_drops (pgt w) tg mm v len)
  = Z.of_nat (length (filter (fun q => q = p) (mapped_pfns (pgt w) mm v (Z.to_nat (len / PAGE_SIZE))))).
Proof.
  rewrite <- mapped_addrs_count. unfold tally, window_drops.
  f_equal. induction (mapped_addrs (pgt w) mm v _) as [|a l IH]; [done|]. cbn [fmap list_fmap]. rewrite !filter_cons.
  destruct (decide (shows w p _)) as [Hs|Hs]; [rewrite decide_True by exact Hs|rewrite decide_False by exact Hs]; cbn; by rewrite IH.
Qed.

Lemma window_dropped w k y vma tg st pt at_ len :
  page_range at_ len -> atts w !! k = Some y -> att_mm y = Some (vm_mm vma) ->
  at_vaddr y <= at_ -> at_ + len <= at_vaddr y + at_size y ->
  vm_start vma <= at_ -> at_ + len <= vm_end vma -> has (vm_flags vma) VM_PFNMAP = true ->
  tgs w !! tg = Some st -> part w = Some pt ->
  (forall x g, aps w !! att_ap y = Some x -> segs w !! ap_seg x = Some g -> tg = seg_tg g) ->
  (forall v, at_ <= v < at_ + len -> P (att_ap y) (att_vaddr y + (v - at_vaddr y))) ->
  let w1 := unpinned tg (vm_mm vma) at_ len st pt w in
  dropped P (window_drops (pgt w) tg (vm_mm vma) at_ len) w (set_pgt (zap_vma_ptes (pgt w1) vma at_ len) w1).
Proof.
  intros Hr Ey Em Hy1 Hy2 Hv1 Hv2 Hf Et Ep Htg HP w1. pose proof (range_aligned _ _ Hr) as [Al1 Al2].
  assert (forall d, d ∈ window_drops (pgt w) tg (vm_mm vma) at_ len -> drop_ok P w d) as Hok.
  { intros d (<- & E2 & Hm & Ha & Hd)%window_drops_elem; [|done]. split; [done|by rewrite E2|].
    exists k, y. rewrite E2. split_and!; try done; try lia. by apply HP. }
  split.
  - unfold window_drops. rewrite <- list_fmap_compose. apply NoDup_fmap_2.
    + by intros a b [= ->].
    + apply NoDup_filter, page_addrs_NoDup, PAGE_SIZE_pos.
  - done.
  - intros d (_ & E2 & _ & Ha & Hd)%window_drops_elem; [|done]. rewrite E2. by apply zap_unmaps.
  - intros mm a Ha Hn. cbn. destruct (decide (mm = vm_mm vma /\ at_ <= a < at_ + len)) as [[-> Hd]|Hd]; [|by apply zap_keeps].
    destruct (mapped_pfn (pgt w) (vm_mm vma) a) as [p|] eqn:Ema.
    + exfalso. apply Hn, list_elem_of_fmap. exists (mk_drop tg (vm_mm vma) a). split; [done|]. apply window_drops_elem; [done|]. cbn. eauto.
    + by apply zap_maps_nothing.
  - intros p. unfold page_count. cbn. by rewrite put_pages_count, window_drops_pages.
  - intros q t t'. cbn. rewrite lookup_insert. intros E. case_decide as Hq; intros E'.
    + subst q. injection E' as <-. assert (t = st) as -> by congruence. cbn. rewrite s32_s32, tally_all; [by rewrite window_drops_length|].
      by apply Forall_fmap, Forall_true.
    + assert (t' = t) as -> by congruence. rewrite tally_none; [f_equal; lia|]. by apply Forall_fmap, Forall_true.
  - intros pt1 pt2 E1. cbn. intros [= <-]. assert (pt1 = pt) as -> by congruence. split; [done|]. cbn.
    rewrite s32_s32. by rewrite window_drops_length.
Qed.

Lemma invalidated_window w k y vma tg st pt at_ len :
  page_range at_ len -> atts w !! k = Some y -> att_mm y = Some (vm_mm vma) ->
  at_vaddr y <= at_ -> at_ + len <= at_vaddr y + at_size y ->
  vm_start vma <= at_ -> at_ + len <= vm_end vma -> has (vm_flags vma) VM_PFNMAP = true ->
  tgs w !! tg = Some st -> part w = Some pt ->
  (forall x g, aps w !! att_ap y = Some x -> segs w !! ap_seg x = Some g -> tg = seg_tg g) ->
  (forall v, at_ <= v < at_ + len -> P (att_ap y) (att_vaddr y + (v - at_vaddr y))) ->
  let w1 := unpinned tg (vm_mm vma) at_ len st pt w in
  invalidated_by P w (set_pgt (zap_vma_ptes (pgt w1) vma at_ len) w1).
Proof.
  intros Hr Ey Em Hy1 Hy2 Hv1 Hv2 Hf Et Ep Htg HP w1. split; [|cbn; intros; congruence| |cbn; intros; congruence|].
  - unfold links, w1, unpinned. cbn. rewrite Ep. by rewrite (fmap_insert_same norm_pins _ _ st).
  - intros mm v Hm. by apply zap_maps_nothing.
  - exists (window_drops (pgt w) tg (vm_mm vma) at_ len). by apply (window_dropped w k y).
Qed.

Lemma invalidated_att w t y :
  atts w !! t = Some y -> unmapped (pgt w) y ->
  invalidated_by P w (set_atts (<[t := set_att_flags (clear (att_flags y) XPMEM_FLAG_VALIDPTEs) y]> (atts w)) w).
Proof.
  intros E Hu. split; [| |done| |]; cbn.
  - unfold links. cbn. rewrite (fmap_insert_same norm_valid _ _ y); [done|done|].
    unfold norm_valid. cbn. unfold clear. f_equal.
    destruct y; unfold set_att_flags; cbn. f_equal. by rewrite <- Z.land_assoc, Z.land_diag.
  - intros t' y1 y2 E1. rewrite lookup_insert. case_decide as Ht; [subst t'|congruence].
    intros [= <-]. unfold valid_PTEs. cbn. change XPMEM_FLAG_VALIDPTEs with (2 ^ 9).
    rewrite has_clear by lia. intros [H _]%andb_true_iff. congruence.
  - intros t' y1 y2 E1. rewrite lookup_insert. case_decide as Ht; [subst t'|congruence].
    by assert (y1 = y) as -> by congruence.
  - exists []. apply dropped_nil; cbn; intros; split_and?; congruence.
Qed.
End by_P.

Lemma invalidated_mono P Q w w' :
  (forall a v, P a v -> Q a v) -> invalidated_by P w w' -> invalidated_by Q w w'.
Proof.
  intros HPQ [H Hv Hm Hu [D [D1 D2 D3 D4 D5 D6 D7]]]. split; try done. exists D. split; try done.
  intros d Hd. destruct (D2 d Hd) as [F1 F2 (t & y & F3 & F4 & F5 & F6 & F7)]. split; [done..|].
  exists t, y. do 3 (split; [done|]). split; [by apply HPQ|done].
Qed.
End invalidated.

(** The pages of any attachment. *)
Definition any_page : positive -> Z -> Prop := fun _ _ => True.
Abbreviation invalidated := (invalidated_by any_page).

Lemma any_invalidated `{K : Kernel} P w w' : invalidated_by P w w' -> invalidated w w'.
Proof. by apply invalidated_mono. Qed.
Lemma equiv_invalidated `{K : Kernel} (w w' : world) : w ≡ w' -> invalidated w w'.
Proof. apply equiv_invalidated_by. Qed.

