(* ===== verification/ClearSpec.v ===== *)
(** Invalidation (xpmem_attach.c, xpmem_clear_PTEs and the functions below it):
    every attachment of a segment that lies in the range loses its pages, which are
    unpinned once each, and nothing else changes. *)

From S2P Require Import Prelude Kernel World Monad Ids Misc Pfn Attach Inv Graph Link Refs Lookup.
From S2P Require Import MakeSpec PfnSpec Invalidated.

(** * The window *)

Section window.
Context `{K : Kernel}.

(** No address of the attachment wraps around. *)
Definition att_in_space (t : xpmem_attachment) : Prop :=
  0 <= att_vaddr t /\ 0 <= at_vaddr t /\ 0 < at_size t /\
  att_vaddr t + at_size t < 2 ^ 64 /\ at_vaddr t + at_size t < 2 ^ 64.

(** The window is the part of the attachment that shows [start, end): [None]
    when there is none, and otherwise the addresses at which the attachment
    shows the intersection. *)
Lemma invalidate_window_ok t start end_ :
  att_in_space t -> 0 <= start <= end_ -> end_ < 2 ^ 64 ->
  match invalidate_window t start end_ with
  | None => forall a, att_vaddr t <= a < att_vaddr t + at_size t -> start <= a < end_ -> False
  | Some (at_, len, off) =>
      at_ = at_vaddr t + off /\ 0 <= off /\ 0 <= len /\ off + len <= at_size t /\
      forall a, (att_vaddr t + off <= a < att_vaddr t + off + len)
        <-> (att_vaddr t <= a < att_vaddr t + at_size t /\ start <= a < end_)
  end.
Proof.
  intros (H1 & H2 & H3 & H4 & H5) H6 H7. unfold invalidate_window.
  rewrite (u64_id (att_vaddr t + at_size t)) by lia.
  rewrite Z.geb_leb. destruct ((_ <=? _) || (_ <=? _)) eqn:E.
  - apply orb_true_iff in E. intros a Ha Ha'. lia.
  - apply orb_false_iff in E as [E1 E2].
    rewrite (u64_id (_ `max` _ - _)), (u64_id (_ `min` _ - _)) by lia.
    rewrite !u64_id by lia. split; [lia|]. split; [lia|]. split; [lia|]. split; [lia|].
    intros a. lia.
Qed.
End window.

(** * Attachments that can be invalidated *)

Section clear.
Context `{K : Kernel} {G : KernelGeometry K} {PT : PageTables K} {ZP : ZapPtes K}.
Context (HG : PGDIR_SHIFT <= PAGE_SHIFT + 31).
Implicit Types (T S A B : gmultiset positive) (w : world).

(** The vma that shows an attachment. *)
Record shown_by w (y : xpmem_attachment) (mm v : positive) (vma : vm_area_struct) : Prop := {
  shown_mm : att_mm y = Some mm;
  shown_vma : at_vma y = Some v;
  shown_lookup : vmas w !! v = Some vma;
  shown_find : find_vma (vmas w) mm (at_vaddr y) = Some v;
  shown_owner : vm_mm vma = mm;
  shown_range : vm_start vma <= at_vaddr y /\ at_vaddr y + at_size y <= vm_end vma;
  shown_flags : has (vm_flags vma) VM_PFNMAP = true;
}.

(** An attachment with mapped pages: whole pages, fewer than 2^31 of them,
    inside both address spaces, shown by the vma at its address. *)
Record att_wf w (y : xpmem_attachment) : Prop := {
  wf_vma : exists mm v vma, shown_by w y mm v vma;
  wf_space : att_in_space y;
  wf_aligned : offset_in_page (att_vaddr y) = 0 /\ offset_in_page (at_vaddr y) = 0 /\
    offset_in_page (at_size y) = 0;
  wf_pages : at_size y / PAGE_SIZE < 2 ^ 31;
}.

(** An attachment in use: attached and not being destroyed. *)
Definition att_live (y : xpmem_attachment) : Prop :=
  has (att_flags y) XPMEM_FLAG_DESTROYING = false /\ is_Some (at_vma y).

(** An attachment in use is well formed; VALIDPTEs says whether an attachment may
    have pages mapped. *)
Record AttWf w : Prop := {
  wf_live : forall t y, atts w !! t = Some y -> att_live y -> att_wf w y;
  wf_valid : forall t y, atts w !! t = Some y -> valid_PTEs y = true -> att_wf w y;
  wf_invalid : forall t y, atts w !! t = Some y -> valid_PTEs y = false -> att_live y -> unmapped (pgt w) y;
}.

Lemma norm_destroying y y' :
  norm_valid y = norm_valid y' ->
  has (att_flags y') XPMEM_FLAG_DESTROYING = has (att_flags y) XPMEM_FLAG_DESTROYING.
Proof.
  intros En. pose proof (f_equal att_flags En) as E. cbn in E. change XPMEM_FLAG_DESTROYING with (2 ^ 6).
  assert (forall f, has (clear f XPMEM_FLAG_VALIDPTEs) (2 ^ 6) = has f (2 ^ 6)) as Hf
    by (intros; rewrite has_clear by lia; apply andb_true_r).
  by rewrite <- Hf, <- E, Hf.
Qed.

Lemma norm_live y y' : norm_valid y = norm_valid y' -> att_live y -> att_live y'.
Proof.
  intros En [H1 H2]. split; [by rewrite (norm_destroying y y')|].
  by assert (at_vma y' = at_vma y) as -> by exact (eq_sym (f_equal at_vma En)).
Qed.

Lemma att_wf_norm w w' y y' : vmas w = vmas w' -> norm_valid y = norm_valid y' -> att_wf w y -> att_wf w' y'.
Proof.
  intros Ev En [(mm & v & vma & [V1 V2 V3 V4 V5 V6 V7]) H2 H3 H4].
  assert (att_mm y' = att_mm y) as E1 by exact (eq_sym (f_equal att_mm En)).
  assert (at_vma y' = at_vma y) as E2 by exact (eq_sym (f_equal at_vma En)).
  assert (at_vaddr y' = at_vaddr y) as E3 by exact (eq_sym (f_equal at_vaddr En)).
  assert (att_vaddr y' = att_vaddr y) as E4 by exact (eq_sym (f_equal att_vaddr En)).
  assert (at_size y' = at_size y) as E5 by exact (eq_sym (f_equal at_size En)).
  split; [exists mm, v, vma; split|..]; unfold att_in_space in *; rewrite ?E1, ?E2, ?E3, ?E4, ?E5, <- ?Ev; done.
Qed.

Lemma AttWf_invalidated {P} w w' : invalidated_by P w w' -> AttWf w -> AttWf w'.
Proof.
  intros H [Hl Hw Hi]. split; intros t y' E' Hv; destruct (invalidated_att_back _ _ _ _ H E') as (y & E & En).
  - eapply (att_wf_norm w w' y); [by eapply inv_vmas|done|]. apply (Hl t); [done|]. by eapply norm_live.
  - eapply (att_wf_norm w w' y); [by eapply inv_vmas|done|]. apply (Hw t); [done|]. by eapply (fewer_valid _ _ H).
  - intros Hl'. apply (unmapped_norm _ y y'); [done|]. destruct (valid_PTEs y) eqn:Hy.
    + by eapply (unmapped_first _ _ H).
    + intros mm v Em Hr. apply (fewer_mapped _ _ H). eapply (Hi t); try done. by eapply norm_live.
Qed.

Lemma AttWf_same w w' : atts w' = atts w -> vmas w' = vmas w -> pgt w' = pgt w -> AttWf w -> AttWf w'.
Proof.
  intros Ea Ev Ep [Hl Hw Hi]. split; intros t y; rewrite Ea, ?Ep; [| |by apply Hi];
    intros Ey Hv; by eapply (att_wf_norm w w' y y); [|done|eauto].
Qed.

Lemma offset_add a b : offset_in_page a = 0 -> offset_in_page b = 0 -> offset_in_page (a + b) = 0.
Proof.
  rewrite !offset_in_page_mod. pose proof PAGE_SIZE_pos. intros Ha Hb.
  rewrite Z.add_mod, Ha, Hb by lia. apply Z.mod_0_l. lia.
Qed.
Lemma offset_sub a b : offset_in_page a = 0 -> offset_in_page b = 0 -> offset_in_page (a - b) = 0.
Proof.
  rewrite !offset_in_page_mod. pose proof PAGE_SIZE_pos. intros Ha Hb.
  rewrite Zminus_mod, Ha, Hb. apply Z.mod_0_l. lia.
Qed.

(** The window of an attachment and of a range, both made of whole pages. *)
Lemma window_range w y start end_ at_ len off :
  att_wf w y -> 0 <= start <= end_ -> end_ < 2 ^ 64 ->
  offset_in_page start = 0 -> offset_in_page end_ = 0 ->
  invalidate_window y start end_ = Some (at_, len, off) ->
  page_range at_ len /\ (start <= att_vaddr y -> att_vaddr y + at_size y <= end_ -> off = 0 /\ len = at_size y).
Proof.
  intros [_ Hs (A1 & A2 & A3) Hp] H1 H2 A4 A5. destruct Hs as (S1 & S2 & S3 & S4 & S5).
  unfold invalidate_window. rewrite (u64_id (att_vaddr y + at_size y)) by lia.
  rewrite Z.geb_leb. destruct ((_ <=? _) || (_ <=? _)) eqn:E; [done|]. apply orb_false_iff in E as [E1 E2].
  rewrite (u64_id (_ `max` _ - _)), (u64_id (_ `min` _ - _)) by lia. rewrite !u64_id by lia.
  intros [= <- <- <-].
  assert (offset_in_page (start `max` att_vaddr y) = 0) as A6 by (destruct (Z.max_spec start (att_vaddr y)) as [[_ ->]|[_ ->]]; done).
  assert (offset_in_page (end_ `min` (att_vaddr y + at_size y)) = 0) as A7.
  { destruct (Z.min_spec end_ (att_vaddr y + at_size y)) as [[_ ->]|[_ ->]]; [done|by apply offset_add]. }
  split; [|lia]. pose proof PAGE_SIZE_pos. split; try lia.
  - split; [apply offset_add; [done|]|apply offset_sub]; by apply offset_sub.
  - eapply Z.le_lt_trans; [|exact Hp]. apply Z.div_le_mono; lia.
Qed.

Lemma linked_permit T S A B w s g a :
  Inv T S A B w -> segs w !! s = Some g -> a ∈ seg_ap_list g ->
  (exists x, aps w !! a = Some x /\ ap_seg x = s) /\ exists t, tgs w !! seg_tg g = Some t.
Proof.
  intros HI Eg Ha. split.
  - pose proof (seg_aps (seg_all (inv_seg HI) s g Eg) a Ha) as E. rewrite lookup_fmap in E.
    destruct (aps w !! a) as [x|]; [|done]. exists x. cbn in E. split; [done|congruence].
  - destruct (tg_live (inv_tg HI) (seg_tg g)) as [t Et]; [|eauto].
    unfold tg_refs. assert (1 <= map_sum (key_refs (seg_tg g)) (seg_key <$> segs w))%nat; [|lia].
    etransitivity; [|eapply (map_sum_ge _ _ s (seg_key g)); by rewrite lookup_fmap, Eg].
    unfold key_refs, seg_key. cbn. rewrite decide_True by done. apply list_elem_of_split in Ha as (l1 & l2 & ->).
    rewrite length_app. cbn. lia.
Qed.

(** All the attachment shows is in the range; an MMU notifier leaves alone an
    attachment that is being destroyed. *)
Definition covered (y : xpmem_attachment) (start end_ : Z) (from_mmu : bool) : Prop :=
  start <= att_vaddr y /\ att_vaddr y + at_size y <= end_ /\
  from_mmu && has (att_flags y) XPMEM_FLAG_DESTROYING = false.

Definition page_span (start end_ : Z) : Prop :=
  0 <= start <= end_ /\ end_ < 2 ^ 64 /\ offset_in_page start = 0 /\ offset_in_page end_ = 0.

(** The part of the range that the attachment shows has no page mapped. *)
Definition hidden (pt : pgtable) (y : xpmem_attachment) (start end_ : Z) : Prop :=
  forall mm a, att_mm y = Some mm -> start <= a < end_ -> att_vaddr y <= a < att_vaddr y + at_size y ->
    mapped_pfn pt mm (at_vaddr y + (a - att_vaddr y)) = None.

(** What happens to one attachment. *)
Definition cleared (t : positive) (start end_ : Z) (from_mmu : bool) w w' : Prop :=
  forall y y', atts w !! t = Some y -> atts w' !! t = Some y' ->
    (covered y start end_ from_mmu -> valid_PTEs y' = false) /\ (att_live y -> hidden (pgt w') y start end_).

Lemma unmapped_hidden pt y start end_ : unmapped pt y -> hidden pt y start end_.
Proof. intros H mm a Em Ha Hr. apply H; [done|lia]. Qed.

(** The window is unpinned and zapped. *)
Lemma zap_window_ok P T S A B w t y mm v vma st pt g start end_ at_ len off :
  Inv T S A B w -> atts w !! t = Some y -> att_wf w y -> shown_by w y mm v vma -> 0 <= start <= end_ -> end_ < 2 ^ 64 ->
  page_range at_ len -> (forall src, start <= src < end_ -> P (att_ap y) src) ->
  (forall x h, aps w !! att_ap y = Some x -> segs w !! ap_seg x = Some h -> seg_tg g = seg_tg h) ->
  invalidate_window y start end_ = Some (at_, len, off) ->
  tgs w !! seg_tg g = Some st -> part w = Some pt ->
  let w1 := unpinned (seg_tg g) mm at_ len st pt w in
  let w2 := set_pgt (zap_vma_ptes (pgt w1) vma at_ len) w1 in
  invalidated_by P w w2 /\ Inv T S A B w2 /\ hidden (pgt w2) y start end_ /\
  (off = 0 -> at_size y = len -> unmapped (pgt w2) y).
Proof.
  intros HI Ey Hy [V1 V2 V3 V4 V5 V6 V7] P1 P2 Hr HP Hg E Est Ep w1 w2.
  pose proof (invalidate_window_ok y start end_ (wf_space _ _ Hy) P1 P2) as Hw. rewrite E in Hw.
  destruct Hw as (Ea & W1 & W2 & W3 & W4). split; [|split; [|split]].
  - unfold w2, w1. rewrite <- V5 in V1 |- *. apply (invalidated_window w t y); try done; try lia.
    intros v' Hv'. apply HP. destruct (W4 (att_vaddr y + (v' - at_vaddr y))) as [W _]. lia.
  - eapply Inv_same; [by apply Inv_unpinned|done..].
  - intros mm' a' Em Ha Hr'. assert (mm' = vm_mm vma) as -> by congruence. apply zap_unmaps; try done; [lia..|].
    destruct (W4 a') as [_ W]. specialize (W (conj Hr' Ha)). lia.
  - intros -> El mm' v' Em Hr'. assert (mm' = vm_mm vma) as -> by congruence.
    apply zap_unmaps; try done; lia.
Qed.

Lemma clear_window_ok P T S A B w t y s g a x start end_ from_mmu :
  Inv T S A B w -> AttWf w -> page_span start end_ ->
  segs w !! s = Some g -> a ∈ seg_ap_list g -> aps w !! a = Some x -> ap_seg x = s ->
  atts w !! t = Some y -> att_ap y = a -> (forall src, start <= src < end_ -> P a src) ->
  wp (clear_PTEs_window t start end_ from_mmu) (fun _ w' =>
    invalidated_by P w w' /\ Inv T S A B w' /\ cleared t start end_ from_mmu w w') w.
Proof.
  intros HI Hwf (P1 & P2 & P3 & P4) Eg Ha Ex Hx Ey Hy HP. unfold clear_PTEs_window.
  apply wp_bind. eapply wp_load; [done|]. fold (valid_PTEs y). destruct (valid_PTEs y) eqn:Hv; cbn [negb].
  2: { apply wp_ret. split; [done|]. split; [done|]. intros y1 y2 E1 E2.
       assert (y1 = y /\ y2 = y) as [-> ->] by (split; congruence). split; [done|].
       intros Hl. by eapply unmapped_hidden, (wf_invalid _ Hwf). }
  pose proof (wf_valid _ Hwf t y Ey Hv) as Hy'. destruct (wf_vma _ _ Hy') as (mm & v & vma & Hs).
  pose proof Hs as [Em Ev Evm Ef _ _ _].
  pose proof (invalidate_window_ok y start end_ (wf_space _ _ Hy') P1 P2) as Hw.
  destruct (invalidate_window y start end_) as [[[at_ len] off]|] eqn:E.
  2: { apply wp_ret. split; [done|]. split; [done|]. intros y1 y2 E1 E2.
       assert (y1 = y /\ y2 = y) as [-> ->] by (split; congruence). split.
       - intros (C1 & C2 & _). destruct (wf_space _ _ Hy') as (? & ? & ? & _). destruct (Hw (att_vaddr y)); lia.
       - intros _ mm' a' _ H1 H2. by destruct (Hw a'). }
  destruct (window_range w y start end_ at_ len off Hy' P1 P2 P3 P4 E) as [Hr Hc].
  destruct (linked_permit _ _ _ _ _ _ _ _ HI Eg Ha) as (_ & st & Est).
  destruct (inv_part HI) as [pt Ep].
  apply wp_bind, wp_DBUG_ON. { by rewrite (proj1 (range_aligned _ _ Hr)), (proj2 (range_aligned _ _ Hr)). }
  apply wp_bind. eapply wp_load; [by rewrite Hy|]. rewrite Em. apply wp_bind, wp_ret.
  apply wp_bind. eapply wp_Ok; [eapply unpin_pages_ok; [done|done| |done|done]; by rewrite Hx|].
  apply wp_bind, wp_get. apply wp_bind.
  replace (if from_mmu then at_vma y else _) with (Some v) by (destruct from_mmu; cbn; congruence).
  apply wp_ret. apply wp_bind. eapply wp_load; [done|]. apply wp_bind, wp_modify.
  destruct (zap_window_ok P T S A B w t y mm v vma st pt g start end_ at_ len off HI Ey Hy' Hs P1 P2 Hr)
    as (H2 & HI2 & Hh2 & Hu); [by rewrite Hy| |done..|].
  { intros x' h. rewrite Hy, Ex. intros [= <-]. rewrite Hx, Eg. by intros [= <-]. }
  set (w1 := unpinned _ _ _ _ _ _ _) in *. set (w2 := set_pgt _ w1) in *.
  apply wp_when.
  - intros [Eo El]%andb_true_iff. apply Z.eqb_eq in Eo, El. eapply wp_store; [done|].
    specialize (Hu Eo El).
    split; [transitivity w2; [done|by apply invalidated_att]|]. split.
    + eapply Inv_att_update; [exact HI2|exact Ey|done| |done| | |];
        pose proof (att_all (inv_att HI) t y Ey) as Hok; try apply Hok.
      intros Hn. cbn. change XPMEM_FLAG_DESTROYING with (2 ^ 6). rewrite has_clear by lia.
      rewrite (att_unlisted Hok Hn : has _ (2 ^ 6) = true). done.
    + intros y1 y2 E1. assert (y1 = y) as -> by congruence. cbn. rewrite lookup_insert_eq. intros [= <-].
      split; [|done]. intros _. unfold valid_PTEs. cbn.
      change XPMEM_FLAG_VALIDPTEs with (2 ^ 9). rewrite has_clear by lia. apply andb_false_r.
  - intros En. split; [done|]. split; [done|]. intros y1 y2 E1 E2. assert (y1 = y) as -> by congruence.
    split; [|done]. intros (C1 & C2 & _). destruct (Hc C1 C2) as [-> ->].
    rewrite !Z.eqb_refl in En. done.
Qed.

(** ** Locks *)

(** The locks a task may hold when it invalidates. *)
Definition outer_lock (from_mmu : bool) (l : lock) : bool :=
  match l with
  | SegSema _ | RecallMutex _ => true
  | MmapLock _ => from_mmu
  | _ => false
  end.
Definition outer_locks from_mmu (L : list lock) : Prop := Forall (fun l => outer_lock from_mmu l = true) L.

Lemma outer_not_in from_mmu L l : outer_locks from_mmu L -> outer_lock from_mmu l = false -> l ∉ L.
Proof. intros HL Hl Hin. pose proof (proj1 (Forall_forall _ L) HL l Hin). cbn in *. congruence. Qed.

Lemma outer_sleep from_mmu L : outer_locks from_mmu L -> existsb atomic_lock L = false.
Proof.
  intros HL. induction HL as [|l L Hl _ IH]; [done|]. cbn. rewrite IH.
  by destruct l, from_mmu; cbn in *.
Qed.

(** One attachment, with its locks. *)
Lemma clear_of_att_ok P T S A B w t y s g a x start end_ from_mmu :
  Inv T S A B w -> AttWf w -> page_span start end_ -> outer_locks from_mmu (held w) ->
  segs w !! s = Some g -> a ∈ seg_ap_list g -> aps w !! a = Some x -> ap_seg x = s ->
  atts w !! t = Some y -> att_ap y = a -> valid_PTEs y = true ->
  (forall src, start <= src < end_ -> P a src) ->
  wp (xpmem_clear_PTEs_of_att t start end_ from_mmu) (fun _ w' =>
    invalidated_by P w w' /\ Inv T S A B w' /\ cleared t start end_ from_mmu w w') w.
Proof.
  intros HI Hwf HP HL Eg Ha Ex Hx Ey Hy Hv HPa. unfold xpmem_clear_PTEs_of_att. destruct from_mmu.
  - apply wp_bind, wp_mutex_lock; [by eapply outer_sleep|by eapply outer_not_in|].
    set (w1 := set_held _ w). apply wp_bind. eapply wp_load; [done|]. apply wp_bind.
    eapply (wp_mono _ (fun _ w' => invalidated_by P w1 w' /\ Inv T S A B w' /\ cleared t start end_ true w1 w')).
    { destruct (has (att_flags y) XPMEM_FLAG_DESTROYING) eqn:Hd.
      - apply wp_ret. split; [done|]. split; [by eapply Inv_same|].
        intros y1 y2 E1 _. assert (y1 = y) as -> by (cbn in E1; congruence). split.
        + intros (_ & _ & Hc). by rewrite Hd in Hc.
        + intros [Hl _]. congruence.
      - eapply (clear_window_ok P T S A B w1 t y s g a x); try done; [by eapply Inv_same|].
        by eapply (AttWf_same w). }
    intros _ w' (H1 & H2 & H3). eapply (wp_release _ (held w)).
    + by rewrite <- (inv_held _ _ H1).
    + by eapply outer_not_in.
    + split; [by eapply inv_unlock|]. split; [by eapply Inv_same|exact H3].
  - apply wp_bind. eapply wp_load; [done|].
    destruct (wf_vma _ _ (wf_valid _ Hwf t y Ey Hv)) as (mm & v & vma & [Em _ _ _ _ _ _]). rewrite Em.
    apply wp_bind, wp_ret. apply wp_bind, wp_mutex_lock; [by eapply outer_sleep|by eapply outer_not_in|].
    apply wp_bind, wp_mutex_lock; cbn; [by eapply outer_sleep| |].
    { rewrite not_elem_of_cons. split; [done|]. by eapply outer_not_in. }
    set (w1 := set_held _ (set_held _ w)). apply wp_bind.
    eapply wp_mono; [eapply (clear_window_ok P T S A B w1 t y s g a x); try done|].
    { by eapply Inv_same. }
    { by eapply (AttWf_same w). }
    intros _ w' (H1 & H2 & H3). apply wp_bind. eapply (wp_release _ (MmapLock mm :: held w)).
    + by rewrite <- (inv_held _ _ H1).
    + rewrite not_elem_of_cons. split; [done|]. by eapply outer_not_in.
    + eapply (wp_release _ (held w)); [done|by eapply outer_not_in|].
      split; [exact (inv_unlock (held w1) w w' H1)|]. split; [by eapply Inv_same|exact H3].
Qed.

(** ** Walking a list that does not change *)

Lemma list_after_app (c : positive) (l k : list positive) :
  c ∉ l -> list_after c (l ++ c :: k) = head k.
Proof.
  induction l as [|x l IH]; cbn; intros H.
  - by rewrite bool_decide_eq_true_2.
  - apply not_elem_of_cons in H as [H1 H2]. rewrite bool_decide_eq_false_2 by congruence. auto.
Qed.

(** The cursor that has passed [pre]. *)
Definition cursor_at (pre : list positive) : option positive := last pre.

Lemma list_next_at (pre suf : list positive) :
  NoDup (pre ++ suf) -> list_next (cursor_at pre) (pre ++ suf) = head suf.
Proof.
  unfold cursor_at, list_next. destruct pre as [|p pre] using rev_ind; [done|].
  rewrite last_snoc, <- app_assoc. cbn. intros (H & Hd & _)%NoDup_app. apply list_after_app.
  intros Hin. apply (Hd p Hin). apply list_elem_of_here.
Qed.

Lemma cursor_snoc (pre : list positive) p : cursor_at (pre ++ [p]) = Some p.
Proof. apply last_snoc. Qed.

Lemma cleared_then {P} t start end_ from_mmu w w1 w' :
  cleared t start end_ from_mmu w w1 -> invalidated_by P w1 w' -> cleared t start end_ from_mmu w w'.
Proof.
  intros Hc H y y' Ey Ey'. destruct (invalidated_att_back _ _ _ _ H Ey') as (y1 & E1 & _).
  destruct (Hc y y1 Ey E1) as [Hv Hh]. split.
  - intros Hy. specialize (Hv Hy). destruct (valid_PTEs y') eqn:Hv'; [|done].
    pose proof (fewer_valid _ _ H t y1 y' E1 Ey' Hv'). congruence.
  - intros Hl mm a Em Ha Hr. apply (fewer_mapped _ _ H). by apply Hh.
Qed.

Lemma covered_norm y y' start end_ from_mmu :
  norm_valid y = norm_valid y' -> covered y start end_ from_mmu -> covered y' start end_ from_mmu.
Proof.
  intros En (C1 & C2 & C3). unfold covered. rewrite (norm_destroying y y') by done.
  assert (att_vaddr y' = att_vaddr y) as -> by exact (eq_sym (f_equal att_vaddr En)).
  by assert (at_size y' = at_size y) as -> by exact (eq_sym (f_equal at_size En)).
Qed.

Lemma hidden_norm pt y y' start end_ : norm_valid y = norm_valid y' -> hidden pt y' start end_ -> hidden pt y start end_.
Proof.
  intros En. unfold hidden.
  assert (att_vaddr y' = att_vaddr y) as -> by exact (eq_sym (f_equal att_vaddr En)).
  assert (at_vaddr y' = at_vaddr y) as -> by exact (eq_sym (f_equal at_vaddr En)).
  assert (at_size y' = at_size y) as -> by exact (eq_sym (f_equal at_size En)).
  by assert (att_mm y' = att_mm y) as -> by exact (eq_sym (f_equal att_mm En)).
Qed.

Lemma cleared_after {P} t start end_ from_mmu w w1 w' :
  invalidated_by P w w1 -> cleared t start end_ from_mmu w1 w' -> cleared t start end_ from_mmu w w'.
Proof.
  intros H Hc y y' Ey Ey'. destruct (inv_att_lookup _ _ _ _ H Ey) as (y1 & E1 & En & _).
  destruct (Hc y1 y' E1 Ey') as [Hv Hh]. split.
  - intros Hy. apply Hv. by eapply covered_norm.
  - intros Hl. eapply hidden_norm; [done|]. apply Hh. by eapply norm_live.
Qed.

Lemma cleared_invalid {P} t start end_ from_mmu w w' y :
  AttWf w -> atts w !! t = Some y -> valid_PTEs y = false -> invalidated_by P w w' -> cleared t start end_ from_mmu w w'.
Proof.
  intros Hwf Ey Hv H y1 y' E1 Ey'. assert (y1 = y) as -> by congruence. split.
  - intros _. destruct (valid_PTEs y') eqn:Hv'; [|done].
    pose proof (fewer_valid _ _ H t y y' Ey Ey' Hv'). congruence.
  - intros Hl. apply unmapped_hidden. intros mm v Em Hr. apply (fewer_mapped _ _ H).
    by eapply (wf_invalid _ Hwf).
Qed.

Lemma listed_att T S A B w a x t :
  Inv T S A B w -> aps w !! a = Some x -> t ∈ ap_att_list x ->
  exists y, atts w !! t = Some y /\ att_ap y = a /\ (0 < attrefs B w t y)%nat.
Proof.
  intros HI Ex Ht. pose proof (ap_atts (ap_all (inv_ap HI) a x Ex) t Ht) as E.
  rewrite lookup_fmap in E. destruct (atts w !! t) as [y|]; [|done]. exists y. cbn in E.
  split; [done|]. split; [congruence|]. unfold attrefs, att_refs. injection E as E. rewrite E.
  rewrite (list_of_Some _ _ _ x) by done. rewrite (b2n_true _ Ht). lia.
Qed.

(** ** The attachments of a permit *)

Section permit.
Context (P : positive -> Z -> Prop).
Context (T S A B : gmultiset positive) (HB : few B).
Context (start end_ : Z) (Hspan : page_span start end_) (from_mmu : bool).
Context (a s : positive) (L : list lock) (HL : outer_locks from_mmu L).
Context (HPa : forall src, start <= src < end_ -> P a src).

(** What holds while the list of [a] is walked, under its lock. *)
Record walking (l : list positive) w : Prop := {
  walk_inv : Inv T S A B w;
  walk_wf : AttWf w;
  walk_held : held w = ApLock a :: L;
  walk_seg : exists g, segs w !! s = Some g /\ a ∈ seg_ap_list g;
  walk_ap : exists x, aps w !! a = Some x /\ ap_seg x = s /\ ap_att_list x = l;
}.

Lemma walking_invalidated l w w' : invalidated_by P w w' -> Inv T S A B w' -> walking l w -> walking l w'.
Proof.
  intros H HI' [_ Hwf Hh (g & Eg & Hg) (x & Ex & Hx & Hl)]. split.
  - done.
  - by eapply AttWf_invalidated.
  - by rewrite <- (inv_held _ _ H).
  - destruct (inv_seg_lookup _ _ _ _ H Eg). eauto.
  - destruct (inv_ap_lookup _ _ _ _ H Ex). eauto.
Qed.

(** One attachment: reference, unlock, invalidate, lock again, drop. *)
Lemma clear_att_step_ok l w t y (k : option positive -> M unit) Q :
  walking l w -> t ∈ l -> atts w !! t = Some y -> valid_PTEs y = true ->
  (forall w', invalidated_by P w w' -> Inv T S A B w' -> cleared t start end_ from_mmu w w' ->
     wp (k (Some t)) Q w') ->
  wp (xpmem_att_ref t ;;
      spin_unlock (ApLock a) ;;
      xpmem_clear_PTEs_of_att t start end_ from_mmu ;;
      spin_lock (ApLock a) ;;
      x ← ap_load a ;
      xpmem_att_deref t ;;
      k (if bool_decide (t ∈ ap_att_list x) then Some t else None)) Q w.
Proof.
  intros [HI Hwf Hh (g & Eg & Ha) (x & Ex & Hx & <-)] Ht Ey Hv HQ.
  destruct (listed_att _ _ _ _ w a x t HI Ex Ht) as (y0 & Ey0 & Hy & Hr).
  assert (y0 = y) as -> by congruence.
  eapply wp_seq; [by eapply att_ref_ok|]. intros _ w1 [HI1 Hq1].
  pose proof (equiv_invalidated_by (P := P) _ _ (symmetry Hq1)) as H01.
  apply wp_bind. eapply (wp_release _ L); [by rewrite <- (inv_held _ _ H01)|by eapply outer_not_in|].
  set (w2 := set_held L w1).
  destruct (inv_seg_lookup _ _ _ _ H01 Eg) as [n1 Eg1]. destruct (inv_ap_lookup _ _ _ _ H01 Ex) as [m1 Ex1].
  destruct (equiv_att _ _ _ _ (symmetry Hq1) Ey) as [k1 Ey1].
  eapply wp_seq.
  { eapply (clear_of_att_ok P T S A (B ⊎ {[+ t +]}) w2 t _ s _ a); try done; [by eapply Inv_same|].
    eapply (AttWf_same w1); [done..|]. by eapply AttWf_invalidated. }
  intros _ w3 (H23 & HI3 & Hc3).
  apply wp_bind, wp_acquire; [rewrite <- (inv_held _ _ H23); by eapply outer_not_in|].
  rewrite <- (inv_held _ _ H23). change (held w2) with L. set (w4 := set_held _ w3).
  assert (invalidated_by P w1 w4) as H14.
  { apply (set_held_invalidated (ApLock a :: L)) in H23.
    replace w1 with (set_held (ApLock a :: L) w2); [done|]. unfold w2.
    pose proof (inv_held _ _ H01) as E. rewrite Hh in E. destruct w1; cbn in *. by subst. }
  assert (invalidated_by P w w4) as H04 by (by transitivity w1).
  destruct (inv_ap_lookup _ _ _ _ H04 Ex) as [m4 Ex4].
  apply wp_bind. eapply wp_load; [done|]. cbn [set_ap_refcnt ap_att_list].
  rewrite bool_decide_eq_true_2 by done.
  assert (Inv T S A (B ⊎ {[+ t +]}) w4) as HI4 by (by eapply Inv_same).
  destruct (listed_att _ _ _ _ w4 a _ t HI4 Ex4 Ht) as (y4 & Ey4 & Hy4 & _).
  eapply wp_seq; [eapply att_deref_ok; [done|done|]|].
  { unfold attrefs, att_refs. rewrite Hy4, (list_of_Some _ _ _ _ Ex4), (b2n_true _ Ht). lia. }
  intros _ w5 [HI5 Hq5]. pose proof (equiv_invalidated_by (P := P) _ _ (symmetry Hq5)) as H45.
  apply HQ; [by transitivity w4|done|].
  eapply cleared_then; [|exact H45]. eapply cleared_after; [exact H01|]. exact Hc3.
Qed.

Lemma clear_ap_loop_ok suf : forall fuel w pre, (length suf <= fuel)%nat -> walking (pre ++ suf) w ->
  wp (clear_PTEs_of_ap_loop fuel a (cursor_at pre) start end_ from_mmu) (fun _ w' =>
    invalidated_by P w w' /\ Inv T S A B w' /\ forall t, t ∈ suf -> cleared t start end_ from_mmu w w') w.
Proof.
  induction suf as [|t suf IH]; intros fuel w pre Hf Hw;
    pose proof Hw as [HI Hwf Hh _ (x & Ex & Hx & El)].
  - destruct fuel; cbn; apply wp_bind; (eapply wp_load; [done|]);
      (rewrite El, list_next_at; [|rewrite <- El; by apply (ap_all (inv_ap HI) a x Ex)]);
      apply wp_ret; (split; [done|]); (split; [done|]); by intros t ?%elem_of_nil.
  - destruct fuel as [|fuel]; cbn in Hf; [lia|]. cbn. apply wp_bind. eapply wp_load; [done|].
    rewrite El, list_next_at by (rewrite <- El; by apply (ap_all (inv_ap HI) a x Ex)). cbn [head].
    destruct (listed_att _ _ _ _ w a x t HI Ex) as (y & Ey & _); [rewrite El; set_solver|].
    apply wp_bind. eapply wp_load; [done|]. fold (valid_PTEs y).
    assert (Some t = cursor_at (pre ++ [t])) as Ec by (by rewrite cursor_snoc).
    destruct (valid_PTEs y) eqn:Hv; cbn [negb].
    2: { rewrite Ec. eapply wp_mono; [apply (IH fuel w (pre ++ [t])); [lia|by rewrite <- app_assoc]|].
         intros _ w' (H1 & H2 & H3). split; [done|]. split; [done|].
         intros t' [->|Ht']%elem_of_cons; [by eapply cleared_invalid|auto]. }
    eapply (clear_att_step_ok _ w t y (fun c => clear_PTEs_of_ap_loop fuel a c start end_ from_mmu));
      [done|set_solver|done|done|]. intros w1 H1 HI1 Hc. rewrite Ec.
    eapply wp_mono; [apply (IH fuel w1 (pre ++ [t])); [lia|]|].
    + rewrite <- app_assoc. by eapply walking_invalidated.
    + intros _ w' (H2 & HI2 & H3). split; [by transitivity w1|]. split; [done|].
      intros t' [->|Ht']%elem_of_cons; [by eapply cleared_then|]. eapply cleared_after; eauto.
Qed.
End permit.

Lemma clear_of_ap_ok P T S A B w s g a x start end_ from_mmu :
  Inv T S A B w -> few B -> AttWf w -> page_span start end_ -> outer_locks from_mmu (held w) ->
  segs w !! s = Some g -> a ∈ seg_ap_list g -> aps w !! a = Some x -> ap_seg x = s ->
  (forall src, start <= src < end_ -> P a src) ->
  wp (xpmem_clear_PTEs_of_ap a start end_ from_mmu) (fun _ w' =>
    invalidated_by P w w' /\ Inv T S A B w' /\
    forall t, t ∈ ap_att_list x -> cleared t start end_ from_mmu w w') w.
Proof.
  intros HI HB Hwf Hspan HL Eg Ha Ex Hx HPa. unfold xpmem_clear_PTEs_of_ap.
  apply wp_bind, wp_acquire; [by eapply outer_not_in|]. set (w1 := set_held _ w).
  apply wp_bind. eapply wp_load; [done|]. apply wp_bind.
  eapply wp_mono; [eapply (clear_ap_loop_ok P T S A B HB start end_ Hspan from_mmu a s (held w) HL HPa
                             (ap_att_list x) _ w1 []); [done|]|].
  - split; [by eapply Inv_same|by eapply (AttWf_same w)|done|by eauto|by eauto].
  - intros _ w' (H1 & H2 & H3). eapply (wp_release _ (held w)).
    + by rewrite <- (inv_held _ _ H1).
    + by eapply outer_not_in.
    + split; [by eapply inv_unlock|]. split; [by eapply Inv_same|exact H3].
Qed.

(** ** The permits of a segment *)

Lemma inv_aprefs {P} A w w' a x n :
  invalidated_by P w w' -> aprefs A w' a (set_ap_refcnt n x) = aprefs A w a x.
Proof.
  intros H%same_links. injection H as _ Ht _ _ _ _ _ _ _ _ _ _ _ _. unfold aprefs, ap_refs. cbn.
  rewrite (list_of_fmap hashed_aps (tgs w) (tgs w')); [done|]. by apply (fmap_norm norm_pins).
Qed.

(** Every attachment of the permit [a]. *)
Definition ap_cleared (start end_ : Z) (from_mmu : bool) (a : positive) w w' : Prop :=
  forall x t, aps w !! a = Some x -> t ∈ ap_att_list x -> cleared t start end_ from_mmu w w'.

Lemma ap_cleared_then {P} start end_ from_mmu a w w1 w' :
  ap_cleared start end_ from_mmu a w w1 -> invalidated_by P w1 w' -> ap_cleared start end_ from_mmu a w w'.
Proof. intros Hc H x t Ex Ht. eapply cleared_then; [by eapply Hc|done]. Qed.

Lemma ap_cleared_after {P} start end_ from_mmu a w w1 w' :
  invalidated_by P w w1 -> ap_cleared start end_ from_mmu a w1 w' -> ap_cleared start end_ from_mmu a w w'.
Proof.
  intros H Hc x t Ex Ht. eapply cleared_after; [done|].
  destruct (inv_ap_lookup _ _ _ _ H Ex) as [n En]. by eapply Hc.
Qed.

Section segment.
Context (P : positive -> Z -> Prop).
Context (T S A B : gmultiset positive) (HA : few A) (HB : few B).
Context (start end_ : Z) (Hspan : page_span start end_) (from_mmu : bool).
Context (s : positive) (L : list lock) (HL : outer_locks from_mmu L).

(** What holds while the list of [s] is walked, under its lock. *)
Record seg_walking (l : list positive) w : Prop := {
  swalk_inv : Inv T S A B w;
  swalk_wf : AttWf w;
  swalk_held : held w = SegLock s :: L;
  swalk_seg : exists g, segs w !! s = Some g /\ seg_ap_list g = l;
}.

Lemma seg_walking_invalidated l w w' :
  invalidated_by P w w' -> Inv T S A B w' -> seg_walking l w -> seg_walking l w'.
Proof.
  intros H HI' [_ Hwf Hh (g & Eg & Hg)]. split.
  - done.
  - by eapply AttWf_invalidated.
  - by rewrite <- (inv_held _ _ H).
  - destruct (inv_seg_lookup _ _ _ _ H Eg). eauto.
Qed.

(** One permit: reference, unlock, invalidate, lock again, drop. *)
Lemma clear_ap_step_ok l w a (k : option positive -> M unit) Q :
  seg_walking l w -> a ∈ l -> (forall src, start <= src < end_ -> P a src) ->
  (forall w', invalidated_by P w w' -> Inv T S A B w' -> ap_cleared start end_ from_mmu a w w' ->
     wp (k (Some a)) Q w') ->
  wp (xpmem_ap_ref a ;;
      spin_unlock (SegLock s) ;;
      xpmem_clear_PTEs_of_ap a start end_ from_mmu ;;
      spin_lock (SegLock s) ;;
      g ← seg_load s ;
      xpmem_ap_deref a ;;
      k (if bool_decide (a ∈ seg_ap_list g) then Some a else None)) Q w.
Proof.
  intros [HI Hwf Hh (g & Eg & <-)] Ha HPa HQ.
  destruct (linked_permit _ _ _ _ _ _ _ _ HI Eg Ha) as ((x & Ex & Hx) & _).
  pose proof (ap_counted (ap_all (inv_ap HI) a x Ex)) as Hr.
  eapply wp_seq; [by eapply ap_ref_ok|]. intros _ w1 [HI1 Hq1].
  pose proof (equiv_invalidated_by (P := P) _ _ (symmetry Hq1)) as H01.
  apply wp_bind. eapply (wp_release _ L); [by rewrite <- (inv_held _ _ H01)|by eapply outer_not_in|].
  set (w2 := set_held L w1).
  destruct (inv_seg_lookup _ _ _ _ H01 Eg) as [n1 Eg1]. destruct (inv_ap_lookup _ _ _ _ H01 Ex) as [m1 Ex1].
  eapply wp_seq.
  { eapply (clear_of_ap_ok P T S (A ⊎ {[+ a +]}) B w2 s _ a); try done; [by eapply Inv_same|].
    eapply (AttWf_same w1); [done..|]. by eapply AttWf_invalidated. }
  intros _ w3 (H23 & HI3 & Hc3).
  apply wp_bind, wp_acquire; [rewrite <- (inv_held _ _ H23); by eapply outer_not_in|].
  rewrite <- (inv_held _ _ H23). change (held w2) with L. set (w4 := set_held _ w3).
  assert (invalidated_by P w1 w4) as H14.
  { apply (set_held_invalidated (SegLock s :: L)) in H23.
    replace w1 with (set_held (SegLock s :: L) w2); [done|]. unfold w2.
    pose proof (inv_held _ _ H01) as E. rewrite Hh in E. destruct w1; cbn in *. by subst. }
  assert (invalidated_by P w w4) as H04 by (by transitivity w1).
  destruct (inv_seg_lookup _ _ _ _ H04 Eg) as [n4 Eg4]. destruct (inv_ap_lookup _ _ _ _ H04 Ex) as [m4 Ex4].
  apply wp_bind. eapply wp_load; [done|]. cbn [set_seg_refcnt seg_ap_list].
  rewrite bool_decide_eq_true_2 by done.
  eapply wp_seq; [eapply ap_deref_ok; [by eapply Inv_same|done|by rewrite (inv_aprefs _ _ _ _ _ _ H04)]|].
  intros _ w5 [HI5 Hq5]. pose proof (equiv_invalidated_by (P := P) _ _ (symmetry Hq5)) as H45.
  apply HQ; [by transitivity w4|done|].
  eapply ap_cleared_then; [|exact H45]. intros x' t Ex' Ht. assert (x' = x) as -> by congruence.
  eapply cleared_after; [exact H01|]. by apply Hc3.
Qed.

Lemma clear_range_loop_ok suf : forall fuel w pre, (length suf <= fuel)%nat -> seg_walking (pre ++ suf) w ->
  (forall a src, a ∈ suf -> start <= src < end_ -> P a src) ->
  wp (clear_PTEs_range_loop fuel s (cursor_at pre) start end_ from_mmu) (fun _ w' =>
    invalidated_by P w w' /\ Inv T S A B w' /\ forall a, a ∈ suf -> ap_cleared start end_ from_mmu a w w') w.
Proof.
  induction suf as [|a suf IH]; intros fuel w pre Hf Hw HP; pose proof Hw as [HI Hwf Hh (g & Eg & El)].
  - destruct fuel; cbn; apply wp_bind; (eapply wp_load; [done|]);
      (rewrite El, list_next_at; [|rewrite <- El; by apply (seg_all (inv_seg HI) s g Eg)]);
      apply wp_ret; (split; [done|]); (split; [done|]); by intros t ?%elem_of_nil.
  - destruct fuel as [|fuel]; cbn in Hf; [lia|]. cbn. apply wp_bind. eapply wp_load; [done|].
    rewrite El, list_next_at by (rewrite <- El; by apply (seg_all (inv_seg HI) s g Eg)). cbn [head].
    assert (Some a = cursor_at (pre ++ [a])) as Ec by (by rewrite cursor_snoc).
    eapply (clear_ap_step_ok _ w a (fun c => clear_PTEs_range_loop fuel s c start end_ from_mmu));
      [done|set_solver|by intros; apply HP; [left|]|]. intros w1 H1 HI1 Hc. rewrite Ec.
    eapply wp_mono; [apply (IH fuel w1 (pre ++ [a])); [lia| |by intros; apply HP; [right|]]|].
    + rewrite <- app_assoc. by eapply seg_walking_invalidated.
    + intros _ w' (H2 & HI2 & H3). split; [by transitivity w1|]. split; [done|].
      intros t' [->|Ht']%elem_of_cons; [by eapply ap_cleared_then|]. eapply ap_cleared_after; eauto.
Qed.
End segment.

Lemma clear_range_by_ok P T S A B w s g start end_ from_mmu :
  Inv T S A B w -> few A -> few B -> AttWf w -> page_span start end_ -> outer_locks from_mmu (held w) ->
  segs w !! s = Some g ->
  (forall a src, a ∈ seg_ap_list g -> start <= src < end_ -> P a src) ->
  wp (xpmem_clear_PTEs_range s start end_ from_mmu) (fun _ w' =>
    invalidated_by P w w' /\ Inv T S A B w' /\
    forall a, a ∈ seg_ap_list g -> ap_cleared start end_ from_mmu a w w') w.
Proof.
  intros HI HA HB Hwf Hspan HL Eg HP. unfold xpmem_clear_PTEs_range.
  apply wp_bind, wp_acquire; [by eapply outer_not_in|]. set (w1 := set_held _ w).
  apply wp_bind. eapply wp_load; [done|]. apply wp_bind.
  eapply wp_mono; [eapply (clear_range_loop_ok P T S A B HA HB start end_ Hspan from_mmu s (held w) HL
                             (seg_ap_list g) _ w1 []); [done| |done]|].
  - split; [by eapply Inv_same|by eapply (AttWf_same w)|done|by eauto].
  - intros _ w' (H1 & H2 & H3). eapply (wp_release _ (held w)).
    + by rewrite <- (inv_held _ _ H1).
    + by eapply outer_not_in.
    + split; [by eapply inv_unlock|]. split; [by eapply Inv_same|exact H3].
Qed.

Lemma clear_range_ok T S A B w s g start end_ from_mmu :
  Inv T S A B w -> few A -> few B -> AttWf w -> page_span start end_ -> outer_locks from_mmu (held w) ->
  segs w !! s = Some g ->
  wp (xpmem_clear_PTEs_range s start end_ from_mmu) (fun _ w' =>
    invalidated w w' /\ Inv T S A B w' /\
    forall a, a ∈ seg_ap_list g -> ap_cleared start end_ from_mmu a w w') w.
Proof. intros. by apply (clear_range_by_ok any_page). Qed.

(** A segment made of whole pages that does not wrap around. *)
Definition seg_wf (g : xpmem_segment) : Prop :=
  0 <= seg_vaddr g /\ 0 <= seg_size g /\ seg_vaddr g + seg_size g < 2 ^ 64 /\
  offset_in_page (seg_vaddr g) = 0 /\ offset_in_page (seg_size g) = 0.

(** The pages shown by attachments of the permits of a segment, as addresses of the segment. *)
Definition page_of_seg (g : xpmem_segment) (a : positive) (src : Z) : Prop :=
  a ∈ seg_ap_list g /\ seg_vaddr g <= src < seg_vaddr g + seg_size g.

Lemma clear_PTEs_by_ok T S A B w s g :
  Inv T S A B w -> few A -> few B -> AttWf w -> seg_wf g -> outer_locks false (held w) ->
  segs w !! s = Some g ->
  wp (xpmem_clear_PTEs s) (fun _ w' => invalidated_by (page_of_seg g) w w' /\ Inv T S A B w' /\
    forall a, a ∈ seg_ap_list g -> ap_cleared (seg_vaddr g) (seg_vaddr g + seg_size g) false a w w') w.
Proof.
  intros HI HA HB Hwf (S1 & S2 & S3 & S4 & S5) HL Eg. apply wp_bind. eapply wp_load; [done|].
  rewrite u64_id by lia. eapply clear_range_by_ok; try done. split; [lia|]. split; [done|].
  split; [done|]. by apply offset_add.
Qed.

Lemma clear_PTEs_ok T S A B w s g :
  Inv T S A B w -> few A -> few B -> AttWf w -> seg_wf g -> outer_locks false (held w) ->
  segs w !! s = Some g ->
  wp (xpmem_clear_PTEs s) (fun _ w' => invalidated w w' /\ Inv T S A B w' /\
    forall a, a ∈ seg_ap_list g -> ap_cleared (seg_vaddr g) (seg_vaddr g + seg_size g) false a w w') w.
Proof.
  intros. eapply wp_mono; [by eapply clear_PTEs_by_ok|]. intros _ w' [H' ?]. split; [by eapply any_invalidated|done].
Qed.

(** The window that an attachment shows of a range of its source is the intersection of the
    two, translated to the addresses of the attachment; it is empty exactly when the two do not
    meet. *)
Theorem invalidate_window_exact t start end_ :
  att_in_space t -> 0 <= start <= end_ -> end_ < 2 ^ 64 ->
  match invalidate_window t start end_ with
  | None => forall a, att_vaddr t <= a < att_vaddr t + at_size t -> start <= a < end_ -> False
  | Some (at_, len, off) =>
      at_ = at_vaddr t + off /\ 0 <= off /\ 0 <= len /\ off + len <= at_size t /\
      forall a, (att_vaddr t + off <= a < att_vaddr t + off + len)
        <-> (att_vaddr t <= a < att_vaddr t + at_size t /\ start <= a < end_)
  end.
Proof. by apply invalidate_window_ok. Qed.

(** C8: [xpmem_clear_PTEs] terminates and does not fault, and when it returns no attachment of
    any permit of the segment shows a page of the segment any more: nothing is mapped at the
    addresses of its window, and an attachment that lies in the segment is marked as having no
    pages. The pages it took away were mapped by attachments of the segment's permits, as
    addresses of the segment; every one of them gave back one reference, which the counts of the
    page, of the thread group that owns the segment and of the module show (modulo their width);
    every other page stays mapped and counted as it was, and every object, list and lock is as it
    was. *)
Theorem clear_PTEs_complete T S A B w s g :
  Inv T S A B w -> few A -> few B -> AttWf w -> seg_wf g -> outer_locks false (held w) ->
  segs w !! s = Some g ->
  exists w', xpmem_clear_PTEs s w = Ok () w' /\ invalidated_by (page_of_seg g) w w' /\ Inv T S A B w' /\ AttWf w' /\
    forall a x t y y', a ∈ seg_ap_list g -> aps w !! a = Some x -> t ∈ ap_att_list x ->
      atts w !! t = Some y -> atts w' !! t = Some y' ->
      (covered y (seg_vaddr g) (seg_vaddr g + seg_size g) false -> valid_PTEs y' = false) /\
      (att_live y -> hidden (pgt w') y (seg_vaddr g) (seg_vaddr g + seg_size g)).
Proof.
  intros HI HA HB Hwf Hg HL Eg.
  destruct (wp_inv _ _ _ (clear_PTEs_by_ok T S A B w s g HI HA HB Hwf Hg HL Eg)) as ([] & w' & E & H1 & H2 & H3).
  exists w'. split; [done|]. split; [done|]. split; [done|]. split; [by eapply AttWf_invalidated|].
  intros a x t y y' Ha Ex Ht Ey Ey'. by apply (H3 a Ha x t Ex Ht).
Qed.
End clear.
