(* ===== verification/Chain.v ===== *)
(** From an attachment to its permit, the thread group that holds it, the segment and the
    thread group that shares it: in a consistent state all of them are there as
    long as the attachment is in the list of its permit. *)

From S2P Require Import Prelude Kernel World Monad Ids Misc Inv Graph Link Refs Lookup Invalidated ClearSpec.

Section chain.
Context `{K : Kernel}.
Implicit Types (T S A B : gmultiset positive) (w : world).

(** A permit in use: [x] of the thread group [p], for the segment [g] of [st]. *)
Record permit w (a : positive) (x : xpmem_access_permit) (p : xpmem_thread_group)
    (g : xpmem_segment) (st : xpmem_thread_group) : Prop := {
  ch_ap : aps w !! a = Some x;
  ch_tg : tgs w !! ap_tg x = Some p;
  ch_seg : segs w !! ap_seg x = Some g;
  ch_stg : tgs w !! seg_tg g = Some st;
  ch_hashed : a ∈ hashed_aps p;
  ch_linked : a ∈ seg_ap_list g;
  ch_tg_hashed : ap_tg x ∈ mjoin (hash_of w);
}.

Lemma permit_of T S A B w a x :
  Inv T S A B w -> aps w !! a = Some x -> a ∈ list_of hashed_aps (tgs w) (ap_tg x) ->
  exists p g st, permit w a x p g st.
Proof.
  intros HI Ex Hh. pose proof (ap_all (inv_ap HI) a x Ex) as Hok.
  destruct (elem_of_list_of _ _ _ _ Hh) as (p & Ep & Hp).
  destruct (elem_of_list_of _ _ _ _ (ap_linked Hok Hh)) as (g & Eg & Hg).
  destruct (linked_permit _ _ _ _ _ _ _ _ HI Eg Hg) as (_ & st & Est).
  exists p, g, st. split; try done. destruct (decide (ap_tg x ∈ mjoin (hash_of w))) as [|Hn]; [done|].
  pose proof (tg_all (inv_tg HI) _ _ Ep) as Hpo.
  destruct (tg_destroyed Hpo (tg_unhashed Hpo Hn)) as (_ & _ & E).
  unfold hashed_aps in Hp. rewrite E in Hp. by apply elem_of_nil in Hp.
Qed.

Lemma permit_equiv w w' a x p g st :
  w' ≡ w -> permit w a x p g st ->
  exists n1 n2 n3 n4, permit w' a (set_ap_refcnt n1 x) (set_tg_refcnt n2 p) (set_seg_refcnt n3 g) (set_tg_refcnt n4 st).
Proof.
  intros Hq [E1 E2 E3 E4 H1 H2 H3]. pose proof (symmetry Hq) as Hs.
  destruct (equiv_ap _ _ _ _ Hs E1) as [n1 F1]. destruct (equiv_tg _ _ _ _ Hs E2) as [n2 F2].
  destruct (equiv_seg _ _ _ _ Hs E3) as [n3 F3]. destruct (equiv_tg _ _ _ _ Hs E4) as [n4 F4].
  exists n1, n2, n3, n4. split; try done. unfold hash_of. by rewrite (equiv_part _ _ Hq).
Qed.

(** What the structure itself holds. *)
Lemma permit_aprefs A w a x p g st : permit w a x p g st -> (0 < aprefs A w a x)%nat.
Proof.
  intros H. unfold aprefs, ap_refs. rewrite (list_of_Some _ _ _ _ (ch_tg _ _ _ _ _ _ H)).
  rewrite (b2n_true _ (ch_hashed _ _ _ _ _ _ H)). lia.
Qed.
Lemma permit_tgrefs T w a x p g st : permit w a x p g st -> (0 < tgrefs T w (ap_tg x))%nat.
Proof. intros H. unfold tgrefs, tg_refs. rewrite (b2n_true _ (ch_tg_hashed _ _ _ _ _ _ H)). lia. Qed.
Lemma permit_segrefs S w a x p g st : permit w a x p g st -> (0 < segrefs S w (ap_seg x) g)%nat.
Proof.
  intros H. unfold segrefs, seg_refs. pose proof (ch_linked _ _ _ _ _ _ H) as Hl.
  apply list_elem_of_split in Hl as (l1 & l2 & ->). rewrite length_app. cbn. lia.
Qed.
Lemma permit_stgrefs T w a x p g st : permit w a x p g st -> (0 < tgrefs T w (seg_tg g))%nat.
Proof.
  intros H. unfold tgrefs, tg_refs.
  assert (1 <= map_sum (key_refs (seg_tg g)) (seg_key <$> segs w))%nat; [|lia].
  etransitivity; [|eapply (map_sum_ge _ _ (ap_seg x) (seg_key g)); by rewrite lookup_fmap, (ch_seg _ _ _ _ _ _ H)].
  unfold key_refs, seg_key. cbn. rewrite decide_True by done. pose proof (ch_linked _ _ _ _ _ _ H) as Hl.
  apply list_elem_of_split in Hl as (l1 & l2 & ->). rewrite length_app. cbn. lia.
Qed.

(** An attachment in the list of its permit. *)
Record chain w (t : positive) y x p g st : Prop := {
  ch_att : atts w !! t = Some y;
  ch_listed : t ∈ ap_att_list x;
  ch_permit : permit w (att_ap y) x p g st;
}.

Lemma chain_of T S A B w t y :
  Inv T S A B w -> atts w !! t = Some y -> t ∈ list_of ap_att_list (aps w) (att_ap y) ->
  exists x p g st, chain w t y x p g st.
Proof.
  intros HI Ey Hl. destruct (elem_of_list_of _ _ _ _ Hl) as (x & Ex & Hx).
  pose proof (ap_all (inv_ap HI) _ x Ex) as Hok.
  destruct (permit_of _ _ _ _ _ _ _ HI Ex) as (p & g & st & H).
  { destruct (decide (att_ap y ∈ list_of hashed_aps (tgs w) (ap_tg x))) as [|Hn]; [done|].
    destruct (ap_unlisted Hok Hn) as [_ E]. rewrite E in Hx. by apply elem_of_nil in Hx. }
  exists x, p, g, st. by split.
Qed.

(** Between calls every attachment is in the list of its permit. *)
Lemma rest_listed T S A w t y :
  Inv T S A ∅ w -> atts w !! t = Some y -> t ∈ list_of ap_att_list (aps w) (att_ap y).
Proof.
  intros HI Ey. pose proof (att_counted (att_all (inv_att HI) t y Ey)) as H.
  unfold att_refs, b2n in H. rewrite multiplicity_empty in H. case_decide; [done|lia].
Qed.

Lemma chain_equiv w w' t y x p g st :
  w' ≡ w -> chain w t y x p g st -> exists n0 n1 n2 n3 n4,
    chain w' t (set_att_refcnt n0 y) (set_ap_refcnt n1 x) (set_tg_refcnt n2 p) (set_seg_refcnt n3 g) (set_tg_refcnt n4 st).
Proof.
  intros Hq [E Hl Hp]. destruct (equiv_att _ _ _ _ (symmetry Hq) E) as [n0 F].
  destruct (permit_equiv _ _ _ _ _ _ _ Hq Hp) as (n1 & n2 & n3 & n4 & H). exists n0, n1, n2, n3, n4. by split.
Qed.

Lemma chain_attrefs B w t y x p g st : chain w t y x p g st -> (0 < attrefs B w t y)%nat.
Proof.
  intros [E Hl Hp]. unfold attrefs, att_refs. rewrite (list_of_Some _ _ _ _ (ch_ap _ _ _ _ _ _ Hp)).
  rewrite (b2n_true _ Hl). lia.
Qed.
End chain.
