(* ===== verification/PinSpec.v ===== *)
(** Pinning a page (xpmem_pfn.c) and holding a segment (xpmem_seg_down_read): what
    the page fault handler and xpmem_attach are built from. *)

From S2P Require Import Prelude Kernel World Monad Ids Misc Pfn Inv Graph Link Refs Lookup PfnSpec Invalidated ClearSpec.

(** find_vma "look[s] up the first VMA which satisfies addr < vm_end" in the tree, where no vma is
    that is being unmapped. *)
Class VmaTree `(K : Kernel) : Prop := {
  find_vma_lookup : forall tb mm a v, find_vma tb mm a = Some v ->
    exists vma, tb !! v = Some vma /\ vm_mm vma = mm /\ a < vm_end vma /\ vm_detached vma = false;
}.

Section pin.
Context `{K : Kernel} {V : VmaTree K}.
Context (HT : CONFIG_TRANSPARENT_HUGEPAGE = true).
Implicit Types (T S A B : gmultiset positive) (w : world) (cur : task).

(** * Reading a page table *)

Lemma hugetlb_pte_ok pte mm v w :
  exists r, xpmem_hugetlb_pte pte mm v w = Ok r w /\ (r.1 = None \/ r.1 = pte).
Proof.
  unfold xpmem_hugetlb_pte, mbind, M_bind, get, vma_load, load.
  destruct (find_vma (vmas w) mm v) as [p|] eqn:E; [|eexists; by split; [|left]].
  destruct (find_vma_lookup _ _ _ _ E) as (vma & -> & _). rewrite HT.
  destruct (hugetlb_page_size vma); cbn; eexists; by split; [|right].
Qed.

Lemma pte_offset_ok mm v w : exists r, xpmem_vaddr_to_pte_offset mm v w = Ok r w.
Proof.
  unfold xpmem_vaddr_to_pte_offset, mbind, M_bind, get. repeat case_match; eauto;
    edestruct hugetlb_pte_ok as (? & ? & _); eauto.
Qed.

(** The address is not in a huge page. *)
Definition base_page (pt : pgtable) (mm : positive) (v : Z) : Prop :=
  pud_is_huge pt mm v = false /\ pmd_is_huge pt mm v = false.

Lemma vaddr_to_PFN_ok mm v w :
  base_page (pgt w) mm v -> (forall pfn, mapped_pfn (pgt w) mm v = Some pfn -> 0 <= pfn < 2 ^ 64) ->
  xpmem_vaddr_to_PFN mm v w = Ok (default 0 (mapped_pfn (pgt w) mm v)) w.
Proof.
  intros [H1 H2] Hr. unfold xpmem_vaddr_to_PFN, xpmem_vaddr_to_pte_offset, mapped_pfn, walk_pte_size in *.
  unfold mbind, M_bind, get. rewrite H1, H2.
  destruct (pgd_present _ _ _), (p4d_present _ _ _), (pud_present _ _ _), (pmd_present _ _ _); cbn in *; try done.
  destruct (pte_at (pgt w) mm v) as [pfn|]; [|done]. cbn. unfold mret, M_ret. f_equal.
  rewrite Z.shiftr_0_l, Z.add_0_r. apply u64_id. by apply Hr.
Qed.

(** * Pinning *)

(** One more page, of the thread group [tg], is pinned. *)
Definition pinned (tg : positive) t pt (page : Z) (pg : pgtable) w : world :=
  set_part (Some (set_part_n_pinned (s32 (part_n_pinned pt + 1)) pt))
    (set_tgs (<[tg := set_tg_n_pinned (s32 (tg_n_pinned t + 1)) t]> (tgs w))
      (set_pages (<[page := default 0 (pages w !! page) + 1]> (pages w)) (set_pgt pg w))).

(** The vma of the source that has the address, unless it is an attachment. *)
Definition source_vma w (mm : positive) (vaddr : Z) : option vm_area_struct :=
  v ← find_vma (vmas w) mm vaddr ; vma ← vmas w !! v ;
  if (vm_start vma >? vaddr) || xpmem_is_vm_ops_set vma then None else Some vma.

Lemma source_vma_found w mm vaddr v vma :
  find_vma (vmas w) mm vaddr = Some v -> vmas w !! v = Some vma ->
  source_vma w mm vaddr = if (vm_start vma >? vaddr) || xpmem_is_vm_ops_set vma then None else Some vma.
Proof. intros E1 E2. unfold source_vma. rewrite E1. unfold mbind, option_bind. by rewrite E2. Qed.

Definition pin_spec (tg src_mm : positive) (vaddr : Z) w : (Z * Z) * world :=
  match source_vma w src_mm vaddr, tgs w !! tg, part w with
  | Some _, Some t, Some pt =>
      let '(ret, page, pg) := get_user_pages_remote (pgt w) src_mm vaddr in
      if ret =? 1 then ((0, page), pinned tg t pt page pg w) else ((ret, 0), set_pgt pg w)
  | _, _, _ => ((- ENOENT, 0), w)
  end.

Lemma pin_page_ok tg task src_mm vaddr w t pt :
  tgs w !! tg = Some t -> part w = Some pt -> cpus_mask w <> 0 ->
  xpmem_pin_page tg task src_mm vaddr 0 w = Ok (pin_spec tg src_mm vaddr w).1 (pin_spec tg src_mm vaddr w).2.
Proof.
  intros Et Ep Hc. unfold pin_spec. rewrite Et, Ep.
  unfold xpmem_pin_page, mbind at 1, M_bind at 1, get.
  destruct (find_vma (vmas w) src_mm vaddr) as [v|] eqn:Ef.
  2: { unfold source_vma. by rewrite Ef. }
  destruct (find_vma_lookup _ _ _ _ Ef) as (vma & Ev & _). rewrite (source_vma_found _ _ _ _ _ Ef Ev).
  unfold mbind at 1, M_bind at 1, vma_load, load. rewrite Ev.
  destruct (vm_start vma >? vaddr); [done|]. cbn [orb]. destruct (xpmem_is_vm_ops_set vma); [done|].
  unfold mbind at 1, M_bind at 1. destruct (pte_offset_ok src_mm vaddr w) as [pte ->].
  unfold mbind, M_bind, get, modify, whenM, page_add, tg_store, store, part_store, mret, M_ret.
  destruct (bool_decide (pte.1 = None) && on_other_node task); cbn;
    destruct (get_user_pages_remote (pgt w) src_mm vaddr) as [[ret page] pg];
    try (destruct (Z.eqb_spec (cpus_mask w) 0); [done|]); cbn;
    destruct (ret =? 1); cbn; rewrite ?Et, ?Ep; cbn; unfold pinned; destruct w; cbn in *; by subst.
Qed.

(** The pinned state in terms of the objects of the segment. *)
Lemma ensure_valid_PFN_ok seg vaddr w g t pt leader mm :
  segs w !! seg = Some g -> tgs w !! seg_tg g = Some t -> part w = Some pt -> cpus_mask w <> 0 ->
  group_leader t = Some leader -> tg_mm t = Some mm -> has (seg_flags g) XPMEM_FLAG_DESTROYING = false ->
  xpmem_ensure_valid_PFN seg vaddr 0 w
  = Ok (pin_spec (seg_tg g) mm vaddr w).1 (pin_spec (seg_tg g) mm vaddr w).2.
Proof.
  intros Eg Et Ep Hc El Em Hd. unfold xpmem_ensure_valid_PFN, mbind, M_bind, seg_load, tg_load, load.
  rewrite Eg, Hd, Et, El, Em. cbn. by eapply pin_page_ok.
Qed.
End pin.

(** * Holding a segment for reading *)

Section seg_read.
Context `{K : Kernel}.
Implicit Types (w : world).

(** No recall is in progress or waiting, and the counter does not overflow. *)
Definition quiet (t : xpmem_thread_group) : Prop :=
  - 2 ^ 31 < n_recall_PFNs t <= 0 /\ allow_recall_PFNs_wq t = 0%nat.

(** Recalls are blocked once more. *)
Definition blocked (q : positive) t w : world :=
  set_tgs (<[q := set_n_recall_PFNs (n_recall_PFNs t - 1) t]> (tgs w)) w.

Lemma block_recall_ok q t wait w :
  tgs w !! q = Some t -> quiet t -> xpmem_block_recall_PFNs RETRIES q wait w = Ok 0 (blocked q t w).
Proof.
  intros Et [Hn Hq]. cbn. unfold mbind, M_bind, tg_load, load. rewrite Et, Hq. cbn.
  replace (n_recall_PFNs t >? 0) with false by lia.
  unfold atomic_cmpxchg_recall, n_recall, mbind, M_bind, tg_load, load, tg_store, store, whenM, mret, M_ret.
  rewrite Et, Z.eqb_refl, Et, Z.eqb_refl. replace (n_recall_PFNs t <=? 0) with true by lia.
  by rewrite s32_id by lia.
Qed.

Lemma unblock_recall_ok q t w :
  tgs w !! q = Some t -> quiet t -> xpmem_unblock_recall_PFNs q (blocked q t w) = Ok () w.
Proof.
  intros Et [Hn _]. unfold xpmem_unblock_recall_PFNs, tg_store, store. cbn. rewrite lookup_insert_eq. cbn.
  rewrite s32_id, insert_insert_eq, Z.sub_add by lia.
  replace (set_n_recall_PFNs (n_recall_PFNs t) _) with t by (by destruct t).
  rewrite insert_id by done. by destruct w.
Qed.

(** The segment and its thread group are not being destroyed. *)
Definition seg_usable (g : xpmem_segment) (t : xpmem_thread_group) : bool :=
  negb (has (seg_flags g) XPMEM_FLAG_DESTROYING || has (tg_flags t) XPMEM_FLAG_DESTROYING).

Lemma seg_down_read_ok (block wait : bool) q t s g w :
  tgs w !! q = Some t -> segs w !! s = Some g -> (block = true -> quiet t) -> SegSema s ∉ held w ->
  xpmem_seg_down_read q s block wait w =
    if seg_usable g t
    then Ok 0 (set_held (SegSema s :: held w) (if block then blocked q t w else w))
    else Ok (- ENOENT) w.
Proof.
  intros Et Eg Hq Hl. unfold xpmem_seg_down_read, seg_usable.
  assert (forall w1, held w1 = held w -> segs w1 = segs w -> (exists t1, tgs w1 !! q = Some t1 /\ tg_flags t1 = tg_flags t) ->
    forall (undo : M unit), undo (set_held (held w) w1) = Ok () w ->
    (got ← trylock (SegSema s) ;
     if negb got && negb wait then undo ;; mret (- EAGAIN) else
     whenM (negb got) (down_read (SegSema s)) ;;
     s0 ← seg_load s ; t0 ← tg_load q ;
     if has (seg_flags s0) XPMEM_FLAG_DESTROYING || has (tg_flags t0) XPMEM_FLAG_DESTROYING
     then up_read (SegSema s) ;; undo ;; mret (- ENOENT) else mret 0) w1
    = if negb (has (seg_flags g) XPMEM_FLAG_DESTROYING || has (tg_flags t) XPMEM_FLAG_DESTROYING)
      then Ok 0 (set_held (SegSema s :: held w) w1) else Ok (- ENOENT) w) as H.
  { intros w1 Eh Es (t1 & Et1 & Ef) undo Hu. unfold mbind, M_bind, trylock.
    rewrite Eh, bool_decide_eq_false_2 by done. cbn.
    unfold mret, M_ret, seg_load, tg_load, load. cbn. rewrite Es, Eg. cbn. rewrite Et1, Ef.
    destruct (_ || _); [|done]. cbn [negb]. unfold up_read, release. cbn [held set_held].
    rewrite bool_decide_eq_true_2 by apply list_elem_of_here. rewrite unlink_cons_eq by done.
    change (set_held (held w) (set_held (SegSema s :: held w) w1)) with (set_held (held w) w1). by rewrite Hu. }
  unfold mbind at 1, M_bind at 1. destruct block.
  - rewrite (block_recall_ok q t) by auto. cbn [negb Z.eqb]. apply H; try done.
    + eexists. split; [apply lookup_insert_eq|done].
    + rewrite <- (unblock_recall_ok q t w) by auto. by destruct w.
  - unfold mret at 1, M_ret at 1. cbn [negb Z.eqb]. apply H; try done; [by eauto|]. by destruct w.
Qed.

Lemma seg_up_read_ok (block : bool) q t s w :
  SegSema s ∈ held w ->
  (block = true -> tgs w !! q = Some t /\ - 2 ^ 31 <= n_recall_PFNs t < 0) ->
  xpmem_seg_up_read q s block w =
    Ok () (set_held (unlink (SegSema s) (held w))
             (if block then set_tgs (<[q := set_n_recall_PFNs (n_recall_PFNs t + 1) t]> (tgs w)) w else w)).
Proof.
  intros Eh Hb. unfold xpmem_seg_up_read, mbind, M_bind, up_read, release, whenM.
  rewrite bool_decide_eq_true_2 by done.
  destruct block; [|done]. destruct Hb as [Et Hn]; [done|].
  unfold xpmem_unblock_recall_PFNs, tg_store, store. cbn. rewrite Et, s32_id by lia. done.
Qed.
End seg_read.
