(* ===== verification/FaultSpec.v ===== *)
(** The page fault handler (xpmem_attach.c): a fault of a consumer in an
    attachment pins the page of the source that the attachment shows at the
    address and maps it, or gives SIGBUS; the references and locks it takes are
    all dropped. *)

From S2P Require Import Prelude Kernel World Monad Ids Misc Pfn Attach Fault Inv Graph Link Refs Lookup.
From S2P Require Import MakeSpec PfnSpec Invalidated ClearSpec Chain PinSpec.

(** A lock is not in a list of locks. *)
Ltac not_held :=
  cbn; repeat (apply not_elem_of_cons; split; [congruence|]); apply not_elem_of_nil.

Section fault.
Context `{K : Kernel} {VT : VmaTree K}.
Context (HT : CONFIG_TRANSPARENT_HUGEPAGE = true).
Implicit Types (T S A B : gmultiset positive) (w : world) (cur : task).

(** * Specification *)

(** The address of the source that the attachment shows at [vaddr]. *)
Definition fault_addr (y : xpmem_attachment) (vaddr : Z) : Z :=
  u64 (Z.land (att_vaddr y) PAGE_MASK + u64 (vaddr - at_vaddr y)).

Definition in_att (y : xpmem_attachment) (vaddr : Z) : bool :=
  negb ((vaddr <? at_vaddr y) || (u64 (vaddr + 1) >? u64 (at_vaddr y + at_size y))).

(** The attachment, its permit, segment and thread groups may be used. *)
Definition fault_allowed (y : xpmem_attachment) (p st : xpmem_thread_group) (vaddr : Z) : bool :=
  negb (has (att_flags y) XPMEM_FLAG_DESTROYING || has (tg_flags p) XPMEM_FLAG_DESTROYING
        || has (tg_flags st) XPMEM_FLAG_DESTROYING) && in_att y vaddr.

Definition set_valid (y : xpmem_attachment) : xpmem_attachment :=
  set_att_flags (Z.lor (att_flags y) XPMEM_FLAG_VALIDPTEs) y.

Lemma set_valid_valid y : valid_PTEs (set_valid y) = true.
Proof. unfold valid_PTEs, set_valid. cbn. change XPMEM_FLAG_VALIDPTEs with (2 ^ 9). rewrite has_lor by lia. apply orb_true_r. Qed.

(** Pinning the page of the source: its pfn (0 when there is none). *)
Definition fault_pin_spec (t : positive) y (q smm : positive) (vaddr : Z) w : Z * world :=
  let r := pin_spec q smm (fault_addr y vaddr) w in
  (r.1.2, if r.1.1 =? 0 then set_atts (<[t := set_valid y]> (atts w)) r.2 else r.2).

(** Pinned for nothing: the address is mapped already. *)
Definition unpin_one (q : positive) t pt (pfn : Z) w : world :=
  set_part (Some (set_part_n_unpinned (s32 (part_n_unpinned pt + 1)) pt))
    (set_tgs (<[q := set_tg_n_pinned (s32 (tg_n_pinned t - 1)) t]> (tgs w))
      (set_pages (<[pfn := default 0 (pages w !! pfn) + -1]> (pages w)) w)).

(** Mapping the page at [vaddr]. *)
Definition fault_install_spec (mm : positive) vma (q : positive) (vaddr pfn : Z) w : Z * world :=
  if (pfn =? 0) || negb (pfn_valid pfn) then (VM_FAULT_SIGBUS, w) else
  let old := default 0 (mapped_pfn (pgt w) mm vaddr) in
  if negb (old =? 0) then
    match tgs w !! q, part w with
    | Some t, Some pt => (if old =? pfn then VM_FAULT_NOPAGE else VM_FAULT_SIGBUS, unpin_one q t pt pfn w)
    | _, _ => (VM_FAULT_SIGBUS, w)
    end
  else
    let '(ret, pg) := remap_pfn_range (pgt w) vma vaddr pfn in
    (if ret =? 0 then VM_FAULT_NOPAGE else VM_FAULT_SIGBUS, set_pgt pg w).

(** * The code *)

Lemma fault_install_ok mm v vma s g q vaddr pfn w t pt :
  vmas w !! v = Some vma -> segs w !! s = Some g -> seg_tg g = q -> tgs w !! q = Some t -> part w = Some pt ->
  base_page (pgt w) mm vaddr -> (forall pfn, mapped_pfn (pgt w) mm vaddr = Some pfn -> 0 <= pfn < 2 ^ 64) ->
  fault_install mm v s vaddr pfn w =
    Ok (fault_install_spec mm vma q vaddr pfn w).1 (fault_install_spec mm vma q vaddr pfn w).2.
Proof.
  intros Ev Eg <- Et Ep Hb Hr. unfold fault_install, fault_install_spec.
  destruct ((pfn =? 0) || negb (pfn_valid pfn)); [done|].
  unfold mbind at 1, M_bind at 1. rewrite vaddr_to_PFN_ok by done.
  destruct (default 0 _ =? 0) eqn:Eo; cbn [negb].
  - unfold mbind, M_bind, vma_load, load, get. rewrite Ev.
    destruct (remap_pfn_range (pgt w) vma vaddr pfn) as [ret pg]. done.
  - unfold mbind, M_bind, put_page, page_add, modify, seg_load, load, tg_store, store, part_store. cbn.
    rewrite Eg. cbn. rewrite Et. cbn. rewrite Ep. done.
Qed.

(** ** With the recalls blocked *)

(** The counter of the recalls of [q] is [n], and the locks are [L]. *)
Definition with_recall (q : positive) (n : Z) (L : list lock) w : world :=
  set_held L (set_tgs (alter (set_n_recall_PFNs n) q (tgs w)) w).

Lemma recall_tg q n L w p t :
  tgs w !! p = Some t -> exists m, tgs (with_recall q n L w) !! p = Some (set_n_recall_PFNs m t).
Proof.
  intros E. cbn. rewrite lookup_alter. case_decide; [subst; rewrite E; by exists n|]. rewrite E.
  exists (n_recall_PFNs t). by destruct t.
Qed.

Lemma blocked_recall q t L w :
  tgs w !! q = Some t -> set_held L (blocked q t w) = with_recall q (n_recall_PFNs t - 1) L w.
Proof.
  intros E. unfold blocked, with_recall, set_held, set_tgs. cbn. f_equal. apply map_eq. intros p.
  rewrite lookup_insert, lookup_alter. case_decide; [subst; by rewrite E|done].
Qed.

Lemma unblocked_recall q t n L w :
  tgs w !! q = Some t ->
  set_tgs (<[q := set_n_recall_PFNs (n_recall_PFNs t) (set_n_recall_PFNs n t)]> (tgs (with_recall q n L w)))
    (with_recall q n L w) = set_held L w.
Proof.
  intros E. unfold with_recall. cbn.
  replace (<[q := _]> _) with (tgs w); [by destruct w|]. apply map_eq. intros p.
  rewrite lookup_insert, lookup_alter. case_decide; [subst|done]. rewrite E. f_equal. by destruct t.
Qed.

Lemma pin_spec_recall q smm vaddr n L w :
  pin_spec q smm vaddr (with_recall q n L w)
  = ((pin_spec q smm vaddr w).1, with_recall q n L (pin_spec q smm vaddr w).2).
Proof.
  unfold pin_spec. change (source_vma (with_recall q n L w)) with (source_vma w).
  destruct (source_vma w smm vaddr); [|done]. cbn. rewrite lookup_alter_eq.
  destruct (tgs w !! q) as [t|] eqn:Et; [|done]. cbn. destruct (part w) as [pt|]; [|done].
  destruct (get_user_pages_remote (pgt w) smm vaddr) as [[ret page] pg].
  destruct (ret =? 1); [|done]. cbn. f_equal. unfold pinned, with_recall. cbn.
  rewrite alter_insert_eq. unfold set_tgs, set_part, set_held. cbn. f_equal. apply map_eq. intros p.
  rewrite !lookup_insert, lookup_alter. by case_decide.
Qed.

Lemma pin_spec_tg q smm vaddr w t :
  tgs w !! q = Some t -> exists n, tgs (pin_spec q smm vaddr w).2 !! q = Some (set_tg_n_pinned n t).
Proof.
  intros E. assert (tgs w !! q = Some (set_tg_n_pinned (tg_n_pinned t) t)) as E' by (by destruct t).
  unfold pin_spec. rewrite E. repeat case_match; cbn; eauto. rewrite lookup_insert_eq. eauto.
Qed.

Lemma pin_spec_atts q smm vaddr w : atts (pin_spec q smm vaddr w).2 = atts w.
Proof. unfold pin_spec. by repeat case_match. Qed.

Lemma fault_pin_spec_recall t y q smm vaddr n L w :
  fault_pin_spec t y q smm vaddr (with_recall q n L w)
  = ((fault_pin_spec t y q smm vaddr w).1, with_recall q n L (fault_pin_spec t y q smm vaddr w).2).
Proof.
  unfold fault_pin_spec. rewrite pin_spec_recall. cbn. by destruct (_ =? 0).
Qed.

Lemma fault_pin_spec_tg t y q smm vaddr w u :
  tgs w !! q = Some u ->
  exists n, tgs (fault_pin_spec t y q smm vaddr w).2 !! q = Some (set_tg_n_pinned n u).
Proof.
  intros E. unfold fault_pin_spec. cbn. destruct (_ =? 0); by apply pin_spec_tg.
Qed.

(** ** From the locks of the source to [out_2] *)

(** What the middle part gives: the pfn, and the state. *)
Definition fault_mid cur t y p q st (smm : positive) vaddr w : Z * world :=
  if cur_killed cur || negb (fault_allowed y p st vaddr) then (0, w) else fault_pin_spec t y q smm vaddr w.

Lemma fault_pin_ok cur mm t y tp p s g st leader smm vaddr n L w :
  atts w !! t = Some y -> tgs w !! tp = Some p -> segs w !! s = Some g -> tgs w !! seg_tg g = Some st ->
  is_Some (part w) -> cpus_mask w <> 0 -> group_leader st = Some leader -> tg_mm st = Some smm ->
  has (seg_flags g) XPMEM_FLAG_DESTROYING = false -> existsb atomic_lock L = false -> AttMutex t ∉ L ->
  let sp := fault_mid cur t y p (seg_tg g) st smm vaddr w in
  fault_pin cur mm t tp s (seg_tg g) vaddr false (with_recall (seg_tg g) n L w) =
    Ok (sp.1, negb (cur_killed cur))
      (with_recall (seg_tg g) n (if cur_killed cur then L else AttMutex t :: L) sp.2).
Proof.
  intros Ey Ep Eg Est [pt Ept] Hc El Em Hd Ha Hm. cbn.
  destruct (recall_tg (seg_tg g) n (AttMutex t :: L) w _ _ Ep) as [m1 Ep1].
  destruct (recall_tg (seg_tg g) n (AttMutex t :: L) w _ _ Est) as [m2 Est1].
  unfold fault_pin, fault_mid, mutex_lock_killable, mutex_lock, mbind, M_bind, might_sleep, acquire, mret, M_ret.
  cbn. destruct (cur_killed cur); cbn; rewrite Ha; [done|].
  rewrite bool_decide_eq_false_2 by done.
  change (set_held (AttMutex t :: held (with_recall (seg_tg g) n L w)) (with_recall (seg_tg g) n L w))
    with (with_recall (seg_tg g) n (AttMutex t :: L) w).
  set (w1 := with_recall (seg_tg g) n (AttMutex t :: L) w) in *.
  unfold att_load, tg_load, load. rewrite (Ey : atts w1 !! t = Some y), Ep1, Est1. cbn.
  unfold fault_allowed, in_att. destruct (_ || _ || _); cbn; [done|]. destruct (_ || _); cbn; [done|].
  rewrite (ensure_valid_PFN_ok HT s _ w1 g _ pt leader smm) by done.
  unfold w1. rewrite pin_spec_recall. unfold fault_pin_spec, fault_addr. cbn.
  destruct (pin_spec (seg_tg g) smm _ w) as [[e pfn] w2] eqn:E. cbn.
  destruct (e =? 0); cbn; [|done].
  unfold att_set_flag, att_store, store. cbn.
  assert (atts w2 = atts w) as Ea.
  { pose proof (pin_spec_atts (seg_tg g) smm (fault_addr y vaddr) w) as Ha2. unfold fault_addr in Ha2. by rewrite E in Ha2. }
  by rewrite Ea, Ey.
Qed.

Lemma fault_mid_tg cur t y p q st smm vaddr w u :
  tgs w !! q = Some u ->
  exists n, tgs (fault_mid cur t y p q st smm vaddr w).2 !! q = Some (set_tg_n_pinned n u).
Proof.
  intros E. unfold fault_mid. destruct (_ || _); [|by apply fault_pin_spec_tg].
  exists (tg_n_pinned u). cbn [snd]. rewrite E. by destruct u.
Qed.

(** The locks the handler holds while it installs the page. *)
Definition fault_locks (al other : bool) (mm smm t : positive) : list lock :=
  (if al then [AttMutex t] else []) ++ (if other then [MmapLock smm] else []) ++ [MmapLock mm].

Definition mid_held cur (mm smm t : positive) : list lock :=
  fault_locks (negb (cur_killed cur)) (negb (bool_decide (smm = mm))) mm smm t.

Lemma seg_held_ok cur mm t y tp p s g st leader smm vaddr w :
  atts w !! t = Some y -> tgs w !! tp = Some p -> segs w !! s = Some g -> tgs w !! seg_tg g = Some st ->
  is_Some (part w) -> cpus_mask w <> 0 -> group_leader st = Some leader -> tg_mm st = Some smm ->
  quiet st -> seg_usable g st = true ->
  let sp := fault_mid cur t y p (seg_tg g) st smm vaddr w in
  let other := negb (bool_decide (smm = mm)) in
  (dropped ← (if other then fault_lock_seg_mm mm smm else mret false) ;
   r ← fault_pin cur mm t tp s (seg_tg g) vaddr (false || dropped) ;
   xpmem_seg_up_read (seg_tg g) s true ;;
   mret (r.1, r.2, other))
    (set_held [SegSema s; MmapLock mm] (blocked (seg_tg g) st w))
  = Ok (sp.1, negb (cur_killed cur), other) (set_held (mid_held cur mm smm t) sp.2).
Proof.
  intros Ey Ep Eg Est Hpt Hc El Em [Hq _] [Hd _]%negb_true_iff%orb_false_iff. cbn zeta.
  rewrite blocked_recall by done. set (n := n_recall_PFNs st - 1).
  set (L := (if bool_decide (smm = mm) then [] else [MmapLock smm]) ++ [SegSema s; MmapLock mm]).
  transitivity ((r ← fault_pin cur mm t tp s (seg_tg g) vaddr false ;
     xpmem_seg_up_read (seg_tg g) s true ;;
     mret (r.1, r.2, negb (bool_decide (smm = mm)))) (with_recall (seg_tg g) n L w)).
  { unfold L. destruct (bool_decide (smm = mm)) eqn:Eb; [done|].
    apply bool_decide_eq_false in Eb. unfold mbind at 1, M_bind at 1. cbn [negb].
    unfold fault_lock_seg_mm, xpmem_mmap_read_lock, xpmem_mmap_read_trylock, mutex_lock, might_sleep, trylock,
      acquire, mbind at 1 2 3, M_bind at 1 2 3. cbn -[bool_decide]. destruct (mm <? smm)%positive; cbn -[bool_decide];
    by rewrite !bool_decide_eq_false_2 by not_held. }
  unfold mbind at 1, M_bind at 1.
  rewrite (fault_pin_ok cur mm t y tp p s g st leader smm); try done;
    [|unfold L; by destruct (bool_decide _)|unfold L; destruct (bool_decide _); not_held].
  set (sp := fault_mid _ _ _ _ _ _ _ _ _).
  destruct (fault_mid_tg cur t y p (seg_tg g) st smm vaddr w st Est) as [k Ek]. fold sp in Ek.
  set (u := set_tg_n_pinned k st) in *. change (n_recall_PFNs st) with (n_recall_PFNs u) in *.
  set (L' := if cur_killed cur then L else AttMutex t :: L).
  unfold mbind, M_bind. rewrite (seg_up_read_ok true (seg_tg g) (set_n_recall_PFNs n u) s).
  - unfold mret, M_ret. cbn [fst snd]. f_equal. unfold n in *. cbn [n_recall_PFNs set_n_recall_PFNs].
    rewrite Z.sub_add, (unblocked_recall _ u) by done. cbn [held set_held with_recall].
    assert (unlink (SegSema s) L' = mid_held cur mm smm t) as -> by
      (unfold L', L, mid_held, fault_locks; destruct (cur_killed cur), (bool_decide _); cbn [app negb];
       rewrite ?unlink_cons_ne by done; by rewrite unlink_cons_eq by not_held). done.
  - unfold L', L. clear. destruct (cur_killed cur), (bool_decide _); set_solver.
  - intros _. split; [|unfold n, u in *; cbn in *; lia]. cbn. by rewrite lookup_alter_eq, Ek.
Qed.

(** ** What the specification keeps *)

(** The links of the objects: all but counts and VALIDPTEs. *)
Record kept w w' : Prop := {
  kept_hash : hash_of w = hash_of w';
  kept_tgs : norm_pins <$> tgs w = norm_pins <$> tgs w';
  kept_segs : set_seg_refcnt 0 <$> segs w = set_seg_refcnt 0 <$> segs w';
  kept_aps : set_ap_refcnt 0 <$> aps w = set_ap_refcnt 0 <$> aps w';
  kept_atts : (fun y => norm_valid (set_valid y)) <$> atts w = (fun y => norm_valid (set_valid y)) <$> atts w';
  kept_vmas : vmas w = vmas w';
}.

#[local] Instance kept_trans : Transitive kept.
Proof. intros w1 w2 w3 [] []. split; congruence. Qed.

Lemma kept_equiv w w' : w ≡ w' -> kept w w'.
Proof.
  intros H. split.
  - unfold hash_of. by rewrite (equiv_part _ _ H).
  - by apply equiv_tgs.
  - by apply equiv_segs.
  - by apply equiv_aps.
  - by apply equiv_atts.
  - by apply equiv_vmas.
Qed.

Lemma kept_held L w w' : kept w w' -> kept w (set_held L w').
Proof. by intros []. Qed.

Lemma kept_pin q smm vaddr w : kept w (pin_spec q smm vaddr w).2.
Proof.
  unfold pin_spec. repeat case_match; try (by split).
  split; try done; cbn.
  - unfold hash_of. cbn. match goal with H : part w = Some _ |- _ => by rewrite H end.
  - by erewrite fmap_insert_same.
Qed.

Lemma kept_mid cur t y p q st smm vaddr w :
  atts w !! t = Some y -> kept w (fault_mid cur t y p q st smm vaddr w).2.
Proof.
  intros E. unfold fault_mid. destruct (_ || _); [by split|]. unfold fault_pin_spec. cbn.
  pose proof (kept_pin q smm (fault_addr y vaddr) w) as H. destruct (_ =? 0); [|done].
  destruct H. split; try done. cbn. erewrite fmap_insert_same; [done|done|].
  unfold set_valid. cbn. by rewrite <- Z.lor_assoc, Z.lor_diag.
Qed.

Lemma kept_install mm vma q vaddr pfn w : kept w (fault_install_spec mm vma q vaddr pfn w).2.
Proof.
  unfold fault_install_spec. repeat case_match; try (by split);
    (split; try done; cbn; [|by erewrite fmap_insert_same]);
    unfold hash_of; cbn; match goal with H : part w = Some _ |- _ => by rewrite H end.
Qed.

(** ** The specification keeps the invariant *)

Lemma Inv_mid T S A B cur t y p q st smm vaddr w :
  Inv T S A B w -> atts w !! t = Some y -> Inv T S A B (fault_mid cur t y p q st smm vaddr w).2.
Proof.
  intros HI E. unfold fault_mid. destruct (_ || _); [done|]. unfold fault_pin_spec. cbn.
  assert (Inv T S A B (pin_spec q smm (fault_addr y vaddr) w).2) as HI2.
  { unfold pin_spec. repeat case_match; try done; [|by eapply Inv_same].
    eapply Inv_part_counts; [|done|done]. eapply Inv_same; [by apply (Inv_pinned _ _ _ _ w)|done..]. }
  destruct (_ =? 0); [|done]. rewrite <- (pin_spec_atts q smm (fault_addr y vaddr) w).
  rewrite <- (pin_spec_atts q smm (fault_addr y vaddr) w) in E.
  pose proof (att_all (inv_att HI2) t y E) as Hok.
  eapply Inv_att_update; [done|done|done| |done|apply Hok|apply Hok|apply Hok].
  intros Hl. unfold set_valid. cbn. pose proof (att_unlisted Hok Hl) as Hd.
  change XPMEM_FLAG_DESTROYING with (2 ^ 6) in *. rewrite has_lor by lia. by rewrite Hd.
Qed.

Lemma Inv_install T S A B mm vma q vaddr pfn w :
  Inv T S A B w -> Inv T S A B (fault_install_spec mm vma q vaddr pfn w).2.
Proof.
  intros HI. unfold fault_install_spec. repeat case_match; try done; try (by eapply Inv_same);
    (eapply Inv_part_counts; [|done|done]; eapply Inv_same; [by apply (Inv_pinned _ _ _ _ w)|done..]).
Qed.

(** ** The specification does not see the reference counts *)

Lemma equiv_cpus_mask w w' : w ≡ w' -> cpus_mask w = cpus_mask w'.
Proof. intros [H]. exact (f_equal cpus_mask H). Qed.


Lemma equiv_pinned q t n pt page pg w w' :
  w ≡ w' -> pinned q (set_tg_refcnt n t) pt page pg w ≡ pinned q t pt page pg w'.
Proof.
  intros H. unfold pinned. rewrite (equiv_pages _ _ H). apply set_part_proper.
  apply (equiv_insert_tg (set_pages _ (set_pgt pg w)) (set_pages _ (set_pgt pg w'))); [|done].
  by rewrite H.
Qed.

Lemma equiv_unpin_one q t n pt page w w' :
  w ≡ w' -> unpin_one q (set_tg_refcnt n t) pt page w ≡ unpin_one q t pt page w'.
Proof.
  intros H. unfold unpin_one. rewrite (equiv_pages _ _ H). apply set_part_proper.
  apply (equiv_insert_tg (set_pages _ w) (set_pages _ w')); [|done]. by rewrite H.
Qed.

Lemma equiv_pin_spec q smm vaddr w w' t :
  w ≡ w' -> tgs w' !! q = Some t ->
  (pin_spec q smm vaddr w).1 = (pin_spec q smm vaddr w').1 /\
  (pin_spec q smm vaddr w).2 ≡ (pin_spec q smm vaddr w').2.
Proof.
  intros H E. destruct (equiv_tg _ _ _ _ (symmetry H) E) as [n E1]. unfold pin_spec, source_vma.
  rewrite (equiv_vmas _ _ H), (equiv_part _ _ H), (equiv_pgt _ _ H), E, E1.
  destruct (mbind (M := option) _ (find_vma _ _ _)); [|done]. destruct (part w') as [pt|]; [|done].
  destruct (get_user_pages_remote _ _ _) as [[ret page] pg].
  destruct (ret =? 1); cbn; (split; [done|]); [by apply equiv_pinned|by rewrite H].
Qed.

Lemma equiv_mid cur t y n1 p n2 q st n3 smm vaddr w w' :
  w ≡ w' -> tgs w' !! q = Some st -> atts w' !! t = Some y ->
  (fault_mid cur t (set_att_refcnt n1 y) (set_tg_refcnt n2 p) q (set_tg_refcnt n3 st) smm vaddr w).1
    = (fault_mid cur t y p q st smm vaddr w').1 /\
  (fault_mid cur t (set_att_refcnt n1 y) (set_tg_refcnt n2 p) q (set_tg_refcnt n3 st) smm vaddr w).2
    ≡ (fault_mid cur t y p q st smm vaddr w').2.
Proof.
  intros H E Ey. unfold fault_mid.
  change (fault_allowed (set_att_refcnt n1 y) (set_tg_refcnt n2 p) (set_tg_refcnt n3 st) vaddr)
    with (fault_allowed y p st vaddr). destruct (_ || _); [done|].
  unfold fault_pin_spec. change (fault_addr (set_att_refcnt n1 y)) with (fault_addr y).
  destruct (equiv_pin_spec q smm (fault_addr y vaddr) w w' st H E) as [E1 H1]. rewrite E1. split; [done|].
  cbn. destruct (_ =? 0); [|done].
  rewrite <- (pin_spec_atts q smm (fault_addr y vaddr) w), <- (pin_spec_atts q smm (fault_addr y vaddr) w').
  by apply equiv_insert_att.
Qed.

Lemma equiv_install mm vma q vaddr pfn L w w' t :
  w ≡ set_held L w' -> tgs w' !! q = Some t ->
  (fault_install_spec mm vma q vaddr pfn w).1 = (fault_install_spec mm vma q vaddr pfn w').1 /\
  (fault_install_spec mm vma q vaddr pfn w).2 ≡ set_held L (fault_install_spec mm vma q vaddr pfn w').2.
Proof.
  intros H E. destruct (equiv_tg _ _ q t (symmetry H) E) as [n E1]. unfold fault_install_spec.
  rewrite (equiv_pgt _ _ H : pgt w = pgt w'), (equiv_part _ _ H : part w = part w'), E, E1.
  destruct (_ || _); [done|]. destruct (negb _).
  - destruct (part w') as [pt|]; [|done]. split; [done|]. exact (equiv_unpin_one _ _ _ _ _ _ _ H).
  - destruct (remap_pfn_range _ _ _ _) as [ret pg]. split; [done|]. cbn. by rewrite H.
Qed.

(** ** The objects of the attachment *)

Lemma chain_kept w w' t y x p g st :
  kept w w' -> chain w t y x p g st -> exists y' n1 p' n3 st',
    chain w' t y' (set_ap_refcnt n1 x) p' (set_seg_refcnt n3 g) st' /\ att_ap y' = att_ap y.
Proof.
  intros [Hh Ht Hs Ha Hy _] [E Hl [E1 E2 E3 E4 H1 H2 H3]].
  destruct (lookup_norm _ _ _ _ _ Hy E) as (y' & F & Ey).
  destruct (lookup_norm _ _ _ _ _ Ha E1) as (x' & F1 & Ex%norm_ap).
  destruct (lookup_norm _ _ _ _ _ Ht E2) as (p' & F2 & Ep).
  destruct (lookup_norm _ _ _ _ _ Hs E3) as (g' & F3 & Eg%norm_seg).
  destruct (lookup_norm _ _ _ _ _ Ht E4) as (st' & F4 & Est).
  rewrite Ex in F1. rewrite Eg in F3. apply (f_equal att_ap) in Ey. cbn in Ey.
  apply (f_equal hashed_aps) in Ep. change (hashed_aps p = hashed_aps p') in Ep.
  exists y', (ap_refcnt x'), p', (seg_refcnt g'), st'. split; [|done]. split; [done|done|].
  rewrite <- Ey. split; try done; cbn; [by rewrite <- Ep|by rewrite <- Hh].
Qed.

(** * The handler *)

(** A fault of [cur] at [vaddr] in the vma [v] of the attachment [t]: consistent state, the
    process owns the permit, no recall waits for page faults to end, and the page tables of the
    process have no huge page at the address, before or after the source's page is faulted in. *)
Record fault_state cur mm v vma t y x p g st smm vaddr w : Prop := {
  fs_inv : Inv ∅ ∅ ∅ ∅ w;
  fs_permits : permits_ok w;
  fs_held : held w = [MmapLock mm];
  fs_mm : cur_mm cur = Some mm;
  fs_vma : vmas w !! v = Some vma;
  fs_private : vm_private_data vma = Some t;
  fs_chain : chain w t y x p g st;
  fs_owner : cur_tgid cur = tg_tgid p;
  fs_source : tg_mm st = Some smm;
  fs_recall : - 2 ^ 31 < n_recall_PFNs st /\ allow_recall_PFNs_wq st = 0%nat;
  fs_cpus : cpus_mask w <> 0;
  fs_pages : forall pg, pg = pgt w \/ pg = (get_user_pages_remote (pgt w) smm (fault_addr y vaddr)).2 ->
    base_page pg mm vaddr /\ forall pfn, mapped_pfn pg mm vaddr = Some pfn -> 0 <= pfn < 2 ^ 64;
}.

(** The same, when the permit is for reading and writing and no recall at the source is in
    progress. *)
Record fault_pre cur mm v vma t y x p g st smm vaddr w : Prop := {
  pre_inv : Inv ∅ ∅ ∅ ∅ w;
  pre_permits : permits_ok w;
  pre_held : held w = [MmapLock mm];
  pre_mm : cur_mm cur = Some mm;
  pre_vma : vmas w !! v = Some vma;
  pre_private : vm_private_data vma = Some t;
  pre_chain : chain w t y x p g st;
  pre_owner : cur_tgid cur = tg_tgid p;
  pre_mode : ap_mode x = XPMEM_RDWR;
  pre_source : tg_mm st = Some smm;
  pre_quiet : quiet st;
  pre_cpus : cpus_mask w <> 0;
  pre_pages : forall pg, pg = pgt w \/ pg = (get_user_pages_remote (pgt w) smm (fault_addr y vaddr)).2 ->
    base_page pg mm vaddr /\ forall pfn, mapped_pfn pg mm vaddr = Some pfn -> 0 <= pfn < 2 ^ 64;
}.

Lemma fault_pre_state cur mm v vma t y x p g st smm vaddr w :
  fault_pre cur mm v vma t y x p g st smm vaddr w -> fault_state cur mm v vma t y x p g st smm vaddr w.
Proof. intros []. split; try done. split; [unfold quiet in *; lia|by apply pre_quiet0]. Qed.

Definition fault_spec cur mm vma t y x p g st (smm : positive) vaddr w : Z * world :=
  if cur_dumpcore cur || has (ap_flags x) XPMEM_FLAG_DESTROYING || has (tg_flags p) XPMEM_FLAG_DESTROYING
     || negb (seg_usable g st)
  then (VM_FAULT_SIGBUS, w) else
  let r := fault_mid cur t y p (seg_tg g) st smm vaddr w in
  fault_install_spec mm vma (seg_tg g) vaddr r.1 r.2.

Lemma Inv_fault_spec cur mm vma t y x p g st smm vaddr w :
  Inv ∅ ∅ ∅ ∅ w -> atts w !! t = Some y ->
  Inv ∅ ∅ ∅ ∅ (fault_spec cur mm vma t y x p g st smm vaddr w).2.
Proof.
  intros HI E. unfold fault_spec. destruct (_ || _); [done|]. by apply Inv_install, Inv_mid.
Qed.

Lemma mid_pgt cur t y p q st smm vaddr w :
  let pg := pgt (fault_mid cur t y p q st smm vaddr w).2 in
  pg = pgt w \/ pg = (get_user_pages_remote (pgt w) smm (fault_addr y vaddr)).2.
Proof.
  cbn. unfold fault_mid. destruct (_ || _); [by left|]. unfold fault_pin_spec. cbn.
  assert (forall f, pgt (if (f : bool) then set_atts (<[t := set_valid y]> (atts w)) (pin_spec q smm (fault_addr y vaddr) w).2
    else (pin_spec q smm (fault_addr y vaddr) w).2) = pgt (pin_spec q smm (fault_addr y vaddr) w).2) as -> by (by intros []).
  unfold pin_spec. repeat case_match; try (by left); right; by destruct (get_user_pages_remote _ _ _) as [[??]?]; simplify_eq.
Qed.

Lemma held_fault_spec cur mm vma t y x p g st smm vaddr w :
  held (fault_spec cur mm vma t y x p g st smm vaddr w).2 = held w.
Proof.
  unfold fault_spec. destruct (_ || _); [done|]. unfold fault_install_spec, fault_mid, fault_pin_spec, pin_spec.
  by repeat (case_match || cbn).
Qed.

(** ** Dropping the references *)

Section drop.
Context (w : world) (t a s : positive) (y : xpmem_attachment) (x : xpmem_access_permit)
  (p : xpmem_thread_group) (g : xpmem_segment) (st : xpmem_thread_group).
Context (HC : chain w t y x p g st) (Ha : att_ap y = a) (Hs : ap_seg x = s).

Lemma drop_ap T S A B w1 :
  kept w w1 -> Inv T S (A ⊎ {[+ a +]}) B w1 ->
  wp (xpmem_ap_deref a) (fun _ w' => Inv T S A B w' /\ w' ≡ w1) w1.
Proof.
  intros Hk HI. destruct (chain_kept _ _ _ _ _ _ _ _ Hk HC) as (y' & n1 & p' & n3 & st' & [_ _ HP] & E).
  rewrite E, Ha in HP. eapply ap_deref_ok; [done|apply HP|]. by eapply permit_aprefs.
Qed.
Lemma drop_ap_tg T S A B w1 :
  kept w w1 -> Inv (T ⊎ {[+ ap_tg x +]}) S A B w1 ->
  wp (xpmem_tg_deref (ap_tg x)) (fun _ w' => Inv T S A B w' /\ w' ≡ w1) w1.
Proof.
  intros Hk HI. destruct (chain_kept _ _ _ _ _ _ _ _ Hk HC) as (y' & n1 & p' & n3 & st' & [_ _ HP] & E).
  eapply tg_deref_ok; [done|]. exact (permit_tgrefs T w1 _ _ _ _ _ HP).
Qed.
Lemma drop_seg_tg T S A B w1 :
  kept w w1 -> Inv (T ⊎ {[+ seg_tg g +]}) S A B w1 ->
  wp (xpmem_tg_deref (seg_tg g)) (fun _ w' => Inv T S A B w' /\ w' ≡ w1) w1.
Proof.
  intros Hk HI. destruct (chain_kept _ _ _ _ _ _ _ _ Hk HC) as (y' & n1 & p' & n3 & st' & [_ _ HP] & E).
  eapply tg_deref_ok; [done|]. exact (permit_stgrefs T w1 _ _ _ _ _ HP).
Qed.
Lemma drop_seg T S A B w1 :
  kept w w1 -> Inv T (S ⊎ {[+ s +]}) A B w1 ->
  wp (xpmem_seg_deref s) (fun _ w' => Inv T S A B w' /\ w' ≡ w1) w1.
Proof.
  intros Hk HI. destruct (chain_kept _ _ _ _ _ _ _ _ Hk HC) as (y' & n1 & p' & n3 & st' & [_ _ HP] & E).
  pose proof (ch_seg _ _ _ _ _ _ HP) as Es. cbn in Es. rewrite Hs in Es.
  eapply seg_deref_ok; [done|exact Es|]. rewrite <- Hs. exact (permit_segrefs S w1 _ _ _ _ _ HP).
Qed.
Lemma drop_att T S A B w1 :
  kept w w1 -> Inv T S A (B ⊎ {[+ t +]}) w1 ->
  wp (xpmem_att_deref t) (fun _ w' => Inv T S A B w' /\ w' ≡ w1) w1.
Proof.
  intros Hk HI. destruct (chain_kept _ _ _ _ _ _ _ _ Hk HC) as (y' & n1 & p' & n3 & st' & HC' & E).
  eapply att_deref_ok; [done|apply HC'|]. by eapply chain_attrefs.
Qed.
End drop.

Lemma wp_unlock l Q w : l ∈ held w -> Q () (set_held (unlink l (held w)) w) -> wp (release l) Q w.
Proof. intros H ?. unfold wp, release. by rewrite bool_decide_eq_true_2. Qed.

Lemma fault_unlock_ok {V} (k : M V) Q (al other : bool) mm smm t w :
  (other = true -> smm <> mm) -> held w = fault_locks al other mm smm t ->
  wp k Q (set_held [MmapLock mm] w) ->
  wp (whenM other (xpmem_mmap_read_unlock smm) ;; whenM al (mutex_unlock (AttMutex t)) ;; k) Q w.
Proof.
  intros Hne Hh HQ. unfold fault_locks in Hh. apply wp_bind, wp_when; intros ->; cbn in Hh.
  - specialize (Hne eq_refl). apply wp_unlock; [rewrite Hh; destruct al; set_solver|].
    rewrite Hh. apply wp_bind, wp_when; intros ->; cbn [app].
    + rewrite unlink_cons_ne, unlink_cons_eq by (done || not_held).
      apply wp_unlock; [apply list_elem_of_here|]. cbn [held set_held]. by rewrite unlink_cons_eq by not_held.
    + by rewrite unlink_cons_eq by not_held.
  - apply wp_bind, wp_when; intros ->; cbn in Hh.
    + apply wp_unlock; rewrite Hh; [apply list_elem_of_here|]. by rewrite unlink_cons_eq by not_held.
    + rewrite <- Hh in HQ. by destruct w.
Qed.

(** From [out_1] on: the rest of the references and locks are dropped. *)
Lemma fault_tail_ok (al other : bool) cur mm v vma t y x p g st smm vaddr pfn m w w1 :
  fault_state cur mm v vma t y x p g st smm vaddr w -> (other = true -> smm <> mm) ->
  kept w m -> pgt m = pgt w \/ pgt m = (get_user_pages_remote (pgt w) smm (fault_addr y vaddr)).2 ->
  Inv ({[+ ap_tg x +]} ⊎ {[+ seg_tg g +]}) {[+ ap_seg x +]} {[+ att_ap y +]} {[+ t +]} w1 ->
  w1 ≡ set_held (fault_locks al other mm smm t) m ->
  wp (xpmem_ap_deref (att_ap y) ;;
      xpmem_tg_deref (ap_tg x) ;;
      ret ← fault_install mm v (ap_seg x) vaddr pfn ;
      whenM other (xpmem_mmap_read_unlock smm) ;;
      whenM al (mutex_unlock (AttMutex t)) ;;
      xpmem_tg_deref (seg_tg g) ;;
      xpmem_seg_deref (ap_seg x) ;;
      xpmem_att_deref t ;;
      mret ret)
    (fun r w' => let sp := fault_install_spec mm vma (seg_tg g) vaddr pfn m in
       r = sp.1 /\ w' ≡ set_held [MmapLock mm] sp.2 /\ Inv ∅ ∅ ∅ ∅ w') w1.
Proof.
  intros HP Hne Hk Hpg HI1 Hq1. pose proof (fs_chain _ _ _ _ _ _ _ _ _ _ _ _ _ HP) as HC.
  assert (forall w', w' ≡ set_held (fault_locks al other mm smm t) m -> kept w w') as Hk'.
  { intros w' Hq. etransitivity; [apply (kept_held (fault_locks al other mm smm t)); exact Hk|].
    apply kept_equiv. by symmetry. }
  assert (exists u, tgs m !! seg_tg g = Some u) as [u Eu].
  { destruct (chain_kept _ _ _ _ _ _ _ _ Hk HC) as (y' & n1 & p' & n3 & st' & [_ _ HPm] & _).
    exists st'. exact (ch_stg _ _ _ _ _ _ HPm). }
  rewrite <- (gmultiset_disj_union_left_id {[+ att_ap y +]}) in HI1.
  eapply wp_seq; [eapply (drop_ap w t _ _ _ _ _ _ HC eq_refl); [by apply Hk'|exact HI1]|].
  intros _ w2 [HI2 Hq2]. rewrite Hq1 in Hq2. rewrite gmultiset_disj_union_comm in HI2.
  eapply wp_seq; [eapply (drop_ap_tg w t _ _ _ _ _ HC); [by apply Hk'|exact HI2]|].
  intros _ w3 [HI3 Hq3]. rewrite Hq2 in Hq3. clear w1 w2 HI1 HI2 Hq1 Hq2.
  destruct (equiv_install mm vma (seg_tg g) vaddr pfn _ _ _ u Hq3 Eu) as [Er Hqi].
  destruct (chain_kept _ _ _ _ _ _ _ _ (Hk' _ Hq3) HC) as (y' & n1 & p' & n3 & st' & [_ _ HP3] & _).
  destruct (inv_part HI3) as [pt Ept].
  destruct (fs_pages _ _ _ _ _ _ _ _ _ _ _ _ _ HP (pgt m) Hpg) as [Hb Hr].
  apply wp_bind. eapply wp_Ok.
  { eapply (fault_install_ok mm v vma (ap_seg x) (set_seg_refcnt n3 g) (seg_tg g) vaddr pfn w3 st' pt).
    - rewrite <- (kept_vmas _ _ (Hk' _ Hq3)). apply HP.
    - exact (ch_seg _ _ _ _ _ _ HP3).
    - done.
    - exact (ch_stg _ _ _ _ _ _ HP3).
    - exact Ept.
    - by rewrite (equiv_pgt _ _ Hq3).
    - by rewrite (equiv_pgt _ _ Hq3). }
  rewrite Er. pose proof (Inv_install _ _ _ _ mm vma (seg_tg g) vaddr pfn _ HI3) as HI4.
  set (sp := fault_install_spec mm vma (seg_tg g) vaddr pfn m) in *.
  set (w4 := (fault_install_spec mm vma (seg_tg g) vaddr pfn w3).2) in *. clearbody w4.
  assert (kept w (set_held [MmapLock mm] sp.2)) as Hk4.
  { apply kept_held. etransitivity; [exact Hk|]. apply kept_install. }
  clear w3 HI3 Hq3 HP3 Er Ept Hk'.
  apply (fault_unlock_ok _ _ al other mm smm t); [done|by rewrite (equiv_held _ _ Hqi)|].
  assert (forall w', w' ≡ set_held [MmapLock mm] w4 -> w' ≡ set_held [MmapLock mm] sp.2) as Hq5.
  { intros w' ->. exact (set_held_proper [MmapLock mm] _ _ Hqi). }
  assert (forall w', w' ≡ set_held [MmapLock mm] w4 -> kept w w') as Hk5.
  { intros w' Hq. etransitivity; [exact Hk4|]. apply kept_equiv. symmetry. by apply Hq5. }
  eapply wp_seq; [eapply (drop_seg_tg w t _ _ _ _ _ HC ∅); [by apply Hk5|]|].
  { rewrite gmultiset_disj_union_left_id. by eapply Inv_same. }
  intros _ w6 [HI6 Hq6]. rewrite <- (gmultiset_disj_union_left_id {[+ ap_seg x +]}) in HI6.
  eapply wp_seq; [eapply (drop_seg w t _ _ _ _ _ _ HC eq_refl ∅ ∅); [by apply Hk5|exact HI6]|].
  intros _ w7 [HI7 Hq7]. rewrite Hq6 in Hq7. rewrite <- (gmultiset_disj_union_left_id {[+ t +]}) in HI7.
  eapply wp_seq; [eapply (drop_att w t _ _ _ _ _ HC ∅ ∅ ∅ ∅); [by apply Hk5|exact HI7]|].
  intros _ w8 [HI8 Hq8]. rewrite Hq7 in Hq8. apply wp_ret. split; [done|]. split; [|done]. by apply Hq5.
Qed.

(** The permit or its thread group is being destroyed. *)
Lemma fault_refuse_ok t y x p g st w w1 :
  Inv ∅ ∅ ∅ ∅ w -> chain w t y x p g st -> w1 ≡ w ->
  Inv (∅ ⊎ {[+ ap_tg x +]}) ∅ (∅ ⊎ {[+ att_ap y +]}) (∅ ⊎ {[+ t +]}) w1 ->
  wp (xpmem_att_deref t ;; xpmem_ap_deref (att_ap y) ;; xpmem_tg_deref (ap_tg x) ;; mret VM_FAULT_SIGBUS)
    (fun r w' => r = VM_FAULT_SIGBUS /\ w' = w) w1.
Proof.
  intros HI HC Hq1 HI1.
  assert (forall w', w' ≡ w -> kept w w') as Hk by (intros w' Hq; apply kept_equiv; by symmetry).
  eapply wp_seq; [eapply (drop_att w t _ _ _ _ _ HC); [by apply Hk|exact HI1]|].
  intros _ w2 [HI2 Hq2]. rewrite Hq1 in Hq2.
  eapply wp_seq; [eapply (drop_ap w t _ _ _ _ _ _ HC eq_refl); [by apply Hk|exact HI2]|].
  intros _ w3 [HI3 Hq3]. rewrite Hq2 in Hq3.
  eapply wp_seq; [eapply (drop_ap_tg w t _ _ _ _ _ HC); [by apply Hk|exact HI3]|].
  intros _ w4 [HI4 Hq4]. rewrite Hq3 in Hq4. apply wp_ret. split; [done|]. by eapply Inv_equiv_eq.
Qed.

(** From [xpmem_seg_down_read] on. *)
Lemma fault_source_ok cur mm v vma t y x p g st smm vaddr w w5 :
  fault_state cur mm v vma t y x p g st smm vaddr w -> quiet st -> w5 ≡ w ->
  Inv ({[+ ap_tg x +]} ⊎ {[+ seg_tg g +]}) {[+ ap_seg x +]} {[+ att_ap y +]} {[+ t +]} w5 ->
  wp (ret ← xpmem_seg_down_read (seg_tg g) (ap_seg x) true false ;
      lk ← (if ret =? - EAGAIN then
              xpmem_mmap_read_unlock mm ;;
              ret ← xpmem_seg_down_read (seg_tg g) (ap_seg x) true true ;
              xpmem_mmap_read_lock mm ;;
              mret (ret, true)
            else mret (ret, false)) ;
      let other_mm := negb (bool_decide (smm = mm)) in
      res ← (if negb (lk.1 =? 0) then mret (0, false, false) else
               dropped ← (if other_mm then fault_lock_seg_mm mm smm else mret false) ;
               r ← fault_pin cur mm t (ap_tg x) (ap_seg x) (seg_tg g) vaddr (lk.2 || dropped) ;
               xpmem_seg_up_read (seg_tg g) (ap_seg x) true ;;
               mret (r.1, r.2, other_mm)) ;
      let '(pfn, att_locked, seg_tg_mmap_sem_locked) := res in
      xpmem_ap_deref (att_ap y) ;;
      xpmem_tg_deref (ap_tg x) ;;
      ret ← fault_install mm v (ap_seg x) vaddr pfn ;
      whenM seg_tg_mmap_sem_locked (xpmem_mmap_read_unlock smm) ;;
      whenM att_locked (mutex_unlock (AttMutex t)) ;;
      xpmem_tg_deref (seg_tg g) ;;
      xpmem_seg_deref (ap_seg x) ;;
      xpmem_att_deref t ;;
      mret ret)
    (fun r w' =>
       let m := if seg_usable g st then fault_mid cur t y p (seg_tg g) st smm vaddr w else (0, w) in
       let sp := fault_install_spec mm vma (seg_tg g) vaddr m.1 m.2 in
       r = sp.1 /\ w' ≡ set_held [MmapLock mm] sp.2 /\ Inv ∅ ∅ ∅ ∅ w') w5.
Proof.
  intros HP Hqt Hq HI5. pose proof HP as [HI Hw Hh _ _ _ HC _ Hs _ Hc _].
  destruct (chain_equiv _ _ _ _ _ _ _ _ Hq HC) as (m0 & m1 & m2 & m3 & m4 & HC5).
  pose proof HC5 as [Ey5 _ [_ Ep5 Eg5 Est5 _ _ _]]. cbn in Ep5, Eg5, Est5.
  pose proof (equiv_held _ _ Hq) as Hh5. rewrite Hh in Hh5.
  pose proof HC as [Ey _ [_ _ _ Est _ _ _]].
  destruct (tg_leader (tg_all (inv_tg HI) _ _ Est)) as [leader El].
  pose proof (seg_down_read_ok true false _ _ _ _ w5 Est5 Eg5 (fun _ => Hqt)) as Hd.
  rewrite Hh5 in Hd. change (seg_usable (set_seg_refcnt m3 g) (set_tg_refcnt m4 st)) with (seg_usable g st) in Hd.
  apply wp_bind. destruct (seg_usable g st) eqn:Eu; (eapply wp_Ok; [apply Hd; not_held|]).
  - apply wp_bind, wp_ret. cbv zeta. apply wp_bind. eapply wp_Ok.
    { eapply (seg_held_ok cur mm t _ _ _ _ _ _ leader smm vaddr w5 Ey5 Ep5 Eg5 Est5); try done; [apply HI5|].
      by rewrite (equiv_cpus_mask _ _ Hq). }
    destruct (equiv_mid cur t y m0 p m2 (seg_tg g) st m4 smm vaddr w5 w Hq Est Ey) as [Er Hqm].
    change (seg_tg (set_seg_refcnt m3 g)) with (seg_tg g). rewrite Er.
    eapply fault_tail_ok; [exact HP| |by apply kept_mid|apply mid_pgt| |].
    + intros Hb%negb_true_iff. by apply bool_decide_eq_false in Hb.
    + eapply Inv_same; [apply (Inv_mid _ _ _ _ cur t _ (set_tg_refcnt m2 p) (seg_tg g) (set_tg_refcnt m4 st) smm vaddr w5 HI5 Ey5)|done..].
    + by apply set_held_proper.
  - apply wp_bind, wp_ret. cbv zeta. apply wp_bind. cbn [negb fst Z.eqb]. apply wp_ret.
    eapply (fault_tail_ok false false cur mm v vma t y x p g st smm vaddr 0 w); try done.
    + by left.
    + rewrite Hq. cbn. rewrite <- Hh. by destruct w.
Qed.

(** While a recall is in progress the segment is not taken: a task that does not wait is sent
    away, one that waits sleeps until the recall is over, which is never when it runs alone. *)
Lemma seg_down_read_refused q t s w :
  tgs w !! q = Some t -> allow_recall_PFNs_wq t = 0%nat -> 0 < n_recall_PFNs t ->
  xpmem_seg_down_read q s true false w = Ok (- EAGAIN) w.
Proof.
  intros Et Hwq Hn. unfold xpmem_seg_down_read, RETRIES, mbind, M_bind. cbn.
  unfold mbind, M_bind, tg_load, load, mret, M_ret. rewrite Et, Hwq. cbn.
  replace (n_recall_PFNs t >? 0) with true by lia. by replace (n_recall_PFNs t <=? 0) with false by lia.
Qed.
Lemma seg_down_read_sleeps q t s w :
  tgs w !! q = Some t -> allow_recall_PFNs_wq t = 0%nat -> 0 < n_recall_PFNs t -> held w = [] ->
  xpmem_seg_down_read q s true true w = Fault Deadlock.
Proof.
  intros Et Hwq Hn Hh. unfold xpmem_seg_down_read, RETRIES, mbind, M_bind. cbn.
  unfold wait_event, n_recall, might_sleep, guardM, mbind, M_bind, tg_load, load, mret, M_ret. rewrite Et, Hwq. cbn.
  replace (n_recall_PFNs t >? 0) with true by lia. replace (n_recall_PFNs t <=? 0) with false by lia. rewrite Hh. cbn.
  rewrite Et. by replace (n_recall_PFNs t <=? 0) with false by lia.
Qed.

(** What a page fault comes to. *)
Definition fault_outcome cur mm vma t y x p g st smm vaddr w : outcome world Z :=
  let sp := fault_spec cur mm vma t y x p g st smm vaddr w in
  if cur_dumpcore cur || has (ap_flags x) XPMEM_FLAG_DESTROYING || has (tg_flags p) XPMEM_FLAG_DESTROYING
  then Ok VM_FAULT_SIGBUS w else
  if USE_DBUG_ON && negb (ap_mode x =? XPMEM_RDWR) then Fault BugOn else
  if 0 <? n_recall_PFNs st then Fault Deadlock else Ok sp.1 sp.2.

Lemma fault_handler_outcome cur mm v vma t y x p g st smm vaddr w :
  fault_state cur mm v vma t y x p g st smm vaddr w ->
  xpmem_fault_handler cur v vaddr w = fault_outcome cur mm vma t y x p g st smm vaddr w.
Proof.
  intros HP. pose proof HP as [HI Hw Hh Hmm Hv Hpr HC Ho Hs [Hn Hwq] _ _]. apply wpf_outcome.
  pose proof (Inv_fault_spec cur mm vma t y x p g st smm vaddr w HI (ch_att _ _ _ _ _ _ _ HC)) as HIs.
  pose proof (held_fault_spec cur mm vma t y x p g st smm vaddr w) as Hhs. rewrite Hh in Hhs.
  unfold xpmem_fault_handler, fault_outcome. unfold fault_spec in *. destruct (cur_dumpcore cur); [by apply wpf_wp, wp_ret|]. cbn [orb] in *.
  apply wpf_bind. eapply wp_load; [exact Hv|]. rewrite Hpr.
  eapply wpf_seq; [eapply att_ref_ok; [done|tokens|apply HC]|]. intros _ w1 [HI1 Hq1].
  destruct (chain_equiv _ _ _ _ _ _ _ _ Hq1 HC) as (n0 & ? & ? & ? & ? & HC1).
  apply wpf_bind. eapply wp_load; [apply HC1|]. cbn [att_ap set_att_refcnt].
  eapply wpf_seq; [eapply ap_ref_ok; [done|tokens|apply HC1]|]. intros _ w2 [HI2 Hq2]. rewrite Hq1 in Hq2.
  clear w1 HI1 Hq1 HC1. destruct (chain_equiv _ _ _ _ _ _ _ _ Hq2 HC) as (? & n1 & ? & ? & ? & HC2).
  apply wpf_bind. eapply wp_load; [apply HC2|]. cbn [ap_tg set_ap_refcnt].
  eapply wpf_seq; [eapply tg_ref_ok; [done|by rewrite Hq2|tokens|apply HC2]|]. intros _ w3 [HI3 Hq3]. rewrite Hq2 in Hq3.
  clear w2 HI2 Hq2 HC2. destruct (chain_equiv _ _ _ _ _ _ _ _ Hq3 HC) as (? & ? & n2 & ? & ? & HC3).
  apply wpf_bind. eapply wp_load; [apply HC3|]. cbn [ap_flags tg_flags tg_tgid ap_mode ap_seg set_ap_refcnt set_tg_refcnt].
  destruct (_ || has (tg_flags p) _).
  { apply wpf_wp. eapply wp_mono; [by eapply fault_refuse_ok|]. by intros r w' [-> ->]. }
  cbn [orb] in *.
  apply wpf_bind, wp_DBUG_ON; [rewrite Ho; by rewrite Z.eqb_refl|].
  destruct (USE_DBUG_ON && negb (ap_mode x =? XPMEM_RDWR)) eqn:Hd.
  { apply andb_true_iff in Hd as [Hd1 Hd2]. apply (wpf_fault _ _ _ BugOn); [|done].
    unfold mbind, M_bind, DBUG_ON, whenM. by rewrite Hd1, Hd2. }
  apply wpf_bind. apply wp_DBUG_ON_off; [done|].
  eapply wpf_seq; [eapply seg_ref_ok; [done|by rewrite Hq3|tokens|apply HC3]|]. intros _ w4 [HI4 Hq4]. rewrite Hq3 in Hq4.
  clear w3 HI3 Hq3 HC3. destruct (chain_equiv _ _ _ _ _ _ _ _ Hq4 HC) as (? & ? & ? & n3 & ? & HC4).
  apply wpf_bind. eapply wp_load; [apply HC4|]. cbn [seg_tg set_seg_refcnt].
  eapply wpf_seq; [eapply tg_ref_ok; [done|by rewrite Hq4|tokens|apply HC4]|]. intros _ w5 [HI5 Hq5]. rewrite Hq4 in Hq5.
  clear w4 HI4 Hq4 HC4. destruct (chain_equiv _ _ _ _ _ _ _ _ Hq5 HC) as (m0 & m1 & m2 & m3 & m4 & HC5).
  apply wpf_bind. eapply wp_load; [apply HC5|].
  rewrite Hmm. cbn [tg_mm set_tg_refcnt].
  rewrite Hs. apply wpf_bind, wp_ret, wpf_bind, wp_ret.
  rewrite !gmultiset_disj_union_left_id in HI5.
  destruct (Z.ltb_spec 0 (n_recall_PFNs st)) as [Hr|Hr].
  { apply wpf_bind. eapply wp_Ok; [eapply seg_down_read_refused; [apply HC5|done..]|].
    apply (wpf_fault _ _ _ Deadlock); [|done]. pose proof (equiv_held _ _ Hq5) as Hh5. rewrite Hh in Hh5.
    unfold mbind, M_bind, xpmem_mmap_read_unlock, release. cbn -[bool_decide xpmem_seg_down_read].
    rewrite Z.eqb_refl, Hh5, bool_decide_eq_true_2 by apply list_elem_of_here. rewrite unlink_cons_eq by not_held.
    rewrite (seg_down_read_sleeps _ (set_tg_refcnt m4 st)); try done. apply HC5. }
  apply wpf_wp. eapply wp_mono; [eapply (fault_source_ok cur mm v vma t y x p g st smm vaddr w w5); [done|by split|done..]|]. cbn zeta.
  intros r w' (-> & Hq & HI').
  assert (forall a b : Z * world, a = b -> Inv ∅ ∅ ∅ ∅ b.2 -> held b.2 = [MmapLock mm] ->
    w' ≡ set_held [MmapLock mm] a.2 -> Ok a.1 w' = Ok b.1 b.2) as Hfin.
  { intros a b -> HIb Hb Hqb. f_equal. eapply Inv_equiv_eq; [done|done|]. rewrite Hqb, <- Hb. by destruct (b.2). }
  apply Hfin; [|done| |done].
  - by destruct (seg_usable g st).
  - by rewrite Hhs.
Qed.

(** With a permit for writing and no recall in progress the handler does what [fault_spec] says. *)
Lemma fault_outcome_pre cur mm v vma t y x p g st smm vaddr w :
  fault_pre cur mm v vma t y x p g st smm vaddr w ->
  fault_outcome cur mm vma t y x p g st smm vaddr w =
    Ok (fault_spec cur mm vma t y x p g st smm vaddr w).1 (fault_spec cur mm vma t y x p g st smm vaddr w).2.
Proof.
  intros HP. destruct HP. unfold fault_outcome, fault_spec. rewrite pre_mode0. destruct pre_quiet0 as [[_ Hq] _].
  destruct (cur_dumpcore cur || _ || _); [done|]. rewrite Z.eqb_refl, andb_false_r. by destruct (Z.ltb_spec 0 (n_recall_PFNs st)); [lia|].
Qed.

Lemma fault_handler_ok cur mm v vma t y x p g st smm vaddr w :
  fault_pre cur mm v vma t y x p g st smm vaddr w ->
  wp (xpmem_fault_handler cur v vaddr) (fun r w' =>
    let sp := fault_spec cur mm vma t y x p g st smm vaddr w in r = sp.1 /\ w' = sp.2) w.
Proof.
  intros HP. unfold wp. rewrite (fault_handler_outcome cur mm v vma t y x p g st smm vaddr w) by (by apply fault_pre_state).
  by rewrite (fault_outcome_pre _ _ _ _ _ _ _ _ _ _ _ _ _ HP).
Qed.

End fault.

(** * What is shown *)

(** get_user_pages "returns struct page pointers for the pages pinned", faulted in at the
    address; remap_pfn_range maps the frame at the address, and nothing else, or fails. *)
Class MapPages `(K : Kernel) : Prop := {
  gup_maps : forall pt mm a page pg, get_user_pages_remote pt mm a = (1, page, pg) -> mapped_pfn pg mm a = Some page;
  remap_maps : forall pt vma v pfn pg mm' v', remap_pfn_range pt vma v pfn = (0, pg) ->
    mapped_pfn pg mm' v' =
      if decide (mm' = vm_mm vma /\ v' / PAGE_SIZE = v / PAGE_SIZE) then Some pfn else mapped_pfn pt mm' v';
  remap_only : forall pt vma v pfn mm' v', is_Some (mapped_pfn (remap_pfn_range pt vma v pfn).2 mm' v') ->
    is_Some (mapped_pfn pt mm' v') \/ mm' = vm_mm vma /\ v' / PAGE_SIZE = v / PAGE_SIZE;
}.

Section shown.
Context `{K : Kernel} {VT : VmaTree K} {MP : MapPages K}.
Context (HT : CONFIG_TRANSPARENT_HUGEPAGE = true).
Implicit Types (w : world) (cur : task).

Lemma page_count_add (m : gmap Z Z) pfn d q :
  default 0 (<[pfn := default 0 (m !! pfn) + d]> m !! q) = default 0 (m !! q) + if decide (q = pfn) then d else 0.
Proof. rewrite lookup_insert. repeat case_decide; subst; cbn; try done; lia. Qed.

(** Pinning succeeded: the page is the source's, and has one more reference. *)
Lemma pin_pfn q smm a w pfn :
  (pin_spec q smm a w).1.2 = pfn -> pfn <> 0 ->
  exists pg, get_user_pages_remote (pgt w) smm a = (1, pfn, pg) /\ (pin_spec q smm a w).1.1 = 0 /\
    pgt (pin_spec q smm a w).2 = pg /\
    forall z, page_count (pin_spec q smm a w).2 z = page_count w z + if decide (z = pfn) then 1 else 0.
Proof.
  unfold pin_spec, page_count. destruct (source_vma _ _ _); [|by intros <-]. destruct (tgs w !! q); [|by intros <-].
  destruct (part w); [|by intros <-]. destruct (get_user_pages_remote _ _ _) as [[ret page] pg].
  destruct (Z.eqb_spec ret 1) as [->|]; [|by intros <-]. cbn. intros <- _. exists pg.
  repeat split. intros z. apply page_count_add.
Qed.

(** Installing succeeded: the page is mapped, and keeps one pin for the mapping. *)
Lemma install_nopage mm vma q vaddr pfn m u pt :
  tgs m !! q = Some u -> part m = Some pt -> vm_mm vma = mm ->
  let sp := fault_install_spec mm vma q vaddr pfn m in
  sp.1 = VM_FAULT_NOPAGE ->
  pfn <> 0 /\ mapped_pfn (pgt sp.2) mm vaddr = Some pfn /\ atts sp.2 = atts m /\
  (forall mm' v', mapped_pfn (pgt m) mm' v' = Some pfn -> mapped_pfn (pgt sp.2) mm' v' = Some pfn) /\
  forall z, page_count sp.2 z = page_count m z + if decide (z = pfn /\ mapped_pfn (pgt m) mm vaddr = Some pfn) then -1 else 0.
Proof.
  intros Eu Ep Hmm. cbn zeta. unfold fault_install_spec, page_count. rewrite Eu, Ep.
  destruct (Z.eqb_spec pfn 0) as [|Hp]; [done|]. destruct (negb (pfn_valid pfn)); [done|]. cbn [orb].
  set (o := mapped_pfn (pgt m) mm vaddr). destruct (Z.eqb_spec (default 0 o) 0) as [Ho|Ho]; cbn [negb].
  - destruct (remap_pfn_range _ _ _ _) as [ret pg] eqn:Er. destruct (Z.eqb_spec ret 0) as [->|]; [|done].
    intros _. split; [done|]. cbn. split; [by rewrite (remap_maps _ _ _ _ _ _ _ Er), decide_True|].
    split; [done|]. split.
    + intros mm' v' E. rewrite (remap_maps _ _ _ _ _ _ _ Er), E. by case_decide.
    + intros z. rewrite decide_False; [lia|]. intros [_ E]. rewrite E in Ho. by cbn in Ho.
  - destruct (Z.eqb_spec (default 0 o) pfn) as [E|]; [|done].
    intros _. assert (o = Some pfn) as Eo by (destruct o; cbn in *; by subst). split; [done|].
    split; [exact Eo|]. split; [done|]. split; [done|]. intros z. cbn. rewrite page_count_add.
    repeat case_decide; try done; naive_solver.
Qed.

(** The result of a fault that was resolved. *)
Lemma fault_spec_nopage cur mm vma t y x p g st smm vaddr w u :
  Inv ∅ ∅ ∅ ∅ w -> atts w !! t = Some y -> tgs w !! seg_tg g = Some u -> vm_mm vma = mm ->
  let sp := fault_spec cur mm vma t y x p g st smm vaddr w in
  sp.1 = VM_FAULT_NOPAGE -> exists pfn,
    mapped_pfn (pgt sp.2) mm vaddr = Some pfn /\
    mapped_pfn (pgt sp.2) smm (fault_addr y vaddr) = Some pfn /\
    (exists y', atts sp.2 !! t = Some y' /\ valid_PTEs y' = true) /\
    forall z, page_count sp.2 z = page_count w z +
      if decide (z = pfn /\ mapped_pfn (get_user_pages_remote (pgt w) smm (fault_addr y vaddr)).2 mm vaddr <> Some pfn)
      then 1 else 0.
Proof.
  intros HI Ey Eu Hmm. cbn zeta. unfold fault_spec. destruct (_ || _); [done|].
  intros Hr. set (q := seg_tg g) in *. set (m := fault_mid cur t y p q st smm vaddr w) in *.
  assert (exists u', tgs m.2 !! q = Some u') as [u' Eu'] by (edestruct fault_mid_tg as [n ?]; eauto).
  assert (exists pt', part m.2 = Some pt') as [pt' Ept'] by (by apply (inv_part (Inv_mid _ _ _ _ cur t y p q st smm vaddr w HI Ey))).
  destruct (install_nopage mm vma q vaddr m.1 m.2 u' pt' Eu' Ept' Hmm Hr) as (Hp & Hm & Ha & Hk & Hc).
  exists m.1. split; [done|]. set (sp := fault_install_spec mm vma q vaddr m.1 m.2) in *. clearbody sp.
  revert Hp Hm Ha Hk Hc. unfold m, fault_mid. destruct (_ || _); [done|].
  unfold fault_pin_spec. cbn [fst snd]. set (a := fault_addr y vaddr). intros Hp.
  destruct (pin_pfn q smm a w _ eq_refl Hp) as (pg & Eg & Er & Epg & Hc').
  rewrite Er. cbn. rewrite Epg, Eg. intros Hm Ha Hk Hc. split; [|split].
  - apply Hk. by eapply gup_maps.
  - exists (set_valid y). rewrite Ha, lookup_insert_eq. split; [done|].
    apply set_valid_valid.
  - intros z. rewrite Hc. unfold page_count in *. cbn. rewrite Hc'. repeat case_decide; try lia; naive_solver.
Qed.

(** C10: a fault that the handler resolves leaves the page of the source that the attachment shows
    at the address mapped there, marks the attachment as having valid ptes, and takes one
    reference on the page, none if the page was mapped there already; no other page's count
    changes. *)
Theorem fault_maps_source_page cur mm v vma t y x p g st smm vaddr w w' :
  fault_pre cur mm v vma t y x p g st smm vaddr w -> vm_mm vma = mm ->
  xpmem_fault_handler cur v vaddr w = Ok VM_FAULT_NOPAGE w' -> exists pfn,
    mapped_pfn (pgt w') mm vaddr = Some pfn /\
    mapped_pfn (pgt w') smm (fault_addr y vaddr) = Some pfn /\
    (exists y', atts w' !! t = Some y' /\ valid_PTEs y' = true) /\
    forall z, page_count w' z = page_count w z +
      if decide (z = pfn /\ mapped_pfn (get_user_pages_remote (pgt w) smm (fault_addr y vaddr)).2 mm vaddr <> Some pfn)
      then 1 else 0.
Proof.
  intros HP Hmm E. destruct (wp_inv _ _ _ (fault_handler_ok HT cur mm v vma t y x p g st smm vaddr w HP)) as (r & w1 & E1 & -> & ->).
  rewrite E in E1. injection E1 as Er ->. pose proof HP as [HI _ _ _ _ _ HC _ _ _ _ _ _].
  exact (fault_spec_nopage cur mm vma t y x p g st smm vaddr w st HI (ch_att _ _ _ _ _ _ _ HC)
           (ch_stg _ _ _ _ _ _ (ch_permit _ _ _ _ _ _ _ HC)) Hmm (eq_sym Er)).
Qed.

(** C35: when remap_pfn_range fails for a page that was pinned, the process gets SIGBUS, nothing
    is mapped at the address, and the reference on the page is not given back. *)
Theorem fault_remap_failure_keeps_pin cur mm v vma t y x p g st smm vaddr w ret pfn pg pg' :
  fault_pre cur mm v vma t y x p g st smm vaddr w ->
  cur_dumpcore cur = false -> cur_killed cur = false ->
  has (ap_flags x) XPMEM_FLAG_DESTROYING = false -> seg_usable g st = true -> fault_allowed y p st vaddr = true ->
  is_Some (source_vma w smm (fault_addr y vaddr)) ->
  get_user_pages_remote (pgt w) smm (fault_addr y vaddr) = (1, pfn, pg) -> pfn <> 0 -> pfn_valid pfn = true ->
  mapped_pfn pg mm vaddr = None -> remap_pfn_range pg vma vaddr pfn = (ret, pg') -> ret <> 0 ->
  exists w', xpmem_fault_handler cur v vaddr w = Ok VM_FAULT_SIGBUS w' /\ pgt w' = pg' /\
    forall z, page_count w' z = page_count w z + if decide (z = pfn) then 1 else 0.
Proof.
  intros HP Hd Hk Ha Hu Hf [vma' Ev] Eg Hp Hv Hn Er Hret.
  destruct (wp_inv _ _ _ (fault_handler_ok HT cur mm v vma t y x p g st smm vaddr w HP)) as (r & w1 & E1 & -> & ->).
  pose proof HP as [HI _ _ _ _ _ HC _ _ _ _ _ _]. destruct (inv_part HI) as [pt Ept].
  pose proof (ch_stg _ _ _ _ _ _ (ch_permit _ _ _ _ _ _ _ HC)) as Est.
  eexists. rewrite E1. unfold fault_spec, fault_mid, fault_pin_spec, pin_spec.
  assert (has (tg_flags p) XPMEM_FLAG_DESTROYING = false) as Hdp.
  { apply andb_true_iff in Hf as [Hf%negb_true_iff _]. apply orb_false_iff in Hf as [Hf _].
    by apply orb_false_iff in Hf as [_ Hf]. }
  rewrite Hd, Hk, Ha, Hdp, Hu, Hf, Ev, Est, Ept, Eg. cbn. unfold fault_install_spec. cbn.
  rewrite (proj2 (Z.eqb_neq pfn 0) Hp), Hv, Hn. cbn. rewrite Er. cbn.
  rewrite (proj2 (Z.eqb_neq ret 0) Hret). split; [done|]. split; [done|]. intros z. unfold page_count. cbn. apply page_count_add.
Qed.
End shown.
