(* ===== verification/DetachSpec.v ===== *)
(** Detaching (xpmem_attach.c): [xpmem_detach] and [xpmem_detach_att] drop one
    reference on every page the attachment maps, unmap it and free it. *)

From S2P Require Import Prelude Kernel World Monad Ids Misc Pfn Attach Inv Graph Link Refs Lookup.
From S2P Require Import MakeSpec PfnSpec Invalidated ClearSpec Chain PinSpec FaultSpec.

(** * The kernel's side *)

(** What the vma tree is ordered by. *)
Definition vm_extent (v : vm_area_struct) : positive * Z * Z * bool := (vm_mm v, vm_start v, vm_end v, vm_detached v).

(** The vma is in the tree of its address space, and no other one there meets it. *)
Definition sole_vma (tb : vma_table) (v : positive) (vma : vm_area_struct) : Prop :=
  tb !! v = Some vma /\ vm_detached vma = false /\ vm_start vma < vm_end vma /\
  forall v' vma', tb !! v' = Some vma' -> vm_mm vma' = vm_mm vma -> vm_detached vma' = false ->
    vm_start vma' < vm_end vma -> vm_start vma < vm_end vma' -> v' = v.

(** The vmas of an address space are not empty and do not meet. *)
Record vmas_apart (tb : vma_table) : Prop := {
  apart_nonempty : forall v u, tb !! v = Some u -> vm_detached u = false -> vm_start u < vm_end u;
  apart_disjoint : forall v u v' u', tb !! v = Some u -> tb !! v' = Some u' -> vm_mm u = vm_mm u' ->
    vm_detached u = false -> vm_detached u' = false -> vm_start u' < vm_end u -> vm_start u < vm_end u' -> v = v';
}.

Lemma vmas_apart_extent tb tb' :
  (forall v u', tb' !! v = Some u' -> exists u, tb !! v = Some u /\ vm_extent u = vm_extent u') -> vmas_apart tb -> vmas_apart tb'.
Proof.
  intros H [H1 H2]. split.
  - intros v u' E Hd. destruct (H v u' E) as (u & Eu & [= X1 X2 X3 X4]). specialize (H1 v u Eu). rewrite X4 in H1. specialize (H1 Hd). lia.
  - intros v u' v' z' E E' Hm Hd Hd' Hi Hi'. destruct (H v u' E) as (u & Eu & [= X1 X2 X3 X4]).
    destruct (H v' z' E') as (z & Ez & [= Y1 Y2 Y3 Y4]). apply (H2 v u v' z); congruence || lia.
Qed.

(** find_vma looks at addresses only; munmap of exactly one mapping takes it out of the
    tree, splitting nothing, closes it, and takes its pages out of the page tables. *)
Class UnmapVma `(K : Kernel) : Prop := {
  find_vma_extent : forall tb tb' mm a, vm_extent <$> tb = vm_extent <$> tb' -> find_vma tb mm a = find_vma tb' mm a;
  find_vma_delete : forall tb mm a u v, find_vma tb mm a = Some u -> u <> v -> find_vma (delete v tb) mm a = Some u;
  munmap_one : forall tb v vma, sole_vma tb v vma ->
    vm_munmap tb (vm_mm vma) (vm_start vma) (vm_end vma - vm_start vma)
      = inr (mk_munmap [] [v] (<[v := set_vm_detached vma]> tb));
  unmap_unmaps : forall pt mm a len v, a <= v < a + len -> mapped_pfn (unmap_ptes pt mm a len) mm v = None;
  unmap_maps_nothing : forall pt mm a len mm' v,
    mapped_pfn pt mm' v = None -> mapped_pfn (unmap_ptes pt mm a len) mm' v = None;
}.

Section detach.
Context `{K : Kernel} {G : KernelGeometry K} {PT : PageTables K} {VT : VmaTree K} {UV : UnmapVma K}.
Context (HG : PGDIR_SHIFT <= PAGE_SHIFT + 31).
Implicit Types (T S A B : gmultiset positive) (w : world) (cur : task).

(** * Specification *)

(** The vma of an attachment is its own, from end to end. *)
Record attached w (t : positive) (y : xpmem_attachment) (mm v : positive) (vma : vm_area_struct) : Prop := {
  atd_shown : shown_by w y mm v vma;
  atd_wf : att_wf w y;
  atd_sole : sole_vma (vmas w) v vma;
  atd_ops : vm_ops vma = xpmem_vm_ops;
  atd_data : vm_private_data vma = Some t;
  atd_range : vm_start vma = at_vaddr y /\ vm_end vma = at_vaddr y + at_size y;
}.

(** The attachment is off the list of its permit, its pages have one reference less,
    and its vma has forgotten it. *)
Definition forgotten (mm t : positive) y (x : xpmem_access_permit) (g : xpmem_segment) st pt (v : positive) vma w : world :=
  set_aps (<[att_ap y := set_ap_att_list (unlink t (ap_att_list x)) x]> (aps w))
    (set_atts (<[t := set_att_flags (clear (att_flags y) XPMEM_FLAG_VALIDPTEs) y]> (atts w))
      (set_vmas (<[v := set_vm_private_data None vma]> (vmas w))
        (unpinned (seg_tg g) mm (at_vaddr y) (at_size y) st pt w))).

Definition unmapped_vma (mm v : positive) (start len : Z) w : world :=
  set_pgt (unmap_ptes (pgt w) mm start len) (set_vmas (delete v (vmas w)) w).

(** * Steps *)

Lemma att_range w y : att_wf w y -> page_range (at_vaddr y) (at_size y).
Proof.
  intros [_ (H1 & H2 & H3 & H4 & H5) (A1 & A2 & A3) Hp]. split; try done; lia.
Qed.

(** The common part of both functions: with the attachment marked as being destroyed, up to the
    release of the two locks. *)
Lemma forget_ok {V} T S A B w mm t y x p g st pt v vma L (k : M V) Q :
  Inv T S A B w -> chain w t y x p g st -> part w = Some pt -> att_wf w y ->
  has (att_flags y) XPMEM_FLAG_DESTROYING = true -> vmas w !! v = Some vma ->
  held w = AttMutex t :: MmapLock mm :: L -> AttMutex t ∉ L -> MmapLock mm ∉ L -> ApLock (att_ap y) ∉ L ->
  (forall w', w' = set_held L (forgotten mm t y x g st pt v vma w) -> Inv T S A (B ⊎ {[+ t +]}) w' -> wp k Q w') ->
  wp (xpmem_unpin_pages (ap_seg x) mm (at_vaddr y) (at_size y) ;;
      vma_store v (set_vm_private_data None) ;;
      att_clear_flag t XPMEM_FLAG_VALIDPTEs ;;
      att_list_del (att_ap y) t ;;
      mutex_unlock (AttMutex t) ;;
      xpmem_mmap_write_unlock mm ;; k) Q w.
Proof.
  intros HI [Ey Hl [Ex Ep Eg Est Hh Hk Hth]] Epart Hwf Hd Ev Hheld L1 L2 L3 HQ.
  apply wp_bind. eapply wp_Ok; [by eapply unpin_pages_ok; [|eapply att_range|..]|].
  apply wp_bind. eapply wp_store; [done|]. apply wp_bind. eapply wp_store; [done|].
  apply wp_bind. unfold att_list_del. apply wp_bind, wp_acquire; [cbn; rewrite Hheld; cbn|].
  { apply not_elem_of_cons. split; [done|]. apply not_elem_of_cons. by split. }
  apply wp_bind. eapply wp_store; [done|].
  eapply (wp_release _ (AttMutex t :: MmapLock mm :: L)); [cbn; by rewrite Hheld| |].
  { apply not_elem_of_cons. split; [done|]. apply not_elem_of_cons. by split. }
  apply wp_bind. eapply (wp_release _ (MmapLock mm :: L)); [done|by apply not_elem_of_cons|].
  apply wp_bind. eapply (wp_release _ L); [done|done|]. cbn. apply HQ; [done|].
  set (w0 := set_vmas (<[v := set_vm_private_data None vma]> (vmas w))
    (unpinned (seg_tg g) mm (at_vaddr y) (at_size y) st pt w)).
  assert (Inv T S A B w0) as HI0 by (eapply Inv_same; [by apply Inv_unpinned|done..]).
  set (y' := set_att_flags (clear (att_flags y) XPMEM_FLAG_VALIDPTEs) y).
  assert (has (att_flags y') XPMEM_FLAG_DESTROYING = true) as Hd'
    by (cbn; change XPMEM_FLAG_DESTROYING with (2 ^ 6) in *; by rewrite has_clear, Hd by lia).
  pose proof (att_all (inv_att HI) t y Ey) as Hok.
  assert (Inv T S A B (set_atts (<[t := y']> (atts w0)) w0)) as HI1
    by (eapply (Inv_att_update T S A B B w0 t y); try apply Hok; done).
  eapply Inv_same; [eapply (Inv_att_unlink _ _ _ _ _ (att_ap y) x t y' HI1); try done|done..].
  cbn. apply lookup_insert_eq.
Qed.

(** munmap of the vma that has forgotten its attachment. *)
Lemma munmap_ok cur w v vma :
  cur_mm cur = Some (vm_mm vma) -> sole_vma (vmas w) v vma -> vm_private_data vma = None ->
  MmapLock (vm_mm vma) ∉ held w -> existsb atomic_lock (held w) = false ->
  do_vm_munmap cur (vm_start vma) (vm_end vma - vm_start vma) w
    = Ok 0 (unmapped_vma (vm_mm vma) v (vm_start vma) (vm_end vma - vm_start vma) w).
Proof.
  intros Em Hs Hp Hl Ha. unfold do_vm_munmap. rewrite Em.
  enough (wp (do_vm_munmap cur (vm_start vma) (vm_end vma - vm_start vma)) (fun r w' => r = 0 /\
    w' = unmapped_vma (vm_mm vma) v (vm_start vma) (vm_end vma - vm_start vma) w) w) as H.
  { destruct (wp_inv _ _ _ H) as (r & w' & E & -> & ->). unfold do_vm_munmap in E. by rewrite Em in E. }
  unfold do_vm_munmap. rewrite Em. apply wp_bind, wp_ret. apply wp_bind, wp_mutex_lock; [done|done|].
  apply wp_bind, wp_get. cbn. rewrite (munmap_one _ _ _ Hs). apply wp_bind, wp_modify. apply wp_bind, wp_ret. apply wp_bind, wp_modify.
  cbn. apply wp_bind, wp_bind. eapply wp_load; [cbn; apply lookup_insert_eq|]. apply wp_bind.
  eapply (wp_mono _ (fun _ w' => w' = set_pgt (unmap_ptes (pgt w) (vm_mm vma) (vm_start vma) (vm_end vma - vm_start vma))
    (set_vmas (<[v := set_vm_detached vma]> (vmas w)) (set_held (MmapLock (vm_mm vma) :: held w) w)))).
  { apply wp_when; [|done]. intros _. apply wp_bind. eapply wp_load; [cbn; apply lookup_insert_eq|].
    cbn. rewrite Hp. by apply wp_ret. }
  intros _ w' ->. apply wp_bind. eapply wp_kfree; [cbn; apply lookup_insert_eq|]. apply wp_ret. cbn.
  apply wp_bind. eapply wp_release; [done|done|]. apply wp_ret. split; [done|].
  unfold unmapped_vma. rewrite delete_insert_eq. by destruct w.
Qed.

(** ** Marking an attachment *)

Definition marked (y : xpmem_attachment) : xpmem_attachment :=
  set_att_flags (Z.lor (att_flags y) XPMEM_FLAG_DESTROYING) y.

Lemma marked_destroying y : has (att_flags (marked y)) XPMEM_FLAG_DESTROYING = true.
Proof. cbn. change XPMEM_FLAG_DESTROYING with (2 ^ 6). rewrite has_lor by lia. by rewrite orb_true_r. Qed.

Lemma Inv_marked T S A B w t y :
  Inv T S A B w -> atts w !! t = Some y -> Inv T S A B (set_atts (<[t := marked y]> (atts w)) w).
Proof.
  intros HI Ey. pose proof (att_all (inv_att HI) t y Ey) as Hok.
  eapply (Inv_att_update T S A B B w t y); try apply Hok; try done. intros _. apply marked_destroying.
Qed.

Lemma chain_marked w t y x p g st L :
  chain w t y x p g st ->
  chain (set_held L (set_atts (<[t := marked y]> (atts w)) w)) t (marked y) x p g st.
Proof. intros [Ey Hl [P1 P2 P3 P4 P5 P6 P7]]. split; [apply lookup_insert_eq|done|by split]. Qed.

Lemma chain_held w t y x p g st L : chain w t y x p g st -> chain (set_held L w) t y x p g st.
Proof. intros [Ey Hl [P1 P2 P3 P4 P5 P6 P7]]. split; [done|done|by split]. Qed.

Lemma att_wf_marked w w' y : vmas w' = vmas w -> att_wf w y -> att_wf w' (marked y).
Proof.
  intros E [(mm & v & vma & [V1 V2 V3 V4 V5 V6 V7]) H2 H3 H4].
  split; [|done..]. exists mm, v, vma. split; cbn; by rewrite ?E.
Qed.

Lemma forgotten_marked mm t y x g st pt v vma L L' w :
  set_held L' (forgotten mm t (marked y) x g st pt v vma (set_held L (set_atts (<[t := marked y]> (atts w)) w)))
  = set_held L' (forgotten mm t (marked y) x g st pt v vma w).
Proof. unfold forgotten, unpinned, set_held. cbn. by rewrite insert_insert_eq. Qed.

(** The vma after the attachment was forgotten. *)
Lemma sole_forgotten tb v vma d :
  sole_vma tb v vma -> sole_vma (<[v := set_vm_private_data d vma]> tb) v (set_vm_private_data d vma).
Proof.
  intros (E & Hd & Hs & Hu). split; [apply lookup_insert_eq|]. split; [done|]. split; [done|].
  intros v' vma'. rewrite lookup_insert. case_decide; [done|]. by apply Hu.
Qed.

(** ** Up to reference counts *)

Lemma unpinned_equiv q mm a len st n pt w w' :
  w' ≡ w -> unpinned q mm a len (set_tg_refcnt n st) pt w' ≡ unpinned q mm a len st pt w.
Proof.
  intros H. unfold unpinned. rewrite (equiv_pgt _ _ H), (equiv_pages _ _ H). apply set_part_proper.
  by apply (equiv_insert_tg (set_pages _ w') (set_pages _ w)); [apply set_pages_proper|].
Qed.

Lemma forgotten_equiv mm t y x g st pt v vma n1 n2 n3 n4 w w' :
  w' ≡ w -> forgotten mm t (set_att_refcnt n1 y) (set_ap_refcnt n2 x) (set_seg_refcnt n3 g) (set_tg_refcnt n4 st) pt v vma w'
    ≡ forgotten mm t y x g st pt v vma w.
Proof.
  intros H. unfold forgotten. cbn. rewrite (equiv_vmas _ _ H).
  set (u := set_vmas _ (unpinned _ _ _ _ _ _ w')). set (u0 := set_vmas _ (unpinned _ _ _ _ _ _ w)).
  assert (u ≡ u0) as Hu by (apply set_vmas_proper; by apply unpinned_equiv).
  apply (equiv_insert_ap (set_atts _ u) (set_atts _ u0)); [|done]. by apply (equiv_insert_att u u0).
Qed.

Lemma unmapped_vma_equiv mm v a len w w' : w' ≡ w -> unmapped_vma mm v a len w' ≡ unmapped_vma mm v a len w.
Proof.
  intros H. unfold unmapped_vma. rewrite (equiv_pgt _ _ H), (equiv_vmas _ _ H).
  by apply set_pgt_proper, set_vmas_proper.
Qed.

Lemma equiv_delete_att t w w' : w' ≡ w -> set_atts (delete t (atts w')) w' ≡ set_atts (delete t (atts w)) w.
Proof.
  intros H. constructor. unfold erase. cbn. rewrite !fmap_delete, (erase_atts _ _ H).
  exact (f_equal (set_atts _) (same_erase _ _ H)).
Qed.

Lemma attached_equiv w w' t y n mm v vma : w' ≡ w -> attached w t y mm v vma -> attached w' t (set_att_refcnt n y) mm v vma.
Proof.
  intros H [[V1 V2 V3 V4 V5 V6 V7] Hwf Hs H1 H2 H3]. pose proof (equiv_vmas _ _ H) as Ev.
  split; try done; rewrite ?Ev; try done; [split; by rewrite ?Ev|].
  by eapply (att_wf_norm w w' y).
Qed.

Lemma attached_norm w w' t y y' mm v vma :
  vmas w' = vmas w -> norm_valid y = norm_valid y' -> attached w t y mm v vma -> attached w' t y' mm v vma.
Proof.
  intros Ev En [[V1 V2 V3 V4 V5 V6 V7] Hwf Hs H1 H2 H3].
  assert (att_mm y' = att_mm y) as Emm by exact (f_equal att_mm (eq_sym En)).
  assert (at_vma y' = at_vma y) as Evm by exact (f_equal at_vma (eq_sym En)).
  assert (at_vaddr y' = at_vaddr y) as Eva by exact (f_equal at_vaddr (eq_sym En)).
  assert (at_size y' = at_size y) as Esz by exact (f_equal at_size (eq_sym En)).
  split; rewrite ?Ev, ?Eva, ?Esz; try done.
  - by split; rewrite ?Ev, ?Emm, ?Evm, ?Eva, ?Esz.
  - by eapply (att_wf_norm w w' y).
Qed.

Lemma attached_held w L t y mm v vma : attached w t y mm v vma -> attached (set_held L w) t y mm v vma.
Proof.
  intros [[V1 V2 V3 V4 V5 V6 V7] [W1 W2 W3 W4] H1 H2 H3 H4].
  split; [by split|split; [exists mm, v, vma; by split|done..]|done..].
Qed.

(** * [xpmem_detach_att] *)

Definition detached_att cur (mm t : positive) y x g st pt (v : positive) vma w : world :=
  let w1 := forgotten mm t (marked y) x g st pt v vma w in
  if bool_decide (is_Some (cur_mm cur)) then unmapped_vma mm v (vm_start vma) (at_size y) w1 else w1.

Record detachable cur w (mm t : positive) : Prop := {
  dt_mm : cur_mm cur = Some mm \/ cur_mm cur = None;
  dt_sleep : existsb atomic_lock (held w) = false;
  dt_locks : MmapLock mm ∉ held w /\ AttMutex t ∉ held w /\ AttInvalidateMutex t ∉ held w;
}.

Lemma not_atomic_held l (L : list lock) : existsb atomic_lock L = false -> atomic_lock l = true -> l ∉ L.
Proof.
  intros H Hl Hin. assert (existsb atomic_lock L = true) as H'; [|congruence].
  apply existsb_exists. exists l. split; [by apply list_elem_of_In|done].
Qed.

Lemma detach_att_ok T S A B cur w mm t y x p g st pt v vma :
  Inv T S A (B ⊎ {[+ t +]}) w -> chain w t y x p g st -> part w = Some pt -> attached w t y mm v vma ->
  has (att_flags y) XPMEM_FLAG_DESTROYING = false -> detachable cur w mm t ->
  wp (xpmem_detach_att cur (att_ap y) t) (fun _ w' =>
    Inv T S A (B ⊎ {[+ t +]}) w' /\ w' ≡ detached_att cur mm t y x g st pt v vma w) w.
Proof.
  intros HI Hc Ept [Hs Hwf Hso Hop Hpd [Hr1 Hr2]] Hnd [Hmm Hsl (L1 & L2 & L3)].
  pose proof Hc as [Ey Hl [P1 P2 P3 P4 P5 P6 P7]]. pose proof Hs as [V1 V2 V3 V4 V5 V6 V7].
  unfold xpmem_detach_att. apply wp_bind. eapply wp_load; [done|]. apply wp_bind.
  replace (match cur_mm cur with Some mm => Some mm | None => att_mm y end) with (Some mm)
    by (destruct Hmm as [-> | ->]; done). apply wp_ret.
  apply wp_bind, wp_mutex_lock; [done|done|]. apply wp_bind, wp_mutex_lock; cbn; [done|by apply not_elem_of_cons|].
  apply wp_bind, wp_mutex_lock; cbn; [done| |].
  { apply not_elem_of_cons. split; [done|]. by apply not_elem_of_cons. }
  apply wp_bind. eapply wp_load; [done|]. rewrite Hnd.
  apply wp_bind. eapply wp_store; [done|]. fold (marked y).
  apply wp_bind. eapply (wp_release _ (AttMutex t :: MmapLock mm :: held w)); [done| |].
  { apply not_elem_of_cons. split; [done|]. by apply not_elem_of_cons. }
  apply wp_bind, wp_get. cbn. rewrite V4. apply wp_bind. eapply wp_load; [done|].
  rewrite Z.gtb_ltb, Hr1, Z.ltb_irrefl.
  apply wp_bind, wp_DBUG_ON; [unfold xpmem_is_vm_ops_set; by rewrite bool_decide_eq_true_2|].
  destruct (wf_space _ _ Hwf) as (S1 & S2 & S3 & S4 & S5).
  apply wp_bind, wp_DBUG_ON. { rewrite Hr2, u64_id by lia. apply negb_false_iff. lia. }
  apply wp_bind, wp_DBUG_ON; [by rewrite bool_decide_eq_true_2|].
  apply wp_bind. eapply wp_load; [done|].
  set (wm := set_held (AttMutex t :: MmapLock mm :: held w) (set_atts (<[t := marked y]> (atts w)) w)).
  match goal with |- wp _ _ ?w0 => change w0 with wm end.
  assert (Inv T S A (B ⊎ {[+ t +]}) wm) as HIm by (eapply Inv_same; [by eapply Inv_marked|done..]).
  pose proof (@forget_ok unit T S A (B ⊎ {[+ t +]}) wm mm t (marked y) x p g st pt v vma (held w)) as HF.
  cbn [att_ap marked set_att_flags at_vaddr at_size] in HF. eapply HF; clear HF; try done.
  { by apply chain_marked. }
  { by apply (att_wf_marked w). }
  { apply marked_destroying. }
  { by apply not_atomic_held. }
  unfold wm. rewrite forgotten_marked. intros w1 -> HI1. clear HIm wm.
  assert (set_held (held w) (forgotten mm t (marked y) x g st pt v vma w)
    = forgotten mm t (marked y) x g st pt v vma w) as E1 by (by destruct w).
  rewrite E1 in *. set (w1 := forgotten _ _ _ _ _ _ _ _ _ w) in *.
  eapply wp_seq.
  { eapply (wp_mono _ (fun _ w' => w' = detached_att cur mm t y x g st pt v vma w)); [|intros ? ? H; exact H].
    unfold detached_att. fold w1. apply wp_when.
    - intros Hm. rewrite Hm. apply bool_decide_eq_true_1 in Hm. destruct Hmm as [Hmm|Hmm]; [|by rewrite Hmm in Hm; destruct Hm].
      apply wp_bind. eapply wp_load; [cbn; apply lookup_insert_eq|]. apply wp_bind.
      assert (at_size y = vm_end vma - vm_start vma) as -> by lia. rewrite <- V5 in *.
      eapply wp_Ok; [apply (munmap_ok cur w1 v (set_vm_private_data None vma)); try done|by apply wp_DBUG_ON].
      by apply sole_forgotten.
    - intros Hm. by rewrite Hm. }
  intros _ w2 ->. set (w2 := detached_att _ _ _ _ _ _ _ _ _ _ w).
  assert (Inv T S A (B ⊎ {[+ t +]} ⊎ {[+ t +]}) w2) as HI2.
  { unfold w2, detached_att. fold w1. destruct (bool_decide _); [by eapply Inv_same|done]. }
  destruct (att_token _ _ _ _ _ _ HI2) as [y2 Ey2].
  eapply wp_mono; [eapply att_deref_ok; [exact HI2|exact Ey2|]|done].
  rewrite attrefs_add, decide_True by done. lia.
Qed.

(** * [xpmem_detach] *)

(** The attachment is gone: one reference less on every page it maps, the vma unmapped. *)
Definition detached (mm t : positive) y (x : xpmem_access_permit) (g : xpmem_segment) st pt (v : positive) vma w : world :=
  set_atts (delete t (atts w))
    (set_aps (<[att_ap y := set_ap_att_list (unlink t (ap_att_list x)) x]> (aps w))
      (unmapped_vma mm v (vm_start vma) (at_size y)
        (unpinned (seg_tg g) mm (at_vaddr y) (at_size y) st pt w))).

(** What an attachment leads to. *)
Definition att_objects w (t : positive) :=
  y ← atts w !! t ; x ← aps w !! att_ap y ; p ← tgs w !! ap_tg x ;
  g ← segs w !! ap_seg x ; st ← tgs w !! seg_tg g ; pt ← part w ;
  Some (y, x, p, g, st, pt).

(** The vma that find_vma gives for an address. *)
Definition addr_vma cur (vaddr : Z) w : option (positive * positive * vm_area_struct) :=
  match cur_mm cur with
  | Some mm =>
      match find_vma (vmas w) mm vaddr with
      | Some v => match vmas w !! v with Some vma => Some (mm, v, vma) | None => None end
      | None => None
      end
  | None => None
  end.

Definition detach_spec cur (vaddr : Z) w : Z * world :=
  match addr_vma cur vaddr w with
  | None => (0, w)
  | Some (mm, v, vma) =>
      if vm_start vma >? vaddr then (0, w) else
      match vm_private_data vma, xpmem_is_vm_ops_set vma with
      | Some t, true =>
          if cur_killed cur then (- EINTR, w) else
          match att_objects w t with
          | Some (y, x, p, g, st, pt) =>
              if negb (cur_tgid cur =? tg_tgid p) then (- EACCES, w) else
              (0, detached mm t y x g st pt v vma w)
          | None => (0, w)
          end
      | _, _ => (- EINVAL, w)
      end
  end.

(** Pages are mapped inside vmas only. *)
Definition PtesInVmas w : Prop :=
  forall mm a, is_Some (mapped_pfn (pgt w) mm a) -> exists v u, vmas w !! v = Some u /\
    vm_mm u = mm /\ vm_detached u = false /\ vm_start u <= a < vm_end u.

(** Between calls: every attachment is shown by a vma of its own, a vma of the module
    that has a pointer to an attachment is the one that shows it, the vmas of an address space do
    not meet, and pages are mapped inside vmas only. *)
Record VmaWf w : Prop := {
  vw_ptes : PtesInVmas w;
  vw_attached : forall t y, atts w !! t = Some y ->
    has (att_flags y) XPMEM_FLAG_DESTROYING = false /\ exists mm v vma, attached w t y mm v vma;
  vw_back : forall v vma t, vmas w !! v = Some vma -> vm_ops vma = xpmem_vm_ops -> vm_private_data vma = Some t ->
    exists y, atts w !! t = Some y /\ at_vma y = Some v;
  vw_apart : vmas_apart (vmas w);
}.

Lemma vma_attached w v vma t :
  VmaWf w -> vmas w !! v = Some vma -> vm_ops vma = xpmem_vm_ops -> vm_private_data vma = Some t ->
  exists y, atts w !! t = Some y /\ has (att_flags y) XPMEM_FLAG_DESTROYING = false /\ attached w t y (vm_mm vma) v vma.
Proof.
  intros [_ Ha Hb _] Ev Ho Hp. destruct (Hb v vma t Ev Ho Hp) as (y & Ey & Ev').
  destruct (Ha t y Ey) as (Hd & mm & v' & vma' & H). pose proof (atd_shown _ _ _ _ _ _ H) as [V1 V2 V3 V4 V5 V6 V7].
  assert (v' = v) as -> by congruence. assert (vma' = vma) as -> by congruence. subst mm. eauto.
Qed.

Lemma unmark_flags f : has f XPMEM_FLAG_DESTROYING = false ->
  clear (Z.lor f XPMEM_FLAG_DESTROYING) XPMEM_FLAG_DESTROYING = f.
Proof.
  change XPMEM_FLAG_DESTROYING with (2 ^ 6). rewrite has_pow2 by lia. intros H. unfold clear.
  apply Z.bits_inj'. intros n Hn. rewrite Z.land_spec, Z.lor_spec, Z.lnot_spec by done.
  destruct (decide (n = 6)) as [->|Hne].
  - rewrite H. rewrite Z.pow2_bits_true by lia. done.
  - rewrite Z.pow2_bits_false by lia. by rewrite orb_false_r, andb_true_r.
Qed.

(** The last references: [xpmem_att_destroyable], [xpmem_ap_deref] and [xpmem_att_deref]. *)
Lemma detach_end_ok w mm t y x p g st pt v vma w2 :
  chain w t y x p g st -> Inv ∅ ∅ (∅ ⊎ {[+ att_ap y +]}) (∅ ⊎ {[+ t +]} ⊎ {[+ t +]}) w2 ->
  w2 ≡ unmapped_vma mm v (vm_start vma) (at_size y) (forgotten mm t (marked y) x g st pt v vma w) ->
  wp (xpmem_att_destroyable t ;; xpmem_ap_deref (att_ap y) ;; xpmem_att_deref t ;; mret 0) (fun r w' =>
    r = 0 /\ Inv ∅ ∅ ∅ ∅ w' /\ w' ≡ detached mm t y x g st pt v vma w) w2.
Proof.
  intros [Ey Hl [P1 P2 P3 P4 P5 P6 P7]] HI2 Hq2. set (wf := unmapped_vma _ _ _ _ _) in *.
  destruct (att_token _ _ _ _ _ _ HI2) as [y2 Ey2].
  eapply wp_seq; [eapply att_deref_ok; [exact HI2|exact Ey2|rewrite attrefs_add, decide_True by done; lia]|].
  intros _ w3 [HI3 Hq3]. assert (w3 ≡ wf) as Hq by (by rewrite Hq3). clear Hq2 Hq3 HI2.
  assert (aps wf !! att_ap y = Some (set_ap_att_list (unlink t (ap_att_list x)) x)) as E3 by (apply lookup_insert_eq).
  destruct (equiv_ap _ _ _ _ (symmetry Hq) E3) as [n3 E3'].
  assert (exists n, tgs wf !! ap_tg x = Some (set_tg_n_pinned n p)) as [n4 E4].
  { cbn. rewrite lookup_insert. case_decide as E; [|exists (tg_n_pinned p); rewrite P2; by destruct p].
    rewrite E in P4. rewrite P2 in P4. injection P4 as <-. eauto. }
  destruct (equiv_tg _ _ _ _ (symmetry Hq) E4) as [n5 E5].
  eapply wp_seq; [eapply ap_deref_ok; [exact HI3|exact E3'|]|].
  { unfold aprefs, ap_refs. cbn. rewrite (list_of_Some _ _ _ _ E5), b2n_true by exact P5. lia. }
  intros _ w4 [HI4 Hq4]. assert (w4 ≡ wf) as Hqf by (by rewrite Hq4). clear Hq Hq4 HI3.
  destruct (att_token _ _ _ _ _ _ HI4) as [y4 Ey4].
  eapply wp_seq; [eapply wp_att_deref; [exact HI4|exact Ey4]|]. intros _ w5 [HI5 E6].
  rewrite decide_True in E6.
  - apply wp_ret. split; [done|]. split; [done|]. rewrite E6. rewrite (equiv_delete_att _ _ _ Hqf).
    unfold wf, detached, unmapped_vma, forgotten, unpinned. cbn. by rewrite !delete_insert_eq.
  - unfold attrefs, att_refs. rewrite multiplicity_empty, b2n_false; [done|].
    destruct (equiv_att _ _ _ _ Hqf Ey4) as [n E]. cbn in E. rewrite lookup_insert_eq in E. apply Some_inj in E.
    assert (att_ap y4 = att_ap y) as -> by exact (eq_sym (f_equal att_ap E)).
    destruct (equiv_ap _ _ _ _ (symmetry Hqf) E3) as [n6 E7]. rewrite (list_of_Some _ _ _ _ E7). cbn.
    rewrite elem_of_unlink. tauto.
Qed.

Section detach_call.
Context (cur : task) (mm v t : positive) (w : world).
Context (y : xpmem_attachment) (x : xpmem_access_permit) (p : xpmem_thread_group).
Context (g : xpmem_segment) (st : xpmem_thread_group) (pt : xpmem_partition) (vma : vm_area_struct).
Context (HI : Inv ∅ ∅ ∅ ∅ w) (Hc : chain w t y x p g st) (Ept : part w = Some pt).
Context (Hh : held w = []) (Hm : cur_mm cur = Some mm) (Ha : attached w t y mm v vma).
Context (Hnd : has (att_flags y) XPMEM_FLAG_DESTROYING = false).

Let wl := set_held [MmapLock mm] w.

Lemma wl_inv : Inv ∅ ∅ ∅ ∅ wl.
Proof. by eapply Inv_same. Qed.

(** Whatever was counted is given back: the state is as it was. *)
Lemma detach_back w' : Inv ∅ ∅ ∅ ∅ w' -> w' ≡ wl -> set_held [] w' = w.
Proof.
  intros HI' Hq. rewrite (Inv_equiv_eq _ _ _ _ _ _ HI' wl_inv Hq). unfold wl. cbn. rewrite <- Hh. by destruct w.
Qed.

(** Dropping the reference on the attachment that [xpmem_detach] took. *)
Lemma detach_drop_att w1 Q :
  Inv ∅ ∅ ∅ (∅ ⊎ {[+ t +]}) w1 -> w1 ≡ wl -> (forall w', Inv ∅ ∅ ∅ ∅ w' -> w' ≡ wl -> Q () w') ->
  wp (xpmem_att_deref t) Q w1.
Proof.
  intros HI1 Hq HQ. destruct (chain_equiv _ w1 _ _ _ _ _ _ Hq (chain_held _ _ _ _ _ _ _ _ Hc)) as (n0 & n1 & n2 & n3 & n4 & H).
  eapply wp_mono; [eapply att_deref_ok; [exact HI1|apply (ch_att _ _ _ _ _ _ _ H)|by eapply chain_attrefs]|].
  intros [] w' [HI' Hq']. apply HQ; [done|]. by rewrite Hq'.
Qed.


Let L := [AttMutex t; MmapLock mm].
Let wm := set_held L (set_atts (<[t := marked y]> (atts w)) w).

Lemma wm_chain w3 : w3 ≡ wm -> exists n0 n1 n2 n3 n4,
  chain w3 t (set_att_refcnt n0 (marked y)) (set_ap_refcnt n1 x) (set_tg_refcnt n2 p) (set_seg_refcnt n3 g) (set_tg_refcnt n4 st).
Proof. intros H. exact (chain_equiv _ _ _ _ _ _ _ _ H (chain_marked _ _ _ _ _ _ _ L Hc)). Qed.

(** A caller that does not own the permit: the mark is taken back. *)
Lemma detach_refused_ok w3 :
  Inv ∅ ∅ (∅ ⊎ {[+ att_ap y +]}) (∅ ⊎ {[+ t +]}) w3 -> w3 ≡ wm ->
  wp (att_clear_flag t XPMEM_FLAG_DESTROYING ;;
      xpmem_ap_deref (att_ap y) ;;
      mutex_unlock (AttMutex t) ;;
      xpmem_att_deref t ;;
      xpmem_mmap_write_unlock mm ;;
      mret (- EACCES)) (fun r w' => r = - EACCES /\ w' = w) w3.
Proof.
  intros HI3 Hq3. destruct (wm_chain w3 Hq3) as (n0 & n1 & n2 & n3 & n4 & [Ey3 Hl3 HP3]).
  set (y3 := set_att_refcnt n0 (marked y)) in *. apply wp_bind. eapply wp_store; [exact Ey3|].
  set (y4 := set_att_flags _ y3). set (w4 := set_atts _ w3).
  assert (Inv ∅ ∅ (∅ ⊎ {[+ att_ap y +]}) (∅ ⊎ {[+ t +]}) w4) as HI4.
  { pose proof (att_all (inv_att HI3) t y3 Ey3) as Hok.
    eapply (Inv_att_update _ _ _ _ _ w3 t y3); try apply Hok; try done.
    intros []. by rewrite (list_of_Some _ _ _ _ (ch_ap _ _ _ _ _ _ HP3)). }
  assert (w4 ≡ set_held L w) as Hq4.
  { unfold w4. rewrite (equiv_insert_att w3 wm t y4 y Hq3).
    - unfold wm. cbn. rewrite insert_insert_eq, insert_id by apply (ch_att _ _ _ _ _ _ _ Hc). by destruct w.
    - unfold y4, y3. cbn. unfold set_att_flags, set_att_refcnt. cbn. rewrite unmark_flags by done. done. }
  destruct (chain_equiv _ _ _ _ _ _ _ _ Hq4 (chain_held _ _ _ _ _ _ _ L Hc)) as (m0 & m1 & m2 & m3 & m4 & [_ _ HP4]).
  eapply wp_seq; [eapply ap_deref_ok; [exact HI4|exact (ch_ap _ _ _ _ _ _ HP4)|exact (permit_aprefs _ _ _ _ _ _ _ HP4)]|].
  intros _ w5 [HI5 Hq5]. assert (w5 ≡ set_held L w) as Hq by (by rewrite Hq5).
  apply wp_bind. eapply (wp_release _ [MmapLock mm]); [by rewrite (equiv_held _ _ Hq)|not_held|].
  apply wp_bind. eapply detach_drop_att; [by eapply Inv_same|exact (set_held_proper [MmapLock mm] _ _ Hq)|].
  intros w6 HI6 Hq6. apply wp_bind. eapply (wp_release _ []); [by rewrite (equiv_held _ _ Hq6)|not_held|].
  apply wp_ret. split; [done|]. by apply detach_back.
Qed.

Lemma detach_owned_ok w3 n0 n1 n2 n3 n4 n5 :
  Inv ∅ ∅ (∅ ⊎ {[+ att_ap y +]}) (∅ ⊎ {[+ t +]}) w3 -> w3 ≡ wm ->
  chain w3 t (set_att_refcnt n0 (marked y)) (set_ap_refcnt n1 x) (set_tg_refcnt n2 p) (set_seg_refcnt n3 g) (set_tg_refcnt n4 st) ->
  wp (detach_owned cur mm v t (att_ap y) (set_ap_refcnt n1 x) (set_att_refcnt n5 y)) (fun r w' =>
    r = 0 /\ Inv ∅ ∅ ∅ ∅ w' /\ w' ≡ detached mm t y x g st pt v vma w) w3.
Proof.
  intros HI3 Hq3 HC3. pose proof Ha as [Hs Hwf Hso Hop Hpd [Hr1 Hr2]]. pose proof Hs as [V1 V2 V3 V4 V5 V6 V7].
  assert (vmas w3 = vmas w) as Ev3 by exact (equiv_vmas _ _ Hq3).
  pose proof (@forget_ok Z ∅ ∅ (∅ ⊎ {[+ att_ap y +]}) (∅ ⊎ {[+ t +]}) w3 mm t (set_att_refcnt n0 (marked y))
    (set_ap_refcnt n1 x) (set_tg_refcnt n2 p) (set_seg_refcnt n3 g) (set_tg_refcnt n4 st) pt v vma []) as HF.
  cbn [att_ap ap_seg set_ap_refcnt marked set_att_flags set_att_refcnt at_vaddr at_size] in HF. unfold detach_owned. cbn.
  eapply HF; clear HF; try done.
  { by rewrite (equiv_part _ _ Hq3). }
  { eapply (att_wf_norm wm w3 (marked y)); [by rewrite Ev3|done|]. by apply (att_wf_marked w). }
  { apply marked_destroying. }
  { by rewrite Ev3. }
  { by rewrite (equiv_held _ _ Hq3). }
  1-3: not_held.
  intros w4 E4 HI4. assert (w4 ≡ forgotten mm t (marked y) x g st pt v vma w) as Hq4.
  { rewrite E4, forgotten_equiv by exact Hq3. unfold wm. rewrite forgotten_marked.
    replace (set_held [] _) with (forgotten mm t (marked y) x g st pt v vma w); [done|].
    rewrite <- Hh. clear. by destruct w. }
  assert (vmas w4 = <[v := set_vm_private_data None vma]> (vmas w)) as Ev4 by exact (equiv_vmas _ _ Hq4).
  apply wp_bind. eapply wp_load; [by rewrite Ev4, lookup_insert_eq|].
  destruct (att_token _ _ _ _ _ _ HI4) as [y4 Ey4]. apply wp_bind. eapply wp_load; [exact Ey4|].
  destruct (equiv_att _ _ _ _ Hq4 Ey4) as [n E]. cbn in E. rewrite lookup_insert_eq in E. apply Some_inj in E.
  assert (at_size y4 = vm_end vma - vm_start vma) as Esz by (pose proof (f_equal at_size E) as F; cbn in F; lia).
  rewrite Esz. apply wp_bind.
  eapply wp_Ok; [apply (munmap_ok cur w4 v (set_vm_private_data None vma)); try done; cbn|].
  { by rewrite V5. }
  { rewrite Ev4. by apply sole_forgotten. }
  { rewrite (equiv_held _ _ Hq4). cbn. rewrite Hh. not_held. }
  { rewrite (equiv_held _ _ Hq4). cbn. by rewrite Hh. }
  apply wp_bind, wp_DBUG_ON; [done|].
  eapply (detach_end_ok w mm t y x p g st pt v vma); [exact Hc|by eapply Inv_same|].
  cbn. rewrite V5. replace (vm_end vma - vm_start vma) with (at_size y) by lia. by apply unmapped_vma_equiv.
Qed.

Lemma detach_vma_ok :
  wp (detach_vma cur mm v t) (fun r w' =>
    if cur_killed cur then r = - EINTR /\ w' = w else
    if negb (cur_tgid cur =? tg_tgid p) then r = - EACCES /\ w' = w else
    r = 0 /\ Inv ∅ ∅ ∅ ∅ w' /\ w' ≡ detached mm t y x g st pt v vma w) wl.
Proof.
  unfold detach_vma. eapply wp_seq; [eapply att_ref_ok; [exact wl_inv|tokens|exact (ch_att _ _ _ _ _ _ _ Hc)]|].
  intros _ w1 [HI1 Hq1]. assert (held w1 = [MmapLock mm]) as Hh1 by (by rewrite (equiv_held _ _ Hq1)).
  unfold mutex_lock_killable. destruct (cur_killed cur).
  - apply wp_bind, wp_bind, wp_might_sleep; [by rewrite Hh1|]. apply wp_ret.
    apply wp_bind. eapply detach_drop_att; [done..|]. intros w2 HI2 Hq2.
    apply wp_bind. eapply (wp_release _ []); [by rewrite (equiv_held _ _ Hq2)|not_held|].
    apply wp_ret. split; [done|]. by apply detach_back.
  - apply wp_bind, wp_bind, wp_mutex_lock; [by rewrite Hh1|rewrite Hh1; not_held|]. apply wp_ret. rewrite Hh1.
    apply wp_bind, wp_mutex_lock; [done|not_held|].
    destruct (equiv_att _ _ _ _ (symmetry Hq1) (ch_att _ _ _ _ _ _ _ Hc)) as [n1 Ey1].
    apply wp_bind. eapply wp_load; [exact Ey1|]. cbn. rewrite Hnd.
    apply wp_bind. eapply wp_store; [exact Ey1|]. apply wp_bind. eapply (wp_release _ L); [done|not_held|].
    set (w2 := set_held L _).
    assert (w2 ≡ wm) as Hq2.
    { apply (set_held_proper L (set_atts (<[t := marked (set_att_refcnt n1 y)]> (atts w1)) w1)
        (set_held [MmapLock mm] (set_atts (<[t := marked y]> (atts w)) w))).
      by apply (equiv_insert_att w1 wl t). }
    assert (Inv ∅ ∅ ∅ (∅ ⊎ {[+ t +]}) w2) as HI2 by (eapply Inv_same; [by eapply Inv_marked|done..]).
    destruct (wm_chain w2 Hq2) as (k0 & k1 & k2 & k3 & k4 & [_ _ HP2]).
    eapply wp_seq; [eapply ap_ref_ok; [exact HI2|tokens|exact (ch_ap _ _ _ _ _ _ HP2)]|].
    intros _ w3 [HI3 Hq3]. assert (w3 ≡ wm) as Hq by (by rewrite Hq3).
    destruct (wm_chain w3 Hq) as (m0 & m1 & m2 & m3 & m4 & HC3). pose proof HC3 as [_ _ HP3].
    apply wp_bind. eapply wp_load; [exact (ch_ap _ _ _ _ _ _ HP3)|].
    apply wp_bind. eapply wp_load; [exact (ch_tg _ _ _ _ _ _ HP3)|]. cbn.
    destruct (cur_tgid cur =? tg_tgid p); cbn [negb].
    + by eapply detach_owned_ok.
    + by eapply detach_refused_ok.
Qed.
End detach_call.

(** ** The attachments that are left *)

Lemma vma_not_shared w t y mm v vma t' y' mm' v' vma' :
  attached w t y mm v vma -> attached w t' y' mm' v' vma' -> t' <> t -> v' <> v.
Proof.
  intros [[_ _ E _ _ _ _] _ _ _ D _] [[_ _ E' _ _ _ _] _ _ _ D' _] Hne ->. congruence.
Qed.

(** The vma [u] no longer shows an attachment: it is unmapped, or has forgotten it. *)
Record vma_gone (u : positive) (tb tb' : vma_table) : Prop := {
  gone_others : forall v, v <> u -> tb' !! v = tb !! v;
  gone_extent : forall v vma', tb' !! v = Some vma' -> exists vma, tb !! v = Some vma /\ vm_extent vma = vm_extent vma';
  gone_find : forall mm a v, find_vma tb mm a = Some v -> v <> u -> find_vma tb' mm a = Some v;
  gone_data : forall vma', tb' !! u = Some vma' -> vm_private_data vma' = None;
}.

Lemma vma_gone_delete tb u : vma_gone u tb (delete u tb).
Proof.
  split.
  - intros v Hv. by rewrite lookup_delete_ne.
  - intros v vma' [_ E]%lookup_delete_Some. eauto.
  - intros mm a v E Hv. by apply find_vma_delete.
  - intros vma' E. by rewrite lookup_delete_eq in E.
Qed.

Lemma vma_gone_forget tb u vma : tb !! u = Some vma -> vma_gone u tb (<[u := set_vm_private_data None vma]> tb).
Proof.
  intros E. split.
  - intros v Hv. by rewrite lookup_insert_ne.
  - intros v vma' [[<- <-]|[_ E']]%lookup_insert_Some; eauto.
  - intros mm a v Ef Hv. rewrite <- Ef. apply find_vma_extent. by rewrite (fmap_insert_same vm_extent _ _ vma).
  - intros vma'. rewrite lookup_insert_eq. by intros [= <-].
Qed.

Lemma attached_gone w w' t y mm v vma u :
  vma_gone u (vmas w) (vmas w') -> v <> u -> attached w t y mm v vma -> attached w' t y mm v vma.
Proof.
  intros Hg Hne [[V1 V2 V3 V4 V5 V6 V7] [_ W2 W3 W4] (S1 & S2 & S3 & S4) H1 H2 H3].
  assert (shown_by w' y mm v vma) as Hs.
  { split; try done; [by rewrite (gone_others _ _ _ Hg)|by apply (gone_find _ _ _ Hg)]. }
  split; try done.
  - split; try done. eauto.
  - split; [by rewrite (gone_others _ _ _ Hg)|]. split; [done|]. split; [done|].
    intros v' vma' E E1 E2 E3 E4. destruct (gone_extent _ _ _ Hg v' vma' E) as (vma0 & E0 & Ex).
    unfold vm_extent in Ex. injection Ex as X1 X2 X3 X4. apply (S4 v' vma0 E0); congruence || lia.
Qed.

Lemma ptes_gone w w' v vma :
  PtesInVmas w -> vmas w !! v = Some vma -> vma_gone v (vmas w) (vmas w') ->
  (forall mm a, mapped_pfn (pgt w) mm a = None -> mapped_pfn (pgt w') mm a = None) ->
  (vmas w' !! v = None -> forall a, vm_start vma <= a < vm_end vma -> mapped_pfn (pgt w') (vm_mm vma) a = None) ->
  PtesInVmas w'.
Proof.
  intros HM Ev Hg Hmap Hun mm a Hs. destruct (HM mm a) as (v0 & u & E & Hm & Hd & Hr).
  { destruct (mapped_pfn (pgt w) mm a) eqn:E; [done|]. rewrite (Hmap mm a E) in Hs. by destruct Hs. }
  destruct (decide (v0 = v)) as [->|Hne]; [|exists v0, u; by rewrite (gone_others _ _ _ Hg)].
  assert (u = vma) as -> by congruence. destruct (vmas w' !! v) as [u'|] eqn:E'.
  - destruct (gone_extent _ _ _ Hg v u' E') as (u0 & E0 & Hx). assert (u0 = vma) as -> by congruence.
    injection Hx as X1 X2 X3 X4. exists v, u'. split; [done|]. split; [congruence|]. split; [congruence|lia].
  - rewrite <- Hm in Hs. rewrite (Hun eq_refl a Hr) in Hs. by destruct Hs.
Qed.

(** Taking one attachment away. *)
Lemma att_gone_wf w w' mm t y v vma :
  VmaWf w -> AttWf w -> atts w !! t = Some y -> attached w t y mm v vma ->
  atts w' = delete t (atts w) -> vma_gone v (vmas w) (vmas w') ->
  (forall mm a, mapped_pfn (pgt w) mm a = None -> mapped_pfn (pgt w') mm a = None) ->
  (vmas w' !! v = None -> forall a, vm_start vma <= a < vm_end vma -> mapped_pfn (pgt w') (vm_mm vma) a = None) ->
  VmaWf w' /\ AttWf w'.
Proof.
  intros HV HA Ey Ha Eat Hg Hmap Hun.
  assert (forall t' y', atts w' !! t' = Some y' -> t' <> t /\ atts w !! t' = Some y') as Hd
    by (rewrite Eat; intros t' y' [??]%lookup_delete_Some; split; congruence).
  assert (forall t' y', atts w' !! t' = Some y' -> exists mm v vma, attached w' t' y' mm v vma) as Hatt.
  { intros t' y' [Hne E]%Hd. destruct (vw_attached _ HV t' y' E) as (_ & mm' & v' & vma' & Ha').
    exists mm', v', vma'. eapply attached_gone; [exact Hg| |exact Ha']. by eapply (vma_not_shared w t y mm v vma). }
  split; split.
  - apply (ptes_gone w w' v vma); try done; [apply HV|exact (shown_lookup _ _ _ _ _ (atd_shown _ _ _ _ _ _ Ha))].
  - intros t' y' E. split; [|by apply Hatt]. apply Hd in E as [_ E]. apply (vw_attached _ HV t' y' E).
  - intros v' vma' t' E Ho Hp. assert (v' <> v) as Hne by (intros ->; by rewrite (gone_data _ _ _ Hg vma' E) in Hp).
    rewrite (gone_others _ _ _ Hg v' Hne) in E. destruct (vw_back _ HV v' vma' t' E Ho Hp) as (y' & Ey' & Ev').
    exists y'. split; [|done]. rewrite Eat, lookup_delete_ne; [done|]. intros <-.
    pose proof (shown_vma _ _ _ _ _ (atd_shown _ _ _ _ _ _ Ha)). congruence.
  - eapply vmas_apart_extent; [apply (gone_extent _ _ _ Hg)|apply HV].
  - intros t' y' E _. destruct (Hatt t' y' E) as (? & ? & ? & H). apply H.
  - intros t' y' E _. destruct (Hatt t' y' E) as (? & ? & ? & H). apply H.
  - intros t' y' [Hne E]%Hd Hv Hl mm' a Em Hr. apply Hmap. by eapply (wf_invalid _ HA t').
Qed.

Lemma detached_wf w mm t y x g st pt v vma :
  VmaWf w -> AttWf w -> atts w !! t = Some y -> attached w t y mm v vma ->
  VmaWf (detached mm t y x g st pt v vma w) /\ AttWf (detached mm t y x g st pt v vma w).
Proof.
  intros HV HA Ey Ha. eapply (att_gone_wf w _ mm t y v vma); try done.
  - apply vma_gone_delete.
  - intros mm' a. apply unmap_maps_nothing.
  - intros _ a Hr. destruct Ha as [[_ _ _ _ -> _ _] _ _ _ _ [H1 H2]]. apply unmap_unmaps. lia.
Qed.

Lemma VmaWf_equiv w w' : w' ≡ w -> VmaWf w -> VmaWf w'.
Proof.
  intros Hq [Hm Ha Hb Hp]. split.
  - unfold PtesInVmas in *. by rewrite (equiv_pgt _ _ Hq), (equiv_vmas _ _ Hq).
  - intros t y' E. destruct (equiv_att _ _ _ _ Hq E) as [n E']. destruct (Ha t _ E') as (Hd & mm & v & vma & H).
    split; [done|]. exists mm, v, vma. replace y' with (set_att_refcnt (att_refcnt y') (set_att_refcnt n y')) by (by destruct y').
    by eapply attached_equiv.
  - intros v vma t. rewrite (equiv_vmas _ _ Hq). intros Ev Ho Hd. destruct (Hb v vma t Ev Ho Hd) as (y & Ey & Hy).
    destruct (equiv_att _ _ _ _ (symmetry Hq) Ey) as [n E']. by eexists.
  - by rewrite (equiv_vmas _ _ Hq).
Qed.

Lemma AttWf_equiv w w' : w' ≡ w -> AttWf w -> AttWf w'.
Proof. intros H. eapply AttWf_invalidated, equiv_invalidated. by symmetry. Qed.

Lemma chain_objects w t y x p g st pt :
  chain w t y x p g st -> part w = Some pt -> att_objects w t = Some (y, x, p, g, st, pt).
Proof.
  intros [Ey _ [P1 P2 P3 P4 _ _ _]] Ep. unfold att_objects, mbind, option_bind.
  by rewrite Ey, P1, P2, P3, P4, Ep.
Qed.

Lemma detach_ok cur mm vaddr w :
  Inv ∅ ∅ ∅ ∅ w -> VmaWf w -> AttWf w -> held w = [] -> cur_mm cur = Some mm ->
  wp (xpmem_detach cur vaddr) (fun r w' =>
    let sp := detach_spec cur vaddr w in
    r = sp.1 /\ w' ≡ sp.2 /\ (r <> 0 -> w' = w) /\ Inv ∅ ∅ ∅ ∅ w' /\ VmaWf w' /\ AttWf w') w.
Proof.
  intros HI HV HA Hh Hm. unfold xpmem_detach, detach_spec, addr_vma. rewrite Hm.
  apply wp_bind, wp_ret. apply wp_bind, wp_mutex_lock; [by rewrite Hh|rewrite Hh; not_held|].
  rewrite Hh. apply wp_bind, wp_get. cbn.
  assert (forall (r : Z) (Q : Z -> world -> Prop), Q r w -> wp (xpmem_mmap_write_unlock mm ;; mret r) Q (set_held [MmapLock mm] w)) as Hout.
  { intros r Q HQ. apply wp_bind. eapply (wp_release _ []); [done|not_held|]. apply wp_ret.
    replace (set_held [] (set_held [MmapLock mm] w)) with w; [done|]. rewrite <- Hh. by destruct w. }
  destruct (find_vma (vmas w) mm vaddr) as [v|] eqn:Ef; [|by apply Hout].
  destruct (find_vma_lookup _ _ _ _ Ef) as (vma & Ev & Evm & _). rewrite Ev.
  apply wp_bind. eapply wp_load; [done|]. destruct (vm_start vma >? vaddr); [by apply Hout|].
  destruct (vm_private_data vma) as [t|] eqn:Ed; [|by apply Hout].
  destruct (xpmem_is_vm_ops_set vma) eqn:Eo; [|by apply Hout].
  destruct (vma_attached w v vma t HV Ev) as (y & Ey & Hnd & Ha); [by apply bool_decide_eq_true_1 in Eo|done|].
  rewrite Evm in Ha. destruct (inv_part HI) as [pt Ept].
  destruct (chain_of _ _ _ _ _ _ _ HI Ey) as (x & p & g & st & Hc); [by eapply rest_listed|].
  rewrite (chain_objects _ _ _ _ _ _ _ _ Hc Ept).
  eapply wp_mono; [by eapply (detach_vma_ok cur mm v t w y x p g st pt vma)|]. intros r w'. cbn.
  destruct (cur_killed cur); [by intros [-> ->]|]. destruct (negb _); [by intros [-> ->]|].
  intros (-> & HI' & Hq). destruct (detached_wf w mm t y x g st pt v vma HV HA Ey Ha) as [HV' HA'].
  split; [done|]. split; [done|]. split; [done|]. split; [done|].
  split; [by eapply VmaWf_equiv|by eapply AttWf_equiv].
Qed.

(** C15: from every consistent state, [xpmem_detach] terminates without faulting, ignores an
    address that is not mapped, refuses one that is not an attachment, an attachment of another
    process and an interrupted call, leaving the state as it was, and otherwise takes exactly the
    attachment at the address away, with its vma and its pages; the state stays consistent. *)
Theorem xpmem_detach_refines cur mm vaddr w :
  Inv ∅ ∅ ∅ ∅ w -> VmaWf w -> AttWf w -> held w = [] -> cur_mm cur = Some mm ->
  exists r w', xpmem_detach cur vaddr w = Ok r w' /\ r = (detach_spec cur vaddr w).1 /\
    w' ≡ (detach_spec cur vaddr w).2 /\ (r <> 0 -> w' = w) /\ Inv ∅ ∅ ∅ ∅ w' /\ VmaWf w' /\ AttWf w'.
Proof. intros HI HV HA Hh Hm. exact (wp_inv _ _ _ (detach_ok cur mm vaddr w HI HV HA Hh Hm)). Qed.

(** C16: when the owner of the permit detaches an address inside an attachment, no page of the
    attachment stays mapped, every frame it mapped loses exactly one reference for each page it
    was mapped at and no other frame loses any, and the attachment and its vma are gone. *)
Theorem detach_releases_pages cur mm vaddr v vma t y x p g st w :
  Inv ∅ ∅ ∅ ∅ w -> VmaWf w -> AttWf w -> held w = [] -> cur_mm cur = Some mm ->
  chain w t y x p g st -> attached w t y mm v vma -> find_vma (vmas w) mm vaddr = Some v ->
  at_vaddr y <= vaddr -> cur_killed cur = false -> cur_tgid cur = tg_tgid p ->
  let l := mapped_pfns (pgt w) mm (at_vaddr y) (Z.to_nat (at_size y / PAGE_SIZE)) in
  exists w', xpmem_detach cur vaddr w = Ok 0 w' /\
    (forall a, at_vaddr y <= a < at_vaddr y + at_size y -> mapped_pfn (pgt w') mm a = None) /\
    (forall pfn, default 0 (pages w' !! pfn)
      = default 0 (pages w !! pfn) - Z.of_nat (length (filter (fun q => q = pfn) l))) /\
    atts w' !! t = None /\ vmas w' !! v = None /\ t ∉ list_of ap_att_list (aps w') (att_ap y).
Proof.
  intros HI HV HA Hh Hm Hc Ha Ef Hv Hk Ht. destruct (inv_part HI) as [pt Ept].
  destruct (wp_inv _ _ _ (detach_ok cur mm vaddr w HI HV HA Hh Hm)) as (r & w' & E & Hr & Hq & _).
  pose proof Ha as [[_ _ Ev _ _ _ _] _ _ Ho Hd [Hr1 Hr2]].
  assert (detach_spec cur vaddr w = (0, detached mm t y x g st pt v vma w)) as Es.
  { unfold detach_spec, addr_vma. rewrite Hm, Ef, Ev.
    rewrite Z.gtb_ltb, (proj2 (Z.ltb_ge _ _)) by lia. unfold xpmem_is_vm_ops_set.
    rewrite Hd, bool_decide_eq_true_2, Hk by done. rewrite (chain_objects _ _ _ _ _ _ _ _ Hc Ept).
    by rewrite Ht, Z.eqb_refl. }
  cbn zeta in *. rewrite Es in Hr, Hq. cbn [fst snd] in Hr, Hq. subst r. exists w'. split; [done|].
  rewrite (equiv_pgt _ _ Hq), (equiv_pages _ _ Hq), (equiv_vmas _ _ Hq). cbn. split_and!.
  - intros a Hra. apply unmap_unmaps. lia.
  - intros pfn. apply put_pages_count.
  - destruct (atts w' !! t) as [y'|] eqn:E'; [|done]. destruct (equiv_att _ _ _ _ Hq E') as [n F].
    cbn in F. by rewrite lookup_delete_eq in F.
  - apply lookup_delete_eq.
  - rewrite (list_of_fmap ap_att_list (aps w') _ (att_ap y) (equiv_aps ap_att_list _ _ (fun _ => eq_refl) Hq)).
    cbn. rewrite list_of_insert, decide_True by done. cbn. rewrite elem_of_unlink. tauto.
Qed.
End detach.
