(* ===== verification/CloseSpec.v ===== *)
(** Unmapping outside the API (xpmem_attach.c): what [xpmem_open_handler] and [xpmem_close_handler]
    do when the process unmaps an attachment, or a part of it, itself. *)

From S2P Require Import Prelude Kernel World Monad Ids Misc Pfn Attach Inv Graph Link Refs Lookup.
From S2P Require Import PfnSpec Invalidated ClearSpec Chain PinSpec FaultSpec DetachSpec.

Section close.
Context `{K : Kernel} {G : KernelGeometry K} {VT : VmaTree K} {UV : UnmapVma K}.
Implicit Types (T S A B : gmultiset positive) (w : world) (cur : task).

(** The attachment is gone, and the process is killed. *)
Definition killed cur w : world := set_sigkilled (cur_tgid cur :: sigkilled w) w.
#[local] Instance killed_proper cur : Proper ((≡@{world}) ==> (≡@{world})) (killed cur).
Proof. intros w w' [H]. constructor. exact (f_equal (killed cur) H). Qed.

Definition unattached (t : positive) y (x : xpmem_access_permit) w : world :=
  set_atts (delete t (atts w)) (set_aps (<[att_ap y := set_ap_att_list (unlink t (ap_att_list x)) x]> (aps w)) w).

(** The last references, on the attachment that is off the list of its permit. *)
Lemma close_end_ok cur t y x p g st w w4 :
  let L := AttMutex t :: held w in
  let wm := set_held L (set_atts (<[t := marked y]> (atts w)) w) in
  chain w t y x p g st -> AttMutex t ∉ held w ->
  Inv ∅ ∅ (∅ ⊎ {[+ att_ap y +]}) (∅ ⊎ {[+ t +]} ⊎ {[+ t +]}) w4 ->
  w4 ≡ set_aps (<[att_ap y := set_ap_att_list (unlink t (ap_att_list x)) x]> (aps wm)) wm ->
  wp (xpmem_ap_deref (att_ap y)) (fun _ => wp (xpmem_att_destroyable t) (fun _ =>
    wp (mutex_unlock (AttMutex t) ;; xpmem_att_deref t ;; modify (fun w => set_sigkilled (cur_tgid cur :: sigkilled w) w))
      (fun _ w' => Inv ∅ ∅ ∅ ∅ w' /\ w' ≡ killed cur (unattached t y x w)))) w4.
Proof.
  intros L wm [Ey Hl [P1 P2 P3 P4 P5 P6 P7]] Hmx HI4 Hq4. set (wu := set_aps _ wm) in *.
  assert (aps wu !! att_ap y = Some (set_ap_att_list (unlink t (ap_att_list x)) x)) as Eu by apply lookup_insert_eq.
  destruct (equiv_ap _ _ _ _ (symmetry Hq4) Eu) as [n4 E4]. destruct (equiv_tg _ _ _ _ (symmetry Hq4) (P2 : tgs wu !! _ = _)) as [n5 E5].
  eapply wp_mono; [eapply ap_deref_ok; [exact HI4|exact E4|]|].
  { unfold aprefs, ap_refs. cbn. rewrite (list_of_Some _ _ _ _ E5), b2n_true by exact P5. lia. }
  intros _ w5 [HI5 Hq5]. destruct (att_token _ _ _ _ _ _ HI5) as [y5 Ey5].
  eapply wp_mono; [eapply att_deref_ok; [exact HI5|exact Ey5|rewrite attrefs_add, decide_True by done; lia]|].
  intros _ w6 [HI6 Hq6]. assert (w6 ≡ wu) as Hq by (by rewrite Hq6, Hq5). clear Hq4 Hq5 Hq6 HI4 HI5.
  apply wp_bind. eapply (wp_release _ (held w)); [by rewrite (equiv_held _ _ Hq)|done|]. set (w7 := set_held (held w) w6).
  assert (Inv ∅ ∅ ∅ (∅ ⊎ {[+ t +]}) w7) as HI7 by (by eapply Inv_same). destruct (att_token _ _ _ _ _ _ HI7) as [y7 Ey7].
  eapply wp_seq; [eapply wp_att_deref; [exact HI7|exact Ey7]|]. intros _ w8 [HI8 E8]. rewrite decide_True in E8.
  - apply wp_modify. split; [by eapply Inv_same|].
    assert (w8 ≡ unattached t y x w) as Hq8.
    { rewrite E8. rewrite (equiv_delete_att t _ _ (set_held_proper (held w) _ _ Hq : w7 ≡ set_held (held w) wu)).
      unfold wu, wm, unattached. cbn. rewrite delete_insert_eq. by destruct w. }
    exact (killed_proper cur _ _ Hq8).
  - unfold attrefs, att_refs. rewrite multiplicity_empty, b2n_false; [done|].
    destruct (equiv_att _ _ _ _ Hq Ey7) as [n E]. cbn in E. rewrite lookup_insert_eq in E. apply Some_inj in E.
    assert (att_ap y7 = att_ap y) as -> by exact (eq_sym (f_equal att_ap E)).
    destruct (equiv_ap _ _ _ _ (symmetry Hq) Eu) as [n6 E6]. rewrite (list_of_Some _ _ _ _ (E6 : aps w7 !! _ = _)). cbn.
    rewrite elem_of_unlink. tauto.
Qed.

Lemma close_whole_ok cur v vma t y x p g st w :
  Inv ∅ ∅ ∅ ∅ w -> chain w t y x p g st -> vmas w !! v = Some vma -> vm_private_data vma = Some t ->
  has (att_flags y) XPMEM_FLAG_DESTROYING = false ->
  vm_start vma = at_vaddr y -> vm_end vma - vm_start vma = at_size y -> 0 <= at_size y < 2 ^ 64 ->
  existsb atomic_lock (held w) = false -> AttMutex t ∉ held w ->
  wp (xpmem_close_handler cur v) (fun _ w' => Inv ∅ ∅ ∅ ∅ w' /\ w' ≡ killed cur (unattached t y x w)) w.
Proof.
  intros HI Hc Ev Hp Hnd H1 H2 H3 Hsl Hmx. pose proof Hc as [Ey Hl HP]. unfold xpmem_close_handler.
  apply wp_bind. eapply wp_load; [exact Ev|]. rewrite Hp.
  eapply wp_seq; [eapply att_ref_ok; [exact HI|tokens|exact Ey]|]. intros _ w1 [HI1 Hq1].
  pose proof (equiv_held _ _ Hq1) as Hh1. destruct (equiv_att _ _ _ _ (symmetry Hq1) Ey) as [n1 Ey1].
  apply wp_bind, wp_mutex_lock; [by rewrite Hh1|by rewrite Hh1|]. rewrite Hh1. set (L := AttMutex t :: held w).
  apply wp_bind. eapply wp_load; [exact Ey1|]. cbn [att_flags set_att_refcnt]. rewrite Hnd. cbn [at_vaddr at_size set_att_refcnt att_ap].
  rewrite H2, H1, Z.eqb_refl, (u64_id (at_size y)), Z.eqb_refl by done. cbn [andb].
  apply wp_bind, wp_bind. eapply wp_store; [exact Ey1|]. set (w2 := set_atts _ _).
  set (wm := set_held L (set_atts (<[t := marked y]> (atts w)) w)).
  assert (w2 ≡ wm) as Hq2.
  { apply (equiv_insert_att (set_held L w1) (set_held L w) t); [by apply set_held_proper|done]. }
  assert (Inv ∅ ∅ ∅ (∅ ⊎ {[+ t +]}) w2) as HI2 by (eapply (Inv_marked _ _ _ _ (set_held L w1)); [by eapply Inv_same|exact Ey1]).
  pose proof (chain_marked _ _ _ _ _ _ _ L Hc) as Hcm. fold wm in Hcm.
  destruct (chain_equiv _ _ _ _ _ _ _ _ Hq2 Hcm) as (k0 & k1 & k2 & k3 & k4 & [_ _ HP2]).
  apply wp_bind. eapply wp_mono; [eapply ap_ref_ok; [exact HI2|tokens|exact (ch_ap _ _ _ _ _ _ HP2)]|]. intros _ w3 [HI3 Hq3].
  assert (w3 ≡ wm) as Hq by (by rewrite Hq3). clear Hq2 Hq3 HI2 HP2 w2.
  destruct (chain_equiv _ _ _ _ _ _ _ _ Hq Hcm) as (m0 & m1 & m2 & m3 & m4 & [Ey3 Hl3 HP3]).
  assert (held w3 = L) as Hh3 by (by rewrite (equiv_held _ _ Hq)).
  assert (ApLock (att_ap y) ∉ L) as Hal by (apply not_elem_of_cons; split; [done|by apply not_atomic_held]).
  apply wp_bind, wp_bind, wp_acquire; [by rewrite Hh3|]. apply wp_bind. eapply wp_store; [exact (ch_ap _ _ _ _ _ _ HP3)|].
  eapply (wp_release _ L); [cbn; by rewrite Hh3|done|]. set (w4 := set_held L _).
  set (wu := set_aps (<[att_ap y := set_ap_att_list (unlink t (ap_att_list x)) x]> (aps wm)) wm).
  assert (w4 = set_aps (<[att_ap y := set_ap_att_list (unlink t (ap_att_list x)) (set_ap_refcnt m1 x)]> (aps w3)) w3) as E4
    by (unfold w4; rewrite <- Hh3; by destruct w3).
  assert (w4 ≡ wu) as Hq4 by (rewrite E4; by apply (equiv_insert_ap w3 wm)).
  assert (Inv ∅ ∅ (∅ ⊎ {[+ att_ap y +]}) (∅ ⊎ {[+ t +]} ⊎ {[+ t +]}) w4) as HI4.
  { rewrite E4. eapply (Inv_att_unlink _ _ _ _ w3 (att_ap y) (set_ap_refcnt m1 x) t _ HI3); [exact (ch_ap _ _ _ _ _ _ HP3)|exact Ey3|done|apply marked_destroying]. }
  apply wp_bind. by eapply close_end_ok.
Qed.
(** munmap of the whole of an attachment, by the process. *)
Definition munmapped cur (mm t : positive) y x (v : positive) vma w : world :=
  killed cur (unattached t y x (unmapped_vma mm v (vm_start vma) (at_size y) w)).

Lemma munmap_att_ok cur mm v vma t y x p g st w :
  Inv ∅ ∅ ∅ ∅ w -> chain w t y x p g st -> attached w t y mm v vma ->
  has (att_flags y) XPMEM_FLAG_DESTROYING = false -> held w = [] -> cur_mm cur = Some mm ->
  wp (do_vm_munmap cur (vm_start vma) (vm_end vma - vm_start vma)) (fun r w' =>
    r = 0 /\ Inv ∅ ∅ ∅ ∅ w' /\ w' ≡ munmapped cur mm t y x v vma w) w.
Proof.
  intros HI Hc [[V1 V2 V3 V4 V5 V6 V7] Hwf Hso Hop Hpd [Hr1 Hr2]] Hnd Hh Hm.
  destruct (wf_space _ _ Hwf) as (S1 & S2 & S3 & S4 & S5). unfold do_vm_munmap. rewrite Hm, <- V5.
  apply wp_bind, wp_ret. apply wp_bind, wp_mutex_lock; [by rewrite Hh|rewrite Hh; not_held|]. rewrite Hh.
  apply wp_bind, wp_get. cbn. rewrite (munmap_one _ _ _ Hso). apply wp_bind, wp_modify. apply wp_bind, wp_ret. apply wp_bind, wp_modify. cbn.
  set (w1 := set_pgt _ _). assert (vmas w1 !! v = Some (set_vm_detached vma)) as Ev1 by apply lookup_insert_eq.
  assert (Inv ∅ ∅ ∅ ∅ w1) as HI1 by (by eapply Inv_same).
  assert (chain w1 t y x p g st) as Hc1 by (destruct Hc as [Ey Hl [P1 P2 P3 P4 P5 P6 P7]]; split; [done|done|by split]).
  apply wp_bind, wp_bind. eapply wp_load; [exact Ev1|]. unfold xpmem_is_vm_ops_set. cbn [vm_ops set_vm_detached].
  rewrite Hop, bool_decide_eq_true_2 by done. cbn [whenM].
  eapply wp_seq; [eapply (close_whole_ok cur v _ t y x p g st w1 HI1 Hc1 Ev1); cbn; try done; [lia|lia|not_held]|].
  intros _ w2 [HI2 Hq2]. assert (vmas w2 = vmas w1) as Ev2 by (by rewrite (equiv_vmas _ _ Hq2)).
  apply wp_bind. eapply wp_kfree; [by rewrite Ev2|]. apply wp_ret. apply wp_bind.
  eapply (wp_release _ []); [cbn; by rewrite (equiv_held _ _ Hq2)|not_held|]. apply wp_ret. split; [done|]. split; [by eapply Inv_same|].
  rewrite Ev2. replace (set_held [] (set_vmas (delete v (vmas w1)) w2)) with (set_vmas (delete v (vmas w1)) (set_held [] w2)) by done.
  rewrite Hq2. unfold munmapped, killed, unattached, unmapped_vma, w1. cbn. rewrite delete_insert_eq, V5, Hr1.
  replace (vm_end vma - at_vaddr y) with (at_size y) by lia. rewrite <- Hh. by destruct w.
Qed.

Lemma munmapped_wf cur w mm t y x v vma :
  VmaWf w -> AttWf w -> atts w !! t = Some y -> attached w t y mm v vma ->
  VmaWf (munmapped cur mm t y x v vma w) /\ AttWf (munmapped cur mm t y x v vma w).
Proof.
  intros HV HA Ey Ha. eapply (att_gone_wf w _ mm t y v vma); try done.
  - apply vma_gone_delete.
  - intros mm' a. apply unmap_maps_nothing.
  - intros _ a Hr. destruct Ha as [[_ _ _ _ -> _ _] _ _ _ _ [H1 H2]]. apply unmap_unmaps. lia.
Qed.

(** C21: a process that unmaps an attachment with munmap instead of xpmem_detach loses it: the
    attachment, its vma and its pages are gone, the state stays consistent, and the process is
    killed.  But the pages stay pinned: no frame loses the references that the attachment
    holds, and they stay counted in the thread group of the source; compare
    [detach_releases_pages]. *)
Theorem munmap_keeps_pins cur mm v vma t y w :
  Inv ∅ ∅ ∅ ∅ w -> VmaWf w -> AttWf w -> held w = [] -> cur_mm cur = Some mm ->
  atts w !! t = Some y -> attached w t y mm v vma ->
  exists w', do_vm_munmap cur (at_vaddr y) (at_size y) w = Ok 0 w' /\ Inv ∅ ∅ ∅ ∅ w' /\ VmaWf w' /\ AttWf w' /\
    atts w' !! t = None /\ vmas w' !! v = None /\
    (forall a, at_vaddr y <= a < at_vaddr y + at_size y -> mapped_pfn (pgt w') mm a = None) /\
    sigkilled w' = cur_tgid cur :: sigkilled w /\
    pages w' = pages w /\ part w' = part w /\ tg_n_pinned <$> tgs w' = tg_n_pinned <$> tgs w.
Proof.
  intros HI HV HA Hh Hm Ey Ha. destruct (vw_attached _ HV t y Ey) as [Hnd _].
  destruct (chain_of _ _ _ _ _ _ _ HI Ey) as (x & p & g & st & Hc); [by eapply rest_listed|].
  destruct (wp_inv _ _ _ (munmap_att_ok cur mm v vma t y x p g st w HI Hc Ha Hnd Hh Hm)) as (r & w' & E & -> & HI' & Hq).
  pose proof Ha as [_ _ _ _ _ [Hr1 Hr2]]. rewrite Hr2, Hr1 in E. replace (at_vaddr y + at_size y - at_vaddr y) with (at_size y) in E by lia.
  destruct (munmapped_wf cur w mm t y x v vma HV HA Ey Ha) as [HV' HA'].
  exists w'. rewrite (equiv_pgt _ _ Hq), (equiv_pages _ _ Hq), (equiv_vmas _ _ Hq), (equiv_part _ _ Hq). split_and!; try done.
  - by eapply VmaWf_equiv.
  - by eapply AttWf_equiv.
  - destruct (atts w' !! t) as [y'|] eqn:E'; [|done]. destruct (equiv_att _ _ _ _ Hq E') as [n F]. cbn in F. by rewrite lookup_delete_eq in F.
  - apply lookup_delete_eq.
  - intros a Hr. cbn. apply unmap_unmaps. lia.
  - exact (f_equal sigkilled (same_erase _ _ Hq)).
  - by apply (equiv_tgs tg_n_pinned _ _ (fun _ => eq_refl) Hq).
Qed.

(** * Unmapping a part *)

Definition cut (r : vm_area_struct) (y : xpmem_attachment) : xpmem_attachment :=
  set_at_range (vm_start r) (u64 (vm_end r - vm_start r)) y.

(** The attachment shrinks to the vma that is left. *)
Definition cut_down cur (v : positive) vma (t : positive) y r w : world :=
  killed cur (set_vmas (<[v := set_vm_private_data None vma]> (vmas w)) (set_atts (<[t := cut r y]> (atts w)) w)).

Lemma remaining_ok cur mm u r vma a w :
  cur_mm cur = Some mm -> find_vma (vmas w) mm a = Some u -> vmas w !! u = Some r -> vm_start r <= a ->
  vm_private_data r = vm_private_data vma -> close_remaining cur vma a w = Ok u w.
Proof.
  intros Hm Ef Er Hs Hp. unfold close_remaining, mbind, M_bind, get, vma_load, load, nonnull, mret, M_ret. rewrite Hm, Ef, Er.
  unfold BUG_ON, guardM. rewrite Hp, bool_decide_eq_true_2 by done. by replace (vm_start r >? a) with false by lia.
Qed.

(** The close handler on a vma that has the head or the tail of an attachment and the pointer to it; [u]
    is what the kernel has left of the attachment's vma. *)
Lemma close_part_ok cur mm v vma t y u r w :
  let a := if vm_start vma =? at_vaddr y then vm_end vma else at_vaddr y in
  Inv ∅ ∅ ∅ ∅ w -> cur_mm cur = Some mm -> vmas w !! v = Some vma -> vm_private_data vma = Some t -> atts w !! t = Some y ->
  has (att_flags y) XPMEM_FLAG_DESTROYING = false ->
  (vm_start vma =? at_vaddr y) && (u64 (vm_end vma - vm_start vma) =? at_size y) = false ->
  vm_start vma = at_vaddr y \/ vm_end vma = u64 (at_vaddr y + at_size y) ->
  find_vma (vmas w) mm a = Some u -> vmas w !! u = Some r -> vm_start r <= a -> vm_private_data r = Some t ->
  existsb atomic_lock (held w) = false -> AttMutex t ∉ held w ->
  wp (xpmem_close_handler cur v) (fun _ w' => Inv ∅ ∅ ∅ ∅ w' /\ w' ≡ cut_down cur v vma t y r w) w.
Proof.
  intros a HI Hm Ev Hp Ey Hnd Hw Hpart Ef Er Hs Hpr Hsl Hmx. unfold xpmem_close_handler.
  apply wp_bind. eapply wp_load; [exact Ev|]. rewrite Hp.
  eapply wp_seq; [eapply att_ref_ok; [exact HI|tokens|exact Ey]|]. intros _ w1 [HI1 Hq1].
  pose proof (equiv_held _ _ Hq1) as Hh1. pose proof (equiv_vmas _ _ Hq1) as Ev1. destruct (equiv_att _ _ _ _ (symmetry Hq1) Ey) as [n1 Ey1].
  apply wp_bind, wp_mutex_lock; [by rewrite Hh1|by rewrite Hh1|]. rewrite Hh1. set (L := AttMutex t :: held w).
  apply wp_bind. eapply wp_load; [exact Ey1|]. cbn [att_flags set_att_refcnt]. rewrite Hnd. cbn [at_vaddr at_size set_att_refcnt att_ap]. rewrite Hw.
  apply wp_bind, wp_bind.
  assert (forall a' : Z, a' = a -> wp (close_remaining cur vma a') (fun r' w' => r' = u /\ w' = set_held L w1) (set_held L w1)) as Hrem.
  { intros a' ->. eapply wp_Ok; [eapply (remaining_ok cur mm u r); cbn; rewrite ?Ev1; try done; by rewrite Hpr, Hp|done]. }
  eapply (wp_mono _ (fun a' w' => a' = a /\ w' = set_held L w1)).
  { unfold a. destruct (vm_start vma =? at_vaddr y) eqn:E1; [by apply wp_ret|]. destruct Hpart as [Hx|Hx]; [rewrite Hx, Z.eqb_refl in E1; done|].
    rewrite Hx, Z.eqb_refl. by apply wp_ret. }
  intros a' w' [Ha' ->]. apply wp_bind. eapply wp_mono; [by apply Hrem|]. intros r' w' [-> ->].
  apply wp_bind. eapply wp_load; [cbn; by rewrite Ev1|]. apply wp_bind. eapply wp_store; [exact Ey1|].
  eapply wp_store; [cbn; by rewrite Ev1|]. cbn. set (w2 := set_vmas _ _).
  set (wc := set_vmas (<[v := set_vm_private_data None vma]> (vmas w)) (set_atts (<[t := cut r y]> (atts w)) w)).
  assert (w2 ≡ set_held L wc) as Hq2.
  { unfold w2. rewrite Ev1. apply (set_vmas_proper _ _ (set_atts (<[t := cut r y]> (atts (set_held L w))) (set_held L w))).
    apply (equiv_insert_att (set_held L w1) (set_held L w)); [by apply set_held_proper|done]. }
  assert (Inv ∅ ∅ ∅ (∅ ⊎ {[+ t +]}) w2) as HI2.
  { pose proof (att_all (inv_att HI1) t _ Ey1) as Hok. eapply (Inv_same _ _ _ _ (set_atts (<[t := cut r (set_att_refcnt n1 y)]> (atts w1)) w1)); [|done..].
    eapply (Inv_att_update ∅ ∅ ∅ _ _ w1 t); [exact HI1|exact Ey1|done| |done|apply Hok..]. exact (att_unlisted Hok). }
  clearbody w2. apply wp_bind. eapply (wp_release _ (held w)); [by rewrite (equiv_held _ _ Hq2)|done|].
  set (w3 := set_held (held w) w2). assert (w3 ≡ wc) as Hq3 by (unfold w3; rewrite Hq2; unfold wc; by destruct w).
  assert (Inv ∅ ∅ ∅ (∅ ⊎ {[+ t +]}) w3) as HI3 by (by eapply Inv_same). destruct (att_token _ _ _ _ _ _ HI3) as [y3 Ey3].
  destruct (equiv_att _ _ _ _ Hq3 Ey3) as [n E]. cbn in E. rewrite lookup_insert_eq in E. apply Some_inj in E.
  eapply wp_seq; [eapply att_deref_ok; [exact HI3|exact Ey3|]|].
  { unfold attrefs, att_refs. assert (att_ap y3 = att_ap y) as -> by exact (eq_sym (f_equal att_ap E)).
    rewrite (list_of_fmap ap_att_list _ _ _ (equiv_aps ap_att_list _ _ (fun _ => eq_refl) Hq3)).
    rewrite (b2n_true _ (rest_listed _ _ _ _ _ _ HI Ey)). lia. }
  intros _ w4 [HI4 Hq4]. apply wp_modify. split; [by eapply Inv_same|]. apply (killed_proper cur w4 wc). by rewrite Hq4.
Qed.

End close.

(** * Unmapping a part, as the kernel does it *)

(** munmap of a part of one mapping splits it.  The vma keeps the rest, in the middle the part before
    the range; the other parts are new vmas, copies, which are opened; the one that lies in the range
    is taken out of the tree and closed. *)
Inductive split_vma (tb : vma_table) (v : positive) (vma : vm_area_struct) (start len : Z) : munmap_result -> Prop :=
  | split_head n : start = vm_start vma -> start + len < vm_end vma -> tb !! n = None ->
      split_vma tb v vma start len (mk_munmap [n] [n]
        (<[n := set_vm_detached (set_vm_range start (start + len) vma)]> (<[v := set_vm_range (start + len) (vm_end vma) vma]> tb)))
  | split_tail n : vm_start vma < start -> start + len = vm_end vma -> tb !! n = None ->
      split_vma tb v vma start len (mk_munmap [n] [n]
        (<[n := set_vm_detached (set_vm_range start (vm_end vma) vma)]> (<[v := set_vm_range (vm_start vma) start vma]> tb)))
  | split_middle n m : vm_start vma < start -> start + len < vm_end vma -> tb !! n = None -> tb !! m = None -> n <> m ->
      split_vma tb v vma start len (mk_munmap [n; m] [m]
        (<[m := set_vm_detached (set_vm_range start (start + len) vma)]>
          (<[n := set_vm_range (start + len) (vm_end vma) vma]> (<[v := set_vm_range (vm_start vma) start vma]> tb)))).

Class SplitVma `(K : Kernel) : Prop := {
  munmap_part : forall tb v vma start len r, sole_vma tb v vma ->
    vm_start vma <= start -> 0 < len < vm_end vma - vm_start vma -> start + len <= vm_end vma ->
    offset_in_page start = 0 -> offset_in_page len = 0 ->
    vm_munmap tb (vm_mm vma) start len = inr r -> split_vma tb v vma start len r;
}.

Section split.
Context `{K : Kernel} {SV : SplitVma K}.
Implicit Types (w : world) (cur : task).

(** The open handler takes the pointer off a copy of an attachment's vma. *)
Lemma open_copy n d t y l w :
  vmas w !! n = Some d -> vm_ops d = xpmem_vm_ops -> vm_private_data d = Some t -> atts w !! t = Some y -> at_vma y <> Some n ->
  open_vmas (n :: l) w = open_vmas l (set_vmas (<[n := set_vm_private_data None d]> (vmas w)) w).
Proof.
  intros Ed Ho Hp Ey Hy. cbn [open_vmas]. unfold mbind, M_bind, vma_load, load. rewrite Ed. unfold xpmem_is_vm_ops_set.
  rewrite bool_decide_eq_true_2 by done. cbn [whenM]. unfold xpmem_open_handler, mbind, M_bind, vma_load, att_load, load. rewrite Ed, Hp, Ey.
  rewrite bool_decide_eq_false_2 by done. cbn [negb whenM]. unfold vma_store, store. by rewrite Ed.
Qed.

(** The close handler does nothing for a vma without the pointer. *)
Lemma close_copy cur n d w :
  vmas w !! n = Some d -> vm_private_data d = None -> close_vmas cur [n] w = Ok () (set_vmas (delete n (vmas w)) w).
Proof.
  intros Ed Hp. apply wp_outcome. cbn [close_vmas]. apply wp_bind. eapply wp_load; [exact Ed|]. apply wp_bind, wp_when.
  - intros _. unfold xpmem_close_handler. apply wp_bind. eapply wp_load; [exact Ed|]. rewrite Hp. apply wp_ret.
    apply wp_bind. eapply wp_kfree; [exact Ed|]. by apply wp_ret.
  - intros _. apply wp_bind. eapply wp_kfree; [exact Ed|]. by apply wp_ret.
Qed.

(** The vma is smaller; nothing else of the module has changed. *)
Record shrunk (v : positive) (vma : vm_area_struct) w w' : Prop := {
  shr_module : exists tb pg, w' = set_vmas tb (set_pgt pg w);
  shr_vma : exists s e, vmas w' !! v = Some (set_vm_range s e vma) /\ e < s + (vm_end vma - vm_start vma) /\
    vm_start vma <= s /\ e <= vm_end vma;
}.

(** From the split on. *)
Lemma split_run cur mm v vma start len r tb c d w :
  held w = [] -> let w1 := set_vmas (mu_table r) (set_held (MmapLock mm :: held w) w) in
  open_vmas (mu_opened r) w1 = Ok () (set_vmas tb w1) -> mu_closed r = [c] -> tb !! c = Some d -> vm_private_data d = None ->
  (exists s e, delete c tb !! v = Some (set_vm_range s e vma) /\ e < s + (vm_end vma - vm_start vma) /\ vm_start vma <= s /\ e <= vm_end vma) ->
  wp (open_vmas (mu_opened r) ;; modify (set_pgt (unmap_ptes (pgt w) mm start len)) ;;
      close_vmas cur (mu_closed r) ;; xpmem_mmap_write_unlock mm ;; mret 0)
    (fun r' w' => r' = 0 /\ shrunk v vma w w') w1.
Proof.
  intros Hh w1 Eo Ec Ed Hd Hv. apply wp_bind. eapply wp_Ok; [exact Eo|]. apply wp_bind, wp_modify. rewrite Ec.
  apply wp_bind. eapply wp_Ok; [by apply (close_copy cur c d)|]. cbn. apply wp_bind. eapply (wp_release _ (held w)); [done|rewrite Hh; not_held|].
  apply wp_ret. split; [done|]. split; [|exact Hv]. exists (delete c tb), (unmap_ptes (pgt w) mm start len). clear. by destruct w.
Qed.

Ltac shrunk_vma := rewrite lookup_delete_ne by done; cbn; rewrite !lookup_insert_ne by done; rewrite lookup_insert_eq; eexists _, _; split; [done|lia].

Lemma munmap_part_ok cur v vma t y start len r w :
  cur_mm cur = Some (vm_mm vma) -> held w = [] -> sole_vma (vmas w) v vma -> vm_ops vma = xpmem_vm_ops ->
  vm_private_data vma = Some t -> atts w !! t = Some y -> at_vma y = Some v -> 0 < len ->
  vm_munmap (vmas w) (vm_mm vma) start len = inr r -> split_vma (vmas w) v vma start len r ->
  wp (do_vm_munmap cur start len) (fun r' w' => r' = 0 /\ shrunk v vma w w') w.
Proof.
  intros Hm Hh (Ev & _) Ho Hp Ey Hy Hl Er Hsp.
  unfold do_vm_munmap. rewrite Hm. apply wp_bind, wp_ret. apply wp_bind, wp_mutex_lock; [by rewrite Hh|rewrite Hh; not_held|].
  apply wp_bind, wp_get. cbn [vmas set_held]. rewrite Er. apply wp_bind, wp_modify.
  assert (forall n : positive, n <> v -> at_vma y <> Some n) as Hat by (intros n Hn; rewrite Hy; congruence).
  destruct Hsp as [n H1 H2 Hn|n H1 H2 Hn|n m H1 H2 Hn Hm' Hnm]; (assert (n <> v) as Hnv by congruence).
  1, 2: eapply (split_run cur (vm_mm vma) v vma start len _ _ n _ w); [done|cbn [mu_opened]; erewrite (open_copy n _ t y) by (apply lookup_insert_eq || auto); reflexivity
    |done|apply lookup_insert_eq|done|shrunk_vma].
  assert (m <> v) as Hmv by congruence. eapply (split_run cur (vm_mm vma) v vma start len _ _ m _ w); [done
    |cbn [mu_opened]; do 2 erewrite (open_copy _ _ t y) by (first [cbn; rewrite lookup_insert_ne by done; apply lookup_insert_eq|auto]); reflexivity
    |done|apply lookup_insert_eq|done|shrunk_vma].
Qed.

(** C22: unmapping a part of an attachment, its head, its tail or its middle, goes unnoticed.  The
    kernel splits the vma, and the open handler takes the attachment's pointer off every new vma,
    so that the close handler finds nothing to do for the part that is unmapped: the attachment
    keeps its address and size, its pages stay pinned, and the process is not killed.  The vma and
    the attachment no longer agree: the range that a later detach unmaps, as long as the
    attachment from the start of the vma, ends beyond the vma. *)
Theorem munmap_part_unnoticed cur mm v vma t y start len r w :
  held w = [] -> cur_mm cur = Some mm -> atts w !! t = Some y -> attached w t y mm v vma ->
  at_vaddr y <= start -> 0 < len < at_size y -> start + len <= at_vaddr y + at_size y ->
  offset_in_page start = 0 -> offset_in_page len = 0 -> vm_munmap (vmas w) mm start len = inr r ->
  exists w' u, do_vm_munmap cur start len w = Ok 0 w' /\
    atts w' = atts w /\ pages w' = pages w /\ tgs w' = tgs w /\ sigkilled w' = sigkilled w /\
    vmas w' !! v = Some u /\ vm_private_data u = Some t /\ vm_end u < vm_start u + at_size y.
Proof.
  intros Hh Hm Ey [[V1 V2 V3 V4 V5 V6 V7] Hwf Hso Hop Hpd [Hr1 Hr2]] Hst Hl Hen Hz1 Hz2 Er. rewrite <- Hr1, <- V5 in *.
  assert (at_size y = vm_end vma - vm_start vma) as Hsz by lia. rewrite Hsz in *.
  pose proof (munmap_part _ _ _ _ _ _ Hso Hst Hl ltac:(lia) Hz1 Hz2 Er) as Hsp.
  destruct (wp_inv _ _ _ (munmap_part_ok cur v vma t y start len r w Hm Hh Hso Hop Hpd Ey V2 ltac:(lia) Er Hsp)) as (r' & w' & E & -> & Hs).
  destruct Hs as [(tb & pg & ->) (s & e & Ev & He & _)]. exists (set_vmas tb (set_pgt pg w)), (set_vm_range s e vma). by split_and!.
Qed.
End split.
