(* ===== verification/FaultWf.v ===== *)
(** A page fault keeps the vmas, the attachments and the page tables consistent: the
    pages it maps are in the attachment, which is marked first, and in the vma of the source. *)

From S2P Require Import Prelude Kernel World Monad Ids Misc Pfn Attach Fault Inv Graph Link Refs Lookup.
From S2P Require Import MakeSpec PfnSpec Invalidated ClearSpec Chain PinSpec FaultSpec DetachSpec.

Section fault_wf.
Context `{K : Kernel} {G : KernelGeometry K} {VT : VmaTree K} {MP : MapPages K}.
Implicit Types (w : world) (cur : task).

(** Faulting a page of the source in maps pages of its vma only. *)
Definition gup_inside w (smm : positive) (a : Z) : Prop :=
  forall u mm b, source_vma w smm a = Some u -> is_Some (mapped_pfn (get_user_pages_remote (pgt w) smm a).2 mm b) ->
    is_Some (mapped_pfn (pgt w) mm b) \/ mm = smm /\ vm_start u <= b < vm_end u.

Lemma source_vma_spec w smm a u : source_vma w smm a = Some u ->
  exists v, vmas w !! v = Some u /\ vm_mm u = smm /\ vm_detached u = false /\ vm_ops u <> xpmem_vm_ops /\
    vm_start u <= a < vm_end u.
Proof.
  unfold source_vma. destruct (find_vma _ _ _) as [v|] eqn:Ef; [|done]. unfold mbind, option_bind.
  destruct (find_vma_lookup _ _ _ _ Ef) as (vma & Ev & Hm & Ha & Hd). rewrite Ev.
  destruct (_ || _) eqn:Eo; [done|]. intros [= <-]. apply orb_false_iff in Eo as [E1 E2].
  exists v. split_and!; try done; [|lia]. by apply bool_decide_eq_false_1 in E2.
Qed.

(** What a fault at [vaddr] in the attachment [t] does to page tables and marks. *)
Record faulted w w' (t : positive) (y : xpmem_attachment) (mm smm : positive) (a vaddr : Z) : Prop := {
  fd_vmas : vmas w' = vmas w;
  fd_atts : atts w' = atts w \/ atts w' = <[t := set_valid y]> (atts w);
  fd_maps : forall mm' b, is_Some (mapped_pfn (pgt w') mm' b) ->
    is_Some (mapped_pfn (pgt w) mm' b) \/
    (exists u, source_vma w smm a = Some u /\ mm' = smm /\ vm_start u <= b < vm_end u) \/
    (mm' = mm /\ b / PAGE_SIZE = vaddr / PAGE_SIZE /\ atts w' = <[t := set_valid y]> (atts w));
}.

Lemma faulted_refl w t y mm smm a vaddr : faulted w w t y mm smm a vaddr.
Proof. split; [done|by left|by left]. Qed.

Lemma pin_spec_maps q smm a w mm' b :
  gup_inside w smm a -> is_Some (mapped_pfn (pgt (pin_spec q smm a w).2) mm' b) ->
  is_Some (mapped_pfn (pgt w) mm' b) \/ exists u, source_vma w smm a = Some u /\ mm' = smm /\ vm_start u <= b < vm_end u.
Proof.
  intros Hg. unfold pin_spec. destruct (source_vma w smm a) as [u|] eqn:Eu; [|by left].
  destruct (tgs w !! q); [|by left]. destruct (part w); [|by left].
  pose proof (fun H => Hg u mm' b Eu H) as H. destruct (get_user_pages_remote _ _ _) as [[ret page] pg]. cbn in H.
  destruct (ret =? 1); cbn; intros [|Hb]%H; eauto.
Qed.

Lemma pin_spec_zero q smm a w : (pin_spec q smm a w).1.1 <> 0 -> (pin_spec q smm a w).1.2 = 0.
Proof. unfold pin_spec. by repeat case_match. Qed.

Lemma pin_spec_vmas q smm a w : vmas (pin_spec q smm a w).2 = vmas w.
Proof. unfold pin_spec. by repeat case_match. Qed.

Lemma fault_spec_faulted cur mm vma t y x p g st smm vaddr w :
  gup_inside w smm (fault_addr y vaddr) -> vm_mm vma = mm ->
  faulted w (fault_spec cur mm vma t y x p g st smm vaddr w).2 t y mm smm (fault_addr y vaddr) vaddr.
Proof.
  intros Hg Hm. unfold fault_spec. destruct (_ || _ || _ || _); [apply faulted_refl|].
  unfold fault_mid. destruct (_ || _).
  { cbn. unfold fault_install_spec. cbn. apply faulted_refl. }
  unfold fault_pin_spec. set (a := fault_addr y vaddr) in *. set (r := pin_spec (seg_tg g) smm a w). cbn [fst snd].
  pose proof (pin_spec_maps (seg_tg g) smm a w) as Hmaps. pose proof (pin_spec_vmas (seg_tg g) smm a w) as Hv.
  pose proof (pin_spec_atts (seg_tg g) smm a w) as Ha. pose proof (pin_spec_zero (seg_tg g) smm a w) as H0. fold r in Hmaps, Hv, Ha, H0.
  set (m := if r.1.1 =? 0 then _ else _).
  assert (pgt m = pgt r.2 /\ vmas m = vmas w) as [Em Evm] by (unfold m; by destruct (_ =? 0)).
  assert (atts m = if r.1.1 =? 0 then <[t := set_valid y]> (atts w) else atts w) as Eam by (unfold m; by destruct (_ =? 0)).
  assert (forall w', vmas w' = vmas m -> atts w' = atts m -> pgt w' = pgt m -> faulted w w' t y mm smm a vaddr) as Hsame.
  { intros w' E1 E2 E3. split; [congruence| |].
    - rewrite E2, Eam. destruct (_ =? 0); auto.
    - intros mm' b Hb. rewrite E3, Em in Hb. destruct (Hmaps mm' b Hg Hb); auto. }
  unfold fault_install_spec. destruct (Z.eqb_spec r.1.2 0) as [|Hp]; [by apply Hsame|]. cbn [orb].
  destruct (negb (pfn_valid _)); [by apply Hsame|]. destruct (negb _).
  { destruct (tgs m !! _); [|by apply Hsame]. destruct (part m); by apply Hsame. }
  destruct (remap_pfn_range _ _ _ _) as [ret pg] eqn:Er. cbn.
  assert (r.1.1 = 0) as Hr0 by (destruct (decide (r.1.1 = 0)); [done|by destruct Hp; apply H0]).
  rewrite Hr0 in Eam. cbn in Eam. split; [done|by right|]. cbn. intros mm' b Hb.
  destruct (remap_only (pgt m) vma vaddr r.1.2 mm' b) as [H|[H1 H2]]; [by rewrite Er| |].
  - rewrite Em in H. destruct (Hmaps mm' b Hg H); auto.
  - right. right. split_and!; [congruence|done|done].
Qed.

Lemma norm_set_valid y : norm_valid (set_valid y) = norm_valid y.
Proof.
  assert (forall f m, clear (Z.lor f m) m = clear f m) as H
    by (intros; unfold clear; rewrite Z.land_lor_distr_l, Z.land_lnot_diag; apply Z.lor_0_r).
  unfold norm_valid, set_valid, set_att_flags, set_att_refcnt. cbn [att_flags at_vaddr att_vaddr at_size at_vma att_ap att_mm]. by rewrite H.
Qed.

Lemma page_inside lo hi vaddr b :
  offset_in_page lo = 0 -> offset_in_page hi = 0 -> lo <= vaddr < hi -> b / PAGE_SIZE = vaddr / PAGE_SIZE -> lo <= b < hi.
Proof.
  rewrite !offset_in_page_mod. pose proof PAGE_SIZE_pos as Hp. intros Hlo Hhi Hr E.
  pose proof (Z.div_mod lo PAGE_SIZE). pose proof (Z.div_mod hi PAGE_SIZE). pose proof (Z.div_mod b PAGE_SIZE).
  pose proof (Z.div_mod vaddr PAGE_SIZE). pose proof (Z.mod_pos_bound b PAGE_SIZE Hp). pose proof (Z.mod_pos_bound vaddr PAGE_SIZE Hp).
  pose proof (Z.div_le_mono lo vaddr PAGE_SIZE Hp).
  assert (vaddr / PAGE_SIZE < hi / PAGE_SIZE) by (apply Z.div_lt_upper_bound; lia). nia.
Qed.

Section wf.
Context (w w' : world) (t : positive) (y : xpmem_attachment) (mm smm v : positive) (vma : vm_area_struct) (a vaddr : Z).
Context (HV : VmaWf w) (HA : AttWf w) (Ey : atts w !! t = Some y) (Hat : attached w t y mm v vma).
Context (Hva : vm_start vma <= vaddr < vm_end vma) (Hf : faulted w w' t y mm smm a vaddr).

Lemma faulted_back t' y' : atts w' !! t' = Some y' ->
  exists y0, atts w !! t' = Some y0 /\ norm_valid y0 = norm_valid y' /\ (y' = y0 \/ t' = t /\ y' = set_valid y).
Proof.
  destruct (fd_atts _ _ _ _ _ _ _ _ Hf) as [-> | ->]; [eauto|].
  intros [[<- <-]|[_ E]]%lookup_insert_Some; [|eauto]. exists y. split; [done|]. rewrite norm_set_valid. auto.
Qed.

Lemma fault_page_inside b : b / PAGE_SIZE = vaddr / PAGE_SIZE -> vm_start vma <= b < vm_end vma.
Proof.
  intros E. destruct Hat as [_ Hwf _ _ _ [R1 R2]]. destruct (wf_aligned _ _ Hwf) as (_ & A2 & A3).
  apply (page_inside _ _ vaddr); [by rewrite R1|rewrite R2; by apply offset_add|done|done].
Qed.

(** No page of an attachment comes from the source, or from a fault of another attachment. *)
Lemma faulted_unmapped t' y0 : atts w !! t' = Some y0 -> unmapped (pgt w) y0 ->
  (t' = t -> atts w' <> <[t := set_valid y]> (atts w)) -> unmapped (pgt w') y0.
Proof.
  intros E0 Hu Hne mm' b Em Hb. destruct (mapped_pfn (pgt w') mm' b) eqn:E; [exfalso|done].
  destruct (vw_attached _ HV t' y0 E0) as (_ & mm0 & v0 & vma0 & Ha0).
  pose proof Ha0 as [[V1 V2 V3 V4 V5 V6 V7] _ (S1 & S2 & S3 & S4) O1 O2 [R1 R2]].
  assert (mm0 = mm') as -> by congruence.
  destruct (fd_maps _ _ _ _ _ _ _ _ Hf mm' b) as [H|[(u & Hu' & -> & Hr)|(-> & Hp & Hv')]]; [by rewrite E| | |].
  - rewrite (Hu mm' b Em Hb) in H. by destruct H.
  - destruct (source_vma_spec _ _ _ _ Hu') as (v1 & E1 & M1 & D1 & N1 & _).
    assert (v1 = v0) as -> by (apply (S4 v1 u); try done; [congruence|lia..]). congruence.
  - apply fault_page_inside in Hp. pose proof Hat as [[_ _ F3 _ F5 _ _] _ (_ & D1 & _) _ P1 _].
    assert (v = v0) as <- by (apply (S4 v vma); try done; [congruence|lia..]).
    assert (t' = t) as -> by congruence. by apply Hne.
Qed.

Lemma faulted_wf : VmaWf w' /\ AttWf w'.
Proof.
  pose proof (fd_vmas _ _ _ _ _ _ _ _ Hf) as Ev.
  assert (forall t' y', atts w' !! t' = Some y' -> has (att_flags y') XPMEM_FLAG_DESTROYING = false /\
    exists mm v vma, attached w' t' y' mm v vma) as Hall.
  { intros t' y' (y0 & E0 & En & _)%faulted_back. destruct (vw_attached _ HV t' y0 E0) as (Hd & mm0 & v0 & vma0 & Ha0).
    split; [by rewrite (norm_destroying y0 y' En)|]. exists mm0, v0, vma0. by apply (attached_norm w w' t' y0). }
  split; split.
  - intros mm' b Hb. rewrite Ev. destruct (fd_maps _ _ _ _ _ _ _ _ Hf mm' b Hb) as [H|[(u & Hu & -> & Hr)|(-> & Hp & _)]].
    + by apply (vw_ptes _ HV).
    + destruct (source_vma_spec _ _ _ _ Hu) as (v1 & E1 & M1 & D1 & _). by exists v1, u.
    + exists v, vma. pose proof Hat as [[_ _ F3 _ F5 _ _] _ (_ & D1 & _) _ _ _]. split_and!; try done; by apply fault_page_inside.
  - exact Hall.
  - intros v' u t'. rewrite Ev. intros Eu Ho Hd. destruct (vw_back _ HV v' u t' Eu Ho Hd) as (y0 & E0 & Hy0).
    destruct (fd_atts _ _ _ _ _ _ _ _ Hf) as [-> | ->]; [eauto|]. rewrite lookup_insert. case_decide as Ht; [|eauto]. subst t'.
    exists (set_valid y). split; [done|]. assert (y0 = y) as -> by congruence. done.
  - rewrite Ev. apply HV.
  - intros t' y' E _. destruct (Hall t' y' E) as (_ & ? & ? & ? & H). apply H.
  - intros t' y' E _. destruct (Hall t' y' E) as (_ & ? & ? & ? & H). apply H.
  - intros t' y' E Hn Hl. destruct (faulted_back t' y' E) as (y0 & E0 & En & Hy).
    assert (y' = y0) as ->.
    { destruct Hy as [|[-> ->]]; [done|]. by rewrite set_valid_valid in Hn. }
    apply (faulted_unmapped t'); [done|by apply (wf_invalid _ HA t')|]. intros -> Eat. rewrite Eat, lookup_insert_eq in E.
    injection E as <-. by rewrite set_valid_valid in Hn.
Qed.
End wf.
End fault_wf.
