(* ===== verification/RemoveSpec.v ===== *)
(** Removing segments (xpmem_make.c): [xpmem_remove_seg] and [xpmem_remove]
    invalidate every attachment of the segment, take it off its thread group and
    free it when no permit uses it; nothing else changes. *)

From S2P Require Import Prelude Kernel World Monad Ids Misc Pfn Attach Make Inv Graph Link Refs Lookup.
From S2P Require Import MakeSpec GetSpec PfnSpec Invalidated ClearSpec.

Section remove.
Context `{K : Kernel} {G : KernelGeometry K} {PT : PageTables K} {ZP : ZapPtes K}.
Context (HG : PGDIR_SHIFT <= PAGE_SHIFT + 31).
Implicit Types (T S A B : gmultiset positive) (w : world) (cur : task).

(** * Updates respect [invalidated] *)

Lemma invalidated_seg_store w w' s g g0 g' :
  invalidated w w' -> segs w !! s = Some g0 -> seg_tg g0 = seg_tg g -> set_seg_refcnt 0 g = set_seg_refcnt 0 g' ->
  invalidated (set_segs (<[s := g]> (segs w)) w) (set_segs (<[s := g']> (segs w')) w').
Proof.
  intros [H Hv Hm Hu [D HD]] E0 Hg Eg. split; [|exact Hv|exact Hm|exact Hu|].
  - unfold links in *. cbn. injection H. intros. rewrite !fmap_insert, Eg. congruence.
  - exists D. eapply dropped_step; [exact HD|try done; eauto..].
    intros q h. cbn. rewrite lookup_insert. case_decide; [|eauto]. subst. intros [= <-]. eauto.
Qed.

Lemma invalidated_seg_delete w w' s :
  invalidated w w' -> invalidated (set_segs (delete s (segs w)) w) (set_segs (delete s (segs w')) w').
Proof.
  intros [H Hv Hm Hu [D HD]]. split; [|exact Hv|exact Hm|exact Hu|].
  - unfold links in *. cbn. injection H. intros. rewrite !fmap_delete. congruence.
  - exists D. eapply dropped_step; [exact HD|try done; eauto..]. intros q h. cbn. intros [_ E]%lookup_delete_Some. eauto.
Qed.

(** [t] is stored in place of a group with the same pin count. *)
Definition pins_kept w (p : positive) (t : xpmem_thread_group) : Prop :=
  exists t0, tgs w !! p = Some t0 /\ tg_n_pinned t0 = tg_n_pinned t.

Lemma pins_kept_store w p t q u :
  pins_kept w p t -> <[p := t]> (tgs w) !! q = Some u -> exists t0, tgs w !! q = Some t0 /\ tg_n_pinned t0 = tg_n_pinned u.
Proof. intros Ht. rewrite lookup_insert. case_decide; [|eauto]. subst. by intros [= <-]. Qed.

Lemma invalidated_tg_store w w' p t t' :
  invalidated w w' -> norm_pins t = norm_pins t' -> pins_kept w p t -> pins_kept w' p t' ->
  invalidated (set_tgs (<[p := t]> (tgs w)) w) (set_tgs (<[p := t']> (tgs w')) w').
Proof.
  intros [H Hv Hm Hu [D HD]] Et Ht Ht'. split; [|exact Hv|exact Hm|exact Hu|].
  - unfold links in *. cbn. injection H. intros. rewrite !fmap_insert, Et. congruence.
  - exists D. eapply dropped_step; [exact HD|try done; eauto..]; intros q u; by apply pins_kept_store.
Qed.

Lemma norm_pins_seg_list t t' l :
  norm_pins t = norm_pins t' -> norm_pins (set_seg_list l t) = norm_pins (set_seg_list l t').
Proof. intros E. exact (f_equal (set_seg_list l) E). Qed.

Lemma invalidated_tg_seg_store w w' p t t' s g g0 g' :
  invalidated w w' -> norm_pins t = norm_pins t' -> pins_kept w p t -> pins_kept w' p t' ->
  segs w !! s = Some g0 -> seg_tg g0 = seg_tg g -> set_seg_refcnt 0 g = set_seg_refcnt 0 g' ->
  invalidated (set_tgs (<[p := t]> (tgs w)) (set_segs (<[s := g]> (segs w)) w))
    (set_tgs (<[p := t']> (tgs w')) (set_segs (<[s := g']> (segs w')) w')).
Proof.
  intros H Et Ht Ht' E0 Hg Eg. apply (invalidated_seg_store w w' s g g0 g') in H; [|done..].
  exact (invalidated_tg_store _ _ p t t' H Et Ht Ht').
Qed.

(** ** Steps that leave the attachments alone *)

Definition same_atts w w' : Prop :=
  pgt w' = pgt w /\ forall t y', atts w' !! t = Some y' -> exists n, atts w !! t = Some (set_att_refcnt n y').

Lemma equiv_same_atts w w' : w' ≡ w -> same_atts w w'.
Proof.
  intros H. split; [|intros t y' E; by apply (equiv_att _ _ _ _ H)].
  destruct H as [H]. exact (f_equal pgt H).
Qed.

Lemma ap_cleared_atts start end_ from_mmu a w w1 w' :
  same_atts w1 w' -> ap_cleared start end_ from_mmu a w w1 -> ap_cleared start end_ from_mmu a w w'.
Proof.
  intros [Ep H] Hc x t Ex Ht y y' Ey Ey'. destruct (H t y' Ey') as [n En]. rewrite Ep.
  exact (Hc x t Ex Ht y _ Ey En).
Qed.

Lemma ap_cleared_from start end_ from_mmu a w w1 w' :
  w1 ≡ w -> ap_cleared start end_ from_mmu a w1 w' -> ap_cleared start end_ from_mmu a w w'.
Proof. intros H. eapply ap_cleared_after, equiv_invalidated. by symmetry. Qed.

(** Removing the segment [s] from the thread group [tg]. *)
Definition removed_flags : Z := Z.lor XPMEM_FLAG_DESTROYING XPMEM_FLAG_DESTROYED.
Definition mark_removed (tg s : positive) t g w : world :=
  set_tgs (<[tg := set_seg_list (unlink s (seg_list t)) t]> (tgs w))
    (set_segs (<[s := set_seg_flags (Z.lor (seg_flags g) removed_flags) g]> (segs w)) w).

Definition SegWf w : Prop := forall s g, segs w !! s = Some g -> seg_wf g.

(** Setting a flag of a segment, under its lock. *)
Lemma seg_set_flag_ok T S A B w s g m :
  Inv T S A B w -> segs w !! s = Some g -> SegLock s ∉ held w ->
  wp (seg_set_flag s m) (fun _ w' =>
    w' = set_segs (<[s := set_seg_flags (Z.lor (seg_flags g) m) g]> (segs w)) w /\ Inv T S A B w') w.
Proof.
  intros HI Eg Hl. pose proof (seg_all (inv_seg HI) s g Eg) as Hok.
  apply wp_bind, wp_acquire; [done|]. apply wp_bind. eapply wp_store; [done|].
  eapply (wp_release _ (held w)); [done|done|]. cbn.
  match goal with |- ?W = _ /\ _ =>
    assert (W = set_segs (<[s := set_seg_flags (Z.lor (seg_flags g) m) g]> (segs w)) w) as -> by (by destruct w) end.
  split; [done|]. eapply Inv_seg_update; [done|done|apply seg_same_flags|done|apply Hok..].
Qed.

Lemma lor_flags g m n : set_seg_flags (Z.lor (seg_flags (set_seg_flags (Z.lor (seg_flags g) m) g)) n)
  (set_seg_flags (Z.lor (seg_flags g) m) g) = set_seg_flags (Z.lor (seg_flags g) (Z.lor m n)) g.
Proof. cbn. by rewrite Z.lor_assoc. Qed.

(** From the flag to the end, with the semaphore of the segment held. *)
Lemma unlink_seg_ok T S A B w tg t s g :
  Inv T (S ⊎ {[+ s +]}) A B w -> held w = [SegSema s] ->
  tgs w !! tg = Some t -> segs w !! s = Some g -> s ∈ seg_list t ->
  has (seg_flags g) XPMEM_FLAG_DESTROYING = true ->
  wp (seg_set_flag s XPMEM_FLAG_DESTROYED ;;
      write_lock (SegListLock tg) ;;
      tg_store tg (fun t => set_seg_list (unlink s (seg_list t)) t) ;;
      write_unlock (SegListLock tg) ;;
      xpmem_seg_up_write s ;;
      xpmem_seg_destroyable s)
    (fun _ w' => Inv T (S ⊎ {[+ s +]}) A B w' /\ w' ≡
       set_held [] (set_tgs (<[tg := set_seg_list (unlink s (seg_list t)) t]> (tgs w))
         (set_segs (<[s := set_seg_flags (Z.lor (seg_flags g) XPMEM_FLAG_DESTROYED) g]> (segs w)) w))) w.
Proof.
  intros HI Hh Et Eg Hs Hd. set (g' := set_seg_flags (Z.lor (seg_flags g) XPMEM_FLAG_DESTROYED) g).
  eapply wp_seq; [eapply (seg_set_flag_ok _ _ _ _ w s g); side|]. intros _ w1 [-> HI1]. fold g'.
  set (w1 := set_segs _ w) in *. fold g' in w1.
  assert (held w1 = [SegSema s]) as Hh1 by done. assert (segs w1 !! s = Some g') as Eg1 by apply lookup_insert_eq.
  apply wp_bind, wp_acquire; [side|]. apply wp_bind. eapply wp_store; [done|].
  apply wp_bind. eapply (wp_release _ [SegSema s]); [cbn; by rewrite Hh|side|].
  apply wp_bind. eapply (wp_release _ []); [done|side|].
  assert (has (seg_flags g') XPMEM_FLAG_DESTROYING = true) as Hd'.
  { cbn. change XPMEM_FLAG_DESTROYING with (2 ^ 6) in *. rewrite has_lor by lia. by rewrite Hd. }
  pose proof (Inv_seg_unlink _ _ _ _ w1 tg t s g' HI1 Et Eg1 Hs Hd') as HI2.
  set (w2 := set_held [] _).
  assert (Inv T (S ⊎ {[+ s +]} ⊎ {[+ s +]}) A B w2) as HI2' by (by eapply Inv_same).
  eapply wp_mono; [eapply (seg_deref_ok T (S ⊎ {[+ s +]}) A B w2 s g'); [done|done|]|].
  - rewrite segrefs_add, decide_True by done. lia.
  - intros _ w' [HI' Hq]. split; [done|]. rewrite Hq. reflexivity.
Qed.

Lemma remove_seg_ok T S A B w tg t s g :
  Inv T (S ⊎ {[+ s +]}) A B w -> few A -> few B -> AttWf w -> seg_wf g -> held w = [] ->
  tgs w !! tg = Some t -> segs w !! s = Some g -> s ∈ seg_list t ->
  has (seg_flags g) XPMEM_FLAG_DESTROYING = false ->
  wp (xpmem_remove_seg tg s) (fun _ w' =>
    Inv T (S ⊎ {[+ s +]}) A B w' /\ invalidated (mark_removed tg s t g w) w' /\
    forall a, a ∈ seg_ap_list g -> ap_cleared (seg_vaddr g) (seg_vaddr g + seg_size g) false a w w') w.
Proof.
  intros HI HA HB Hwf Hgw Hh Et Eg Hs Hd. pose proof (seg_all (inv_seg HI) s g Eg) as Hok.
  pose proof (seg_count Hok) as Hc. pose proof (seg_counted Hok).
  apply wp_bind. eapply wp_load; [done|]. apply wp_bind, wp_DBUG_ON; [lia|].
  apply wp_bind, wp_acquire; [side|]. apply wp_bind. eapply wp_load; [done|]. rewrite Hd.
  apply wp_bind. eapply wp_store; [done|]. apply wp_bind.
  eapply (wp_release _ []); [cbn; by rewrite Hh|side|]. cbn.
  set (g1 := set_seg_flags (Z.lor (seg_flags g) XPMEM_FLAG_DESTROYING) g).
  match goal with |- wp _ _ ?W => replace W with (set_segs (<[s := g1]> (segs w)) w)
    by (destruct w; cbn in *; by subst) end.
  assert (Inv T (S ⊎ {[+ s +]}) A B (set_segs (<[s := g1]> (segs w)) w)) as HI1
    by (eapply Inv_seg_update; [done|done|apply seg_same_flags|done|apply Hok..]).
  apply wp_bind, wp_mutex_lock; [cbn; by rewrite Hh|cbn; side|]. set (w2 := set_held _ _).
  assert (held w2 = [SegSema s]) as Hh2 by (cbn; by rewrite Hh).
  assert (segs w2 !! s = Some g1) as Eg2 by apply lookup_insert_eq.
  eapply wp_seq; [eapply (clear_PTEs_ok HG T (S ⊎ {[+ s +]}) A B w2 s g1); try done|].
  { by eapply Inv_same. }
  { by eapply (AttWf_same w). }
  { rewrite Hh2. by repeat constructor. }
  intros _ w3 (H23 & HI3 & Hcl).
  destruct (inv_seg_lookup _ _ _ _ H23 Eg2) as [n3 Eg3].
  destruct (inv_tg_lookup _ _ _ _ H23 (Et : tgs w2 !! tg = Some t)) as (t3 & Et3 & Ht3).
  assert (seg_list t3 = seg_list t) as Hl3 by exact (eq_sym (f_equal seg_list Ht3)).
  eapply wp_mono; [eapply (unlink_seg_ok T S A B w3 tg t3 s _); try done|].
  { by rewrite <- (inv_held _ _ H23). }
  { by rewrite Hl3. }
  { cbn. change XPMEM_FLAG_DESTROYING with (2 ^ 6). rewrite has_lor by lia. apply orb_true_r. }
  intros _ w' [HI' Hq]. pose proof (equiv_invalidated _ _ (symmetry Hq)) as H3'. split; [done|]. split.
  - etransitivity; [|exact H3'].
    replace (mark_removed tg s t g w) with (set_held [] (set_tgs (<[tg := set_seg_list (unlink s (seg_list t)) t]> (tgs w2))
      (set_segs (<[s := set_seg_flags (Z.lor (seg_flags g1) XPMEM_FLAG_DESTROYED) g1]> (segs w2)) w2))).
    + apply set_held_invalidated, (invalidated_tg_seg_store _ _ _ _ _ _ _ g1); try done; [|by eexists..].
      rewrite Hl3. by apply norm_pins_seg_list.
    + unfold mark_removed, removed_flags. rewrite <- lor_flags. fold g1. unfold w2.
      destruct w; cbn in *. subst. by rewrite insert_insert_eq.
  - intros a Ha. eapply ap_cleared_atts; [exact (equiv_same_atts _ _ Hq)|exact (Hcl a Ha)].
Qed.

(** * [xpmem_remove] *)

(** The state without the segment; the structure stays while a permit uses it. *)
Definition removed (tg s : positive) t g w : world :=
  match seg_ap_list g with
  | [] => set_tgs (<[tg := set_seg_list (unlink s (seg_list t)) t]> (tgs w))
            (set_segs (delete s (segs w)) w)
  | _ => mark_removed tg s t g w
  end.

Definition remove_spec cur (id : Z) w : Z * world :=
  if id <=? 0 then (- EINVAL, w) else
  match find_tg w (xpmem_segid_to_tgid id) with
  | None => (- ENOENT, w)
  | Some tg =>
      match tgs w !! tg, find_seg w tg id with
      | Some t, o =>
          if negb (cur_tgid cur =? tg_tgid t) then (- EACCES, w) else
          match o with
          | Some s => match segs w !! s with Some g => (0, removed tg s t g w) | None => (- ENOENT, w) end
          | None => (- ENOENT, w)
          end
      | None, _ => (- ENOENT, w)
      end
  end.

(** The attachments of the segment [s] have no pages left. *)
Definition seg_cleared (s : positive) w w' : Prop :=
  forall g a, segs w !! s = Some g -> a ∈ seg_ap_list g ->
    ap_cleared (seg_vaddr g) (seg_vaddr g + seg_size g) false a w w'.

Lemma inv_list_of w w' p : invalidated w w' -> list_of seg_list (tgs w') p = list_of seg_list (tgs w) p.
Proof.
  intros H%same_links. injection H as _ Ht _ _ _ _ _ _ _ _ _ _ _ _. symmetry.
  apply list_of_fmap. by apply (fmap_norm norm_pins).
Qed.

Lemma inv_hash w w' : invalidated w w' -> hash_of w' = hash_of w.
Proof.
  intros H%same_links. injection H as Hp _ _ _ _ _ _ _ _ _ _ _ _ _. unfold hash_of.
  destruct (part w), (part w'); cbn in Hp; congruence.
Qed.

Lemma hashed_tgrefs T w p : p ∈ mjoin (hash_of w) -> (0 < tgrefs T w p)%nat.
Proof. intros Hp. unfold tgrefs, tg_refs. rewrite (b2n_true _ Hp). lia. Qed.

(** Dropping the last references of [xpmem_remove]. *)
Lemma remove_drop_ok w w1 tg t s g :
  Inv (∅ ⊎ {[+ tg +]}) (∅ ⊎ {[+ s +]}) ∅ ∅ w1 -> invalidated (mark_removed tg s t g w) w1 ->
  seg_tg g = tg -> tg ∈ mjoin (hash_of w) ->
  wp (xpmem_seg_deref s ;; xpmem_tg_deref tg ;; mret 0) (fun r w' =>
    r = 0 /\ invalidated (removed tg s t g w) w' /\ Inv ∅ ∅ ∅ ∅ w' /\
    same_atts w1 w') w1.
Proof.
  intros HI H Hg Hh. set (gm := set_seg_flags (Z.lor (seg_flags g) removed_flags) g).
  destruct (inv_seg_lookup _ _ s gm H) as [n Eg1]; [apply lookup_insert_eq|].
  eapply wp_seq; [by apply (wp_seg_deref _ ∅ ∅ ∅ w1 s _ HI Eg1)|]. intros _ w2 [HI2 E2].
  assert (hash_of w2 = hash_of w) as Hh2 by (rewrite E2; exact (inv_hash _ _ H)).
  assert (segrefs ∅ w1 s (set_seg_refcnt n gm) = length (seg_ap_list g)) as Er.
  { unfold segrefs, seg_refs. rewrite multiplicity_empty, (inv_list_of _ _ _ H).
    rewrite b2n_false; [cbn; lia|]. cbn. rewrite Hg, list_of_insert, decide_True by done.
    cbn. rewrite elem_of_unlink. tauto. }
  assert (invalidated (removed tg s t g w) w2) as H2.
  { unfold removed. rewrite E2, Er. destruct (seg_ap_list g) as [|a l] eqn:El.
    - rewrite decide_True by done. apply (invalidated_seg_delete _ _ s) in H.
      unfold mark_removed in H. cbn in H. rewrite delete_insert_eq in H. exact H.
    - rewrite decide_False by done. etransitivity; [exact H|].
      apply equiv_invalidated. symmetry. by apply equiv_seg_refcnt. }
  eapply wp_seq; [apply (tg_deref_ok ∅ ∅ ∅ ∅ w2 tg HI2); apply hashed_tgrefs; by rewrite Hh2|].
  intros _ w' [HI' Hq]. apply wp_ret. split; [done|]. split; [|split; [done|]].
  - etransitivity; [exact H2|]. by apply equiv_invalidated.
  - destruct (equiv_same_atts _ _ Hq) as [Ep Ha]. by rewrite E2 in Ep, Ha.
Qed.

Lemma remove_ok cur id w :
  Inv ∅ ∅ ∅ ∅ w -> permits_ok w -> AttWf w -> SegWf w -> held w = [] ->
  wp (xpmem_remove cur id) (fun r w' =>
    let spec := remove_spec cur id w in
    r = spec.1 /\ invalidated spec.2 w' /\ Inv ∅ ∅ ∅ ∅ w' /\ (r <> 0 -> w' = w) /\
    (r = 0 -> forall tg s, find_tg w (xpmem_segid_to_tgid id) = Some tg -> find_seg w tg id = Some s ->
       seg_cleared s w w')) w.
Proof.
  intros HI Hw Hwf Hsw Hh. unfold xpmem_remove, remove_spec.
  destruct (Z.leb_spec id 0) as [|Hid]; [by apply wp_ret|].
  eapply wp_seq; [apply (tg_lookup_by_id_ok ∅ ∅ ∅ ∅); side|]. intros r w1.
  destruct (find_tg w (xpmem_segid_to_tgid id)) as [tg|] eqn:Ef; [|by intros [-> ->]; apply wp_ret].
  intros (-> & HI1 & Hq1). pose proof (find_tg_hashed _ _ _ _ _ _ _ HI Ef) as Hr.
  destruct (find_tg_gen_Some _ _ _ _ _ _ _ _ HI Ef) as (Hp & t & Et & Htid & _). rewrite Et.
  destruct (equiv_tg _ _ _ _ (symmetry Hq1) Et) as [n1 Et1].
  assert (forall (e : Z) (Q : Z -> world -> Prop), Q e w -> wp (xpmem_tg_deref tg ;; mret e) Q w1) as Hout.
  { intros e Q HQ. eapply wp_seq; [by eapply (tg_deref_back ∅ ∅ ∅ ∅ w1 w)|]. intros _ w' ->. by apply wp_ret. }
  apply wp_bind. eapply wp_load; [done|]. cbn. destruct (cur_tgid cur =? tg_tgid t); cbn [negb].
  2: { by apply Hout. }
  assert (held w1 = []) as Hh1 by (by rewrite (equiv_held _ _ Hq1)).
  eapply wp_seq; [eapply (seg_lookup_ok _ ∅ ∅ ∅); try done; [by rewrite Hq1|side|side]|].
  intros r w2. rewrite (find_seg_equiv _ _ _ _ Hq1). destruct (find_seg w tg id) as [s|] eqn:Es.
  2: { intros [-> ->]. by apply Hout. }
  intros (-> & HI2 & Hq2). assert (w2 ≡ w) as Hq by (by rewrite Hq2). clear Hq2.
  destruct (find_seg_Some _ _ _ _ _ _ _ _ HI Es) as (g & Eg & Hg & _ & Hgd & Hin). rewrite Eg.
  rewrite (list_of_Some _ _ _ t) in Hin by done.
  destruct (equiv_seg _ _ _ _ (symmetry Hq) Eg) as [m2 Eg2].
  destruct (equiv_tg _ _ _ _ (symmetry Hq) Et) as [n2 Et2].
  apply wp_bind. eapply wp_load; [done|]. apply wp_bind, wp_DBUG_ON; [by rewrite bool_decide_eq_true_2|].
  eapply wp_seq; [eapply (remove_seg_ok _ ∅ ∅ ∅ w2 tg _ s _); try done|]; try side.
  { eapply AttWf_invalidated; [|done]. apply equiv_invalidated. by symmetry. }
  { exact (Hsw s g Eg). }
  { by rewrite (equiv_held _ _ Hq). }
  intros _ w3 (HI3 & H23 & Hcl).
  assert (invalidated (mark_removed tg s t g w) w3) as H3.
  { etransitivity; [|exact H23]. apply (invalidated_tg_seg_store _ _ _ _ _ _ _ g); try done; [|by eexists..].
    apply equiv_invalidated. by symmetry. }
  eapply wp_mono; [by eapply (remove_drop_ok w w3 tg t s g)|]. cbn.
  intros r w' (-> & H' & HI' & Hatt). split; [done|]. split; [done|]. split; [done|]. split; [done|].
  intros _ tg' s' [= <-] Es'. rewrite Es in Es'. injection Es' as <-.
  intros g' a Eg' Ha. assert (g' = g) as -> by congruence.
  eapply ap_cleared_from; [exact Hq|]. eapply ap_cleared_atts; [exact Hatt|exact (Hcl a Ha)].
Qed.

(** C5: from every consistent state, [xpmem_remove] terminates, does not fault, refuses a bad
    identifier, one that is not in use and a segment of another process, leaving the state as it
    was; otherwise it takes the segment away (up to page tables, pages and their counts), keeps
    the state consistent, and no attachment of the segment shows a page of it any more. *)
Theorem xpmem_remove_refines cur id w :
  Inv ∅ ∅ ∅ ∅ w -> permits_ok w -> AttWf w -> SegWf w -> held w = [] ->
  exists r w', xpmem_remove cur id w = Ok r w' /\ r = (remove_spec cur id w).1 /\
    invalidated (remove_spec cur id w).2 w' /\ Inv ∅ ∅ ∅ ∅ w' /\ (r <> 0 -> w' = w) /\
    (r = 0 -> forall tg s, find_tg w (xpmem_segid_to_tgid id) = Some tg -> find_seg w tg id = Some s ->
       seg_cleared s w w').
Proof. intros HI Hw Hwf Hs Hh. exact (wp_inv _ _ _ (remove_ok cur id w HI Hw Hwf Hs Hh)). Qed.
End remove.
