(* ===== verification/Registry.v ===== *)
(** The abstract state of the module: a registry of live segments and permits,
    by identifier.  [xpmem_make], [xpmem_get] and [xpmem_remove] add or take
    away exactly one entry, and leave every other entry alone. *)

From S2P Require Import Prelude Kernel World Monad Ids Misc Pfn Attach Make Get Inv Graph Link Refs.
From S2P Require Import Lookup MakeSpec GetSpec PfnSpec Invalidated ClearSpec RemoveSpec.

Section first_where.
Context {V : Type}.
Implicit Types (P : V -> bool) (m : gmap positive V) (l : list positive).

Lemma first_where_agree P m m' l :
  (forall p, p ∈ l -> P <$> m !! p = P <$> m' !! p) -> first_where P m l = first_where P m' l.
Proof.
  induction l as [|p l IH]; intros H; [done|]. cbn.
  pose proof (H p (list_elem_of_here p l)) as Hp.
  assert (first_where P m l = first_where P m' l) as -> by (apply IH; intros; apply H; by apply list_elem_of_further).
  destruct (m !! p), (m' !! p); cbn in Hp; try done. by injection Hp as ->.
Qed.

Lemma first_where_snoc P m l p :
  (forall q, q ∈ l -> is_Some (m !! q)) ->
  first_where P m (l ++ [p]) = match first_where P m l with Some q => Some q | None => first_where P m [p] end.
Proof.
  induction l as [|q l IH]; intros Hl; [done|]. cbn [first_where app].
  destruct (Hl q) as [v ->]; [apply list_elem_of_here|]. destruct (P v); [done|].
  apply IH. intros. apply Hl. by apply list_elem_of_further.
Qed.

Lemma first_where_none P m l :
  (forall p v, p ∈ l -> m !! p = Some v -> P v = false) -> first_where P m l = None.
Proof.
  intros H. destruct (first_where P m l) as [p|] eqn:E; [|done].
  apply first_where_Some in E as (Hp & v & Ev & HP). by rewrite (H p v) in HP.
Qed.

(** Unlinking an entry that does not satisfy the test. *)
Lemma first_where_unlink P m l p :
  (forall q, q ∈ l -> is_Some (m !! q)) -> (forall v, m !! p = Some v -> P v = false) ->
  first_where P m (unlink p l) = first_where P m l.
Proof.
  intros Hl Hp. induction l as [|q l IH]; [done|].
  assert (forall q, q ∈ l -> is_Some (m !! q)) as Hl' by (intros; apply Hl; by apply list_elem_of_further).
  destruct (decide (q = p)) as [->|Hne].
  - unfold unlink. rewrite filter_cons_False by tauto. fold (unlink p l). rewrite IH by done. cbn.
    destruct (Hl p) as [v E]; [apply list_elem_of_here|]. by rewrite E, (Hp v E).
  - unfold unlink. rewrite filter_cons_True by done. fold (unlink p l). cbn. by rewrite IH.
Qed.
End first_where.

Section registry.
Context `{K : Kernel}.
Implicit Types (w : world) (cur : task).

(** * The abstract state *)

Record seg_info := mk_seg_info { info_vaddr : Z; info_size : Z; info_mode : Z }.
Record ap_info := mk_ap_info { info_seg : positive; info_flags : Z }.

Definition seg_info_of (g : xpmem_segment) : seg_info :=
  mk_seg_info (seg_vaddr g) (seg_size g) (permit_value g).
Definition ap_info_of (x : xpmem_access_permit) : ap_info := mk_ap_info (ap_seg x) (ap_mode x).

(** The live segment and the live permit with an identifier. *)
Definition resolve_seg w (id : Z) : option positive :=
  tg ← find_tg w (xpmem_segid_to_tgid id) ; find_seg w tg id.
Definition resolve_ap w (id : Z) : option positive :=
  tg ← find_tg w (xpmem_apid_to_tgid id) ; find_ap w tg id.

Definition live_segs w (id : Z) : option seg_info :=
  s ← resolve_seg w id ; seg_info_of <$> segs w !! s.
Definition live_aps w (id : Z) : option ap_info :=
  a ← resolve_ap w id ; ap_info_of <$> aps w !! a.

(** A registry with one entry changed. *)
Definition update {V} (f : Z -> option V) (id : Z) (v : option V) : Z -> option V :=
  fun id' => if decide (id' = id) then v else f id'.

(** * When look-ups agree *)

Lemma find_tg_ext w w' tgid :
  hash_of w' = hash_of w -> is_tg tgid false <$> tgs w' = is_tg tgid false <$> tgs w ->
  find_tg w' tgid = find_tg w tgid.
Proof. intros Eh Et. unfold find_tg, find_tg_gen. rewrite Eh. by apply first_where_ext. Qed.

Lemma live_segs_ext w w' :
  (forall tgid, find_tg w' tgid = find_tg w tgid) ->
  (forall tg id, find_seg w' tg id = find_seg w tg id) ->
  (forall s, seg_info_of <$> segs w' !! s = seg_info_of <$> segs w !! s) ->
  forall id, live_segs w' id = live_segs w id.
Proof.
  intros H1 H2 H3 id. unfold live_segs, resolve_seg. rewrite H1.
  destruct (find_tg w _) as [tg|]; [cbn|done]. unfold mbind, option_bind. rewrite H2.
  destruct (find_seg w tg id); [|done]. by rewrite H3.
Qed.

Lemma live_aps_ext w w' :
  (forall tgid, find_tg w' tgid = find_tg w tgid) ->
  (forall tg id, find_ap w' tg id = find_ap w tg id) ->
  (forall a, ap_info_of <$> aps w' !! a = ap_info_of <$> aps w !! a) ->
  forall id, live_aps w' id = live_aps w id.
Proof.
  intros H1 H2 H3 id. unfold live_aps, resolve_ap. rewrite H1.
  destruct (find_tg w _) as [tg|]; [cbn|done]. unfold mbind, option_bind. rewrite H2.
  destruct (find_ap w tg id); [|done]. by rewrite H3.
Qed.

(** Invalidation does not change the registry. *)
Lemma find_tg_inv w w' tgid : invalidated w w' -> find_tg w' tgid = find_tg w tgid.
Proof.
  intros H. apply find_tg_ext; [by apply inv_hash|]. destruct H as [H _].
  injection H as _ Ht _ _ _ _ _ _ _ _ _ _ _ _. symmetry. by apply (fmap_norm norm_pins).
Qed.
Lemma find_seg_inv w w' tg id : invalidated w w' -> find_seg w' tg id = find_seg w tg id.
Proof.
  intros H. unfold find_seg. rewrite (inv_list_of _ _ _ H). destruct H as [H _].
  injection H as _ _ Hs _ _ _ _ _ _ _ _ _ _ _. apply first_where_ext. symmetry.
  by apply (fmap_norm (set_seg_refcnt 0)).
Qed.
Lemma find_ap_inv w w' tg id : invalidated w w' -> find_ap w' tg id = find_ap w tg id.
Proof.
  intros H%same_links. injection H as _ Ht _ Ha _ _ _ _ _ _ _ _ _ _. unfold find_ap.
  rewrite (list_of_fmap _ (tgs w) (tgs w')) by (by apply (fmap_norm norm_pins)).
  apply first_where_ext. symmetry. by apply (fmap_norm (set_ap_refcnt 0)).
Qed.

Lemma lookup_fmap_eq {V U} (f : V -> U) (m m' : gmap positive V) p :
  f <$> m = f <$> m' -> f <$> m !! p = f <$> m' !! p.
Proof. intros E. by rewrite <- !lookup_fmap, E. Qed.

Lemma live_segs_inv w w' id : invalidated w w' -> live_segs w' id = live_segs w id.
Proof.
  intros H. apply live_segs_ext; [intros; by apply find_tg_inv|intros; by apply find_seg_inv|].
  intros s. apply lookup_fmap_eq. destruct H as [H _]. injection H as _ _ Hs _ _ _ _ _ _ _ _ _ _ _.
  symmetry. by apply (fmap_norm (set_seg_refcnt 0)).
Qed.
Lemma live_aps_inv w w' id : invalidated w w' -> live_aps w' id = live_aps w id.
Proof.
  intros H. apply live_aps_ext; [intros; by apply find_tg_inv|intros; by apply find_ap_inv|].
  intros s. apply lookup_fmap_eq. destruct H as [H _]. injection H as _ _ _ Hs _ _ _ _ _ _ _ _ _ _.
  symmetry. by apply (fmap_norm (set_ap_refcnt 0)).
Qed.

(** * Adding a segment *)

Section add_seg.
Context (w : world) (tg : positive) (t : xpmem_thread_group).
Context (HI : Inv ∅ ∅ ∅ ∅ w) (Et : tgs w !! tg = Some t) (Hf : find_tg w (tg_tgid t) = Some tg).
Context (Hm : uniq_segid t < XPMEM_MAX_UNIQ_ID).
Context (vaddr size pv : Z).

Let id := id_to_s64 (mk_id (tg_tgid t) (uniq_segid t + 1)).
Let s := next_ptr w.
Let t1 := set_uniq_segid (uniq_segid t + 1) t.
Let wf := link_seg tg s t1 (new_seg tg id vaddr size pv) (with_next_segid tg t w).

Lemma add_seg_id : 0 < id /\ xpmem_segid_to_tgid id = tg_tgid t.
Proof.
  pose proof (tg_all (inv_tg HI) tg t Et) as Hok. pose proof (tg_uniq_range Hok).
  pose proof (tg_tgid_range Hok).
  assert (id_ok (mk_id (tg_tgid t) (uniq_segid t + 1))) as Hid by (split; cbn; lia).
  split; [by apply id_positive|]. unfold xpmem_segid_to_tgid, id. by rewrite id_round_trip.
Qed.

Lemma add_seg_find_tg tgid : find_tg wf tgid = find_tg w tgid.
Proof.
  apply find_tg_ext; [done|]. unfold wf, link_seg, with_next_segid. cbn.
  rewrite insert_insert_eq. by apply (fmap_insert_same _ _ _ t).
Qed.

Lemma add_seg_fresh : segs w !! s = None.
Proof. apply (inv_fresh HI). unfold s. lia. Qed.

Lemma add_seg_listed tg' s' : s' ∈ list_of seg_list (tgs w) tg' -> s' <> s.
Proof.
  intros Hs ->. destruct (seg_list_live _ _ _ _ _ _ _ HI Hs) as (g & E & _).
  pose proof add_seg_fresh. congruence.
Qed.

Lemma add_seg_find_seg tg' id' :
  find_seg wf tg' id' = if decide (tg' = tg /\ id' = id) then Some s else find_seg w tg' id'.
Proof.
  assert (forall l, (forall s', s' ∈ l -> s' <> s) ->
            first_where (is_seg id') (segs wf) l = first_where (is_seg id') (segs w) l) as Hold.
  { intros l Hl. apply first_where_agree. intros p Hp. unfold wf, link_seg. cbn.
    rewrite lookup_insert_ne; [done|]. intros <-. by apply (Hl s). }
  unfold find_seg. assert (list_of seg_list (tgs wf) tg'
    = if decide (tg = tg') then seg_list t ++ [s] else list_of seg_list (tgs w) tg') as ->.
  { unfold wf, link_seg, with_next_segid. cbn. rewrite insert_insert_eq, list_of_insert. done. }
  destruct (decide (tg = tg')) as [<-|Hne].
  2: { rewrite Hold by (intros; by eapply add_seg_listed). by rewrite decide_False by (intros [-> _]; done). }
  rewrite (list_of_Some _ _ _ t) by done.
  assert (forall s', s' ∈ seg_list t -> s' <> s) as Hl.
  { intros s' Hs'. apply (add_seg_listed tg). by rewrite (list_of_Some _ _ _ t). }
  rewrite first_where_snoc.
  2: { intros q Hq. unfold wf, link_seg. cbn. rewrite lookup_insert_ne by (intros ?; by apply (Hl q)).
       destruct (seg_list_live _ _ _ _ w tg q HI) as (g & -> & _); [|done]. by rewrite (list_of_Some _ _ _ t). }
  rewrite Hold by done. cbn [first_where]. unfold wf at 1, link_seg. cbn [segs set_tgs set_segs].
  rewrite lookup_insert_eq. unfold is_seg at 2. cbn [segid new_seg seg_flags].
  destruct (decide (id' = id)) as [->|Hid].
  - rewrite decide_True by done. rewrite Z.eqb_refl. change (has 0 XPMEM_FLAG_DESTROYING) with false. cbn [andb negb].
    rewrite first_where_none; [done|]. intros p g Hp Eg. unfold is_seg.
    rewrite (proj2 (Z.eqb_neq _ _)); [done|]. by eapply (next_segid_unused _ _ _ _ w tg t).
  - rewrite decide_False by tauto. rewrite (proj2 (Z.eqb_neq _ _)) by congruence. cbn [andb].
    by destruct (first_where _ _ _).
Qed.

Lemma add_seg_segs id' :
  live_segs wf id' = update (live_segs w) id (Some (mk_seg_info vaddr size pv)) id'.
Proof.
  destruct add_seg_id as [Hid Hti]. unfold live_segs, resolve_seg, update, mbind, option_bind.
  rewrite add_seg_find_tg. destruct (decide (id' = id)) as [->|Hne].
  - rewrite Hti, Hf, add_seg_find_seg, decide_True by done. unfold wf, link_seg. cbn.
    by rewrite lookup_insert_eq.
  - destruct (find_tg w (xpmem_segid_to_tgid id')) as [tg'|]; [|done].
    rewrite add_seg_find_seg, decide_False by tauto. destruct (find_seg w tg' id') as [s'|] eqn:Es; [|done].
    apply first_where_Some in Es as (Hs & _). unfold wf, link_seg. cbn.
    rewrite lookup_insert_ne; [done|]. intros <-. by apply (add_seg_listed tg' s).
Qed.

Lemma add_seg_aps id' : live_aps wf id' = live_aps w id'.
Proof.
  apply live_aps_ext; [apply add_seg_find_tg| |done]. intros tg' i. unfold find_ap.
  change (aps wf) with (aps w). f_equal. unfold wf, link_seg, with_next_segid. cbn.
  rewrite insert_insert_eq. by apply (list_of_insert_same _ _ _ t).
Qed.

(** The identifier was not in use. *)
Lemma add_seg_new : live_segs w id = None.
Proof.
  destruct add_seg_id as [Hid Hti]. unfold live_segs, resolve_seg, mbind, option_bind.
  rewrite Hti, Hf. unfold find_seg. rewrite (list_of_Some _ _ _ t) by done.
  rewrite first_where_none; [done|]. intros p g Hp Eg. unfold is_seg.
  rewrite (proj2 (Z.eqb_neq _ _)); [done|]. by eapply (next_segid_unused _ _ _ _ w tg t).
Qed.
End add_seg.

(** * Adding a permit *)

Section add_ap.
Context (w : world) (tg s : positive) (t : xpmem_thread_group) (g : xpmem_segment).
Context (HI : Inv ∅ ∅ ∅ ∅ w) (Et : tgs w !! tg = Some t) (Hf : find_tg w (tg_tgid t) = Some tg).
Context (Es : segs w !! s = Some g) (Hm : uniq_apid t < XPMEM_MAX_UNIQ_ID) (flags : Z).

Let id := id_to_s64 (mk_id (tg_tgid t) (uniq_apid t + 1)).
Let a := next_ptr w.
Let t1 := set_uniq_apid (uniq_apid t + 1) t.
Let i := xpmem_ap_hashtable_index id.
Let wf := link_ap tg s a i t1 g (new_ap tg s id flags) (with_next_apid tg t w).

Lemma add_ap_id : 0 < id /\ xpmem_apid_to_tgid id = tg_tgid t.
Proof.
  pose proof (tg_all (inv_tg HI) tg t Et) as Hok. pose proof (tg_uniq_range Hok).
  pose proof (tg_tgid_range Hok).
  assert (id_ok (mk_id (tg_tgid t) (uniq_apid t + 1))) as Hid by (split; cbn; lia).
  split; [by apply id_positive|]. unfold xpmem_apid_to_tgid, id. by rewrite id_round_trip.
Qed.

Lemma add_ap_find_tg tgid : find_tg wf tgid = find_tg w tgid.
Proof.
  apply find_tg_ext; [done|]. unfold wf, link_ap, with_next_apid. cbn.
  rewrite insert_insert_eq. by apply (fmap_insert_same _ _ _ t).
Qed.

Lemma add_ap_fresh : aps w !! a = None.
Proof. apply (inv_fresh HI). unfold a. lia. Qed.

Abbreviation bucket_of id' := (list_of (fun t => bucket (ap_hashtable t) (xpmem_ap_hashtable_index id'))).

Lemma add_ap_hashed tg' id' x : x ∈ bucket_of id' (tgs w) tg' -> x <> a /\ is_Some (aps w !! x).
Proof.
  intros (t' & Et' & Hx)%elem_of_list_of.
  destruct (ap_bucket_live _ _ _ _ _ _ _ _ _ HI Et' Hx) as (_ & y & Ey & _).
  split; [|done]. intros ->. pose proof add_ap_fresh. congruence.
Qed.

Lemma bucket_bucket_add (h : list (list positive)) (j : nat) :
  (i < length h)%nat -> bucket (bucket_add i a h) j = if decide (i = j) then bucket h j ++ [a] else bucket h j.
Proof.
  intros Hi. unfold bucket, bucket_add. rewrite list_lookup_alter. case_decide as E; [subst j|done].
  destruct (lookup_lt_is_Some_2 h i Hi) as [l ->]. done.
Qed.

Lemma add_ap_find_ap tg' id' :
  find_ap wf tg' id' = if decide (tg' = tg /\ id' = id) then Some a else find_ap w tg' id'.
Proof.
  assert (forall l, (forall x, x ∈ l -> x <> a) ->
            first_where (is_ap id') (aps wf) l = first_where (is_ap id') (aps w) l) as Hold.
  { intros l Hl. apply first_where_agree. intros p Hp. unfold wf, link_ap. cbn.
    rewrite lookup_insert_ne; [done|]. intros <-. by apply (Hl a). }
  set (j := xpmem_ap_hashtable_index id').
  assert (bucket_of id' (tgs wf) tg' = if decide (tg = tg' /\ i = j)
    then bucket_of id' (tgs w) tg' ++ [a] else bucket_of id' (tgs w) tg') as Hb.
  { unfold wf, link_ap, with_next_apid. cbn. rewrite insert_insert_eq, list_of_insert.
    destruct (decide (tg = tg')) as [<-|Hne]; [|by rewrite decide_False by tauto].
    rewrite (list_of_Some _ _ _ t) by done. cbn. fold j. rewrite bucket_bucket_add.
    - by repeat case_decide; tauto.
    - rewrite (tg_aps_size (tg_all (inv_tg HI) tg t Et)). apply ap_index_lt. }
  unfold find_ap. rewrite Hb. clear Hb.
  destruct (decide (tg = tg' /\ i = j)) as [[<- Hij]|Hn].
  2: { rewrite Hold by (intros; by eapply add_ap_hashed). rewrite decide_False; [done|].
       intros [-> ->]. by apply Hn. }
  rewrite first_where_snoc.
  2: { intros x [Hx1 Hx2]%add_ap_hashed. unfold wf, link_ap. cbn. by rewrite lookup_insert_ne by congruence. }
  rewrite Hold by (intros; by eapply add_ap_hashed). cbn [first_where]. unfold wf at 1, link_ap.
  cbn [aps set_tgs set_segs set_aps]. rewrite lookup_insert_eq. unfold is_ap at 2. cbn [apid new_ap ap_flags].
  destruct (decide (id' = id)) as [->|Hid].
  - rewrite decide_True by done. rewrite Z.eqb_refl. change (has 0 XPMEM_FLAG_DESTROYING) with false.
    cbn [andb negb]. rewrite first_where_none; [done|]. intros p x Hp Ex. unfold is_ap.
    rewrite (proj2 (Z.eqb_neq _ _)); [done|]. rewrite (list_of_Some _ _ _ t) in Hp by done.
    eapply (next_apid_unused _ _ _ _ w tg t p x); try done. by eapply ap_bucket_live.
  - rewrite decide_False by tauto. rewrite (proj2 (Z.eqb_neq _ _)) by congruence. cbn [andb].
    by destruct (first_where _ _ _).
Qed.

Lemma add_ap_aps id' : live_aps wf id' = update (live_aps w) id (Some (mk_ap_info s flags)) id'.
Proof.
  destruct add_ap_id as [Hid Hti]. unfold live_aps, resolve_ap, update, mbind, option_bind.
  rewrite add_ap_find_tg. destruct (decide (id' = id)) as [->|Hne].
  - rewrite Hti, Hf, add_ap_find_ap, decide_True by done. unfold wf, link_ap. cbn.
    by rewrite lookup_insert_eq.
  - destruct (find_tg w (xpmem_apid_to_tgid id')) as [tg'|]; [|done].
    rewrite add_ap_find_ap, decide_False by tauto. destruct (find_ap w tg' id') as [a'|] eqn:Ea; [|done].
    apply first_where_Some in Ea as (Ha & _). unfold wf, link_ap. cbn.
    rewrite lookup_insert_ne; [done|]. intros <-. by destruct (add_ap_hashed tg' id' a Ha).
Qed.

Lemma add_ap_segs id' : live_segs wf id' = live_segs w id'.
Proof.
  apply live_segs_ext; [apply add_ap_find_tg| |].
  - intros tg' j. unfold find_seg, wf, link_ap, with_next_apid. cbn. rewrite insert_insert_eq.
    rewrite (list_of_insert_same _ _ _ t) by done. apply first_where_ext. by apply (fmap_insert_same _ _ _ g).
  - intros s'. unfold wf, link_ap. cbn. rewrite lookup_insert. case_decide; subst; [|done]. by rewrite Es.
Qed.

Lemma add_ap_new : live_aps w id = None.
Proof.
  destruct add_ap_id as [Hid Hti]. unfold live_aps, resolve_ap, mbind, option_bind.
  rewrite Hti, Hf. unfold find_ap. rewrite (list_of_Some _ _ _ t) by done.
  rewrite first_where_none; [done|]. intros p x Hp Ex. unfold is_ap.
  rewrite (proj2 (Z.eqb_neq _ _)); [done|].
  eapply (next_apid_unused _ _ _ _ w tg t p x); try done. by eapply ap_bucket_live.
Qed.
End add_ap.

(** * Taking a segment away *)

Section remove_seg.
Context (w : world) (tg s : positive) (t : xpmem_thread_group) (g : xpmem_segment).
Context (HI : Inv ∅ ∅ ∅ ∅ w) (Et : tgs w !! tg = Some t) (Es : segs w !! s = Some g).
Context (Hs : s ∈ seg_list t).

Let wf := removed tg s t g w.

Lemma removed_tgs : tgs wf = <[tg := set_seg_list (unlink s (seg_list t)) t]> (tgs w).
Proof. unfold wf, removed, mark_removed. by destruct (seg_ap_list g). Qed.

Lemma removed_segs p : p <> s -> segs wf !! p = segs w !! p.
Proof.
  intros Hp. unfold wf, removed, mark_removed. destruct (seg_ap_list g); cbn.
  - by rewrite lookup_delete_ne by congruence.
  - by rewrite lookup_insert_ne by congruence.
Qed.

Lemma removed_find_tg tgid : find_tg wf tgid = find_tg w tgid.
Proof.
  apply find_tg_ext.
  - unfold wf, removed, mark_removed. by destruct (seg_ap_list g).
  - rewrite removed_tgs. by apply (fmap_insert_same _ _ _ t).
Qed.

Lemma removed_other_lists tg' : tg' <> tg -> s ∉ list_of seg_list (tgs w) tg'.
Proof.
  intros Hne Hin. destruct (seg_list_live _ _ _ _ _ _ _ HI Hin) as (g' & E' & Hg').
  destruct (seg_list_live _ _ _ _ w tg s HI) as (g2 & E2 & Hg2).
  { by rewrite (list_of_Some _ _ _ t). }
  congruence.
Qed.

Lemma removed_find_seg tg' id :
  find_seg wf tg' id = if decide (tg' = tg /\ id = segid g) then None else find_seg w tg' id.
Proof.
  unfold find_seg. rewrite removed_tgs, list_of_insert. destruct (decide (tg = tg')) as [<-|Hne].
  - rewrite (list_of_Some _ _ _ t) by done. cbn.
    assert (forall q, q ∈ seg_list t -> is_Some (segs w !! q)) as Hl.
    { intros q Hq. destruct (seg_list_live _ _ _ _ w tg q HI) as (? & -> & _); [|done].
      by rewrite (list_of_Some _ _ _ t). }
    rewrite (first_where_agree _ (segs wf) (segs w)).
    2: { intros p [Hp _]%elem_of_unlink. by rewrite removed_segs. }
    destruct (decide (id = segid g)) as [->|Hid].
    + rewrite decide_True by done. apply first_where_none. intros p g' [Hp Hp']%elem_of_unlink Eg'.
      unfold is_seg. destruct (Z.eqb_spec (segid g') (segid g)) as [E|]; [|done]. destruct Hp.
      apply (tg_segs_inj (tg_all (inv_tg HI) tg t Et) p s (seg_key g') (seg_key g)); try done;
        by rewrite lookup_fmap, ?Eg', ?Es.
    + rewrite decide_False by tauto. apply first_where_unlink; [done|]. intros g' E'.
      assert (g' = g) as -> by congruence. unfold is_seg. by rewrite (proj2 (Z.eqb_neq _ _)) by congruence.
  - rewrite decide_False by (intros [-> _]; done). apply first_where_agree. intros p Hp.
    rewrite removed_segs; [done|]. intros ->. by apply (removed_other_lists tg').
Qed.

(** The identifier of a segment names its thread group. *)
Lemma removed_owner : xpmem_segid_to_tgid (segid g) = tg_tgid t.
Proof.
  pose proof (tg_all (inv_tg HI) tg t Et) as Hok.
  destruct (tg_segs_key Hok s Hs) as (u & n & E & Hu). rewrite lookup_fmap, Es in E.
  cbn in E. injection E as _ -> _. pose proof (tg_uniq_range Hok). pose proof (tg_tgid_range Hok).
  unfold xpmem_segid_to_tgid. rewrite id_round_trip; [done|]. split; cbn; lia.
Qed.

Lemma removed_live_segs id : find_tg w (tg_tgid t) = Some tg ->
  live_segs wf id = update (live_segs w) (segid g) None id.
Proof.
  intros Hf. unfold live_segs, resolve_seg, update, mbind, option_bind. rewrite removed_find_tg.
  destruct (decide (id = segid g)) as [->|Hne].
  - rewrite removed_owner, Hf, removed_find_seg, decide_True by done. done.
  - destruct (find_tg w (xpmem_segid_to_tgid id)) as [tg'|]; [|done].
    rewrite removed_find_seg, decide_False by tauto. destruct (find_seg w tg' id) as [s'|] eqn:E; [|done].
    rewrite removed_segs; [done|]. intros ->.
    apply first_where_Some in E as (Hin & g' & E' & [Hg' _]%andb_true_iff). assert (g' = g) as -> by congruence. lia.
Qed.

Lemma removed_live_aps id : live_aps wf id = live_aps w id.
Proof.
  apply live_aps_ext; [apply removed_find_tg| |].
  - intros tg' i. unfold find_ap. rewrite removed_tgs, (list_of_insert_same _ _ _ t) by done.
    f_equal. unfold wf, removed. by destruct (seg_ap_list g).
  - intros a. unfold wf, removed. by destruct (seg_ap_list g).
Qed.
End remove_seg.

(** * The operations on the registry *)

(** Using up a number or an address changes nothing in the registry. *)
Lemma live_same w w' tg t t' :
  tgs w !! tg = Some t -> tgs w' = <[tg := t']> (tgs w) -> hash_of w' = hash_of w -> segs w' = segs w -> aps w' = aps w ->
  tg_tgid t' = tg_tgid t -> tg_flags t' = tg_flags t -> seg_list t' = seg_list t ->
  ap_hashtable t' = ap_hashtable t ->
  (forall id, live_segs w' id = live_segs w id) /\ (forall id, live_aps w' id = live_aps w id).
Proof.
  intros Et Ew Eh Es Ea H1 H2 H3 H4.
  assert (forall tgid, find_tg w' tgid = find_tg w tgid) as Hf.
  { intros. apply find_tg_ext; [done|]. rewrite Ew. apply (fmap_insert_same _ _ _ t); [done|].
    unfold is_tg. by rewrite H1, H2. }
  split; intros id; [apply live_segs_ext|apply live_aps_ext]; try done.
  - intros tg' i. unfold find_seg. rewrite Es, Ew. by rewrite (list_of_insert_same _ _ _ t) by done.
  - intros s. by rewrite Es.
  - intros tg' i. unfold find_ap. rewrite Ea, Ew.
    by rewrite (list_of_insert_same _ _ _ t) by (try done; by rewrite H4).
  - intros a. by rewrite Ea.
Qed.

Lemma make_size_size limit vaddr size sz :
  make_size limit vaddr size = Some sz -> size <> XPMEM_MAXADDR_SIZE -> sz = size.
Proof.
  unfold make_size. intros E Hne. rewrite (proj2 (Z.eqb_neq _ _) Hne) in E.
  destruct (_ >? _); congruence.
Qed.

(** What the specification of [xpmem_make] does to the registry. *)
Lemma make_registry cur vaddr size permit_type permit_value w :
  Inv ∅ ∅ ∅ ∅ w ->
  let sp := make_spec cur vaddr size permit_type permit_value w in
  (forall id, live_aps sp.2 id = live_aps w id) /\
  match sp.1 with
  | inl _ => forall id, live_segs sp.2 id = live_segs w id
  | inr id => 0 < id /\ live_segs w id = None /\
      exists sz, (size <> XPMEM_MAXADDR_SIZE -> sz = size) /\
        offset_in_page vaddr = 0 /\ offset_in_page sz = 0 /\
        forall id', live_segs sp.2 id' = update (live_segs w) id (Some (mk_seg_info vaddr sz permit_value)) id'
  end.
Proof.
  intros HI. cbn zeta. unfold make_spec. destruct (make_args_bad _ _ _); [done|].
  destruct (find_tg w (cur_tgid cur)) as [tg|] eqn:Ef; [|done].
  destruct (find_tg_gen_Some _ _ _ _ _ _ _ _ HI Ef) as (_ & t & Et & Htid & _). rewrite Et.
  destruct (make_size (addr_limit t) vaddr size) as [sz|] eqn:Esz; [|done].
  destruct (negb _ || negb _) eqn:Ha; [done|].
  destruct (Z.eqb_spec (uniq_segid t) XPMEM_MAX_UNIQ_ID) as [|Hm]; [done|].
  pose proof (tg_uniq_range (tg_all (inv_tg HI) tg t Et)) as Hu.
  rewrite <- Htid in Ef. destruct (kzalloc_ok (next_ptr w)); cbn [fst snd].
  - split; [by eapply add_seg_aps|].
    split; [eapply add_seg_id; [done|done|lia]|]. split; [eapply add_seg_new; [done|done|done|lia]|].
    exists sz. split; [by eapply make_size_size|]. apply orb_false_iff in Ha as [Ha1 Ha2].
    split; [lia|]. split; [lia|]. intros id'. apply add_seg_segs; try done; lia.
  - apply and_comm. by eapply (live_same w _ tg t).
Qed.

(** [xpmem_make] either fails and the registry stays as it was, or it returns a positive
    identifier that was not in use and the registry gains exactly the segment asked for, made of
    whole pages, under that identifier. *)
Theorem make_registers cur vaddr size permit_type permit_value w :
  Inv ∅ ∅ ∅ ∅ w -> permits_ok w -> held w = [] ->
  exists r w', xpmem_make cur vaddr size permit_type permit_value w = Ok r w' /\
    (forall id, live_aps w' id = live_aps w id) /\
    match r with
    | inl _ => forall id, live_segs w' id = live_segs w id
    | inr id => 0 < id /\ live_segs w id = None /\
        exists sz, (size <> XPMEM_MAXADDR_SIZE -> sz = size) /\
          offset_in_page vaddr = 0 /\ offset_in_page sz = 0 /\
          forall id', live_segs w' id' = update (live_segs w) id (Some (mk_seg_info vaddr sz permit_value)) id'
    end.
Proof.
  intros HI Hw Hh. destruct (wp_inv _ _ _ (make_ok cur vaddr size permit_type permit_value w HI Hw Hh))
    as (r & w' & E & Hs & _). exists r, w'. split; [done|].
  pose proof (make_registry cur vaddr size permit_type permit_value w HI) as H. by rewrite <- Hs in H.
Qed.

(** [xpmem_get] either fails and the registry stays as it was, or it returns a positive
    identifier that was not in use and the registry gains exactly one permit: for the segment
    the caller named, which is live and whose permissions allow the access. *)
Theorem get_registers cur id flags permit_type permit_value w :
  Inv ∅ ∅ ∅ ∅ w -> permits_ok w -> held w = [] ->
  exists r w', xpmem_get cur id flags permit_type permit_value w = Ok r w' /\
    (forall id', live_segs w' id' = live_segs w id') /\
    match r with
    | inl _ => forall id', live_aps w' id' = live_aps w id'
    | inr apid => 0 < apid /\ live_aps w apid = None /\
        exists stg st s g, find_tg w (xpmem_segid_to_tgid id) = Some stg /\ tgs w !! stg = Some st /\
          resolve_seg w id = Some s /\ segs w !! s = Some g /\ permit_mode cur flags st g = 0 /\
          forall id', live_aps w' id' = update (live_aps w) apid (Some (mk_ap_info s flags)) id'
    end.
Proof.
  intros HI Hw Hh. destruct (wp_inv _ _ _ (get_ok cur id flags permit_type permit_value w HI Hw Hh))
    as (r & w' & E & Hr & Hq & _). exists r, w'. split; [done|]. clear E.
  pose proof (equiv_invalidated _ _ (symmetry Hq)) as Hi. revert Hr Hi. unfold get_spec.
  assert (forall e : Z, r = inl e -> invalidated w w' ->
    (forall id', live_segs w' id' = live_segs w id') /\
    match r with inl _ => forall id', live_aps w' id' = live_aps w id' | inr _ => True end) as Herr.
  { intros e -> Hi. split; intros; [by apply live_segs_inv|by apply live_aps_inv]. }
  destruct (get_args_bad _ _ _ _); [cbn; intros -> Hi; by eapply Herr|].
  destruct (find_tg w (xpmem_segid_to_tgid id)) as [stg|] eqn:Ef; [|cbn; intros -> Hi; by eapply Herr].
  destruct (tgs w !! stg) as [st|] eqn:Est; [|cbn; intros -> Hi; by eapply Herr].
  destruct (find_seg w stg id) as [s|] eqn:Es; [|cbn; intros -> Hi; by eapply Herr].
  destruct (segs w !! s) as [g|] eqn:Eg; [|cbn; intros -> Hi; by eapply Herr].
  destruct (Z.eqb_spec (permit_mode cur flags st g) 0) as [Hp|]; cbn [negb]; [|cbn; intros -> Hi; by eapply Herr].
  destruct (find_tg w (cur_tgid cur)) as [tg|] eqn:Eft; [|cbn; intros -> Hi; by eapply Herr].
  destruct (find_tg_gen_Some _ _ _ _ _ _ _ _ HI Eft) as (_ & t & Et & Htid & _). rewrite Et.
  destruct (Z.eqb_spec (uniq_apid t) XPMEM_MAX_UNIQ_ID) as [|Hm]; [cbn; intros -> Hi; by eapply Herr|].
  pose proof (tg_uniq_range (tg_all (inv_tg HI) tg t Et)) as Hu.
  rewrite <- Htid in Eft. cbv zeta. destruct (kzalloc_ok (next_ptr w)); cbn [fst snd]; intros -> Hi.
  - split; [intros id'; rewrite (live_segs_inv _ _ _ Hi); by apply add_ap_segs|].
    split; [eapply add_ap_id; [done|done|lia]|]. split; [eapply add_ap_new; [done|done|done|lia]|].
    exists stg, st, s, g. split; [done|]. split; [done|]. split.
    { unfold resolve_seg. by rewrite Ef. }
    split; [done|]. split; [done|]. intros id'. rewrite (live_aps_inv _ _ _ Hi). apply add_ap_aps; try done; lia.
  - destruct (live_same w (set_next_ptr (Pos.succ (next_ptr w)) (with_next_apid tg t w)) tg t
      (set_uniq_apid (uniq_apid t + 1) t)) as [H1 H2]; try done.
    split; intros id'; [rewrite (live_segs_inv _ _ _ Hi)|rewrite (live_aps_inv _ _ _ Hi)]; auto.
Qed.
End registry.

Section removal.
Context `{K : Kernel} {G : KernelGeometry K} {PT : PageTables K} {ZP : ZapPtes K}.

(** What the specification of [xpmem_remove] does to the registry. *)
Lemma remove_registry cur id w :
  Inv ∅ ∅ ∅ ∅ w -> (remove_spec cur id w).1 = 0 ->
  (forall id', live_aps (remove_spec cur id w).2 id' = live_aps w id') /\
  forall id', live_segs (remove_spec cur id w).2 id' = update (live_segs w) id None id'.
Proof.
  intros HI. unfold remove_spec. destruct (id <=? 0); [done|].
  destruct (find_tg w (xpmem_segid_to_tgid id)) as [tg|] eqn:Ef; [|done].
  destruct (find_tg_gen_Some _ _ _ _ _ _ _ _ HI Ef) as (_ & t & Et & Htid & _). rewrite Et.
  destruct (negb _); [done|]. destruct (find_seg w tg id) as [s|] eqn:Es; [|done].
  destruct (find_seg_Some _ _ _ _ _ _ _ _ HI Es) as (g & Eg & Hg & Hgid & _ & Hin). rewrite Eg.
  rewrite (list_of_Some _ _ _ t) in Hin by done. cbn. intros _. split; intros id'.
  - by apply removed_live_aps.
  - rewrite <- Hgid. apply removed_live_segs; try done. by rewrite Htid.
Qed.

(** [xpmem_remove] either fails and the registry stays as it was, or it takes exactly the
    segment with the identifier out of it; permits stay. *)
Theorem remove_unregisters cur id w :
  PGDIR_SHIFT <= PAGE_SHIFT + 31 ->
  Inv ∅ ∅ ∅ ∅ w -> permits_ok w -> AttWf w -> SegWf w -> held w = [] ->
  exists r w', xpmem_remove cur id w = Ok r w' /\ (forall id', live_aps w' id' = live_aps w id') /\
    forall id', live_segs w' id' = if decide (r = 0) then update (live_segs w) id None id' else live_segs w id'.
Proof.
  intros HG HI Hw Hwf Hsw Hh. destruct (wp_inv _ _ _ (remove_ok HG cur id w HI Hw Hwf Hsw Hh))
    as (r & w' & E & Hr & Hi & _ & Hne & _). exists r, w'. split; [done|].
  destruct (decide (r = 0)) as [H0|H0]; [|by rewrite (Hne H0)].
  rewrite Hr in H0. destruct (remove_registry cur id w HI H0) as [Ha Hs].
  split; intros id'; [by rewrite (live_aps_inv _ _ _ Hi)|by rewrite (live_segs_inv _ _ _ Hi)].
Qed.
End removal.
