(* ===== verification/ReleaseSpec.v ===== *)
(** Releasing permits (xpmem_get.c): [xpmem_release_ap] detaches every attachment of
    the permit, takes the permit out of its hash table and off its segment, and
    drops the references it held; [xpmem_release] takes exactly one permit out of
    the registry. *)

From S2P Require Import Prelude Kernel World Monad Ids Misc Pfn Attach Make Get Inv Graph Link Refs Lookup.
From S2P Require Import MakeSpec GetSpec PfnSpec Invalidated ClearSpec Chain PinSpec FaultSpec DetachSpec RemoveSpec Registry.

Section release.
Context `{K : Kernel} {G : KernelGeometry K} {PT : PageTables K} {VT : VmaTree K} {UV : UnmapVma K}.
Context (HG : PGDIR_SHIFT <= PAGE_SHIFT + 31).
Context (cur : task).
Implicit Types (T S A B : gmultiset positive) (w : world).

(** * One attachment *)

Definition released_att (mm t : positive) y x g st pt (v : positive) vma w : world :=
  set_atts (delete t (atts w)) (detached_att cur mm t y x g st pt v vma w).

Lemma detached_att_equiv mm t y x g st pt v vma n1 n2 n3 n4 w w' :
  w' ≡ w ->
  detached_att cur mm t (set_att_refcnt n1 y) (set_ap_refcnt n2 x) (set_seg_refcnt n3 g) (set_tg_refcnt n4 st) pt v vma w'
    ≡ detached_att cur mm t y x g st pt v vma w.
Proof.
  intros H. unfold detached_att.
  pose proof (forgotten_equiv mm t (marked y) x g st pt v vma n1 n2 n3 n4 w w' H) as Hf.
  destruct (bool_decide _); [|exact Hf]. exact (unmapped_vma_equiv _ _ _ _ _ _ Hf).
Qed.

Lemma released_att_wf mm t y x g st pt v vma w :
  VmaWf w -> AttWf w -> atts w !! t = Some y -> attached w t y mm v vma ->
  VmaWf (released_att mm t y x g st pt v vma w) /\ AttWf (released_att mm t y x g st pt v vma w).
Proof.
  intros HV HA Ey Ha. unfold released_att, detached_att. pose proof (shown_lookup _ _ _ _ _ (atd_shown _ _ _ _ _ _ Ha)) as Ev.
  destruct (bool_decide _); (eapply (att_gone_wf w _ mm t y v vma); try done).
  - cbn. rewrite delete_insert_eq. apply vma_gone_delete.
  - intros mm' a. apply unmap_maps_nothing.
  - intros _ a Hr. destruct Ha as [[_ _ _ _ -> _ _] _ _ _ _ [H1 H2]]. apply unmap_unmaps. lia.
  - by apply vma_gone_forget.
  - cbn. by rewrite lookup_insert_eq.
Qed.

(** The last reference on an attachment that is off the list of its permit. *)
Lemma att_free_ok T S A w a x t y w2 :
  Inv T S A (∅ ⊎ {[+ t +]}) w2 -> w2 ≡ w -> atts w !! t = Some y -> att_ap y = a ->
  aps w !! a = Some x -> t ∉ ap_att_list x ->
  wp (xpmem_att_deref t) (fun _ w' => Inv T S A ∅ w' /\ w' ≡ set_atts (delete t (atts w)) w) w2.
Proof.
  intros HI Hq Ey <- Ex Hn. destruct (equiv_att _ _ _ _ (symmetry Hq) Ey) as [n Ey2].
  destruct (equiv_ap _ _ _ _ (symmetry Hq) Ex) as [m Ex2].
  eapply wp_mono; [eapply wp_att_deref; [exact HI|exact Ey2]|]. intros _ w' [HI' E]. split; [done|].
  rewrite decide_True in E; [rewrite E; by apply equiv_delete_att|].
  unfold attrefs, att_refs. rewrite multiplicity_empty, b2n_false; [done|]. cbn.
  by rewrite (list_of_Some _ _ _ _ Ex2).
Qed.

(** The body of the loop of [xpmem_release_ap]. *)
Lemma release_att_step T S A w a x p g st pt t y mm v vma (k : M unit) Q :
  Inv T S A ∅ w -> chain w t y x p g st -> att_ap y = a -> part w = Some pt -> attached w t y mm v vma ->
  has (att_flags y) XPMEM_FLAG_DESTROYING = false -> cur_mm cur = Some mm \/ cur_mm cur = None ->
  held w = [ApLock a] ->
  (forall w', Inv T S A ∅ w' -> w' ≡ released_att mm t y x g st pt v vma w -> wp k Q w') ->
  wp (xpmem_att_ref t ;; spin_unlock (ApLock a) ;; xpmem_detach_att cur a t ;; xpmem_att_deref t ;;
      spin_lock (ApLock a) ;; k) Q w.
Proof.
  intros HI Hc <- Ept Ha Hnd Hm Hh HQ.
  eapply wp_seq; [eapply att_ref_ok; [exact HI|tokens|exact (ch_att _ _ _ _ _ _ _ Hc)]|]. intros _ w1 [HI1 Hq1].
  apply wp_bind. eapply (wp_release _ []); [by rewrite (equiv_held _ _ Hq1)|not_held|].
  pose proof (set_held_proper [] _ _ Hq1) as Hq2. set (w2 := set_held [] w1) in *.
  assert (Inv T S A (∅ ⊎ {[+ t +]}) w2) as HI2 by (by eapply Inv_same).
  destruct (chain_equiv _ _ _ _ _ _ _ _ Hq2 (chain_held _ _ _ _ _ _ _ [] Hc)) as (n0 & n1 & n2 & n3 & n4 & HC2).
  eapply wp_seq.
  { pose proof (detach_att_ok HG T S A ∅ cur w2 mm t _ _ _ _ _ pt v vma HI2 HC2) as HD.
    cbn [att_ap set_att_refcnt] in HD. apply HD; clear HD.
    - by rewrite (equiv_part _ _ Hq2).
    - eapply (attached_equiv (set_held [] w) w2); [exact Hq2|by apply attached_held].
    - done.
    - split; [done|done|]. cbn. split_and!; not_held. }
  intros _ w3 [HI3 Hq3]. rewrite (detached_att_equiv _ _ _ _ _ _ _ _ _ _ _ _ _ _ _ Hq2) in Hq3.
  set (wd := detached_att _ _ _ _ _ _ _ _ _ _ _) in Hq3.
  eapply wp_seq.
  { eapply (att_free_ok T S A wd (att_ap y) (set_ap_att_list (unlink t (ap_att_list x)) x) t
      (set_att_flags (clear (att_flags (marked y)) XPMEM_FLAG_VALIDPTEs) (marked y)));
      [exact HI3|exact Hq3| |reflexivity| |].
    - unfold wd, detached_att. destruct (bool_decide _); cbn; apply lookup_insert_eq.
    - unfold wd, detached_att. destruct (bool_decide _); cbn; apply lookup_insert_eq.
    - cbn. rewrite elem_of_unlink. tauto. }
  intros _ w4 [HI4 Hq4]. assert (held w4 = []) as Hh4.
  { rewrite (equiv_held _ _ Hq4). unfold wd, detached_att. by destruct (bool_decide _). }
  apply wp_bind, wp_acquire; [rewrite Hh4; not_held|]. apply HQ; [by eapply Inv_same|].
  rewrite Hh4, (set_held_proper [ApLock (att_ap y)] _ _ Hq4).
  unfold wd, released_att, detached_att. clear -Hh. destruct w; cbn in Hh. subst.
  destruct (bool_decide _); cbn; by rewrite ?delete_insert_eq.
Qed.

(** * All attachments of a permit *)

(** A permit without its attachments. *)
Definition norm_atts (x : xpmem_access_permit) : xpmem_access_permit := set_ap_att_list [] (set_ap_refcnt 0 x).

(** What detaching attachments of the permit [a] may change. *)
Record dropped (a : positive) w w' : Prop := {
  dr_hash : tg_hashtable <$> part w' = tg_hashtable <$> part w;
  dr_tgs : norm_pins <$> tgs w' = norm_pins <$> tgs w;
  dr_segs : set_seg_refcnt 0 <$> segs w' = set_seg_refcnt 0 <$> segs w;
  dr_aps : norm_atts <$> aps w' = norm_atts <$> aps w;
  dr_lists : forall b, b <> a -> list_of ap_att_list (aps w') b = list_of ap_att_list (aps w) b;
  dr_atts : forall t y', atts w' !! t = Some y' ->
    exists y, atts w !! t = Some y /\ set_att_refcnt 0 y = set_att_refcnt 0 y';
  dr_mapped : forall mm v, mapped_pfn (pgt w) mm v = None -> mapped_pfn (pgt w') mm v = None;
  dr_held : held w' = held w;
}.

#[local] Instance dropped_trans a : Transitive (dropped a).
Proof.
  intros w1 w2 w3 [A1 A2 A3 A4 A5 A6 A7 A8] [B1 B2 B3 B4 B5 B6 B7 B8]. split; try congruence.
  - intros b Hb. by rewrite B5, A5.
  - intros t y3 E3. destruct (B6 t y3 E3) as (y2 & E2 & N2). destruct (A6 t y2 E2) as (y1 & E1 & N1).
    exists y1. split; [done|congruence].
  - auto.
Qed.

Lemma dropped_equiv a w w' : w' ≡ w -> dropped a w w'.
Proof.
  intros H. split.
  - by rewrite (equiv_part _ _ H).
  - by apply (equiv_tgs norm_pins).
  - by apply (equiv_segs (set_seg_refcnt 0)).
  - by apply (equiv_aps norm_atts).
  - intros b _. apply list_of_fmap. by apply equiv_aps.
  - intros t y' E. destruct (equiv_att _ _ _ _ H E) as [n E']. eexists. split; [exact E'|]. done.
  - by rewrite (equiv_pgt _ _ H).
  - exact (equiv_held _ _ H).
Qed.

Lemma dropped_released mm t y x p g st pt v vma w :
  chain w t y x p g st -> part w = Some pt ->
  dropped (att_ap y) w (released_att mm t y x g st pt v vma w).
Proof.
  intros [Ey Hl [P1 P2 P3 P4 P5 P6 P7]] Ept. unfold released_att, detached_att.
  split; destruct (bool_decide (is_Some (cur_mm cur))); cbn; try done.
  - by rewrite Ept.
  - by rewrite Ept.
  - by rewrite (fmap_insert_same norm_pins _ _ st).
  - by rewrite (fmap_insert_same norm_pins _ _ st).
  - by rewrite (fmap_insert_same norm_atts _ _ x).
  - by rewrite (fmap_insert_same norm_atts _ _ x).
  - intros b Hb. rewrite list_of_insert, decide_False by done. done.
  - intros b Hb. rewrite list_of_insert, decide_False by done. done.
  - intros t' y' [_ E]%lookup_delete_Some. eauto.
  - intros t' y' [_ E]%lookup_delete_Some. eauto.
  - intros mm' a. apply unmap_maps_nothing.
Qed.

(** Every attachment of the permit is in the address space of the caller, or the caller has none
    any more. *)
Definition own_atts (a : positive) w : Prop :=
  forall t y, atts w !! t = Some y -> att_ap y = a -> cur_mm cur = att_mm y \/ cur_mm cur = None.

Lemma own_atts_dropped a w w' : dropped a w w' -> own_atts a w -> own_atts a w'.
Proof.
  intros Hd Ho t y' E Ha. destruct (dr_atts _ _ _ Hd t y' E) as (y & Ey & En).
  assert (att_mm y' = att_mm y) as -> by exact (eq_sym (f_equal att_mm En)).
  apply (Ho t y Ey). rewrite <- Ha. exact (f_equal att_ap En).
Qed.

Lemma unmapped_refcnt pt y y' : set_att_refcnt 0 y = set_att_refcnt 0 y' -> unmapped pt y -> unmapped pt y'.
Proof.
  intros En H mm v Em Hr. apply H.
  - rewrite <- Em. exact (f_equal att_mm En).
  - assert (at_vaddr y = at_vaddr y') as -> by exact (f_equal at_vaddr En).
    by assert (at_size y = at_size y') as -> by exact (f_equal at_size En).
Qed.

Lemma release_atts_ok T S A a l : forall fuel w x,
  Inv T S A ∅ w -> VmaWf w -> AttWf w -> own_atts a w -> held w = [ApLock a] ->
  aps w !! a = Some x -> ap_att_list x = l -> (length l <= fuel)%nat ->
  wp (release_atts_loop fuel cur a) (fun _ w' =>
    Inv T S A ∅ w' /\ VmaWf w' /\ AttWf w' /\ dropped a w w' /\ list_of ap_att_list (aps w') a = [] /\
    forall t y, t ∈ l -> atts w !! t = Some y -> is_Some (cur_mm cur) -> unmapped (pgt w') y) w.
Proof.
  induction l as [|t l IH]; intros fuel w x HI HV HA Ho Hh Ex El Hf.
  - destruct fuel; cbn; (apply wp_bind; eapply wp_load; [exact Ex|]); rewrite El; apply wp_ret;
      (split_and!; try done; [by apply dropped_equiv|by rewrite (list_of_Some _ _ _ _ Ex)|by intros t y ?%elem_of_nil]).
  - destruct fuel as [|fuel]; cbn in Hf; [lia|]. cbn. apply wp_bind. eapply wp_load; [exact Ex|]. rewrite El.
    assert (t ∈ ap_att_list x) as Ht by (rewrite El; apply list_elem_of_here).
    destruct (listed_att _ _ _ _ w a x t HI Ex Ht) as (y & Ey & Hy & _).
    destruct (chain_of _ _ _ _ _ _ _ HI Ey) as (x' & p & g & st & Hc); [by eapply rest_listed|].
    assert (x' = x) as -> by (pose proof (ch_ap _ _ _ _ _ _ (ch_permit _ _ _ _ _ _ _ Hc)) as E; rewrite Hy in E; congruence).
    destruct (vw_attached _ HV t y Ey) as (Hnd & mm & v & vma & Ha). destruct (inv_part HI) as [pt Ept].
    pose proof (shown_mm _ _ _ _ _ (atd_shown _ _ _ _ _ _ Ha)) as Emm.
    eapply (release_att_step T S A w a x p g st pt t y mm v vma (release_atts_loop fuel cur a)); try done.
    { rewrite <- Emm. by apply (Ho t y). }
    intros w1 HI1 Hq1. destruct (released_att_wf mm t y x g st pt v vma w HV HA Ey Ha) as [HV1 HA1].
    pose proof (dropped_released mm t y x p g st pt v vma w Hc Ept) as Hd. rewrite Hy in Hd.
    pose proof (dropped_trans _ _ _ _ Hd (dropped_equiv a _ _ Hq1)) as Hd1.
    assert (exists n, aps w1 !! a = Some (set_ap_refcnt n (set_ap_att_list l x))) as [n Ex1].
    { apply (equiv_ap _ _ _ _ (symmetry Hq1)). rewrite <- Hy. unfold released_att, detached_att.
      pose proof (ap_atts_nodup (ap_all (inv_ap HI) a x Ex)) as Hnd'. rewrite El in Hnd'.
      apply NoDup_cons in Hnd' as [Hnt _]. destruct (bool_decide _); cbn; rewrite lookup_insert_eq, El, unlink_cons_eq; done. }
    eapply wp_mono; [eapply (IH fuel w1 _ HI1); [..|exact Ex1|reflexivity|lia]|].
    + by eapply VmaWf_equiv.
    + by eapply AttWf_equiv.
    + by eapply own_atts_dropped.
    + by rewrite (dr_held _ _ _ Hd1).
    + intros _ w' (HI' & HV' & HA' & Hd' & Hn' & Hu'). split_and!; try done; [by etransitivity|].
      intros t' y' [->|Ht']%elem_of_cons Ey' Hm.
      * assert (y' = y) as -> by congruence. intros mm' v' Em Hr. apply (dr_mapped _ _ _ Hd').
        rewrite (equiv_pgt _ _ Hq1). unfold released_att, detached_att. rewrite bool_decide_eq_true_2 by done. cbn.
        assert (mm' = mm) as -> by congruence. apply unmap_unmaps.
        rewrite (proj1 (atd_range _ _ _ _ _ _ Ha)). done.
      * destruct (listed_att _ _ _ _ w1 a _ t' HI1 Ex1 Ht') as (y1 & E1 & _).
        destruct (dr_atts _ _ _ Hd1 t' y1 E1) as (y0 & E0 & En). assert (y0 = y') as -> by congruence.
        apply (unmapped_refcnt _ y1 y'); [done|]. by apply (Hu' t').
Qed.

(** * Taking the permit away *)

Definition norm_permits (g : xpmem_segment) : xpmem_segment := set_seg_ap_list [] (set_seg_refcnt 0 g).

(** The permit [a], which was [x], is out of the hash table of its thread group and off its segment.
    Thread groups that are not hashed and segments that are not listed may have been freed. *)
Record ap_gone (a : positive) (x : xpmem_access_permit) w w' : Prop := {
  ag_hash : hash_of w' = hash_of w;
  ag_tg : forall q t, q ∈ mjoin (hash_of w) -> tgs w !! q = Some t -> exists t', tgs w' !! q = Some t' /\
    tg_tgid t' = tg_tgid t /\ tg_flags t' = tg_flags t /\ seg_list t' = seg_list t /\
    ap_hashtable t' = if decide (q = ap_tg x)
      then bucket_del (xpmem_ap_hashtable_index (apid x)) a (ap_hashtable t) else ap_hashtable t;
  ag_seg : forall q s g, s ∈ list_of seg_list (tgs w) q -> segs w !! s = Some g ->
    exists g', segs w' !! s = Some g' /\ norm_permits g = norm_permits g';
  ag_ap : forall b y, b <> a -> aps w !! b = Some y -> exists y', aps w' !! b = Some y' /\ norm_atts y = norm_atts y';
}.

(** What is left of the permit for those who still have a reference on it. *)
Definition ap_off (a : positive) w : Prop :=
  exists x, aps w !! a = Some x /\ a ∉ list_of hashed_aps (tgs w) (ap_tg x) /\ a ∉ list_of seg_ap_list (segs w) (ap_seg x).

Section tail.
Context (T S A : gmultiset positive) (w : world) (a : positive).
Context (x : xpmem_access_permit) (p : xpmem_thread_group) (g : xpmem_segment) (st : xpmem_thread_group).
Context (HI : Inv T S (A ⊎ {[+ a +]}) ∅ w) (HP : permit w a x p g st).
Context (Hd : has (ap_flags x) XPMEM_FLAG_DESTROYING = true) (Hn : ap_att_list x = []).
Context (Hh : held w = []).

Let x1 := set_ap_flags (Z.lor (ap_flags x) XPMEM_FLAG_DESTROYED) x.
Let p1 := set_ap_hashtable (bucket_del (xpmem_ap_hashtable_index (apid x)) a (ap_hashtable p)) p.
Let g1 := set_seg_ap_list (unlink a (seg_ap_list g)) g.
Let w1 := set_aps (<[a := x1]> (aps w)) w.
Let w2 := set_tgs (<[ap_tg x := p1]> (tgs w)) w1.
Let w3 := set_segs (<[ap_seg x := g1]> (segs w)) w2.

Lemma tail_destroying : has (ap_flags x1) XPMEM_FLAG_DESTROYING = true.
Proof. cbn. change XPMEM_FLAG_DESTROYING with (2 ^ 6) in *. by rewrite has_lor, Hd by lia. Qed.

Lemma tail_unhashed : a ∉ hashed_aps p1.
Proof.
  destruct (hashed_bucket _ _ _ _ _ _ _ _ _ HI (ch_tg _ _ _ _ _ _ HP) (ch_ap _ _ _ _ _ _ HP) (ch_hashed _ _ _ _ _ _ HP))
    as (_ & l & El & Hl).
  pose proof (tg_all (inv_tg HI) _ _ (ch_tg _ _ _ _ _ _ HP)) as Hok. unfold hashed_aps, p1. cbn.
  rewrite (bucket_del_unlink _ _ _ l (tg_aps_nodup Hok) El Hl). rewrite elem_of_unlink. tauto.
Qed.

Lemma tail_inv1 : Inv T S (A ⊎ {[+ a +]}) ∅ w1.
Proof.
  pose proof (ch_ap _ _ _ _ _ _ HP) as Ex. pose proof (ap_all (inv_ap HI) a x Ex) as Hok.
  eapply (Inv_ap_update _ _ _ _ _ w a x); try apply Hok; try done. split; try done. intros _. apply tail_destroying.
Qed.

Lemma tail_inv2 : Inv T S (A ⊎ {[+ a +]} ⊎ {[+ a +]}) ∅ w2.
Proof.
  apply (Inv_ap_unhash T S (A ⊎ {[+ a +]}) ∅ w1 (ap_tg x) p a x1 tail_inv1).
  - exact (ch_tg _ _ _ _ _ _ HP).
  - apply lookup_insert_eq.
  - exact (ch_hashed _ _ _ _ _ _ HP).
  - apply tail_destroying.
  - exact Hn.
Qed.

Lemma tail_inv3 : Inv (T ⊎ {[+ seg_tg g +]}) (S ⊎ {[+ ap_seg x +]}) (A ⊎ {[+ a +]} ⊎ {[+ a +]}) ∅ w3.
Proof.
  apply (Inv_ap_unlink T S (A ⊎ {[+ a +]} ⊎ {[+ a +]}) ∅ w2 (ap_seg x) g a x1 tail_inv2).
  - exact (ch_seg _ _ _ _ _ _ HP).
  - apply lookup_insert_eq.
  - exact (ch_linked _ _ _ _ _ _ HP).
  - unfold w2. cbn. rewrite list_of_insert, decide_True by done. apply tail_unhashed.
Qed.

(** After the segment and its thread group were dropped. *)
Lemma tail_gone w4 w5 :
  w4 = set_segs (if decide (segrefs S w3 (ap_seg x) g1 = 0%nat) then delete (ap_seg x) (segs w3)
                 else <[ap_seg x := set_seg_refcnt (seg_refcnt g1 - 1) g1]> (segs w3)) w3 ->
  only_tg (seg_tg g) w4 w5 ->
  (forall t, tgs w4 !! seg_tg g = Some t -> (0 < tgrefs T w4 (seg_tg g))%nat ->
     w5 = set_tgs (<[seg_tg g := set_tg_refcnt (tg_refcnt t - 1) t]> (tgs w4)) w4) ->
  ap_gone a x w w5 /\ ap_off a w5.
Proof.
  intros E4 (m & u & E5 & Ho) He.
  assert (tgs w4 = tgs w2) as Et4 by (by rewrite E4).
  assert (segs w5 = segs w4 /\ aps w5 = <[a := x1]> (aps w) /\ hash_of w5 = hash_of w) as (Es5 & Ea5 & Eh5)
    by (by rewrite E5, E4).
  assert (forall q t, q ∈ mjoin (hash_of w) -> tgs w2 !! q = Some t ->
    exists n, tgs w5 !! q = Some (set_tg_refcnt n t)) as Ht5.
  { intros q t Hq Eq. destruct (decide (q = seg_tg g)) as [->|Hne].
    - rewrite <- Et4 in Eq. rewrite (He t Eq).
      + cbn. rewrite lookup_insert_eq. eauto.
      + unfold tgrefs, tg_refs. rewrite b2n_true; [lia|]. by rewrite E4.
    - exists (tg_refcnt t). rewrite E5. cbn. rewrite Ho, Et4, Eq by done. by destruct t. }
  assert (forall s, s <> ap_seg x -> segs w5 !! s = segs w !! s) as Hs5.
  { intros s Hs. rewrite Es5, E4. cbn. destruct (decide _); unfold w3; cbn;
      rewrite ?lookup_delete_ne, ?lookup_insert_ne by congruence; done. }
  split; [split|].
  - done.
  - intros q t Hq Eq. destruct (decide (q = ap_tg x)) as [->|Hne].
    + assert (t = p) as -> by (pose proof (ch_tg _ _ _ _ _ _ HP); congruence).
      destruct (Ht5 (ap_tg x) p1 Hq) as [n E]; [apply lookup_insert_eq|]. eexists. split; [exact E|]. done.
    + destruct (Ht5 q t Hq) as [n E]; [unfold w2; cbn; by rewrite lookup_insert_ne|]. eexists. split; [exact E|]. done.
  - intros q s g0 Hin Es. destruct (decide (s = ap_seg x)) as [->|Hne]; [|rewrite Hs5 by done; eauto].
    assert (g0 = g) as -> by (pose proof (ch_seg _ _ _ _ _ _ HP); congruence).
    destruct (seg_list_live _ _ _ _ _ _ _ HI Hin) as (g0 & E0 & Htg). assert (g0 = g) as -> by congruence.
    exists (set_seg_refcnt (seg_refcnt g1 - 1) g1). split; [|done]. rewrite Es5, E4. cbn.
    rewrite decide_False; [apply lookup_insert_eq|]. unfold segrefs, seg_refs. rewrite b2n_true; [lia|].
    change (seg_tg g1) with (seg_tg g). rewrite Htg. unfold w3, w2. cbn. rewrite list_of_insert.
    destruct (decide (ap_tg x = q)) as [Eq|]; [|exact Hin]. rewrite <- Eq, (list_of_Some _ _ _ _ (ch_tg _ _ _ _ _ _ HP)) in Hin. exact Hin.
  - intros b y Hb Ey. exists y. split; [|done]. by rewrite Ea5, lookup_insert_ne.
  - exists x1. split; [by rewrite Ea5, lookup_insert_eq|]. split.
    + change (ap_tg x1) with (ap_tg x).
      destruct (Ht5 (ap_tg x) p1 (ch_tg_hashed _ _ _ _ _ _ HP)) as [n E]; [apply lookup_insert_eq|].
      rewrite (list_of_Some _ _ _ _ E). apply tail_unhashed.
    + change (ap_seg x1) with (ap_seg x). unfold list_of. rewrite Es5, E4. cbn. destruct (decide _).
      * rewrite lookup_delete_eq. apply not_elem_of_nil.
      * rewrite lookup_insert_eq. cbn. rewrite elem_of_unlink. tauto.
Qed.
End tail.

Lemma VmaWf_same w w' : atts w' = atts w -> vmas w' = vmas w -> pgt w' = pgt w -> VmaWf w -> VmaWf w'.
Proof.
  intros Ea Ev Ep [H0 H1 H2 H3]. split.
  - unfold PtesInVmas in *. by rewrite Ep, Ev.
  - intros t y. rewrite Ea. intros Ey. destruct (H1 t y Ey) as (Hd & mm & v & vma & [[V1 V2 V3 V4 V5 V6 V7] [W1 W2 W3 W4] X1 X2 X3 X4]).
    split; [done|]. exists mm, v, vma. split; try done; [by split; rewrite ?Ev| |by rewrite Ev].
    split; [|done..]. exists mm, v, vma. by split; rewrite ?Ev.
  - intros v vma t. rewrite Ea, Ev. apply H2.
  - by rewrite Ev.
Qed.

(** From the flag DESTROYED to the end of [xpmem_release_ap]. *)
Lemma release_tail_ok T S A w tg a x p g st :
  Inv T S (A ⊎ {[+ a +]}) ∅ w -> permit w a x p g st -> ap_tg x = tg ->
  has (ap_flags x) XPMEM_FLAG_DESTROYING = true -> ap_att_list x = [] -> held w = [ApLock a] ->
  wp (ap_store a (fun a => set_ap_flags (Z.lor (ap_flags a) XPMEM_FLAG_DESTROYED) a) ;;
      spin_unlock (ApLock a) ;;
      x ← ap_load a ;
      let index := xpmem_ap_hashtable_index (apid x) in
      write_lock (ApHashLock tg index) ;;
      tg_store tg (fun t => set_ap_hashtable (bucket_del index a (ap_hashtable t)) t) ;;
      write_unlock (ApHashLock tg index) ;;
      let seg := ap_seg x in
      s ← seg_load seg ;
      let seg_tg := seg_tg s in
      spin_lock (SegLock seg) ;;
      seg_store seg (fun s => set_seg_ap_list (unlink a (seg_ap_list s)) s) ;;
      spin_unlock (SegLock seg) ;;
      xpmem_seg_deref seg ;;
      xpmem_tg_deref seg_tg ;;
      xpmem_ap_destroyable a) (fun _ w' =>
    Inv T S (A ⊎ {[+ a +]}) ∅ w' /\ held w' = [] /\ atts w' = atts w /\ vmas w' = vmas w /\ pgt w' = pgt w /\
    ap_gone a x w w' /\ ap_off a w') w.
Proof.
  intros HI HP <- Hd Hn Hh. apply wp_bind. eapply wp_store; [exact (ch_ap _ _ _ _ _ _ HP)|].
  apply wp_bind. eapply (wp_release _ []); [done|not_held|].
  apply wp_bind. eapply wp_load; [cbn; apply lookup_insert_eq|]. cbn.
  apply wp_bind, wp_acquire; [not_held|]. apply wp_bind. eapply wp_store; [exact (ch_tg _ _ _ _ _ _ HP)|].
  apply wp_bind. eapply (wp_release _ []); [done|not_held|].
  apply wp_bind. eapply wp_load; [exact (ch_seg _ _ _ _ _ _ HP)|].
  apply wp_bind, wp_acquire; [not_held|]. apply wp_bind. eapply wp_store; [exact (ch_seg _ _ _ _ _ _ HP)|].
  apply wp_bind. eapply (wp_release _ []); [done|not_held|].
  pose proof (set_held_proper) as _.
  assert (Inv T S (A ⊎ {[+ a +]}) ∅ (set_held [] w)) as HI0 by (by eapply Inv_same).
  assert (permit (set_held [] w) a x p g st) as HP0 by (destruct HP; by split).
  pose proof (tail_inv3 _ _ _ _ _ _ _ _ _ HI0 HP0 Hd Hn) as HI3.
  match goal with |- wp _ _ ?u => set (w3 := u) end.
  match type of HI3 with Inv _ _ _ _ ?u => change u with w3 in HI3 end.
  eapply wp_seq; [eapply wp_seg_deref; [exact HI3|cbn; apply lookup_insert_eq]|].
  intros _ w4 [HI4 E4].
  eapply wp_seq; [eapply wp_tg_deref; exact HI4|]. intros _ w5 (HI5 & Ho & He).
  destruct (tail_gone T S A (set_held [] w) a x p g st HI0 HP0 w4 w5 E4 Ho He) as [Hg (x5 & Ex5 & Hh5 & Hl5)].
  assert (atts w5 = atts w /\ vmas w5 = vmas w /\ pgt w5 = pgt w /\ held w5 = []) as (E51 & E52 & E53 & E54).
  { destruct Ho as (m & u & -> & _). by rewrite E4. }
  assert (aprefs (A ⊎ {[+ a +]}) w5 a x5 <> 0%nat) as Hne by (rewrite aprefs_add, decide_True by done; lia).
  eapply wp_mono; [eapply wp_ap_deref; [exact HI5|exact Ex5|done]|].
  intros _ w6 [HI6 ->]. rewrite decide_False in * by done. split; [done|]. do 4 (split; [done|]). split.
  - destruct Hg as [G1 G2 G3 G4]. split; try done. intros b y Hb Ey. cbn. rewrite lookup_insert_ne by done. by apply G4.
  - eexists. split; [cbn; apply lookup_insert_eq|]. done.
Qed.

(** First the attachments, then the permit. *)
Lemma ap_gone_after a x x2 w w2 w3 :
  (forall b, b <> a -> exists u, dropped a u w2 /\ aps u !! b = aps w !! b /\ tgs u = tgs w /\ segs u = segs w /\ part u = part w) ->
  apid x2 = apid x -> ap_tg x2 = ap_tg x -> ap_gone a x2 w2 w3 -> ap_gone a x w w3.
Proof.
  intros Hu E1 E2 [G1 G2 G3 G4].
  destruct (Hu (Pos.succ a)) as (u & Hd & _ & Et & Es & Ep); [lia|].
  assert (hash_of w2 = hash_of w) as Eh.
  { pose proof (dr_hash _ _ _ Hd) as H. rewrite Ep in H. unfold hash_of.
    destruct (part w2), (part w); cbn in H; congruence. }
  pose proof (dr_tgs _ _ _ Hd) as Etg. rewrite Et in Etg. pose proof (dr_segs _ _ _ Hd) as Esg. rewrite Es in Esg.
  split.
  - congruence.
  - intros q t Hq Eq. destruct (lookup_norm _ _ _ _ _ (eq_sym Etg) Eq) as (t2 & Eq2 & En).
    rewrite Eh, E1, E2 in *. destruct (G2 q t2 Hq Eq2) as (t' & Et' & F1 & F2 & F3 & F4). exists t'. split; [done|].
    assert (tg_tgid t2 = tg_tgid t) as <- by exact (eq_sym (f_equal tg_tgid En)).
    assert (tg_flags t2 = tg_flags t) as <- by exact (eq_sym (f_equal tg_flags En)).
    assert (seg_list t2 = seg_list t) as <- by exact (eq_sym (f_equal seg_list En)).
    assert (ap_hashtable t2 = ap_hashtable t) as <- by exact (eq_sym (f_equal ap_hashtable En)). done.
  - intros q s g Hin Eg. destruct (lookup_norm _ _ _ _ _ (eq_sym Esg) Eg) as (g2 & Eg2 & En).
    destruct (G3 q s g2) as (g' & Eg' & En'); [|done|].
    + rewrite (list_of_fmap seg_list (tgs w2) (tgs w)); [done|]. by eapply (fmap_norm norm_pins).
    + exists g'. split; [done|]. rewrite <- En'. exact (f_equal (set_seg_ap_list []) En).
  - intros b y Hb Ey. destruct (Hu b Hb) as (u' & Hd' & Ea & _). rewrite <- Ea in Ey.
    destruct (lookup_norm _ _ _ _ _ (eq_sym (dr_aps _ _ _ Hd')) Ey) as (y2 & Ey2 & En).
    destruct (G4 b y2 Hb Ey2) as (y' & Ey' & En'). exists y'. split; [done|congruence].
Qed.

(** Pages are only unmapped, and attachments only freed. *)
Record faded w w' : Prop := {
  fade_mapped : forall mm v, mapped_pfn (pgt w) mm v = None -> mapped_pfn (pgt w') mm v = None;
  fade_atts : forall k y', atts w' !! k = Some y' -> exists y, atts w !! k = Some y /\ norm_valid y = norm_valid y';
}.

(** [xpmem_release_ap], when the caller has a reference on the permit. *)
Lemma release_ap_ok T S A w a x p g st fuel :
  Inv T S (A ⊎ {[+ a +]}) ∅ w -> VmaWf w -> AttWf w -> own_atts a w -> held w = [] -> permit w a x p g st ->
  has (ap_flags x) XPMEM_FLAG_DESTROYING = false -> (length (ap_att_list x) <= fuel)%nat ->
  wp (xpmem_release_ap fuel cur (ap_tg x) a) (fun _ w' =>
    Inv T S (A ⊎ {[+ a +]}) ∅ w' /\ VmaWf w' /\ AttWf w' /\ held w' = [] /\ ap_gone a x w w' /\ ap_off a w' /\ faded w w' /\
    forall t y, t ∈ ap_att_list x -> atts w !! t = Some y ->
      atts w' !! t = None /\ (is_Some (cur_mm cur) -> unmapped (pgt w') y)) w.
Proof.
  intros HI HV HA Ho Hh HP Hnd Hf. unfold xpmem_release_ap. pose proof (ch_ap _ _ _ _ _ _ HP) as Ex.
  apply wp_bind, wp_acquire; [rewrite Hh; not_held|]. rewrite Hh. apply wp_bind. eapply wp_load; [exact Ex|].
  rewrite Hnd. apply wp_bind. eapply wp_store; [exact Ex|].
  set (x1 := set_ap_flags _ x). set (w1 := set_aps _ _).
  assert (has (ap_flags x1) XPMEM_FLAG_DESTROYING = true) as Hd1.
  { cbn. change XPMEM_FLAG_DESTROYING with (2 ^ 6). rewrite has_lor by lia. by rewrite orb_true_r. }
  assert (Inv T S (A ⊎ {[+ a +]}) ∅ w1) as HI1.
  { pose proof (ap_all (inv_ap HI) a x Ex) as Hok.
    eapply (Inv_ap_update T S _ _ ∅ (set_held [ApLock a] w) a x); [by eapply Inv_same|exact Ex| |done|apply Hok..].
    by split. }
  eapply wp_seq; [eapply (release_atts_ok T S _ a (ap_att_list x) fuel w1 x1); try done|].
  { by eapply (VmaWf_same w). }
  { by eapply (AttWf_same w). }
  { apply lookup_insert_eq. }
  intros _ w2 (HI2 & HV2 & HA2 & Hd2 & Hn2 & Hu2).
  assert (aps w1 !! a = Some x1) as Ex1 by apply lookup_insert_eq.
  destruct (lookup_norm _ _ _ _ _ (eq_sym (dr_aps _ _ _ Hd2)) Ex1) as (x2 & Ex2 & En).
  assert (ap_tg x2 = ap_tg x) as Etg by exact (eq_sym (f_equal ap_tg En)).
  assert (apid x2 = apid x) as Eid by exact (eq_sym (f_equal apid En)).
  destruct (permit_of _ _ _ _ w2 a x2 HI2 Ex2) as (p2 & g2 & st2 & HP2).
  { rewrite Etg. rewrite (list_of_fmap hashed_aps (tgs w2) (tgs w)).
    - rewrite (list_of_Some _ _ _ _ (ch_tg _ _ _ _ _ _ HP)). exact (ch_hashed _ _ _ _ _ _ HP).
    - eapply (fmap_norm norm_pins); [done|exact (dr_tgs _ _ _ Hd2)]. }
  eapply wp_mono; [eapply (release_tail_ok T S A w2 (ap_tg x) a x2 p2 g2 st2 HI2 HP2 Etg)|].
  { by assert (ap_flags x2 = ap_flags x1) as -> by exact (eq_sym (f_equal ap_flags En)). }
  { by rewrite <- (list_of_Some ap_att_list _ _ _ Ex2). }
  { by rewrite (dr_held _ _ _ Hd2). }
  intros _ w' (HI' & Hh' & Ea & Ev & Ep & Hg & Hoff). split; [done|]. split; [by eapply VmaWf_same|].
  split; [by eapply (AttWf_same w2)|]. split; [done|]. split; [|split; [done|split]].
  - eapply (ap_gone_after a x x2 w w2 w'); [|done|done|done]. intros b Hb. exists w1. split; [done|].
    split; [cbn; by rewrite lookup_insert_ne|done].
  - split; [|intros k y'; rewrite Ea; intros Ek].
    + rewrite Ep. exact (dr_mapped _ _ _ Hd2).
    + destruct (dr_atts _ _ _ Hd2 k y' Ek) as (y & Ey & N). exists y. split; [done|]. unfold norm_valid.
      exact (f_equal (fun z => set_att_flags (clear (att_flags z) XPMEM_FLAG_VALIDPTEs) z) N).
  - intros t y Ht Ey. rewrite Ea, Ep. split; [|by apply (Hu2 t)].
    destruct (atts w2 !! t) as [y2|] eqn:E2; [|done]. exfalso.
    destruct (dr_atts _ _ _ Hd2 t y2 E2) as (y0 & Ey0 & En0). cbn in Ey0.
    destruct (listed_att _ _ _ _ w a x t HI Ex Ht) as (y' & Ey' & Hy' & _).
    pose proof (rest_listed _ _ _ _ _ _ HI2 E2) as Hl.
    assert (att_ap y2 = a) as Eap.
    { rewrite <- Hy'. assert (y0 = y') as <- by congruence. exact (eq_sym (f_equal att_ap En0)). }
    rewrite Eap, Hn2 in Hl. by apply elem_of_nil in Hl.
Qed.
End release.

(** * The registry *)

Section registry.
Context `{K : Kernel}.
Implicit Types (w : world).

Lemma ap_gone_equiv a x n w0 w w1 w' :
  w0 ≡ w -> w' ≡ w1 -> ap_gone a (set_ap_refcnt n x) w0 w1 -> ap_gone a x w w'.
Proof.
  intros Hl Hr [G1 G2 G3 G4]. split.
  - unfold hash_of in *. by rewrite (equiv_part _ _ Hr), <- (equiv_part _ _ Hl).
  - intros q t Hq Eq. destruct (equiv_tg _ _ _ _ (symmetry Hl) Eq) as [n0 E0].
    destruct (G2 q _ ltac:(unfold hash_of in *; by rewrite (equiv_part _ _ Hl)) E0) as (t1 & E1 & F).
    destruct (equiv_tg _ _ _ _ (symmetry Hr) E1) as [n1 E']. eexists. split; [exact E'|exact F].
  - intros q s g Hin Eg. destruct (equiv_seg _ _ _ _ (symmetry Hl) Eg) as [n0 E0].
    destruct (G3 q s (set_seg_refcnt n0 g)) as (g1 & E1 & F); [|exact E0|].
    { rewrite (list_of_fmap seg_list (tgs w0) (tgs w)); [done|]. by apply equiv_tgs. }
    destruct (equiv_seg _ _ _ _ (symmetry Hr) E1) as [n1 E']. eexists. split; [exact E'|exact F].
  - intros b y Hb Ey. destruct (equiv_ap _ _ _ _ (symmetry Hl) Ey) as [n0 E0].
    destruct (G4 b _ Hb E0) as (y1 & E1 & F).
    destruct (equiv_ap _ _ _ _ (symmetry Hr) E1) as [n1 E']. eexists. split; [exact E'|exact F].
Qed.

Lemma ap_gone_free a x w w' : ap_gone a x w w' -> ap_gone a x w (set_aps (delete a (aps w')) w').
Proof.
  intros [G1 G2 G3 G4]. split; try done. intros b y Hb Ey. cbn. rewrite lookup_delete_ne by congruence. by apply G4.
Qed.

Lemma bucket_bucket_del (h : list (list positive)) i j b : bucket (bucket_del i b h) j = if decide (i = j) then unlink b (bucket h j) else bucket h j.
Proof.
  unfold bucket, bucket_del. rewrite list_lookup_alter. case_decide as E; [subst j|done].
  by destruct (h !! i).
Qed.

Lemma ap_bucket_index T S A B w0 tg t b y j :
  Inv T S A B w0 -> tgs w0 !! tg = Some t -> aps w0 !! b = Some y -> b ∈ bucket (ap_hashtable t) j ->
  xpmem_ap_hashtable_index (apid y) = j.
Proof.
  intros HI0 Et Ey. unfold bucket. destruct (ap_hashtable t !! j) as [l|] eqn:El; cbn; [|by intros ?%elem_of_nil].
  intros Hb. destruct (tg_aps_key (tg_all (inv_tg HI0) tg t Et) j l b El Hb) as (u & E & _ & Ei).
  rewrite lookup_fmap, Ey in E. cbn in E. injection E as _ E. by rewrite E.
Qed.

Section gone.
Context (w w' : world) (a : positive) (x : xpmem_access_permit) (p : xpmem_thread_group).
Context (HI : Inv ∅ ∅ ∅ ∅ w) (Hg : ap_gone a x w w') (Ex : aps w !! a = Some x).
Context (Ep : tgs w !! ap_tg x = Some p) (Ha : a ∈ hashed_aps p).
Context (Hf : find_tg w (xpmem_apid_to_tgid (apid x)) = Some (ap_tg x)).

Lemma gone_find_tg tgid : find_tg w' tgid = find_tg w tgid.
Proof.
  unfold find_tg, find_tg_gen. rewrite (ag_hash _ _ _ _ Hg). apply first_where_agree. intros q Hq.
  destruct (hash_bucket_live _ _ _ _ _ _ _ HI Hq) as [Hh [t Et]].
  destruct (ag_tg _ _ _ _ Hg q t Hh Et) as (t' & Et' & F1 & F2 & _). rewrite Et, Et'. cbn. unfold is_tg. by rewrite F1, F2.
Qed.

Lemma gone_tg tgid tg : find_tg w tgid = Some tg -> exists t t', tgs w !! tg = Some t /\ tgs w' !! tg = Some t' /\
  seg_list t' = seg_list t /\ ap_hashtable t' = if decide (tg = ap_tg x)
      then bucket_del (xpmem_ap_hashtable_index (apid x)) a (ap_hashtable t) else ap_hashtable t.
Proof.
  intros (Hp & t & Et & _)%first_where_Some. destruct (hash_bucket_live _ _ _ _ _ _ _ HI Hp) as [Hh _].
  destruct (ag_tg _ _ _ _ Hg tg t Hh Et) as (t' & Et' & _ & _ & F). exists t, t'. done.
Qed.

Lemma gone_live_segs id : live_segs w' id = live_segs w id.
Proof.
  unfold live_segs, resolve_seg, mbind, option_bind. rewrite gone_find_tg.
  destruct (find_tg w (xpmem_segid_to_tgid id)) as [tg|] eqn:Ef; [|done].
  destruct (gone_tg _ _ Ef) as (t & t' & Et & Et' & El & _).
  assert (forall s, s ∈ seg_list t -> seg_info_of <$> segs w' !! s = seg_info_of <$> segs w !! s /\
    is_seg id <$> segs w' !! s = is_seg id <$> segs w !! s) as Hs.
  { intros s Hs. destruct (seg_list_live _ _ _ _ w tg s HI) as (g & Eg & _); [by rewrite (list_of_Some _ _ _ t)|].
    destruct (ag_seg _ _ _ _ Hg tg s g) as (g' & Eg' & En); [by rewrite (list_of_Some _ _ _ t)|done|].
    rewrite Eg, Eg'. cbn. split; f_equal.
    - symmetry. exact (f_equal seg_info_of En).
    - symmetry. exact (f_equal (is_seg id) En). }
  assert (find_seg w' tg id = find_seg w tg id) as Ef'.
  { unfold find_seg. rewrite (list_of_Some _ _ _ t'), (list_of_Some _ _ _ t), El by done.
    apply first_where_agree. intros s Hin. by apply Hs. }
  rewrite Ef'. destruct (find_seg w tg id) as [s|] eqn:Es; [|done].
  apply Hs. apply first_where_Some in Es as [Hin _]. by rewrite (list_of_Some _ _ _ t) in Hin.
Qed.

Lemma gone_live_aps id : live_aps w' id = update (live_aps w) (apid x) None id.
Proof.
  unfold live_aps, resolve_ap, update, mbind, option_bind. rewrite gone_find_tg.
  destruct (find_tg w (xpmem_apid_to_tgid id)) as [tg|] eqn:Ef; [|by destruct (decide _)].
  destruct (gone_tg _ _ Ef) as (t & t' & Et & Et' & _ & Eh).
  set (j := xpmem_ap_hashtable_index id).
  assert (forall b, b ∈ bucket (ap_hashtable t) j -> b <> a ->
    ap_info_of <$> aps w' !! b = ap_info_of <$> aps w !! b /\ is_ap id <$> aps w' !! b = is_ap id <$> aps w !! b) as Hb.
  { intros b Hb Hne. destruct (ap_bucket_live _ _ _ _ _ _ _ _ _ HI Et Hb) as (_ & y & Ey & _).
    destruct (ag_ap _ _ _ _ Hg b y Hne Ey) as (y' & Ey' & En). rewrite Ey, Ey'. cbn. split; f_equal.
    - symmetry. exact (f_equal ap_info_of En).
    - symmetry. exact (f_equal (is_ap id) En). }
  assert (forall b, b ∈ bucket (ap_hashtable t) j -> is_Some (aps w !! b)) as Hl.
  { intros b Hin. destruct (ap_bucket_live _ _ _ _ _ _ _ _ _ HI Et Hin) as (_ & y & -> & _). done. }
  assert (forall b, b ∈ bucket (ap_hashtable t') j -> b ∈ bucket (ap_hashtable t) j /\ b <> a) as Hb'.
  { intros b. rewrite Eh. destruct (decide (tg = ap_tg x)) as [->|Hne].
    - assert (t = p) as -> by congruence. rewrite bucket_bucket_del. destruct (decide _) as [Ei|Ei].
      + rewrite elem_of_unlink. tauto.
      + intros Hin. split; [done|]. intros ->. apply Ei.
        destruct (ap_bucket_index _ _ _ _ _ _ _ _ _ _ HI Ep Ex Hin). done.
    - intros Hin. split; [done|]. intros ->.
      destruct (ap_bucket_live _ _ _ _ _ _ _ _ _ HI Et Hin) as (_ & y & Ey & Hy). congruence. }
  assert (find_ap w' tg id = if decide (id = apid x) then None else find_ap w tg id) as Ef'.
  { unfold find_ap. rewrite (list_of_Some _ _ _ t'), (list_of_Some _ _ _ t) by done. fold j.
    rewrite (first_where_agree _ (aps w') (aps w)) by (intros b Hin; apply Hb' in Hin as [??]; by apply Hb).
    destruct (decide (id = apid x)) as [->|Hid].
    - apply first_where_none. intros b y Hin Ey. apply Hb' in Hin as [Hin Hne]. unfold is_ap.
      destruct (Z.eqb_spec (apid y) (apid x)) as [E|]; [|done]. destruct Hne.
      assert (tg = ap_tg x) as -> by congruence. assert (t = p) as -> by congruence.
      apply (tg_aps_inj (tg_all (inv_tg HI) _ p Ep) b a (ap_key y) (ap_key x)); try done.
      + by eapply ap_bucket_live.
      + by rewrite lookup_fmap, Ey.
      + by rewrite lookup_fmap, Ex.
    - rewrite Eh. destruct (decide (tg = ap_tg x)) as [->|Hne]; [|done].
      rewrite bucket_bucket_del. destruct (decide _); [|done]. apply first_where_unlink; [done|].
      intros y Ey. assert (y = x) as -> by congruence. unfold is_ap. by rewrite (proj2 (Z.eqb_neq _ _)) by congruence. }
  rewrite Ef'. destruct (decide (id = apid x)) as [->|Hid]; [done|].
  destruct (find_ap w tg id) as [b|] eqn:Eb; [|done]. apply first_where_Some in Eb as (Hin & y & Ey & [Hy _]%andb_true_iff).
  rewrite (list_of_Some _ _ _ t) in Hin by done. apply Hb; [done|]. intros ->. assert (y = x) as -> by congruence. lia.
Qed.
End gone.
End registry.

(** * [xpmem_release] *)

Section release_call.
Context `{K : Kernel} {G : KernelGeometry K} {PT : PageTables K} {VT : VmaTree K} {UV : UnmapVma K}.
Context (HG : PGDIR_SHIFT <= PAGE_SHIFT + 31).
Context (cur : task).
Implicit Types (w : world).

Definition release_result (id : Z) w : Z :=
  if id <=? 0 then - EINVAL else
  match find_tg w (xpmem_apid_to_tgid id) with
  | None => - ENOENT
  | Some tg =>
      if negb (cur_tgid cur =? xpmem_apid_to_tgid id) then - EACCES else
      match find_ap w tg id with Some _ => 0 | None => - ENOENT end
  end.

(** What is left to do when the permit is off its lists: the references of [xpmem_release]. *)
Lemma release_drop_ok w w1 a x tg :
  Inv (∅ ⊎ {[+ tg +]}) ∅ (∅ ⊎ {[+ a +]}) ∅ w1 -> ap_off a w1 -> tg ∈ mjoin (hash_of w1) -> held w1 = [] ->
  ap_gone a x w w1 -> VmaWf w1 -> AttWf w1 ->
  wp (xpmem_ap_deref a ;; xpmem_tg_deref tg ;; mret 0) (fun r w' =>
    r = 0 /\ Inv ∅ ∅ ∅ ∅ w' /\ held w' = [] /\ ap_gone a x w w' /\ VmaWf w' /\ AttWf w' /\
    aps w' !! a = None /\ (forall t, atts w1 !! t = None -> atts w' !! t = None) /\ pgt w' = pgt w1) w1.
Proof.
  intros HI (x1 & Ex & H1 & H2) Hh Hheld Hg HV HA.
  eapply wp_seq; [eapply wp_ap_deref; [exact HI|exact Ex|by intros _]|]. intros _ w2 [HI2 E2].
  rewrite decide_True in E2 by (unfold aprefs, ap_refs; by rewrite multiplicity_empty, b2n_false).
  eapply wp_seq; [eapply tg_deref_ok; [exact HI2|]|].
  { unfold tgrefs, tg_refs. rewrite b2n_true; [lia|]. by rewrite E2. }
  intros _ w' [HI' Hq]. apply wp_ret. split; [done|]. split; [done|].
  split; [by rewrite (equiv_held _ _ Hq), E2|]. split; [|split; [|split; [|split; [|split]]]].
  - eapply (ap_gone_equiv a x (ap_refcnt x) w w w2 w'); [done|done|].
    replace (set_ap_refcnt (ap_refcnt x) x) with x by (by destruct x). rewrite E2. by apply ap_gone_free.
  - eapply VmaWf_equiv; [exact Hq|]. rewrite E2. by eapply (VmaWf_same w1).
  - eapply AttWf_equiv; [exact Hq|]. rewrite E2. by eapply (AttWf_same w1).
  - destruct (aps w' !! a) as [x'|] eqn:E; [|done]. destruct (equiv_ap _ _ _ _ Hq E) as [n E'].
    rewrite E2 in E'. cbn in E'. by rewrite lookup_delete_eq in E'.
  - intros t Ht. destruct (atts w' !! t) as [y|] eqn:E; [|done]. destruct (equiv_att _ _ _ _ Hq E) as [n E'].
    rewrite E2 in E'. cbn in E'. congruence.
  - by rewrite (equiv_pgt _ _ Hq), E2.
Qed.

Lemma release_ok fuel id w :
  Inv ∅ ∅ ∅ ∅ w -> permits_ok w -> VmaWf w -> AttWf w -> held w = [] ->
  (forall a, cur_tgid cur = xpmem_apid_to_tgid id -> resolve_ap w id = Some a ->
     own_atts cur a w /\ (length (list_of ap_att_list (aps w) a) <= fuel)%nat) ->
  wp (xpmem_release fuel cur id) (fun r w' =>
    r = release_result id w /\ Inv ∅ ∅ ∅ ∅ w' /\ VmaWf w' /\ AttWf w' /\ held w' = [] /\ (r <> 0 -> w' = w) /\
    (r = 0 -> exists a x p, resolve_ap w id = Some a /\ aps w !! a = Some x /\ tgs w !! ap_tg x = Some p /\
       a ∈ hashed_aps p /\ find_tg w (xpmem_apid_to_tgid id) = Some (ap_tg x) /\ apid x = id /\
       ap_gone a x w w' /\ aps w' !! a = None /\
       forall t y, t ∈ ap_att_list x -> atts w !! t = Some y ->
         atts w' !! t = None /\ (is_Some (cur_mm cur) -> unmapped (pgt w') y))) w.
Proof.
  intros HI Hw HV HA Hh Hres. unfold xpmem_release, release_result.
  destruct (Z.leb_spec id 0) as [|Hid]; [by apply wp_ret|].
  eapply wp_seq; [apply (tg_lookup_by_id_ok ∅ ∅ ∅ ∅); side|]. intros r w1.
  change (xpmem_segid_to_tgid id) with (xpmem_apid_to_tgid id).
  destruct (find_tg w (xpmem_apid_to_tgid id)) as [tg|] eqn:Ef; [|by intros [-> ->]; apply wp_ret].
  intros (-> & HI1 & Hq1). pose proof (find_tg_hashed _ _ _ _ _ _ _ HI Ef) as Hr.
  destruct (find_tg_gen_Some _ _ _ _ _ _ _ _ HI Ef) as (Hp & t & Et & Htid & _).
  destruct (equiv_tg _ _ _ _ (symmetry Hq1) Et) as [n1 Et1].
  assert (forall (e : Z) (Q : Z -> world -> Prop), Q e w -> wp (xpmem_tg_deref tg ;; mret e) Q w1) as Hout.
  { intros e Q HQ. eapply wp_seq; [by eapply (tg_deref_back ∅ ∅ ∅ ∅ w1 w)|]. intros _ w' ->. by apply wp_ret. }
  apply wp_bind. eapply wp_load; [done|]. cbn. rewrite Htid.
  destruct (Z.eqb_spec (cur_tgid cur) (xpmem_apid_to_tgid id)) as [Hme|]; cbn [negb]; [|by apply Hout].
  assert (held w1 = []) as Hh1 by (by rewrite (equiv_held _ _ Hq1)).
  eapply wp_seq; [eapply (ap_lookup_ok _ ∅ ∅ ∅); try done; side|]. intros r w2.
  rewrite (find_ap_equiv _ _ _ _ Hq1). destruct (find_ap w tg id) as [a|] eqn:Ea.
  2: { intros [-> ->]. by apply Hout. }
  intros (-> & HI2 & Hq2). assert (w2 ≡ w) as Hq by (by rewrite Hq2). clear Hq2.
  destruct (find_ap_Some _ _ _ _ _ _ _ _ _ HI Et Ea) as (x & Ex & Htg & Hx & Hnd & Hh').
  assert (a ∈ list_of hashed_aps (tgs w) (ap_tg x)) as Hin by (by rewrite Htg, (list_of_Some _ _ _ t)).
  destruct (permit_of _ _ _ _ _ _ _ HI Ex Hin) as (p & g & st & HP).
  destruct (permit_equiv _ _ _ _ _ _ _ Hq HP) as (k1 & k2 & k3 & k4 & HP2).
  assert (resolve_ap w id = Some a) as Hra by (unfold resolve_ap; by rewrite Ef).
  destruct (Hres a Hme Hra) as [Hown Hlen]. rewrite (list_of_Some _ _ _ _ Ex) in Hlen.
  apply wp_bind. eapply wp_load; [exact (ch_ap _ _ _ _ _ _ HP2)|].
  apply wp_bind, wp_DBUG_ON; [by rewrite bool_decide_eq_true_2|].
  eapply wp_seq.
  { pose proof (release_ap_ok HG cur _ ∅ ∅ w2 a (set_ap_refcnt k1 x) (set_tg_refcnt k2 p) (set_seg_refcnt k3 g)
      (set_tg_refcnt k4 st) fuel HI2) as HR. cbn [ap_tg set_ap_refcnt] in HR.
    rewrite Htg in HR. eapply HR; try done; clear HR.
    - by eapply VmaWf_equiv.
    - by eapply AttWf_equiv.
    - intros t' y' E' Hy'. destruct (equiv_att _ _ _ _ Hq E') as [n E0]. exact (Hown t' _ E0 Hy').
    - by rewrite (equiv_held _ _ Hq). }
  intros _ w3 (HI3 & HV3 & HA3 & Hh3 & Hg3 & Hoff & _ & Hatts).
  eapply wp_mono; [eapply (release_drop_ok w2 w3 a _ tg HI3 Hoff); try done|].
  { rewrite (ag_hash _ _ _ _ Hg3). unfold hash_of. rewrite (equiv_part _ _ Hq). exact Hp. }
  intros r w' (-> & HI' & Hheld' & Hg' & HV' & HA' & Ea' & Hat' & Hpgt'). do 5 (split; [done|]). split; [done|].
  intros _. exists a, x, p. rewrite Htg. split_and!; try done.
  - rewrite <- Htg. exact (ch_tg _ _ _ _ _ _ HP).
  - exact (ch_hashed _ _ _ _ _ _ HP).
  - by eapply (ap_gone_equiv a x _ w2 w w' w').
  - intros t' y' Ht' Ey'. destruct (equiv_att _ _ _ _ (symmetry Hq) Ey') as [n E0].
    destruct (Hatts t' _ Ht' E0) as [Hn Hu]. split; [by apply Hat'|]. rewrite Hpgt'. exact Hu.
Qed.

(** C13: from every consistent state, [xpmem_release] terminates without faulting, refuses a bad
    identifier, one that is not in use and a permit of another process, leaving the state as it was;
    otherwise it takes exactly the permit with the identifier out of the registry, together with all
    its attachments: their pages are unmapped and the attachments are freed, whatever else they
    were.  The state stays consistent. *)
Theorem release_unregisters fuel id w :
  Inv ∅ ∅ ∅ ∅ w -> permits_ok w -> VmaWf w -> AttWf w -> held w = [] ->
  (forall a, cur_tgid cur = xpmem_apid_to_tgid id -> resolve_ap w id = Some a ->
     own_atts cur a w /\ (length (list_of ap_att_list (aps w) a) <= fuel)%nat) ->
  exists r w', xpmem_release fuel cur id w = Ok r w' /\ r = release_result id w /\
    Inv ∅ ∅ ∅ ∅ w' /\ VmaWf w' /\ AttWf w' /\ held w' = [] /\ (r <> 0 -> w' = w) /\
    (forall id', live_segs w' id' = live_segs w id') /\
    (forall id', live_aps w' id' = if decide (r = 0) then update (live_aps w) id None id' else live_aps w id') /\
    (r = 0 -> forall a t y, resolve_ap w id = Some a -> t ∈ list_of ap_att_list (aps w) a -> atts w !! t = Some y ->
       atts w' !! t = None /\ (is_Some (cur_mm cur) -> unmapped (pgt w') y)).
Proof.
  intros HI Hw HV HA Hh Hres.
  destruct (wp_inv _ _ _ (release_ok fuel id w HI Hw HV HA Hh Hres)) as (r & w' & E & Hr & HI' & HV' & HA' & Hh' & Hne & Hok).
  exists r, w'. do 7 (split; [done|]). destruct (decide (r = 0)) as [H0|H0]; [|by rewrite (Hne H0)].
  destruct (Hok H0) as (a & x & p & Hra & Ex & Ep & Ha & Hf & Hx & Hg & Hgone & Hatts).
  rewrite <- Hx in Hf. split; [intros; by eapply gone_live_segs|]. split.
  - intros id'. rewrite <- Hx. by eapply gone_live_aps.
  - intros _ a' t y Ha' Ht Ey. assert (a' = a) as -> by congruence. rewrite (list_of_Some _ _ _ _ Ex) in Ht.
    by apply (Hatts t y).
Qed.
End release_call.
