(* ===== verification/MapSpec.v ===== *)
(** Mapping an attachment (xpmem_attach.c): the search of [xpmem_attach] for attachments in the
    range asked for, and vm_mmap, at an address of the kernel's choice or replacing what is
    mapped at a given one. *)

From S2P Require Import Prelude Kernel World Monad Ids Misc Pfn Attach Inv Graph Link Refs Lookup.
From S2P Require Import MakeSpec PfnSpec Invalidated ClearSpec Chain PinSpec FaultSpec DetachSpec.

(** * The kernel's side *)

(** The vma is in the address space and has addresses in the range. *)
Definition in_space (mm : positive) (u : vm_area_struct) : Prop := vm_mm u = mm /\ vm_detached u = false.
Definition hit (mm : positive) (addr size : Z) (u : vm_area_struct) : Prop :=
  in_space mm u /\ addr < vm_end u /\ vm_start u < addr + size.

(** A vma cut down to what lies outside of the range. *)
Definition piece (mm : positive) (addr size : Z) (u0 u : vm_area_struct) : Prop :=
  in_space mm u /\ ~ hit mm addr size u /\ vm_ops u = vm_ops u0 /\ vm_start u0 <= vm_start u /\ vm_end u <= vm_end u0.

(** The range has been freed: what does not meet it is as it was, what meets it is cut. *)
Record carved (mm : positive) (addr size : Z) (tb rest : vma_table) : Prop := {
  cv_keeps : forall q u, tb !! q = Some u -> ~ hit mm addr size u -> rest !! q = Some u;
  cv_from : forall q u, rest !! q = Some u ->
    (tb !! q = Some u /\ ~ hit mm addr size u) \/
    exists q0 u0, tb !! q0 = Some u0 /\ hit mm addr size u0 /\ piece mm addr size u0 u;
  cv_covers : forall q u b, tb !! q = Some u -> in_space mm u -> vm_start u <= b < vm_end u ->
    ~ (addr <= b < addr + size) ->
    exists q' u', rest !! q' = Some u' /\ in_space mm u' /\ vm_start u' <= b < vm_end u';
  cv_apart : vmas_apart rest;
}.

Definition close_all (l : list positive) (tb : vma_table) : vma_table := foldl (fun m v => delete v m) tb l.

(** What a successful vm_mmap of [size] bytes did: one new vma, in an aligned range of user
    addresses that was freed first; what it closes are pieces of the vmas that met the range. *)
Record mapping `{K : Kernel} (mm : positive) (size : Z) (tb : vma_table) (r : mmap_result) (vma : vm_area_struct) : Prop := {
  mp_addr : 0 <= mm_addr r /\ mm_addr r + size <= TASK_SIZE /\ offset_in_page (mm_addr r) = 0;
  mp_new : mm_table r !! mm_vma r = Some vma /\ tb !! mm_vma r = None /\ mm_vma r ∉ mm_closed r;
  mp_vma : vm_extent vma = (mm, mm_addr r, mm_addr r + size, false) /\ vm_private_data vma = None;
  mp_opened : forall v, v ∈ mm_opened r -> exists u q u0, mm_table r !! v = Some u /\
    tb !! q = Some u0 /\ hit mm (mm_addr r) size u0 /\ vm_ops u = vm_ops u0;
  mp_once : NoDup (mm_closed r);
  mp_closed : forall v, v ∈ mm_closed r -> exists u q u0, mm_table r !! v = Some u /\
    tb !! q = Some u0 /\ hit mm (mm_addr r) size u0 /\ vm_ops u = vm_ops u0;
  mp_carved : carved mm (mm_addr r) size tb (delete (mm_vma r) (close_all (mm_closed r) (mm_table r)));
}.

Definition map_flags (vaddr : Z) : Z := if vaddr =? 0 then MAP_SHARED else Z.lor MAP_SHARED MAP_FIXED.

(** mmap of whole pages adds one vma: without an address in a range that is free, with [MAP_FIXED] at
    the address given, in place of what is mapped there.  find_vma gives the first vma that ends
    above the address, whatever is mapped elsewhere; find_vma_intersection and vm_next go
    through the vmas of an address space in the order of their addresses. *)
Class MapVma `(K : Kernel) : Prop := {
  task_size_ok : TASK_SIZE <= 2 ^ 63;
  mmap_law : forall tb mm vaddr size off r, vmas_apart tb -> 0 <= vaddr -> 0 < size -> offset_in_page size = 0 ->
    offset_in_page vaddr = 0 -> vm_mmap tb mm vaddr size (map_flags vaddr) off = inr r ->
    exists vma, mapping mm size tb r vma /\
      (vaddr = 0 -> mm_opened r = [] /\ mm_closed r = [] /\ mm_table r = <[mm_vma r := vma]> tb /\
         forall v u, tb !! v = Some u -> ~ hit mm (mm_addr r) size u) /\
      (vaddr <> 0 -> mm_addr r = vaddr);
  find_vma_first : forall tb v vma a, tb !! v = Some vma -> vm_detached vma = false -> a < vm_end vma ->
    (forall v' u, tb !! v' = Some u -> in_space (vm_mm vma) u -> v' <> v -> vm_end u <= a \/ vm_end vma < vm_end u) ->
    find_vma tb (vm_mm vma) a = Some v;
  intersection_first : forall tb mm a b v, vmas_apart tb -> find_vma_intersection tb mm a b = Some v ->
    exists u, tb !! v = Some u /\ in_space mm u /\ a < vm_end u /\ vm_start u < b /\
      forall v' u', tb !! v' = Some u' -> in_space mm u' -> a < vm_end u' -> vm_start u' < b -> vm_start u <= vm_start u';
  intersection_none : forall tb mm a b, vmas_apart tb -> find_vma_intersection tb mm a b = None ->
    forall v' u', tb !! v' = Some u' -> in_space mm u' -> a < vm_end u' -> b <= vm_start u';
  next_first : forall tb v u v', vmas_apart tb -> tb !! v = Some u -> vm_detached u = false -> vm_next tb v = Some v' ->
    exists u', tb !! v' = Some u' /\ in_space (vm_mm u) u' /\ vm_start u < vm_start u' /\
      forall q z, tb !! q = Some z -> in_space (vm_mm u) z -> vm_start u < vm_start z -> vm_start u' <= vm_start z;
  next_none : forall tb v u, vmas_apart tb -> tb !! v = Some u -> vm_detached u = false -> vm_next tb v = None ->
    forall q z, tb !! q = Some z -> in_space (vm_mm u) z -> vm_start z <= vm_start u;
}.

Section map.
Context `{K : Kernel} {G : KernelGeometry K} {MV : MapVma K}.
Implicit Types (w : world) (cur : task) (tb : vma_table).

(** * The search for attachments in the range *)

(** A vma of the module meets the range. *)
Definition shows_in (mm : positive) (a b : Z) (u : vm_area_struct) : bool :=
  bool_decide (vm_mm u = mm) && negb (vm_detached u) && (a <? vm_end u) && (vm_start u <? b) && xpmem_is_vm_ops_set u.
Definition clash tb (mm : positive) (a b : Z) : bool := existsb (fun x => shows_in mm a b x.2) (map_to_list tb).

Lemma existsb_table (P : vm_area_struct -> bool) tb :
  existsb (fun x => P x.2) (map_to_list tb) = true <-> exists v u, tb !! v = Some u /\ P u = true.
Proof.
  rewrite existsb_exists. split.
  - intros ([v u] & Hin & H). exists v, u. split; [|done]. by apply elem_of_map_to_list, list_elem_of_In.
  - intros (v & u & E & H). exists (v, u). split; [|done]. by apply list_elem_of_In, elem_of_map_to_list.
Qed.

Lemma shows_in_true mm a b u :
  shows_in mm a b u = true <-> in_space mm u /\ a < vm_end u /\ vm_start u < b /\ vm_ops u = xpmem_vm_ops.
Proof.
  unfold shows_in, xpmem_is_vm_ops_set, in_space. rewrite !andb_true_iff, !bool_decide_eq_true, negb_true_iff, !Z.ltb_lt. tauto.
Qed.

Lemma clash_true tb mm a b : clash tb mm a b = true <->
  exists v u, tb !! v = Some u /\ in_space mm u /\ a < vm_end u /\ vm_start u < b /\ vm_ops u = xpmem_vm_ops.
Proof. unfold clash. rewrite existsb_table. by setoid_rewrite shows_in_true. Qed.

(** What is left to be looked at. *)
Definition after (s : Z) tb : vma_table := filter (fun '(_, u) => s < vm_start u) tb.

Lemma after_next tb s v u : tb !! v = Some u -> s < vm_start u -> (base.size (after (vm_start u) tb) < base.size (after s tb))%nat.
Proof.
  intros E Hs. assert (after (vm_start u) tb ⊆ delete v (after s tb)) as H%map_subseteq_size.
  { apply map_subseteq_spec. intros q z [E' Hz]%map_lookup_filter_Some. apply lookup_delete_Some. split; [intros <-; assert (z = u) as -> by congruence; lia|].
    apply map_lookup_filter_Some. split; [done|lia]. }
  assert (after s tb !! v = Some u) as Ev by (by apply map_lookup_filter_Some).
  assert (base.size (after s tb) <> 0%nat) as Hne by (apply map_size_ne_0_lookup; eauto).
  rewrite map_size_delete_Some in H by eauto. lia.
Qed.

(** The loop, from a vma of the address space on. *)
Lemma existing_from fuel v u limit w :
  vmas_apart (vmas w) -> vmas w !! v = Some u -> vm_detached u = false -> (base.size (after (vm_start u) (vmas w)) < fuel)%nat ->
  exists b, existing_attachment fuel (Some v) limit w = Ok b w /\
    (b = true <-> exists q z, vmas w !! q = Some z /\ in_space (vm_mm u) z /\ vm_start u <= vm_start z < limit /\ vm_ops z = xpmem_vm_ops).
Proof.
  revert v u. induction fuel as [|fuel IH]; intros v u Ha Ev Hd Hf; [lia|]. cbn. unfold mbind, M_bind, vma_load, load. rewrite Ev.
  destruct (Z.ltb_spec (vm_start u) limit) as [Hl|Hl]; [|exists false; split; [done|]; split; [done|intros (? & ? & ? & ? & ? & _); lia]].
  unfold xpmem_is_vm_ops_set. case_bool_decide as Ho; [exists true; split; [done|]; split; [|done]; intros _; exists v, u; by repeat split|].
  assert (forall q z, vmas w !! q = Some z -> in_space (vm_mm u) z -> vm_ops z = xpmem_vm_ops -> vm_start u <= vm_start z -> vm_start u < vm_start z) as Hlt.
  { intros q z Ez [Hm Hd'] Hz Hs. assert (vm_start u <> vm_start z) as Hne; [|lia]. intros Es.
    pose proof (apart_nonempty _ Ha v u Ev Hd). pose proof (apart_nonempty _ Ha q z Ez Hd').
    assert (v = q) as <- by (apply (apart_disjoint _ Ha v u q z); congruence || lia). congruence. }
  unfold get. destruct (vm_next (vmas w) v) as [v'|] eqn:En.
  - destruct (next_first _ _ _ _ Ha Ev Hd En) as (u' & E' & [Hm' Hd'] & Hn & Hmin). pose proof (after_next _ _ _ _ E' Hn).
    destruct (IH v' u' Ha E' Hd' ltac:(lia)) as (b & Eb & Hb). exists b. split; [done|]. rewrite Hb, Hm'. split.
    + intros (q & z & Ez & Hz & Hr & Hx). exists q, z. split_and!; try done; lia.
    + intros (q & z & Ez & Hz & Hr & Hx). exists q, z. pose proof (Hmin q z Ez Hz (Hlt q z Ez Hz Hx ltac:(lia))). split_and!; try done; lia.
  - exists false. split; [by destruct fuel|]. split; [done|]. intros (q & z & Ez & Hz & Hr & Hx).
    pose proof (next_none _ _ _ Ha Ev Hd En q z Ez Hz). pose proof (Hlt q z Ez Hz Hx). lia.
Qed.

(** The search finds an attachment exactly when one is there; it does not run out of fuel. *)
Lemma existing_ok mm a b w : vmas_apart (vmas w) ->
  existing_attachment (base.size (vmas w)) (find_vma_intersection (vmas w) mm a b) b w = Ok (clash (vmas w) mm a b) w.
Proof.
  intros Ha. destruct (find_vma_intersection (vmas w) mm a b) as [v|] eqn:Ef.
  - destruct (intersection_first _ _ _ _ _ Ha Ef) as (u & Ev & [Hm Hd] & H1 & H2 & Hmin).
    assert (base.size (after (vm_start u) (vmas w)) < base.size (vmas w))%nat as Hsz.
    { assert (after (vm_start u) (vmas w) ⊆ delete v (vmas w)) as H%map_subseteq_size.
      { apply map_subseteq_spec. intros q z [E' Hz]%map_lookup_filter_Some. apply lookup_delete_Some. split; [intros <-; assert (z = u) as -> by congruence; lia|done]. }
      rewrite map_size_delete_Some in H by eauto. assert (base.size (vmas w) <> 0%nat) by (apply map_size_ne_0_lookup; eauto). lia. }
    destruct (existing_from _ v u b w Ha Ev Hd Hsz) as (c & Ec & Hc). rewrite Ec. f_equal. apply eq_bool_prop_intro. rewrite !Is_true_true, Hc, clash_true, Hm. split.
    + intros (q & z & Ez & [Hmz Hdz] & Hr & Hx). exists q, z. split_and!; try done; [|lia].
      pose proof (apart_nonempty _ Ha v u Ev Hd). pose proof (apart_nonempty _ Ha q z Ez Hdz).
      destruct (decide (v = q)) as [<-|Hne]; [congruence|]. destruct (decide (a < vm_end z)); [done|]. exfalso.
      apply Hne, (apart_disjoint _ Ha v u q z); congruence || lia.
    + intros (q & z & Ez & Hz & H3 & H4 & Hx). exists q, z. specialize (Hmin q z Ez Hz H3 H4). by split_and!.
  - destruct (base.size (vmas w)); cbn; (destruct (clash (vmas w) mm a b) eqn:Ec; [exfalso|done]);
      apply clash_true in Ec as (q & z & Ez & Hz & H1 & H2 & _); pose proof (intersection_none _ _ _ _ Ha Ef q z Ez Hz H1); lia.
Qed.

(** * The table afterwards *)

Lemma close_all_lookup l tb v : v ∉ l -> close_all l tb !! v = tb !! v.
Proof.
  revert tb. induction l as [|q l IH]; intros tb Hn; [done|]. apply not_elem_of_cons in Hn as [Hv Hn].
  cbn. fold (close_all l (delete q tb)). rewrite IH by done. by rewrite lookup_delete_ne.
Qed.

Lemma open_others_ok l w :
  (forall v, v ∈ l -> exists u, vmas w !! v = Some u /\ vm_ops u <> xpmem_vm_ops) -> open_vmas l w = Ok () w.
Proof.
  induction l as [|v l IH]; intros Hl; [done|]. destruct (Hl v ltac:(left)) as (u & Ev & Ho). cbn [open_vmas].
  unfold mbind, M_bind, vma_load, load. rewrite Ev. unfold xpmem_is_vm_ops_set. rewrite bool_decide_eq_false_2 by done.
  apply IH. intros q Hq. apply Hl. by right.
Qed.

Lemma close_others_ok cur l w :
  NoDup l -> (forall v, v ∈ l -> exists u, vmas w !! v = Some u /\ vm_ops u <> xpmem_vm_ops) ->
  close_vmas cur l w = Ok () (set_vmas (close_all l (vmas w)) w).
Proof.
  revert w. induction l as [|v l IH]; intros w Hnd Hl; [by destruct w|]. apply NoDup_cons in Hnd as [Hn Hnd].
  destruct (Hl v ltac:(left)) as (u & Ev & Ho). cbn [close_vmas]. unfold mbind, M_bind, vma_load, load. rewrite Ev.
  unfold xpmem_is_vm_ops_set. rewrite bool_decide_eq_false_2 by done. cbn [whenM]. unfold mret, M_ret, kfree, mbind, M_bind, load. rewrite Ev. cbn.
  rewrite (IH (set_vmas (delete v (vmas w)) w)); [by destruct w|done|].
  intros q Hq. destruct (Hl q ltac:(by right)) as (z & Ez & Hz). exists z. cbn. rewrite lookup_delete_ne; [done|]. by intros ->.
Qed.

(** In a table of vmas that do not meet, a vma is found at its own address. *)
Lemma find_apart tb v u : vmas_apart tb -> tb !! v = Some u -> vm_detached u = false -> find_vma tb (vm_mm u) (vm_start u) = Some v.
Proof.
  intros Ha Ev Hd. pose proof (apart_nonempty _ Ha v u Ev Hd). apply (find_vma_first _ _ u); try done.
  intros q z Ez [Hm Hdz] Hne. pose proof (apart_nonempty _ Ha q z Ez Hdz).
  destruct (decide (vm_end z <= vm_start u)); [by left|]. destruct (decide (vm_end u < vm_end z)); [by right|].
  exfalso. apply Hne, (apart_disjoint _ Ha q z v u); congruence || lia.
Qed.

Lemma sole_apart tb v u : vmas_apart tb -> tb !! v = Some u -> vm_detached u = false -> sole_vma tb v u.
Proof.
  intros Ha Ev Hd. split; [done|]. split; [done|]. split; [by eapply apart_nonempty|]. intros q z Ez Hm Hdz H1 H2.
  by apply (apart_disjoint _ Ha q z v u).
Qed.

Lemma apart_insert mm addr size rest v u :
  vmas_apart rest -> (forall q z, rest !! q = Some z -> ~ hit mm addr size z) ->
  vm_extent u = (mm, addr, addr + size, false) -> 0 < size -> vmas_apart (<[v := u]> rest).
Proof.
  intros [H1 H2] Hf [= X1 X2 X3 X4] Hs. split.
  - intros q z [[<- <-]|[_ Ez]]%lookup_insert_Some Hd; [lia|by eapply H1].
  - intros q z q' z' [[<- <-]|[_ Ez]]%lookup_insert_Some [[<- <-]|[_ Ez']]%lookup_insert_Some Hm Hd Hd' Hi Hi'; [done| | |by apply (H2 q z q' z')].
    + exfalso. apply (Hf q' z' Ez'). split; [split; congruence|lia].
    + exfalso. apply (Hf q z Ez). split; [split; congruence|lia].
Qed.

Lemma carved_clear mm addr size tb rest : carved mm addr size tb rest -> forall q z, rest !! q = Some z -> ~ hit mm addr size z.
Proof. intros Hc q z Ez. destruct (cv_from _ _ _ _ _ Hc q z Ez) as [[_ H]|(_ & _ & _ & _ & _ & H & _)]; exact H. Qed.

Section mapping.
Context (mm : positive) (size : Z) (tb : vma_table) (r : mmap_result) (vma : vm_area_struct).
Context (HM : mapping mm size tb r vma) (Hs : 0 < size).

Definition rest_of : vma_table := delete (mm_vma r) (close_all (mm_closed r) (mm_table r)).

Lemma mapped_table u : <[mm_vma r := u]> (close_all (mm_closed r) (mm_table r)) = <[mm_vma r := u]> rest_of.
Proof. unfold rest_of. by rewrite insert_delete_eq. Qed.

Lemma mapped_apart u : vm_extent u = vm_extent vma -> vmas_apart (<[mm_vma r := u]> rest_of).
Proof.
  intros Hx. destruct (mp_vma _ _ _ _ _ HM) as [Hv _]. pose proof (mp_carved _ _ _ _ _ HM) as Hc. rewrite Hv in Hx.
  eapply apart_insert; [apply Hc|by apply (carved_clear _ _ _ _ _ Hc)|exact Hx|done].
Qed.

Lemma mapped_find u : vm_extent u = vm_extent vma -> find_vma (<[mm_vma r := u]> rest_of) mm (mm_addr r) = Some (mm_vma r).
Proof.
  intros Hx. pose proof (mapped_apart u Hx) as Ha. destruct (mp_vma _ _ _ _ _ HM) as [Hv _]. rewrite Hv in Hx. injection Hx as X1 X2 X3 X4.
  rewrite <- X1, <- X2. apply find_apart; [done|apply lookup_insert_eq|done].
Qed.

Lemma hit_free a v u : a = u64 (mm_addr r + size) -> clash tb mm (mm_addr r) a = false -> tb !! v = Some u ->
  hit mm (mm_addr r) size u -> vm_ops u <> xpmem_vm_ops.
Proof.
  intros -> Hc Ev (Hi & H1 & H2) Ho. destruct (mp_addr _ _ _ _ _ HM) as (A1 & A2 & _). pose proof task_size_ok.
  rewrite u64_id in Hc by lia. assert (clash tb mm (mm_addr r) (mm_addr r + size) = true) as Ht; [|congruence].
  apply clash_true. exists v, u. by split_and!.
Qed.
End mapping.

(** * Mapping *)

(** An attachment is asked for on top of another one. *)
Definition taken tb (mm : positive) (vaddr size : Z) : bool := negb (vaddr =? 0) && clash tb mm vaddr (u64 (vaddr + size)).

(** The pages of what a mapping at a given address replaces are gone. *)
Definition map_pgt (mm : positive) (vaddr size : Z) (pt : pgtable) : pgtable :=
  if vaddr =? 0 then pt else unmap_ptes pt mm vaddr size.

(** The new vma once it shows the attachment [t]. *)
Definition dev_vma (vma : vm_area_struct) : vm_area_struct := set_vm_ops xpmem_vm_ops (set_vm_file false vma).
Definition att_vma (t : positive) (vma : vm_area_struct) : vm_area_struct :=
  let vma := set_vm_private_data (Some t) (dev_vma vma) in
  set_vm_ops xpmem_vm_ops (set_vm_flags (Z.lor (vm_flags vma) XPMEM_VM_FLAGS) vma).

Definition with_map (mm : positive) (vaddr size : Z) (r : mmap_result) (vma : vm_area_struct) w : world :=
  set_pgt (map_pgt mm vaddr size (pgt w)) (set_vmas (<[mm_vma r := vma]> (rest_of r)) w).

Section one.
Context (cur : task) (mm : positive) (vaddr size offset : Z) (w : world).
Context (Em : cur_mm cur = Some mm) (Hl : MmapLock mm ∉ held w) (Ha : existsb atomic_lock (held w) = false).
Context (Hv : 0 <= vaddr) (Hva : offset_in_page vaddr = 0) (Hs : 0 < size) (Hz : offset_in_page size = 0).
Context (Hap : vmas_apart (vmas w)) (Hfree : taken (vmas w) mm vaddr size = false).

(** The kernel has mapped the range. *)
Lemma mmap_mapping r : vm_mmap (vmas w) mm vaddr size (map_flags vaddr) offset = inr r ->
  exists vma, mapping mm size (vmas w) r vma /\ (vaddr = 0 \/ mm_addr r = vaddr) /\
    forall v u, vmas w !! v = Some u -> hit mm (mm_addr r) size u -> vm_ops u <> xpmem_vm_ops.
Proof.
  intros E. destruct (mmap_law _ _ _ _ _ _ Hap Hv Hs Hz Hva E) as (vma & HM & H0 & H1). exists vma. split; [done|].
  destruct (Z.eqb_spec vaddr 0) as [E0|Hne].
  - split; [by left|]. intros v u Ev Hh. destruct (H0 E0) as (_ & _ & _ & Hf). by destruct (Hf v u Ev).
  - split; [right; auto|]. intros v u Ev Hh. apply (hit_free mm size (vmas w) r vma HM Hs (u64 (vaddr + size)) v u); [by rewrite H1| |done..].
    unfold taken in Hfree. rewrite (proj2 (Z.eqb_neq _ _) Hne) in Hfree. by rewrite H1.
Qed.

Lemma do_mmap_ok :
  match vm_mmap (vmas w) mm vaddr size (map_flags vaddr) offset with
  | inl e => do_vm_mmap cur vaddr size (map_flags vaddr) offset w = Ok (inl e) w
  | inr r => exists vma, mapping mm size (vmas w) r vma /\ (vaddr = 0 \/ mm_addr r = vaddr) /\
      do_vm_mmap cur vaddr size (map_flags vaddr) offset w = Ok (inr (mm_addr r)) (with_map mm vaddr size r (dev_vma vma) w)
  end.
Proof.
  pose proof mmap_mapping as HL. destruct (vm_mmap (vmas w) mm vaddr size (map_flags vaddr) offset) as [e|r] eqn:E.
  - apply wp_outcome. unfold do_vm_mmap. rewrite Em. apply wp_bind, wp_ret. apply wp_bind, wp_mutex_lock; [done|done|]. apply wp_bind, wp_get.
    cbn. rewrite E. apply wp_bind. eapply wp_release; [done|done|]. apply wp_ret. f_equal. by destruct w.
  - destruct (HL r eq_refl) as (vma & HM & Haddr & Hno). exists vma. split; [done|]. split; [done|].
    destruct (mp_new _ _ _ _ _ HM) as (Et & _ & Hnc).
    apply wp_outcome. unfold do_vm_mmap. rewrite Em. apply wp_bind, wp_ret. apply wp_bind, wp_mutex_lock; [done|done|]. apply wp_bind, wp_get.
    cbn. rewrite E. apply wp_bind, wp_modify. apply wp_bind. eapply wp_Ok; [apply open_others_ok|].
    { intros v Hin. destruct (mp_opened _ _ _ _ _ HM v Hin) as (u & q & u0 & Eu & Eq & Hh & Ho). exists u. split; [done|].
      rewrite Ho. by apply (Hno q u0). }
    set (w1 := set_pgt (map_pgt mm vaddr size (pgt w)) (set_vmas (mm_table r) (set_held (MmapLock mm :: held w) w))).
    apply wp_bind, (wp_mono _ (fun _ w' => w' = w1)).
    { unfold map_flags, w1, map_pgt. destruct (vaddr =? 0); [apply wp_ret; by destruct w|by apply wp_modify]. }
    intros [] w' ->. apply wp_bind, wp_modify. apply wp_bind. eapply wp_Ok; [apply close_others_ok; [by eapply mp_once|]|].
    { intros v Hin. destruct (mp_closed _ _ _ _ _ HM v Hin) as (u & q & u0 & Eu & Eq & Hh & Ho). exists u. split; [done|].
      rewrite Ho. by apply (Hno q u0). }
    cbn. apply wp_bind, wp_bind. eapply wp_store; [cbn; by rewrite close_all_lookup|]. cbn.
    apply wp_bind, wp_modify. eapply wp_store; [cbn; apply lookup_insert_eq|]. cbn.
    apply wp_bind. eapply wp_release; [done|done|]. apply wp_ret. f_equal.
    rewrite insert_insert_eq, Z.add_simpl_r, mapped_table. unfold with_map. clear. by destruct w.
Qed.
End one.

(** From the creation of the attachment on. *)
Lemma attach_map_ok cur mm t y vaddr size offset w L :
  cur_mm cur = Some mm -> atts w !! t = Some y -> held w = AttMutex t :: L -> MmapLock mm ∉ L ->
  existsb atomic_lock L = false -> at_size y = size -> 0 <= vaddr -> offset_in_page vaddr = 0 -> 0 < size -> offset_in_page size = 0 ->
  vmas_apart (vmas w) ->
  attach_map cur t vaddr size offset w =
    if taken (vmas w) mm vaddr size then Ok (inl (- EINVAL)) w else
    match vm_mmap (vmas w) mm vaddr size (map_flags vaddr) offset with
    | inl e => Ok (inl e) w
    | inr r =>
        match mm_table r !! mm_vma r with
        | Some vma => Ok (inr (u64 (mm_addr r + offset_in_page (att_vaddr y))))
            (with_map mm vaddr size r (att_vma t vma)
              (set_atts (<[t := set_at_vma (Some (mm_vma r)) (set_at_range (mm_addr r) size y)]> (atts w)) w))
        | None => Fault UseAfterFree
        end
    end.
Proof.
  intros Em Ey Hh Hl Ha Hsz Hv Hva Hs Hz Hap. apply wp_outcome. unfold attach_map. rewrite Em. apply wp_bind, wp_ret.
  assert (MmapLock mm ∉ held w) as Hl' by (rewrite Hh; by apply not_elem_of_cons).
  assert (existsb atomic_lock (held w) = false) as Ha' by (by rewrite Hh). fold (map_flags vaddr).
  apply wp_bind, (wp_mono _ (fun b w' => b = taken (vmas w) mm vaddr size /\ w' = w)).
  { unfold taken, map_flags. destruct (vaddr =? 0); cbn [negb andb]; [by apply wp_ret|]. change (has (Z.lor MAP_SHARED MAP_FIXED) MAP_FIXED) with true. cbn iota.
    apply wp_bind, wp_mutex_lock; [done|done|]. apply wp_bind, wp_get. apply wp_bind. eapply wp_release; [done|done|].
    cbn [vmas set_held]. set (w1 := set_held _ _). assert (w1 = w) as -> by (unfold w1; by destruct w).
    eapply wp_Ok; [by apply existing_ok|done]. }
  intros c w' [-> ->]. destruct (taken (vmas w) mm vaddr size) eqn:Et; [by apply wp_ret|]. apply wp_bind.
  pose proof (do_mmap_ok cur mm vaddr size offset w Em Hl' Ha' Hv Hva Hs Hz Hap Et) as Hd.
  destruct (vm_mmap (vmas w) mm vaddr size (map_flags vaddr) offset) as [e|r]; [eapply wp_Ok; [exact Hd|by apply wp_ret]|].
  destruct Hd as (vma & HM & _ & Hd). rewrite (proj1 (mp_new _ _ _ _ _ HM)). eapply wp_Ok; [exact Hd|].
  apply wp_bind. eapply wp_store; [exact Ey|]. cbn. apply wp_bind, wp_mutex_lock; [done|done|].
  apply wp_bind, wp_get. apply wp_bind. eapply wp_release; [done|done|]. cbn.
  rewrite (mapped_find mm size (vmas w) r vma HM Hs (dev_vma vma) eq_refl).
  apply wp_bind, wp_ret. do 3 (apply wp_bind; eapply wp_store; [cbn; apply lookup_insert_eq|]; cbn).
  apply wp_bind. eapply wp_store; [cbn; apply lookup_insert_eq|]. cbn.
  apply wp_bind. eapply wp_load; [cbn; apply lookup_insert_eq|]. apply wp_ret. f_equal.
  rewrite !insert_insert_eq, Hsz. unfold with_map. by destruct w.
Qed.
End map.
