(* ===== verification/AttachSpec.v ===== *)
(** Attaching (xpmem_attach.c): [xpmem_attach], at an address of the kernel's choice or
    at the address asked for, computes [attach_spec], and keeps the object graph, the vmas and
    the page tables consistent. *)

From S2P Require Import Prelude Kernel World Monad Ids Misc Pfn Attach Get Inv Graph Link Refs Lookup.
From S2P Require Import MakeSpec GetSpec AccessSpec PfnSpec Invalidated ClearSpec Chain PinSpec FaultSpec DetachSpec.
From S2P Require Import RemoveSpec Registry ReleaseSpec MapSpec.

Section attach_spec.
Context `{K : Kernel} {G : KernelGeometry K} {VT : VmaTree K} {UV : UnmapVma K} {MV : MapVma K}.
Implicit Types (T S A B : gmultiset positive) (w : world) (cur : task).

(** * Specification *)

(** The size, rounded up to whole pages. *)
Definition whole_pages (size : Z) : Z :=
  if offset_in_page size =? 0 then size else u64 (size + (PAGE_SIZE - offset_in_page size)).

(** What the permit lets the caller attach: the address in the source. *)
Definition attach_access cur (x : xpmem_access_permit) (p : xpmem_thread_group) (g : xpmem_segment) (offset size : Z) : Z + Z :=
  if negb (cur_tgid cur =? tg_tgid p) || (ap_mode x =? XPMEM_RDONLY) then inl (- EACCES) else
  if (offset <? 0) || (size =? 0) then inl (- EINVAL) else
  if u64 (offset + size) >? seg_size g then inl (- EINVAL) else inr (u64 (seg_vaddr g + offset)).

Definition new_att cur (a : positive) (seg_vaddr addr size : Z) (v : positive) : xpmem_attachment :=
  mk_att seg_vaddr addr size (Some v) 0 1 a (cur_mm cur).

Definition bumped w : world := set_next_ptr (Pos.succ (next_ptr w)) w.

(** What a permit leads to. *)
Definition permit_objects w (a : positive) :=
  x ← aps w !! a ; p ← tgs w !! ap_tg x ; g ← segs w !! ap_seg x ; st ← tgs w !! seg_tg g ;
  Some (x, p, g, st).

(** A process attaches its own memory on top of itself. *)
Definition over_itself cur (st : xpmem_thread_group) (sv size vaddr : Z) : bool :=
  (cur_tgid cur =? tg_tgid st) && negb (vaddr =? 0) && (u64 (vaddr + size) >? sv) && (vaddr <? u64 (sv + size)).

(** From the check of the access on. *)
Definition map_spec cur (mm a : positive) x p g st (offset size vaddr : Z) w : (Z + Z) * world :=
  match attach_access cur x p g offset size with
  | inl e => (inl e, w)
  | inr sv =>
      if over_itself cur st sv size vaddr then (inl (- EINVAL), w) else
      if negb (kzalloc_ok (next_ptr w)) then (inl (- ENOMEM), bumped w) else
      if taken (vmas w) mm vaddr size then (inl (- EINVAL), bumped w) else
      match vm_mmap (vmas w) mm vaddr size (map_flags vaddr) offset with
      | inl e => (inl e, bumped w)
      | inr r =>
          match mm_table r !! mm_vma r with
          | Some vma =>
              (inr (mm_addr r), with_map mm vaddr size r (att_vma (next_ptr w) vma)
                 (link_att a (next_ptr w) x (new_att cur a sv (mm_addr r) size (mm_vma r)) w))
          | None => (inr (mm_addr r), w)
          end
      end
  end.

(** The address asked for cannot be used. *)
Definition bad_vaddr (vaddr : Z) : bool :=
  (negb (vaddr =? 0) && (u64 (vaddr + PAGE_SIZE) >=? TASK_SIZE)) || negb (offset_in_page vaddr =? 0).

Definition attach_spec cur (mm : positive) (id offset size vaddr : Z) w : (Z + Z) * world :=
  if (id <=? 0) || bad_vaddr vaddr || negb (offset_in_page offset =? 0) then (inl (- EINVAL), w) else
  match resolve_ap w id with
  | None => (inl (- ENOENT), w)
  | Some a =>
      match permit_objects w a with
      | Some (x, p, g, st) =>
          if negb (seg_usable g st) then (inl (- ENOENT), w)
          else map_spec cur mm a x p g st offset (whole_pages size) vaddr w
      | None => (inl (- ENOENT), w)
      end
  end.

(** * Mapping *)

Lemma offset_in_page_u64 a : offset_in_page (u64 a) = offset_in_page a.
Proof.
  pose proof PAGE_SHIFT_range. rewrite !offset_in_page_mod. unfold PAGE_SIZE, u64.
  rewrite Z.mod_mod_divide; [done|]. exists (2 ^ (64 - PAGE_SHIFT)). rewrite <- Z.pow_add_r by lia. f_equal. lia.
Qed.

(** * With the segment locked *)

Lemma attach_access_aligned cur x p g offset size sv :
  seg_wf g ->
  attach_access cur x p g offset size = inr sv -> 0 <= size < 2 ^ 64 -> offset_in_page offset = 0 ->
  offset < 2 ^ 63 -> 0 < size /\ 0 <= offset /\ offset_in_page sv = 0 /\
  (offset + size < 2 ^ 64 -> sv = seg_vaddr g + offset /\ offset + size <= seg_size g).
Proof.
  intros Hg. unfold attach_access. destruct (_ || _); [done|]. destruct ((offset <? 0) || (size =? 0)) eqn:E; [done|].
  destruct (u64 (offset + size) >? seg_size g) eqn:E'; [done|]. intros [= <-] Hs Ho Hlt.
  apply orb_false_iff in E as [E1 E2]. rewrite Z.gtb_ltb in E'. apply Z.ltb_ge in E'.
  destruct Hg as (G1 & G2 & G3 & G4 & G5). split; [lia|]. split; [lia|]. split.
  - rewrite offset_in_page_u64. by apply offset_add.
  - intros Hn. rewrite u64_id in E' by lia. rewrite u64_id by lia. lia.
Qed.

Section locked.
Context (T S A : gmultiset positive) (cur : task) (mm a s : positive) (w : world).
Context (x : xpmem_access_permit) (p : xpmem_thread_group) (g : xpmem_segment) (st : xpmem_thread_group).
Context (HI : Inv T S A ∅ w) (HP : permit w a x p g st) (Hm : cur_mm cur = Some mm).
Context (Hh : held w = [SegSema s]).

Let t := next_ptr w.
Let L := [AttMutex t; SegSema s].

(** The attachment as it is linked, before it has an address. *)
Definition raw_att (sv size : Z) : xpmem_attachment := mk_att sv 0 size None 0 2 a (cur_mm cur).
Let wl sv size := set_held L (link_att a t x (raw_att sv size) w).

Lemma wl_Inv sv size : Inv T S A (∅ ⊎ {[+ t +]}) (wl sv size).
Proof.
  eapply Inv_same; [eapply (Inv_att_link T S A ∅ w a x t (raw_att sv size) HI)|done..]; try done.
  - exact (ch_ap _ _ _ _ _ _ HP).
  - rewrite (list_of_Some _ _ _ _ (ch_tg _ _ _ _ _ _ HP)). exact (ch_hashed _ _ _ _ _ _ HP).
Qed.

Lemma fresh_unlisted : t ∉ ap_att_list x.
Proof.
  intros Hin. destruct (listed_att _ _ _ _ w a x t HI (ch_ap _ _ _ _ _ _ HP) Hin) as (y & Ey & _).
  destruct (inv_fresh HI t) as (_ & _ & _ & F); [unfold t; lia|]. congruence.
Qed.

Lemma fresh_att : atts w !! t = None.
Proof. destruct (inv_fresh HI t) as (_ & _ & _ & F); [unfold t; lia|]. exact F. Qed.

(** The attachment could not be mapped: it is destroyed. *)
Lemma attach_undo_ok sv size {V} (r : V) :
  wp ((att_set_flag t XPMEM_FLAG_DESTROYING ;; att_list_del a t ;; xpmem_att_destroyable t) ;;
      mutex_unlock (AttMutex t) ;;
      xpmem_att_deref t ;;
      mret r) (fun r' w' => r' = r /\ Inv T S A ∅ w' /\ w' ≡ bumped w) (wl sv size).
Proof.
  set (y := raw_att sv size). set (x1 := set_ap_att_list (ap_att_list x ++ [t]) x).
  assert (atts (wl sv size) !! t = Some y) as Ey by apply lookup_insert_eq.
  apply wp_bind, wp_bind. eapply wp_store; [exact Ey|]. fold (marked y).
  set (w1 := set_atts _ (wl sv size)).
  assert (Inv T S A (∅ ⊎ {[+ t +]}) w1) as HI1 by (eapply Inv_marked; [apply wl_Inv|exact Ey]).
  assert (aps w1 !! a = Some x1) as Ex by apply lookup_insert_eq.
  apply wp_bind. unfold att_list_del. apply wp_bind, wp_acquire; [not_held|].
  apply wp_bind. eapply wp_store; [exact Ex|]. cbv beta.
  assert (set_ap_att_list (unlink t (ap_att_list x1)) x1 = x) as Eu.
  { unfold x1. cbn [ap_att_list set_ap_att_list]. rewrite unlink_app, unlink_cons_eq, unlink_not_in, app_nil_r
      by (apply not_elem_of_nil || exact fresh_unlisted). by destruct x. }
  rewrite Eu. eapply (wp_release _ L); [done|not_held|].
  set (w2 := set_held L _).
  assert (Inv T S A (∅ ⊎ {[+ t +]} ⊎ {[+ t +]}) w2) as HI2.
  { eapply Inv_same; [eapply (Inv_att_unlink T S A _ w1 a x1 t (marked y) HI1 Ex)|rewrite ?Eu; done..].
    - apply lookup_insert_eq.
    - cbn. apply elem_of_app. right. by apply list_elem_of_singleton.
    - apply marked_destroying. }
  assert (atts w2 !! t = Some (marked y)) as Ey2 by apply lookup_insert_eq.
  eapply wp_mono; [eapply att_deref_ok; [exact HI2|exact Ey2|rewrite attrefs_add, decide_True by done; lia]|].
  intros _ w3 [HI3 Hq3]. apply wp_bind.
  eapply (wp_release _ [SegSema s]); [by rewrite (equiv_held _ _ Hq3)|not_held|].
  destruct (equiv_att _ _ _ _ (symmetry Hq3) Ey2) as [n Ey3].
  set (w4 := set_held _ w3). assert (w4 ≡ set_held [SegSema s] w2) as Hq4 by (by apply set_held_proper).
  eapply wp_seq; [eapply (wp_att_deref T S A ∅ w4 t _); [by eapply Inv_same|exact Ey3]|].
  intros _ w' [HI' E']. apply wp_ret. split; [done|]. split; [done|].
  rewrite decide_True in E'.
  - rewrite E', (equiv_delete_att t _ _ Hq4). unfold w2, w1, wl, link_att, bumped. cbn.
    rewrite !delete_insert_eq, delete_id by exact fresh_att.
    rewrite insert_insert_eq, insert_id by exact (ch_ap _ _ _ _ _ _ HP). rewrite <- Hh. clear. by destruct w.
  - unfold attrefs, att_refs. rewrite multiplicity_empty, b2n_false; [done|]. cbn.
    destruct (equiv_ap _ _ a _ (symmetry Hq4) ltac:(apply lookup_insert_eq)) as [n6 E7].
    rewrite (list_of_Some _ _ _ _ E7). exact fresh_unlisted.
Qed.

(** The attachment has its address and its vma. *)
Lemma attach_done_ok sv size vaddr r vma {V} (v : V) :
  wp (mutex_unlock (AttMutex t) ;; xpmem_att_deref t ;; mret v) (fun v' w' =>
    v' = v /\ Inv T S A ∅ w' /\
    w' ≡ with_map mm vaddr size r vma (link_att a t x (new_att cur a sv (mm_addr r) size (mm_vma r)) w))
    (with_map mm vaddr size r vma (set_atts (<[t := set_at_vma (Some (mm_vma r)) (set_at_range (mm_addr r) size (raw_att sv size))]>
      (atts (wl sv size))) (wl sv size))).
Proof.
  set (y := set_at_vma _ _). match goal with |- wp _ _ ?u => set (w1 := u) end.
  assert (Inv T S A (∅ ⊎ {[+ t +]}) w1) as HI1.
  { pose proof (att_all (inv_att (wl_Inv sv size)) t (raw_att sv size) ltac:(apply lookup_insert_eq)) as Hok.
    eapply Inv_same; [eapply (Inv_att_update T S A _ _ (wl sv size) t (raw_att sv size) y (wl_Inv sv size)); try apply Hok|done..];
      [apply lookup_insert_eq|done|done]. }
  assert (atts w1 !! t = Some y) as Ey by apply lookup_insert_eq.
  assert (list_of ap_att_list (aps w1) a = ap_att_list x ++ [t]) as El by (unfold w1; cbn; by rewrite list_of_insert, decide_True).
  apply wp_bind. eapply (wp_release _ [SegSema s]); [done|not_held|].
  eapply wp_seq; [eapply (att_deref_ok T S A ∅ _ t y); [by eapply Inv_same|exact Ey|]|].
  { unfold attrefs, att_refs. change (att_ap y) with a. cbn [aps set_held]. rewrite El, b2n_true; [lia|].
    apply elem_of_app. right. by apply list_elem_of_singleton. }
  intros _ w' [HI' Hq]. apply wp_ret. split; [done|]. split; [done|]. rewrite Hq.
  set (wf := with_map _ _ _ _ _ (link_att _ _ _ _ w)). transitivity (set_atts (<[t := y]> (atts wf)) wf).
  - unfold w1, wf, with_map, link_att. cbn. rewrite !insert_insert_eq, <- Hh. clear. by destruct w.
  - rewrite (equiv_insert_att wf wf t y (new_att cur a sv (mm_addr r) size (mm_vma r)) (reflexivity _)) by done. cbn.
    rewrite insert_insert_eq. by destruct w.
Qed.

Context (Hnd : has (ap_flags x) XPMEM_FLAG_DESTROYING = false) (Hg : seg_wf g) (Hap : vmas_apart (vmas w)).

Lemma attach_locked_ok offset size vaddr :
  0 <= size < 2 ^ 64 -> offset_in_page size = 0 -> offset_in_page offset = 0 -> offset < 2 ^ 63 ->
  0 <= vaddr -> offset_in_page vaddr = 0 ->
  wp (attach_locked cur a (seg_tg g) offset size vaddr) (fun r w' =>
    let sp := map_spec cur mm a x p g st offset size vaddr w in r = sp.1 /\ Inv T S A ∅ w' /\ w' ≡ sp.2) w.
Proof.
  intros Hs Hz Hoz Hlt Hv Hva. unfold attach_locked, map_spec.
  assert (access_objects w a x p g) as HO by (split; apply HP).
  assert (xpmem_validate_access cur a offset size XPMEM_RDWR w = Ok (attach_access cur x p g offset size) w) as E.
  { rewrite (validate_access_eq _ _ _ _ _ _ _ _ _ HO). unfold attach_access. cbn [Z.eqb andb].
    change (XPMEM_RDWR =? XPMEM_RDWR) with true. cbn [andb]. by repeat case_match. }
  apply wp_bind. eapply wp_Ok; [exact E|]. destruct (attach_access cur x p g offset size) as [e|sv] eqn:Ea; [by apply wp_ret|].
  destruct (attach_access_aligned _ _ _ _ _ _ _ Hg Ea Hs Hoz Hlt) as (Hpos & _ & Hsv & _).
  cbv zeta. rewrite Hsv, Z.add_0_r, (u64_id size) by exact Hs. apply wp_bind. eapply wp_load; [exact (ch_stg _ _ _ _ _ _ HP)|].
  fold (over_itself cur st sv size vaddr). destruct (over_itself cur st sv size vaddr); [by apply wp_ret|].
  apply wp_bind, wp_kzalloc; [by rewrite Hh|intros Hk; rewrite Hk; fold t|intros Hk; rewrite Hk]; cbn [negb].
  2: { apply wp_ret. split; [done|]. split; [by apply Inv_bump|done]. }
  apply wp_bind, wp_modify. apply wp_bind. eapply wp_store; [cbn; apply lookup_insert_eq|]. cbn. rewrite insert_insert_eq.
  apply wp_bind, wp_bind. eapply wp_load; [cbn; apply lookup_insert_eq|]. cbn.
  apply wp_bind, wp_DBUG_ON; [done|]. eapply wp_store; [cbn; apply lookup_insert_eq|]. cbn.
  apply wp_bind, wp_mutex_lock; [cbn; by rewrite Hh|cbn; rewrite Hh; not_held|]. cbn. rewrite Hh.
  apply wp_bind, wp_acquire; [not_held|]. apply wp_bind. eapply wp_store; [exact (ch_ap _ _ _ _ _ _ HP)|].
  apply wp_bind. eapply wp_load; [cbn; apply lookup_insert_eq|]. apply wp_bind.
  eapply (wp_release _ L); [done|not_held|]. cbn [ap_flags set_ap_att_list]. rewrite Hnd.
  match goal with |- wp _ _ ?u => replace u with (wl sv size)
    by (unfold wl, link_att, raw_att; cbn; by rewrite !insert_insert_eq) end.
  apply wp_bind. pose proof (attach_map_ok cur mm t (raw_att sv size) vaddr size offset (wl sv size) [SegSema s] Hm) as Hmap.
  change (vmas (wl sv size)) with (vmas w) in Hmap. specialize (Hmap ltac:(apply lookup_insert_eq) eq_refl ltac:(not_held) eq_refl eq_refl Hv Hva Hpos Hz Hap).
  destruct (taken (vmas w) mm vaddr size) eqn:Et; [eapply wp_Ok; [exact Hmap|exact (attach_undo_ok sv size (inl (- EINVAL)))]|].
  destruct (vm_mmap (vmas w) mm vaddr size (map_flags vaddr) offset) as [e|r] eqn:Emm.
  - eapply wp_Ok; [exact Hmap|]. exact (attach_undo_ok sv size (inl e)).
  - destruct (mmap_mapping mm vaddr size offset w Hv Hva Hpos Hz Hap Et r Emm) as (vma & HM & _).
    destruct (mp_addr _ _ _ _ _ HM) as (A1 & A2 & _). rewrite (proj1 (mp_new _ _ _ _ _ HM)) in *. eapply wp_Ok; [exact Hmap|].
    apply wp_bind, wp_ret. cbn [att_vaddr raw_att]. rewrite Hsv, Z.add_0_r, u64_id by (pose proof task_size_ok; lia).
    exact (attach_done_ok sv size vaddr r (att_vma t vma) (inr (mm_addr r))).
Qed.
End locked.

(** * [xpmem_attach] *)

Lemma link_att_equiv a t x n y w1 w : w1 ≡ w -> link_att a t (set_ap_refcnt n x) y w1 ≡ link_att a t x y w.
Proof.
  intros Hq. unfold link_att. rewrite (equiv_next_ptr _ _ Hq). set (N := Pos.succ (next_ptr w)).
  pose proof (equiv_insert_att (set_next_ptr N w1) (set_next_ptr N w) t y y (set_next_ptr_proper N _ _ Hq) eq_refl) as H.
  exact (equiv_insert_ap (set_atts (<[t := y]> (atts w1)) (set_next_ptr N w1))
    (set_atts (<[t := y]> (atts w)) (set_next_ptr N w)) a
    (set_ap_att_list (ap_att_list x ++ [t]) (set_ap_refcnt n x)) (set_ap_att_list (ap_att_list x ++ [t]) x) H eq_refl).
Qed.

Lemma with_map_equiv mm vaddr size r vma w1 w : w1 ≡ w -> with_map mm vaddr size r vma w1 ≡ with_map mm vaddr size r vma w.
Proof. intros Hq. unfold with_map. rewrite (equiv_pgt _ _ Hq). by apply set_pgt_proper, set_vmas_proper. Qed.

Lemma map_spec_equiv cur mm a x n1 p n2 g n3 st n4 offset size vaddr L w w1 :
  w1 ≡ set_held L w ->
  let sp := map_spec cur mm a x p g st offset size vaddr w in
  let sp1 := map_spec cur mm a (set_ap_refcnt n1 x) (set_tg_refcnt n2 p) (set_seg_refcnt n3 g) (set_tg_refcnt n4 st) offset size vaddr w1 in
  sp1.1 = sp.1 /\ set_held (held w) sp1.2 ≡ sp.2.
Proof.
  intros Hq. cbn zeta. unfold map_spec.
  change (attach_access cur (set_ap_refcnt n1 x) _ _ offset size) with (attach_access cur x p g offset size).
  assert (set_held (held w) w1 ≡ w) as Hq' by (rewrite Hq; by destruct w).
  rewrite (equiv_next_ptr _ _ Hq), (equiv_vmas _ _ Hq). cbn [next_ptr vmas set_held].
  assert (set_held (held w) (bumped w1) ≡ bumped w) as Hb.
  { unfold bumped. rewrite (equiv_next_ptr _ _ Hq). exact (set_next_ptr_proper (Pos.succ (next_ptr w)) _ _ Hq'). }
  destruct (attach_access cur x p g offset size) as [e|sv]; [done|].
  change (over_itself cur (set_tg_refcnt n4 st) sv size vaddr) with (over_itself cur st sv size vaddr).
  destruct (over_itself cur st sv size vaddr); [done|]. destruct (kzalloc_ok (next_ptr w)); cbn [negb]; [|done].
  destruct (taken _ _ _ _); [done|]. destruct (vm_mmap (vmas w) mm vaddr size _ offset) as [e|r]; [done|].
  destruct (mm_table r !! mm_vma r) as [vma|]; [|done]. split; [done|]. cbn [snd].
  exact (with_map_equiv _ _ _ _ _ _ _ (link_att_equiv a (next_ptr w) x n1 _ _ _ Hq')).
Qed.

(** The permit is there afterwards. *)
Lemma map_spec_permit cur mm a x p g st offset size vaddr w :
  permit w a x p g st -> exists x', ap_tg x' = ap_tg x /\ ap_seg x' = ap_seg x /\
    permit (map_spec cur mm a x p g st offset size vaddr w).2 a x' p g st.
Proof.
  intros HP. assert (forall w', tgs w' = tgs w -> segs w' = segs w -> part w' = part w -> forall x', aps w' !! a = Some x' ->
    ap_tg x' = ap_tg x -> ap_seg x' = ap_seg x -> permit w' a x' p g st) as H.
  { intros w' E1 E2 E3 x' E4 E5 E6. destruct HP. split; rewrite ?E1, ?E2, ?E5, ?E6; try done.
    unfold hash_of. by rewrite E3. }
  assert (exists x', ap_tg x' = ap_tg x /\ ap_seg x' = ap_seg x /\ permit (bumped w) a x' p g st) as Hb.
  { exists x. do 2 (split; [done|]). apply H; try done. apply HP. }
  unfold map_spec. destruct (attach_access _ _ _ _ _ _); [by exists x|]. destruct (over_itself _ _ _ _ _); [by exists x|].
  destruct (negb (kzalloc_ok _)); [done|]. destruct (taken _ _ _ _); [done|]. destruct (vm_mmap _ _ _ _ _ _) as [e|r]; [done|].
  destruct (mm_table r !! mm_vma r); [|by exists x].
  eexists. do 2 (split; [shelve|]). eapply H; [done|done|done|cbn; apply lookup_insert_eq|done|done]. Unshelve. all: done.
Qed.

(** From [out_1] on. *)
Lemma attach_out_ok {V} w a x p g st (r : V) :
  Inv (∅ ⊎ {[+ ap_tg x +]} ⊎ {[+ seg_tg g +]}) (∅ ⊎ {[+ ap_seg x +]}) (∅ ⊎ {[+ a +]}) ∅ w -> permit w a x p g st ->
  wp (attach_out_1 a (ap_tg x) (ap_seg x) (seg_tg g) ;; mret r) (fun r' w' => r' = r /\ Inv ∅ ∅ ∅ ∅ w' /\ w' ≡ w) w.
Proof.
  intros HI HP. unfold attach_out_1.
  assert (∅ ⊎ {[+ ap_tg x +]} ⊎ {[+ seg_tg g +]} = ∅ ⊎ {[+ seg_tg g +]} ⊎ {[+ ap_tg x +]} :> gmultiset positive) as ET
    by multiset_solver. rewrite ET in HI.
  apply wp_bind. eapply wp_seq; [eapply ap_deref_ok; [exact HI|exact (ch_ap _ _ _ _ _ _ HP)|exact (permit_aprefs _ _ _ _ _ _ _ HP)]|].
  intros _ w1 [HI1 Hq1]. destruct (permit_equiv _ _ _ _ _ _ _ Hq1 HP) as (n1 & n2 & n3 & n4 & HP1).
  eapply wp_seq; [eapply tg_deref_ok; [exact HI1|exact (permit_tgrefs _ _ _ _ _ _ _ HP1)]|].
  intros _ w2 [HI2 Hq2]. assert (w2 ≡ w) as Hq by (by rewrite Hq2). clear Hq2.
  destruct (permit_equiv _ _ _ _ _ _ _ Hq HP) as (m1 & m2 & m3 & m4 & HP2).
  eapply wp_seq; [eapply seg_deref_ok; [exact HI2|exact (ch_seg _ _ _ _ _ _ HP2)|exact (permit_segrefs _ _ _ _ _ _ _ HP2)]|].
  intros _ w3 [HI3 Hq3]. assert (w3 ≡ w) as Hq' by (by rewrite Hq3). clear Hq3.
  destruct (permit_equiv _ _ _ _ _ _ _ Hq' HP) as (k1 & k2 & k3 & k4 & HP3).
  eapply wp_mono; [eapply tg_deref_ok; [exact HI3|exact (permit_stgrefs _ _ _ _ _ _ _ HP3)]|].
  intros _ w4 [HI4 Hq4]. apply wp_ret. split; [done|]. split; [done|]. by rewrite Hq4.
Qed.

Lemma whole_pages_ok size : 0 <= size < 2 ^ 64 -> 0 <= whole_pages size < 2 ^ 64 /\ offset_in_page (whole_pages size) = 0.
Proof.
  intros Hs. unfold whole_pages. destruct (Z.eqb_spec (offset_in_page size) 0) as [E|E]; [done|]. split.
  - apply u64_range.
  - rewrite offset_in_page_u64, !offset_in_page_mod. pose proof PAGE_SIZE_pos as Hp.
    rewrite Z.add_sub_assoc, Zminus_mod_idemp_r. replace (size + PAGE_SIZE - size) with PAGE_SIZE by lia.
    by apply Z_mod_same_full.
Qed.

Lemma attach_ok cur mm id offset size vaddr w :
  Inv ∅ ∅ ∅ ∅ w -> permits_ok w -> SegWf w -> vmas_apart (vmas w) -> held w = [] -> cur_mm cur = Some mm ->
  0 <= size < 2 ^ 64 -> offset < 2 ^ 63 -> 0 <= vaddr ->
  wp (xpmem_attach cur id offset size vaddr) (fun r w' =>
    let sp := attach_spec cur mm id offset size vaddr w in r = sp.1 /\ w' ≡ sp.2 /\ Inv ∅ ∅ ∅ ∅ w') w.
Proof.
  intros HI Hw HS Hap Hh Hm Hsz Ho Hv. unfold xpmem_attach, attach_spec, bad_vaddr.
  destruct (Z.leb_spec id 0) as [|Hid]; [by apply wp_ret|]. cbn [orb].
  destruct (Z.eqb_spec (offset_in_page vaddr) 0) as [Hva|Hva]; cbn [negb orb].
  2: { rewrite orb_true_r. cbn [orb]. destruct (_ && _); by apply wp_ret. }
  rewrite Hva, Z.sub_0_r, orb_false_r. destruct (negb (vaddr =? 0) && _); cbn [orb]; [by apply wp_ret|].
  destruct (Z.eqb_spec (offset_in_page offset) 0) as [Hoz|]; cbn [negb]; [|by apply wp_ret].
  cbv zeta. fold (whole_pages size). destruct (whole_pages_ok size Hsz) as [Hws Hwz].
  eapply wp_seq; [apply (tg_lookup_by_id_ok ∅ ∅ ∅ ∅); side|]. intros r w1.
  unfold resolve_ap, mbind, option_bind. change (xpmem_segid_to_tgid id) with (xpmem_apid_to_tgid id).
  destruct (find_tg w (xpmem_apid_to_tgid id)) as [tg|] eqn:Ef; [|by intros [-> ->]; apply wp_ret].
  intros (-> & HI1 & Hq1). pose proof (find_tg_hashed _ _ _ _ _ _ _ HI Ef) as Hr.
  destruct (find_tg_gen_Some _ _ _ _ _ _ _ _ HI Ef) as (_ & t & Et & _).
  destruct (equiv_tg _ _ _ _ (symmetry Hq1) Et) as [n1 Et1].
  assert (held w1 = []) as Hh1 by (by rewrite (equiv_held _ _ Hq1)).
  eapply wp_seq; [eapply (ap_lookup_ok _ ∅ ∅ ∅); try done; side|]. intros r w2.
  rewrite (find_ap_equiv _ _ _ _ Hq1). destruct (find_ap w tg id) as [a|] eqn:Ea.
  2: { intros [-> ->]. eapply wp_seq; [by eapply (tg_deref_back ∅ ∅ ∅ ∅ w1 w)|]. intros _ w' ->. by apply wp_ret. }
  intros (-> & HI2 & Hq2). assert (w2 ≡ w) as Hq by (by rewrite Hq2). clear Hq1 Hq2 HI1 Hh1.
  destruct (find_ap_Some _ _ _ _ _ _ _ _ _ HI Et Ea) as (x & Ex & <- & Hx & Hnd & Hh').
  assert (a ∈ list_of hashed_aps (tgs w) (ap_tg x)) as Hin by (by rewrite (list_of_Some _ _ _ t)).
  destruct (permit_of _ _ _ _ _ _ _ HI Ex Hin) as (p & g & st & HP).
  unfold permit_objects, mbind, option_bind. pose proof HP as [_ P2 P3 P4 _ _ _]. rewrite Ex, P2, P3, P4.
  destruct (permit_equiv _ _ _ _ _ _ _ Hq HP) as (k1 & k2 & k3 & k4 & HP2).
  apply wp_bind. eapply wp_load; [exact (ch_ap _ _ _ _ _ _ HP2)|]. cbn [ap_seg set_ap_refcnt].
  eapply wp_seq; [eapply seg_ref_ok; [exact HI2|by rewrite Hq|side|exact (ch_seg _ _ _ _ _ _ HP2)]|].
  intros _ w3 [HI3 Hq3]. assert (w3 ≡ w) as Hqa by (by rewrite Hq3). clear Hq3 Hq HI2 HP2.
  destruct (permit_equiv _ _ _ _ _ _ _ Hqa HP) as (l1 & l2 & l3 & l4 & HP3).
  apply wp_bind. eapply wp_load; [exact (ch_seg _ _ _ _ _ _ HP3)|]. cbn [seg_tg set_seg_refcnt].
  eapply wp_seq; [eapply tg_ref_ok; [exact HI3|by rewrite Hqa|side|exact (ch_stg _ _ _ _ _ _ HP3)]|].
  intros _ w4 [HI4 Hq4]. assert (w4 ≡ w) as Hq by (by rewrite Hq4). clear Hq4 Hqa HI3 HP3 k1 k2 k3 k4 l1 l2 l3 l4.
  destruct (permit_equiv _ _ _ _ _ _ _ Hq HP) as (k1 & k2 & k3 & k4 & HP4).
  assert (held w4 = []) as Hh4 by (by rewrite (equiv_held _ _ Hq)).
  pose proof (seg_down_read_ok false true _ _ _ _ w4 (ch_stg _ _ _ _ _ _ HP4) (ch_seg _ _ _ _ _ _ HP4)) as Hd.
  rewrite Hh4 in Hd. specialize (Hd ltac:(done) ltac:(not_held)).
  change (seg_usable (set_seg_refcnt k3 g) (set_tg_refcnt k4 st)) with (seg_usable g st) in Hd.
  apply wp_bind. destruct (seg_usable g st); (eapply wp_Ok; [exact Hd|]); cbn [negb Z.eqb].
  2: { eapply wp_mono; [exact (attach_out_ok w4 a (set_ap_refcnt k1 x) _ (set_seg_refcnt k3 g) _ (inl (- ENOENT)) HI4 HP4)|].
       intros r w' (-> & HI' & Hq'). split; [done|]. split; [|done]. by rewrite Hq'. }
  set (w5 := set_held [SegSema (ap_seg x)] w4).
  assert (permit w5 a (set_ap_refcnt k1 x) (set_tg_refcnt k2 p) (set_seg_refcnt k3 g) (set_tg_refcnt k4 st)) as HP5
    by (destruct HP4; by split).
  eapply wp_seq.
  { eapply (attach_locked_ok _ _ _ cur mm a (ap_seg x) w5 _ _ _ _ ltac:(by eapply Inv_same) HP5 Hm eq_refl Hnd); try done.
    - exact (HS _ _ P3).
    - cbn. by rewrite (equiv_vmas _ _ Hq). }
  cbv zeta. intros r w6 (-> & HI6 & Hq6).
  destruct (map_spec_equiv cur mm a x k1 p k2 g k3 st k4 offset (whole_pages size) vaddr [SegSema (ap_seg x)] w w5) as [E1 E2].
  { by apply set_held_proper. }
  set (sp5 := map_spec _ _ _ _ _ _ _ _ _ _ w5) in *. cbv zeta in E1, E2. rewrite E1.
  destruct (map_spec_permit cur mm a x p g st offset (whole_pages size) vaddr w HP) as (x' & X1 & X2 & HP').
  set (sp := map_spec _ _ _ _ _ _ _ _ _ _ w) in *.
  assert (held w6 = [SegSema (ap_seg x)]) as Hh6.
  { rewrite (equiv_held _ _ Hq6). unfold sp5, map_spec. by repeat case_match. }
  apply wp_bind. eapply wp_Ok; [apply (seg_up_read_ok false (seg_tg g) st); [rewrite Hh6; apply list_elem_of_here|done]|].
  rewrite Hh6, unlink_cons_eq by not_held. set (w7 := set_held [] w6).
  assert (w7 ≡ sp.2) as Hq7 by (rewrite <- E2, Hh; unfold w7; by rewrite Hq6).
  destruct (permit_equiv _ _ _ _ _ _ _ Hq7 HP') as (l1 & l2 & l3 & l4 & HP7).
  rewrite <- X1, <- X2 in *.
  eapply wp_mono; [exact (attach_out_ok w7 a (set_ap_refcnt l1 x') _ (set_seg_refcnt l3 g) _ sp.1 ltac:(by eapply Inv_same) HP7)|].
  intros r w' (-> & HI' & Hq'). split; [done|]. split; [|done]. by rewrite Hq'.
Qed.

(** * The vmas and the page tables afterwards *)

(** An attachment whose vma is still there, in a table of vmas that do not meet. *)
Lemma attached_in w w' t y mm v u :
  vmas_apart (vmas w') -> vmas w' !! v = Some u -> attached w t y mm v u -> attached w' t y mm v u.
Proof.
  intros Ha Ev [[V1 V2 V3 V4 V5 V6 V7] [_ W2 W3 W4] (S1 & S2 & S3 & S4) H1 H2 [H3 H4]].
  assert (shown_by w' y mm v u) as Hs by (split; try done; rewrite <- V5, <- H3; by apply find_apart).
  split; try done; [split; [by exists mm, v, u|done..]|by apply sole_apart].
Qed.

Section mapped.
Context (w : world) (cur : task) (mm a t : positive) (x : xpmem_access_permit) (r : mmap_result) (vma : vm_area_struct) (vaddr sv size : Z).
Context (HV : VmaWf w) (HA : AttWf w) (Hm : cur_mm cur = Some mm) (HM : mapping mm size (vmas w) r vma).
Context (Haddr : vaddr = 0 /\ (forall v u, vmas w !! v = Some u -> ~ hit mm (mm_addr r) size u) \/ vaddr <> 0 /\ mm_addr r = vaddr).
Context (Hno : forall v u, vmas w !! v = Some u -> hit mm (mm_addr r) size u -> vm_ops u <> xpmem_vm_ops).
Context (Ht : atts w !! t = None) (Hr : 0 < size /\ 0 <= sv /\ sv + size < 2 ^ 64).
Context (Hal : offset_in_page sv = 0 /\ offset_in_page size = 0) (Hp : size / PAGE_SIZE < 2 ^ 31).

Let v := mm_vma r.
Let addr := mm_addr r.
Let y := new_att cur a sv addr size v.
Let w' := with_map mm vaddr size r (att_vma t vma) (link_att a t x y w).

Lemma mapped_vmas_apart : vmas_apart (vmas w').
Proof. apply (mapped_apart mm size (vmas w) r vma HM); [lia|done]. Qed.

Lemma mapped_fewer m b : mapped_pfn (pgt w) m b = None -> mapped_pfn (pgt w') m b = None.
Proof. cbn. unfold map_pgt. destruct (vaddr =? 0); [done|]. apply unmap_maps_nothing. Qed.

Lemma mapped_clear b : addr <= b < addr + size -> mapped_pfn (pgt w') mm b = None.
Proof.
  intros Hb. cbn. unfold map_pgt. destruct Haddr as [[-> Hf]|[Hne Ea]].
  - cbn. destruct (mapped_pfn (pgt w) mm b) eqn:E; [exfalso|done]. destruct (vw_ptes _ HV mm b) as (q & u & Eu & Hmu & Hd & Hin); [by rewrite E|].
    apply (Hf q u Eu). split; [done|]. unfold addr in Hb. lia.
  - rewrite (proj2 (Z.eqb_neq _ _) Hne). apply unmap_unmaps. unfold addr in Hb. lia.
Qed.

Lemma new_attached : attached w' t y mm v (att_vma t vma).
Proof.
  pose proof (proj1 (mp_vma _ _ _ _ _ HM)) as [= X1 X2 X3 X4]. destruct (mp_addr _ _ _ _ _ HM) as (A1 & A2 & A3). pose proof task_size_ok.
  assert (shown_by w' y mm v (att_vma t vma)) as Hs.
  { split; try done.
    - apply lookup_insert_eq.
    - apply (mapped_find mm size (vmas w) r vma HM); [lia|done].
    - cbn. lia.
    - cbn. unfold XPMEM_VM_FLAGS, VM_PFNMAP. change 0x400 with (2 ^ 10). rewrite has_lor by lia. by rewrite orb_true_r. }
  split; try done.
  - destruct Hal as [B1 B2]. split; [by exists mm, v, (att_vma t vma)|unfold att_in_space; cbn; unfold addr; lia|done|done].
  - apply sole_apart; [exact mapped_vmas_apart|apply lookup_insert_eq|done].
Qed.

Lemma mapped_keeps q u : vmas w !! q = Some u -> ~ hit mm addr size u -> vmas w' !! q = Some u.
Proof.
  intros Eu Hh. destruct (mp_new _ _ _ _ _ HM) as (_ & Hn & _). cbn. rewrite lookup_insert_ne; [|intros <-; congruence].
  by apply (cv_keeps _ _ _ _ _ (mp_carved _ _ _ _ _ HM)).
Qed.

Lemma old_attached t' y' mm' v' u : attached w t' y' mm' v' u -> attached w' t' y' mm' v' u.
Proof.
  intros H. apply (attached_in w); [exact mapped_vmas_apart| |done]. pose proof (shown_lookup _ _ _ _ _ (atd_shown _ _ _ _ _ _ H)) as Eu.
  apply mapped_keeps; [done|]. intros Hh. by apply (Hno v' u Eu Hh), (atd_ops _ _ _ _ _ _ H).
Qed.

(** Pages are mapped in vmas only: those outside of the range are still covered. *)
Lemma mapped_ptes : PtesInVmas w'.
Proof.
  intros m b Hs. destruct (vw_ptes _ HV m b) as (q & u & Eu & Hmu & Hd & Hin).
  { destruct (mapped_pfn (pgt w) m b) eqn:E; [done|]. rewrite (mapped_fewer m b E) in Hs. by destruct Hs. }
  destruct (decide (m = mm)) as [->|Hne].
  2: { exists q, u. split; [|done]. apply mapped_keeps; [done|]. intros [[Hm' _] _]. congruence. }
  destruct (cv_covers _ _ _ _ _ (mp_carved _ _ _ _ _ HM) q u b Eu (conj Hmu Hd) Hin) as (q' & u' & Eu' & [Hm' Hd'] & Hin').
  { intros Hb. rewrite (mapped_clear b Hb) in Hs. by destruct Hs. }
  exists q', u'. split; [|done]. cbn. rewrite lookup_insert_ne; [done|]. intros <-. by rewrite lookup_delete_eq in Eu'.
Qed.

(** A vma of the module is one of the old ones, or the new one. *)
Lemma mapped_back q u t' : vmas w' !! q = Some u -> vm_ops u = xpmem_vm_ops -> vm_private_data u = Some t' ->
  exists y', atts w' !! t' = Some y' /\ at_vma y' = Some q.
Proof.
  cbn. intros [[<- <-]|[Hne Eu]]%lookup_insert_Some Ho.
  - intros [= <-]. exists y. split; [apply lookup_insert_eq|done].
  - intros Hd. destruct (cv_from _ _ _ _ _ (mp_carved _ _ _ _ _ HM) q u Eu) as [[Eq _]|(q0 & u0 & E0 & Hh & _ & _ & Hops & _)].
    + destruct (vw_back _ HV q u t' Eq Ho Hd) as (y' & Ey & Ev). exists y'. split; [|done]. rewrite lookup_insert_ne; [done|]. intros <-. congruence.
    + exfalso. apply (Hno q0 u0 E0 Hh). congruence.
Qed.

Lemma mapped_wf : VmaWf w' /\ AttWf w'.
Proof.
  assert (forall t' y', atts w' !! t' = Some y' -> has (att_flags y') XPMEM_FLAG_DESTROYING = false /\
    exists mm v vma, attached w' t' y' mm v vma) as Hat.
  { intros t' y'. change (atts w') with (<[t := y]> (atts w)). intros [[<- <-]|[_ E]]%lookup_insert_Some.
    - split; [done|]. exists mm, v, (att_vma t vma). apply new_attached.
    - destruct (vw_attached _ HV t' y' E) as (Hd & mm' & v' & u & Ha). split; [done|].
      exists mm', v', u. by apply old_attached. }
  split; split; try done.
  - exact mapped_ptes.
  - exact mapped_back.
  - exact mapped_vmas_apart.
  - intros t' y' E _. destruct (Hat t' y' E) as (_ & ? & ? & ? & H). apply H.
  - intros t' y' E _. destruct (Hat t' y' E) as (_ & ? & ? & ? & H). apply H.
  - intros t' y'. change (atts w') with (<[t := y]> (atts w)).
    intros [[<- <-]|[_ E]]%lookup_insert_Some Hv Hl mm' b Em Hb.
    + cbn in Em, Hb. rewrite Hm in Em. injection Em as <-. by apply mapped_clear.
    + apply mapped_fewer. by apply (wf_invalid _ HA t' y').
Qed.
End mapped.

(** What [vm_mmap] gave to a successful call. *)
Lemma mmap_success mm vaddr size offset w r :
  0 <= vaddr -> offset_in_page vaddr = 0 -> 0 < size -> offset_in_page size = 0 -> vmas_apart (vmas w) ->
  taken (vmas w) mm vaddr size = false -> vm_mmap (vmas w) mm vaddr size (map_flags vaddr) offset = inr r ->
  exists vma, mapping mm size (vmas w) r vma /\
    (vaddr = 0 /\ (forall v u, vmas w !! v = Some u -> ~ hit mm (mm_addr r) size u) \/ vaddr <> 0 /\ mm_addr r = vaddr) /\
    (forall v u, vmas w !! v = Some u -> hit mm (mm_addr r) size u -> vm_ops u <> xpmem_vm_ops) /\
    (vaddr = 0 -> rest_of r = vmas w).
Proof.
  intros Hv Hva Hs Hz Hap Hfree E. destruct (mmap_law _ _ _ _ _ _ Hap Hv Hs Hz Hva E) as (vma & HM & H0 & H1).
  exists vma. split; [done|]. split; [|split].
  - destruct (decide (vaddr = 0)) as [E0|]; [left; split; [done|apply (H0 E0)]|right; auto].
  - destruct (mmap_mapping mm vaddr size offset w Hv Hva Hs Hz Hap Hfree r E) as (_ & _ & _ & Hno). exact Hno.
  - intros E0. destruct (H0 E0) as (_ & Ec & Et & _). unfold rest_of. rewrite Ec, Et. cbn. apply delete_insert_id. apply (mp_new _ _ _ _ _ HM).
Qed.

Lemma bad_vaddr_false vaddr : bad_vaddr vaddr = false -> offset_in_page vaddr = 0.
Proof. unfold bad_vaddr. intros [_ H]%orb_false_iff. lia. Qed.

Lemma attach_spec_wf cur mm id offset size vaddr w :
  Inv ∅ ∅ ∅ ∅ w -> VmaWf w -> AttWf w -> SegWf w -> cur_mm cur = Some mm ->
  0 <= size < 2 ^ 64 -> offset < 2 ^ 63 -> whole_pages size < 2 ^ 31 * PAGE_SIZE -> 0 <= vaddr ->
  VmaWf (attach_spec cur mm id offset size vaddr w).2 /\ AttWf (attach_spec cur mm id offset size vaddr w).2.
Proof.
  intros HI HV HA HS Hm Hs Ho Hb Hv. assert (VmaWf (bumped w) /\ AttWf (bumped w)) as Hbump
    by (split; [by eapply (VmaWf_same w)|by eapply (AttWf_same w)]).
  unfold attach_spec. destruct (_ || _ || _) eqn:Ez; [done|]. apply orb_false_iff in Ez as [[_ Hva%bad_vaddr_false]%orb_false_iff Ez].
  destruct (resolve_ap w id) as [a|]; [|done]. unfold permit_objects, mbind, option_bind.
  destruct (aps w !! a) as [x|]; [|done]. destruct (tgs w !! ap_tg x) as [p|]; [|done].
  destruct (segs w !! ap_seg x) as [g|] eqn:Eg; [|done]. destruct (tgs w !! seg_tg g) as [st|]; [|done].
  destruct (negb (seg_usable g st)); [done|]. destruct (whole_pages_ok size Hs) as [Hws Hwz].
  unfold map_spec. destruct (attach_access _ _ _ _ _ _) as [e|sv] eqn:Ea; [done|]. destruct (over_itself _ _ _ _ _); [done|].
  destruct (negb (kzalloc_ok _)); [done|]. destruct (taken _ _ _ _) eqn:Etk; [done|]. destruct (vm_mmap _ _ _ _ _ _) as [e|r] eqn:Er; [done|].
  destruct (attach_access_aligned cur x p g offset (whole_pages size) sv (HS _ _ Eg) Ea Hws ltac:(lia) Ho) as (Hp & Hoff & Hsv & Hin).
  destruct (mmap_success mm vaddr (whole_pages size) offset w r Hv Hva Hp Hwz (vw_apart _ HV) Etk Er) as (vma & HM & Haddr & Hno & _).
  rewrite (proj1 (mp_new _ _ _ _ _ HM)). cbn [snd]. pose proof task_size_ok as HT. destruct (mp_addr _ _ _ _ _ HM) as (A1 & A2 & A3).
  destruct (inv_fresh HI (next_ptr w)) as (_ & _ & _ & F); [lia|].
  destruct Hin as [-> Hin]; [lia|]. destruct (HS _ _ Eg) as (G1 & G2 & G3 & _).
  apply mapped_wf; try done; [lia|]. apply Z.div_lt_upper_bound; [apply PAGE_SIZE_pos|lia].
Qed.

(** C14: from every consistent state, [xpmem_attach], at an address of the kernel's choice or at
    an address given, terminates without faulting and gives back every lock and reference; it
    returns and does exactly what [attach_spec] says on every branch: a refused request leaves the
    state as it was, a failed allocation or mapping, or another attachment in the range, leaves
    no attachment behind, and success adds one attachment of the whole pages asked for, shown by
    a vma of its own, in place of whatever other mappings there were.  The state stays
    consistent: no other attachment loses its vma or a page. *)
Theorem xpmem_attach_refines cur mm id offset size vaddr w :
  Inv ∅ ∅ ∅ ∅ w -> permits_ok w -> VmaWf w -> AttWf w -> SegWf w -> held w = [] -> cur_mm cur = Some mm ->
  0 <= size < 2 ^ 64 -> offset < 2 ^ 63 -> whole_pages size < 2 ^ 31 * PAGE_SIZE -> 0 <= vaddr ->
  exists r w', xpmem_attach cur id offset size vaddr w = Ok r w' /\
    let sp := attach_spec cur mm id offset size vaddr w in
    r = sp.1 /\ w' ≡ sp.2 /\ (sp.2 = w -> w' = w) /\ Inv ∅ ∅ ∅ ∅ w' /\ VmaWf w' /\ AttWf w'.
Proof.
  intros HI Hw HV HA HS Hh Hm Hs Ho Hb Hv.
  destruct (wp_inv _ _ _ (attach_ok cur mm id offset size vaddr w HI Hw HS (vw_apart _ HV) Hh Hm Hs Ho Hv)) as (r & w' & E & Hr & Hq & HI').
  destruct (attach_spec_wf cur mm id offset size vaddr w HI HV HA HS Hm Hs Ho Hb Hv) as [HV' HA']. cbn zeta in Hr, Hq.
  exists r, w'. split; [done|]. split_and!; try done; [|by eapply VmaWf_equiv|by eapply AttWf_equiv].
  intros Es. rewrite Es in Hq. by eapply Inv_equiv_eq.
Qed.

(** * Attaching and detaching *)

Lemma resolve_permit w id a : Inv ∅ ∅ ∅ ∅ w -> resolve_ap w id = Some a ->
  exists x p g st, permit w a x p g st /\ permit_objects w a = Some (x, p, g, st).
Proof.
  intros HI. unfold resolve_ap, mbind, option_bind. destruct (find_tg w _) as [tg|] eqn:Ef; [|done]. intros Ea.
  destruct (find_tg_gen_Some _ _ _ _ _ _ _ _ HI Ef) as (_ & t & Et & _).
  destruct (find_ap_Some _ _ _ _ _ _ _ _ _ HI Et Ea) as (x & Ex & <- & _ & _ & Hh).
  destruct (permit_of _ _ _ _ _ _ _ HI Ex) as (p & g & st & HP); [by rewrite (list_of_Some _ _ _ t)|].
  exists x, p, g, st. split; [done|]. pose proof HP as [_ P2 P3 P4 _ _ _].
  unfold permit_objects, mbind, option_bind. by rewrite Ex, P2, P3, P4.
Qed.

(** What a successful call found and did. *)
Lemma attach_spec_success cur mm id offset size vaddr w addr :
  Inv ∅ ∅ ∅ ∅ w -> SegWf w -> vmas_apart (vmas w) -> cur_mm cur = Some mm -> 0 <= size < 2 ^ 64 -> offset < 2 ^ 63 -> 0 <= vaddr ->
  (attach_spec cur mm id offset size vaddr w).1 = inr addr ->
  exists a x p g st sv r vma, resolve_ap w id = Some a /\ permit w a x p g st /\
    cur_tgid cur = tg_tgid p /\ mapping mm (whole_pages size) (vmas w) r vma /\ addr = mm_addr r /\ 0 < whole_pages size /\
    (vaddr = 0 /\ (forall v u, vmas w !! v = Some u -> ~ hit mm addr (whole_pages size) u) \/ vaddr <> 0 /\ addr = vaddr) /\
    (attach_spec cur mm id offset size vaddr w).2
      = with_map mm vaddr (whole_pages size) r (att_vma (next_ptr w) vma)
          (link_att a (next_ptr w) x (new_att cur a sv addr (whole_pages size) (mm_vma r)) w).
Proof.
  intros HI HS Hap Hm Hs Ho Hv. unfold attach_spec. destruct (_ || _ || _) eqn:Ez; [done|].
  apply orb_false_iff in Ez as [[_ Hva%bad_vaddr_false]%orb_false_iff Ez].
  destruct (resolve_ap w id) as [a|] eqn:Era; [|done]. destruct (resolve_permit w id a HI Era) as (x & p & g & st & HP & Ep).
  rewrite Ep. destruct (negb (seg_usable g st)); [done|]. destruct (whole_pages_ok size Hs) as [Hws Hwz].
  unfold map_spec. destruct (attach_access _ _ _ _ _ _) as [e|sv] eqn:Ea; [done|]. destruct (over_itself _ _ _ _ _); [done|].
  destruct (negb (kzalloc_ok _)); [done|]. destruct (taken _ _ _ _) eqn:Etk; [done|]. destruct (vm_mmap _ _ _ _ _ _) as [e|r] eqn:Er; [done|].
  assert (cur_tgid cur = tg_tgid p /\ 0 < whole_pages size) as [Htg Hp].
  { unfold attach_access in Ea. destruct (negb _ || _) eqn:E1; [done|]. destruct ((offset <? 0) || _) eqn:E2; [done|].
    apply orb_false_iff in E1 as [E1 _]. apply orb_false_iff in E2 as [_ E2]. lia. }
  destruct (mmap_success mm vaddr (whole_pages size) offset w r Hv Hva Hp Hwz Hap Etk Er) as (vma & HM & Haddr & _).
  rewrite (proj1 (mp_new _ _ _ _ _ HM)). cbn [fst snd]. intros [= <-]. exists a, x, p, g, st, sv, r, vma. done.
Qed.

(** Where nothing was mapped, nothing else changes. *)
Lemma carved_nothing mm addr size tb rest :
  carved mm addr size tb rest -> (forall v u, tb !! v = Some u -> ~ hit mm addr size u) -> rest = tb.
Proof.
  intros Hc Hf. apply map_eq. intros q. apply option_eq. intros u. split; intros E.
  - destruct (cv_from _ _ _ _ _ Hc q u E) as [[E' _]|(q0 & u0 & E0 & Hh & _)]; [done|]. by destruct (Hf q0 u0 E0).
  - apply (cv_keeps _ _ _ _ _ Hc q u E), (Hf q u E).
Qed.

(** Detaching, up to reference counts. *)
Lemma detached_equiv mm t y n0 x n1 g n3 st n4 pt v vma w w' :
  w' ≡ w -> detached mm t (set_att_refcnt n0 y) (set_ap_refcnt n1 x) (set_seg_refcnt n3 g) (set_tg_refcnt n4 st) pt v vma w'
    ≡ detached mm t y x g st pt v vma w.
Proof.
  intros Hq. unfold detached. cbn [att_ap at_vaddr at_size seg_tg set_att_refcnt set_seg_refcnt].
  set (u' := unmapped_vma mm v (vm_start vma) (at_size y) (unpinned _ _ _ _ _ _ w')).
  set (u := unmapped_vma mm v (vm_start vma) (at_size y) (unpinned _ _ _ _ _ _ w)).
  assert (u' ≡ u) as Hu by (apply unmapped_vma_equiv; by apply unpinned_equiv).
  pose proof (equiv_insert_ap u' u (att_ap y) (set_ap_att_list (unlink t (ap_att_list x)) (set_ap_refcnt n1 x))
    (set_ap_att_list (unlink t (ap_att_list x)) x) Hu eq_refl) as Ha.
  exact (equiv_delete_att t _ _ Ha).
Qed.

(** The atomic counters are ints. *)
Definition counters_ok w : Prop :=
  (forall q t, tgs w !! q = Some t -> - 2 ^ 31 <= tg_n_pinned t < 2 ^ 31) /\
  (forall pt, part w = Some pt -> - 2 ^ 31 <= part_n_unpinned pt < 2 ^ 31).

(** Unpinning a range in which nothing is mapped. *)
Lemma unpinned_nothing q mm v size t pt w :
  counters_ok w -> tgs w !! q = Some t -> part w = Some pt ->
  (forall a, v <= a < v + size -> mapped_pfn (pgt w) mm a = None) -> unpinned q mm v size t pt w = w.
Proof.
  intros [H1 H2] Et Ep Hn. unfold unpinned. rewrite (mapped_pfns_nil _ _ _ (Z.to_nat (size / PAGE_SIZE))); [|intros j Hj|done].
  - cbn [length put_pages foldl]. rewrite Z.sub_0_r, Z.add_0_r, !s32_id by eauto.
    replace (set_tg_n_pinned _ t) with t by (by destruct t). replace (set_part_n_unpinned _ pt) with pt by (by destruct pt).
    rewrite insert_id by done. rewrite <- Ep. by destruct w.
  - apply Hn. pose proof PAGE_SIZE_pos. pose proof (Z.mul_div_le size PAGE_SIZE). nia.
Qed.

(** What detaching finds at the address of the new vma. *)
Lemma detach_spec_new cur mm t v u w :
  vmas_apart (vmas w) -> vmas w !! v = Some u -> in_space mm u -> vm_ops u = xpmem_vm_ops -> vm_private_data u = Some t ->
  cur_mm cur = Some mm -> cur_killed cur = false ->
  detach_spec cur (vm_start u) w =
    match att_objects w t with
    | Some (y, x, p, g, st, pt) =>
        if negb (cur_tgid cur =? tg_tgid p) then (- EACCES, w) else (0, detached mm t y x g st pt v u w)
    | None => (0, w)
    end.
Proof.
  intros Ha Ev [Hm' Hd] Ho Hp Hm Hk. unfold detach_spec, addr_vma.
  rewrite Hm, <- Hm', (find_apart _ _ _ Ha Ev Hd), Ev, Z.gtb_ltb, Z.ltb_irrefl, Hp. unfold xpmem_is_vm_ops_set.
  by rewrite bool_decide_eq_true_2, Hk.
Qed.

(** Taking the new attachment away again. *)
Lemma detach_new cur mm a x p g st sv addr size vaddr r vma pt w :
  Inv ∅ ∅ ∅ ∅ w -> permit w a x p g st -> part w = Some pt -> counters_ok w -> PtesInVmas w ->
  mapping mm size (vmas w) r vma -> addr = mm_addr r -> (forall v u, vmas w !! v = Some u -> ~ hit mm addr size u) -> 0 < size ->
  let t := next_ptr w in
  let y := new_att cur a sv addr size (mm_vma r) in
  detached mm t y (set_ap_att_list (ap_att_list x ++ [t]) x) g st pt (mm_vma r) (att_vma t vma)
    (with_map mm vaddr size r (att_vma t vma) (link_att a t x y w))
    = set_pgt (unmap_ptes (map_pgt mm vaddr size (pgt w)) mm addr size) (bumped w).
Proof.
  intros HI HP Ep Hc HPt HM Ea Hf Hs t y. pose proof (proj1 (mp_vma _ _ _ _ _ HM)) as [= X1 X2 X3 X4].
  pose proof (mp_carved _ _ _ _ _ HM) as Hcv. rewrite <- Ea in Hcv. pose proof (carved_nothing _ _ _ _ _ Hcv Hf) as Er. fold (rest_of r) in Er.
  set (w1 := with_map _ _ _ _ _ _). unfold detached.
  rewrite unpinned_nothing; [|done|exact (ch_stg _ _ _ _ _ _ HP)|done|].
  2: { intros b Hb. cbn in Hb. assert (mapped_pfn (pgt w) mm b = None) as Hn.
       { destruct (mapped_pfn (pgt w) mm b) eqn:E; [exfalso|done]. destruct (HPt mm b) as (v' & u & Eu & Hmu & Hd & Hin); [by rewrite E|].
         apply (Hf v' u Eu). split; [done|lia]. }
       cbn. unfold map_pgt. destruct (vaddr =? 0); [done|]. by apply unmap_maps_nothing. }
  unfold unmapped_vma, w1, with_map, link_att, bumped. rewrite Er. cbn [vmas set_vmas atts set_atts aps set_aps].
  assert (set_ap_att_list (unlink t (ap_att_list x ++ [t])) x = x) as Eu.
  { rewrite unlink_app, unlink_cons_eq, unlink_not_in, app_nil_r by (apply not_elem_of_nil || exact (fresh_unlisted _ _ _ _ _ _ _ _ _ HI HP)).
    by destruct x. }
  destruct (mp_new _ _ _ _ _ HM) as (_ & Hn & _). cbn. rewrite insert_insert_eq, X2, <- Ea, !delete_insert_id by (done || exact (fresh_att _ _ _ _ HI)).
  match goal with |- context [<[a := ?z]> (aps w)] => assert (z = x) as -> by exact Eu end.
  rewrite insert_id by exact (ch_ap _ _ _ _ _ _ HP). clear. by destruct w.
Qed.
End attach_spec.

Section attach_detach.
Context `{K : Kernel} {G : KernelGeometry K} {PT : PageTables K} {VT : VmaTree K} {UV : UnmapVma K} {MV : MapVma K}.
Context (HG : PGDIR_SHIFT <= PAGE_SHIFT + 31).
Implicit Types (w : world) (cur : task).

(** C18: attaching and then detaching the address that was returned undoes the attachment, when
    nothing was mapped in the range before (which is so when the kernel chooses the address): every
    thread group, segment, permit, attachment, vma, page and counter is as before; what is left
    is the memory that was used up, and the range has been unmapped once more. *)
Theorem attach_detach_roundtrip cur mm id offset size vaddr addr w :
  Inv ∅ ∅ ∅ ∅ w -> permits_ok w -> VmaWf w -> AttWf w -> SegWf w -> counters_ok w -> held w = [] ->
  cur_mm cur = Some mm -> cur_killed cur = false ->
  0 <= size < 2 ^ 64 -> offset < 2 ^ 63 -> whole_pages size < 2 ^ 31 * PAGE_SIZE -> 0 <= vaddr ->
  (vaddr <> 0 -> forall v u, vmas w !! v = Some u -> ~ hit mm vaddr (whole_pages size) u) ->
  (attach_spec cur mm id offset size vaddr w).1 = inr addr ->
  exists w1 w2, xpmem_attach cur id offset size vaddr w = Ok (inr addr) w1 /\ xpmem_detach cur addr w1 = Ok 0 w2 /\
    w2 = set_pgt (unmap_ptes (map_pgt mm vaddr (whole_pages size) (pgt w)) mm addr (whole_pages size)) (bumped w).
Proof.
  intros HI Hw HV HA HS Hc Hh Hm Hk Hs Ho Hb Hv Hfr Hr. destruct (inv_part HI) as [pt Ept].
  destruct (wp_inv _ _ _ (attach_ok cur mm id offset size vaddr w HI Hw HS (vw_apart _ HV) Hh Hm Hs Ho Hv)) as (r & w1 & E & -> & Hq & HI1).
  destruct (attach_spec_wf cur mm id offset size vaddr w HI HV HA HS Hm Hs Ho Hb Hv) as [HV1 HA1]. cbn zeta in E, Hq.
  destruct (attach_spec_success cur mm id offset size vaddr w addr HI HS (vw_apart _ HV) Hm Hs Ho Hv Hr)
    as (a & x & p & g & st & sv & r & vma & _ & HP & Htg & HM & Ea & Hp & Haddr & Es).
  assert (forall v u, vmas w !! v = Some u -> ~ hit mm addr (whole_pages size) u) as Hf
    by (destruct Haddr as [[_ Hf]|[Hne ->]]; [exact Hf|exact (Hfr Hne)]).
  rewrite Hr in E. rewrite Es in *. set (t := next_ptr w) in *. set (y := new_att _ _ _ _ _ _) in *.
  set (W := with_map _ _ _ _ _ _) in *. set (x1 := set_ap_att_list (ap_att_list x ++ [t]) x).
  assert (chain W t y x1 p g st) as HC.
  { destruct HP as [P1 P2 P3 P4 P5 P6 P7]. split; [apply lookup_insert_eq|apply elem_of_app; right; by apply list_elem_of_singleton|].
    split; try done. apply lookup_insert_eq. }
  destruct (chain_equiv _ _ _ _ _ _ _ _ Hq HC) as (n0 & n1 & n2 & n3 & n4 & HC1).
  pose proof (detach_ok HG cur mm addr w1 HI1 (VmaWf_equiv _ _ Hq HV1) (AttWf_equiv _ _ Hq HA1)) as Hd.
  rewrite (equiv_held _ _ Hq) in Hd. destruct (wp_inv _ _ _ (Hd Hh Hm)) as (r2 & w2 & E2 & Hr2 & Hq2 & _ & HI2 & _).
  pose proof (proj1 (mp_vma _ _ _ _ _ HM)) as [= X1 X2 X3 X4].
  assert (detach_spec cur addr w1 = detach_spec cur (vm_start (att_vma t vma)) w1) as Ed by (f_equal; cbn; congruence).
  rewrite (detach_spec_new cur mm t (mm_vma r) (att_vma t vma) w1) in Ed;
    [|rewrite (equiv_vmas _ _ Hq); apply HV1|rewrite (equiv_vmas _ _ Hq); apply lookup_insert_eq|done..].
  rewrite (chain_objects _ _ _ _ _ _ _ _ HC1 (eq_trans (equiv_part _ _ Hq) Ept)) in Ed.
  cbn [tg_tgid set_tg_refcnt] in Ed. rewrite Htg, Z.eqb_refl in Ed. cbn [negb] in Ed.
  cbn zeta in Hr2, Hq2. rewrite Ed in Hr2, Hq2. cbn [fst snd] in Hr2, Hq2. subst r2.
  exists w1, w2. split; [done|]. split; [done|].
  rewrite (detached_equiv _ _ _ _ _ _ _ _ _ _ _ _ _ _ _ Hq) in Hq2. unfold W, x1, y, t in Hq2.
  rewrite (detach_new cur mm a x p g st sv addr (whole_pages size) vaddr r vma pt w) in Hq2 by (done || apply HV).
  eapply Inv_equiv_eq; [exact HI2| |exact Hq2]. eapply Inv_same; [by apply (Inv_bump _ _ _ _ w)|done..].
Qed.
End attach_detach.
