(* ===== verification/NotifierSpec.v ===== *)
(** The MMU notifier callbacks (xpmem_mmu_notifier.c): when pages of the source go
    away, no attachment shows them any more. *)

From S2P Require Import Prelude Kernel World Monad Ids Misc Pfn Attach Make Get Notifier Inv Graph Link Refs.
From S2P Require Import Lookup MakeSpec PfnSpec Invalidated ClearSpec.

Section notifier.
Context `{K : Kernel} {G : KernelGeometry K} {PT : PageTables K} {ZP : ZapPtes K}.
Context (HG : PGDIR_SHIFT <= PAGE_SHIFT + 31).
Implicit Types (T S A B : gmultiset positive) (w : world).

Lemma inv_permits w w' : invalidated w w' -> permits_ok w -> permits_ok w'.
Proof.
  intros H%same_links. injection H as _ _ _ H _ _ _ _ _ _ _ _ _ _. unfold permits_ok.
  pose proof (f_equal base.size H) as E. rewrite !map_size_fmap in E. by rewrite E.
Qed.

(** Every attachment of the segment [s]. *)
Definition seg_cleared (start end_ : Z) (s : positive) w w' : Prop :=
  forall g a, segs w !! s = Some g -> a ∈ seg_ap_list g -> ap_cleared start end_ true a w w'.

Lemma seg_cleared_then start end_ s w w1 w' :
  seg_cleared start end_ s w w1 -> invalidated w1 w' -> seg_cleared start end_ s w w'.
Proof. intros Hc H g a Eg Ha. eapply ap_cleared_then; [by eapply Hc|done]. Qed.

Lemma seg_cleared_after start end_ s w w1 w' :
  invalidated w w1 -> seg_cleared start end_ s w1 w' -> seg_cleared start end_ s w w'.
Proof.
  intros H Hc g a Eg Ha. eapply ap_cleared_after; [done|].
  destruct (inv_seg_lookup _ _ _ _ H Eg) as [n En]. by eapply Hc.
Qed.

(** The segments the walk does not skip. *)
Definition meets (g : xpmem_segment) (start end_ : Z) : bool :=
  negb (has (seg_flags g) XPMEM_FLAG_DESTROYING)
  && (start <=? u64 (seg_vaddr g + seg_size g)) && (end_ >=? seg_vaddr g).

(** * The segments of a thread group *)

Section thread_group.
Context (T S A B : gmultiset positive) (HS : few S) (HA : few A) (HB : few B).
Context (start end_ : Z) (Hspan : page_span start end_).
Context (q : positive) (L : list lock) (HL : outer_locks true L).

(** What holds while the list of [q] is walked, under its lock. *)
Record tg_walking (l : list positive) w : Prop := {
  twalk_inv : Inv T S A B w;
  twalk_permits : permits_ok w;
  twalk_wf : AttWf w;
  twalk_held : held w = SegListLock q :: L;
  twalk_tg : exists t, tgs w !! q = Some t /\ seg_list t = l;
}.

Lemma tg_walking_invalidated l w w' :
  invalidated w w' -> Inv T S A B w' -> tg_walking l w -> tg_walking l w'.
Proof.
  intros H HI' [_ Hp Hwf Hh (t & Et & Ht)]. split.
  - done.
  - by eapply inv_permits.
  - by eapply AttWf_invalidated.
  - by rewrite <- (inv_held _ _ H).
  - destruct (inv_tg_lookup _ _ _ _ H Et) as (t' & Et' & En). exists t'. split; [done|].
    rewrite <- Ht. exact (f_equal seg_list (eq_sym En)).
Qed.

(** One segment: reference, unlock, invalidate, lock again, drop. *)
Lemma invalidate_seg_step_ok l w s (k : option positive -> M unit) Q :
  tg_walking l w -> s ∈ l ->
  (forall w', invalidated w w' -> Inv T S A B w' -> seg_cleared start end_ s w w' -> wp (k (Some s)) Q w') ->
  wp (xpmem_seg_ref s ;;
      read_unlock (SegListLock q) ;;
      xpmem_clear_PTEs_range s start end_ true ;;
      read_lock (SegListLock q) ;;
      t ← tg_load q ;
      xpmem_seg_deref s ;;
      k (if bool_decide (s ∈ seg_list t) then Some s else None)) Q w.
Proof.
  intros [HI Hp Hwf Hh (t & Et & <-)] Hs HQ.
  destruct (seg_list_live _ _ _ _ w q s HI) as (g & Eg & Hg); [by rewrite (list_of_Some _ _ _ t)|].
  eapply wp_seq; [by eapply seg_ref_ok|]. intros _ w1 [HI1 Hq1].
  pose proof (equiv_invalidated _ _ (symmetry Hq1)) as H01.
  apply wp_bind. eapply (wp_release _ L); [by rewrite <- (inv_held _ _ H01)|by eapply outer_not_in|].
  set (w2 := set_held L w1). destruct (inv_seg_lookup _ _ _ _ H01 Eg) as [n1 Eg1].
  eapply wp_seq.
  { eapply (clear_range_ok HG T (S ⊎ {[+ s +]}) A B w2 s); try done; [by eapply Inv_same|].
    eapply (AttWf_same w1); [done..|]. by eapply AttWf_invalidated. }
  intros _ w3 (H23 & HI3 & Hc3).
  apply wp_bind, wp_acquire; [rewrite <- (inv_held _ _ H23); by eapply outer_not_in|].
  rewrite <- (inv_held _ _ H23). change (held w2) with L. set (w4 := set_held _ w3).
  assert (invalidated w1 w4) as H14.
  { apply (set_held_invalidated (SegListLock q :: L)) in H23.
    replace w1 with (set_held (SegListLock q :: L) w2); [done|]. unfold w2.
    pose proof (inv_held _ _ H01) as E. rewrite Hh in E. destruct w1; cbn in *. by subst. }
  assert (invalidated w w4) as H04 by (by transitivity w1).
  destruct (inv_tg_lookup _ _ _ _ H04 Et) as (t4 & Et4 & En4). destruct (inv_seg_lookup _ _ _ _ H04 Eg) as [n4 Eg4].
  apply wp_bind. eapply wp_load; [done|].
  assert (seg_list t4 = seg_list t) as El4 by exact (f_equal seg_list (eq_sym En4)).
  rewrite El4, bool_decide_eq_true_2 by done.
  eapply wp_seq; [eapply seg_deref_ok; [by eapply Inv_same|exact Eg4|]|].
  { eapply (listed_segrefs _ _ _ _ q); [done|]. by rewrite (list_of_Some _ _ _ t4), El4. }
  intros _ w5 [HI5 Hq5]. pose proof (equiv_invalidated _ _ (symmetry Hq5)) as H45.
  apply HQ; [by transitivity w4|done|]. eapply seg_cleared_then; [|exact H45].
  intros g' a Eg' Ha. assert (g' = g) as -> by congruence. eapply ap_cleared_after; [exact H01|]. by apply Hc3.
Qed.

Lemma invalidate_loop_ok suf : forall fuel w pre, (length suf <= fuel)%nat -> tg_walking (pre ++ suf) w ->
  wp (invalidate_loop fuel q (cursor_at pre) start end_) (fun _ w' =>
    invalidated w w' /\ Inv T S A B w' /\
    forall s g, s ∈ suf -> segs w !! s = Some g -> meets g start end_ = true -> seg_cleared start end_ s w w') w.
Proof.
  induction suf as [|s suf IH]; intros fuel w pre Hf Hw; pose proof Hw as [HI Hp Hwf Hh (t & Et & El)];
    pose proof (tg_segs_nodup (tg_all (inv_tg HI) q t Et)) as Hnd.
  - destruct fuel; cbn; apply wp_bind; (eapply wp_load; [done|]);
      (rewrite El, list_next_at; [|by rewrite <- El]);
      apply wp_ret; (split; [done|]); (split; [done|]); by intros s g ?%elem_of_nil.
  - destruct fuel as [|fuel]; cbn in Hf; [lia|]. cbn. apply wp_bind. eapply wp_load; [done|].
    rewrite El, list_next_at by (by rewrite <- El). cbn [head].
    destruct (seg_list_live _ _ _ _ w q s HI) as (g & Eg & Hg); [rewrite (list_of_Some _ _ _ t), El by done; set_solver|].
    apply wp_bind. eapply wp_load; [done|]. fold (meets g start end_).
    assert (Some s = cursor_at (pre ++ [s])) as Ec by (by rewrite cursor_snoc).
    destruct (meets g start end_) eqn:Hm.
    2: { rewrite Ec. eapply wp_mono; [apply (IH fuel w (pre ++ [s])); [lia|by rewrite <- app_assoc]|].
         intros _ w' (H1 & H2 & H3). split; [done|]. split; [done|].
         intros s' g' [->|Hs']%elem_of_cons Eg' Hm'; [congruence|eauto]. }
    eapply (invalidate_seg_step_ok _ w s (fun c => invalidate_loop fuel q c start end_));
      [done|set_solver|]. intros w1 H1 HI1 Hc. rewrite Ec.
    eapply wp_mono; [apply (IH fuel w1 (pre ++ [s])); [lia|]|].
    + rewrite <- app_assoc. by eapply tg_walking_invalidated.
    + intros _ w' (H2 & HI2 & H3). split; [by transitivity w1|]. split; [done|].
      intros s' g' [->|Hs']%elem_of_cons Eg' Hm'; [by eapply seg_cleared_then|].
      destruct (inv_seg_lookup _ _ _ _ H1 Eg') as [n En]. eapply seg_cleared_after; eauto.
Qed.
End thread_group.

Lemma invalidate_PTEs_ok T S A B w q t start end_ :
  Inv T S A B w -> permits_ok w -> few S -> few A -> few B -> AttWf w -> page_span start end_ -> outer_locks true (held w) ->
  tgs w !! q = Some t ->
  wp (xpmem_invalidate_PTEs_range q start end_) (fun _ w' =>
    invalidated w w' /\ Inv T S A B w' /\
    forall s g, s ∈ seg_list t -> segs w !! s = Some g -> meets g start end_ = true -> seg_cleared start end_ s w w') w.
Proof.
  intros HI Hp HS HA HB Hwf Hspan HL Et. unfold xpmem_invalidate_PTEs_range.
  apply wp_bind, wp_acquire; [by eapply outer_not_in|]. set (w1 := set_held _ w).
  apply wp_bind. eapply wp_load; [done|]. apply wp_bind.
  eapply wp_mono; [eapply (invalidate_loop_ok T S A B HS HA HB start end_ Hspan q (held w) HL (seg_list t) _ w1 []); [done|]|].
  - split; [by eapply Inv_same|done|by eapply (AttWf_same w)|done|by eauto].
  - intros _ w' (H1 & H2 & H3). eapply (wp_release _ (held w)).
    + by rewrite <- (inv_held _ _ H1).
    + by eapply outer_not_in.
    + split; [by eapply inv_unlock|]. split; [by eapply Inv_same|exact H3].
Qed.

(** * The attachments that show memory of a thread group *)

(** [k] is an attachment in use of a segment in use of [t], and lies inside the segment. *)
Record shared_att w (t : xpmem_thread_group) (k : positive) (y : xpmem_attachment) : Prop := {
  sa_path : exists s g a x, s ∈ seg_list t /\ segs w !! s = Some g /\ a ∈ seg_ap_list g /\ aps w !! a = Some x /\
    k ∈ ap_att_list x /\ has (seg_flags g) XPMEM_FLAG_DESTROYING = false /\ seg_wf g /\
    seg_vaddr g <= att_vaddr y /\ att_vaddr y + at_size y <= seg_vaddr g + seg_size g;
  sa_att : atts w !! k = Some y;
  sa_live : att_live y;
}.

Lemma shared_att_invalidated w w' q t k y :
  invalidated w w' -> tgs w !! q = Some t -> shared_att w t k y ->
  exists t' y', tgs w' !! q = Some t' /\ shared_att w' t' k y' /\ norm_valid y = norm_valid y'.
Proof.
  intros H Et [(s & g & a & x & H1 & H2 & H3 & H4 & H5 & H6 & H7 & H8 & H9) Ey Hl].
  destruct (inv_tg_lookup _ _ _ _ H Et) as (t' & Et' & En). destruct (inv_seg_lookup _ _ _ _ H H2) as [n1 E1].
  destruct (inv_ap_lookup _ _ _ _ H H4) as [n2 E2]. destruct (inv_att_lookup _ _ _ _ H Ey) as (y' & Ey' & Ny & _).
  assert (att_vaddr y' = att_vaddr y) as Ea by exact (f_equal att_vaddr (eq_sym Ny)).
  assert (at_size y' = at_size y) as Es by exact (f_equal at_size (eq_sym Ny)).
  exists t', y'. split; [done|]. split; [|done]. split; [|done|by eapply norm_live].
  exists s, (set_seg_refcnt n1 g), a, (set_ap_refcnt n2 x).
  assert (seg_list t' = seg_list t) as -> by exact (f_equal seg_list (eq_sym En)). rewrite Ea, Es. done.
Qed.

(** After [xpmem_invalidate_PTEs_range] nothing of the range is shown. *)
Lemma invalidate_PTEs_hides T S A B w q t start end_ :
  Inv T S A B w -> permits_ok w -> few S -> few A -> few B -> AttWf w -> page_span start end_ -> outer_locks true (held w) ->
  tgs w !! q = Some t ->
  wp (xpmem_invalidate_PTEs_range q start end_) (fun _ w' =>
    invalidated w w' /\ Inv T S A B w' /\ forall k y, shared_att w t k y -> hidden (pgt w') y start end_) w.
Proof.
  intros HI Hp HS HA HB Hwf Hspan HL Et. eapply wp_mono; [by eapply invalidate_PTEs_ok|].
  intros _ w' (H1 & H2 & H3). split; [done|]. split; [done|]. intros k y [(s & g & a & x & P1 & P2 & P3 & P4 & P5 & P6 & P7 & P8 & P9) Ey Hl].
  destruct (inv_att_lookup _ _ _ _ H1 Ey) as (y' & Ey' & _). destruct P7 as (G1 & G2 & G3 & _).
  destruct (meets g start end_) eqn:Hm.
  - exact (proj2 (H3 s g P1 P2 Hm g a P2 P3 x k P4 P5 y y' Ey Ey') Hl).
  - unfold meets in Hm. rewrite P6, u64_id in Hm by lia. cbn in Hm. apply andb_false_iff in Hm.
    intros mm b Em Hb Hr. lia.
Qed.

(** * The vmas of the range *)

(** The walk of [xpmem_invalidate_range] from [o] on visits [l]: vmas of whole pages. *)
Fixpoint vma_walk (tb : vma_table) (o : option positive) (end_ : Z) (l : list positive) : Prop :=
  match l with
  | [] => match o with None => True | Some v => exists vma, tb !! v = Some vma /\ end_ <= vm_start vma end
  | v :: l => o = Some v /\ (exists vma, tb !! v = Some vma /\ vm_start vma < end_ /\ page_span (vm_start vma) (vm_end vma)) /\
      vma_walk tb (vm_next tb v) end_ l
  end.

(** The address is in one of the vmas, and the vma is not an attachment. *)
Definition in_vmas (tb : vma_table) (l : list positive) (b : Z) : Prop :=
  exists v vma, v ∈ l /\ tb !! v = Some vma /\ vm_ops vma <> xpmem_vm_ops /\ vm_start vma <= b < vm_end vma.

(** The part of a range that lies in some set is not shown. *)
Definition hidden_in (P : Z -> Prop) (pt : pgtable) (y : xpmem_attachment) (start end_ : Z) : Prop :=
  forall mm a, P a -> att_mm y = Some mm -> start <= a < end_ -> att_vaddr y <= a < att_vaddr y + at_size y ->
    mapped_pfn pt mm (at_vaddr y + (a - att_vaddr y)) = None.

Section range.
Context (T S A B : gmultiset positive) (HS : few S) (HA : few A) (HB : few B).
Context (start end_ : Z) (Hspan : page_span start end_) (q : positive) (L : list lock) (HL : outer_locks true L).

(** One vma. *)
Lemma invalidate_vma_ok w t vma :
  Inv T S A B w -> permits_ok w -> AttWf w -> held w = L -> tgs w !! q = Some t ->
  page_span (vm_start vma) (vm_end vma) ->
  wp (if xpmem_is_vm_ops_set vma then mret () else
       let s := Z.max (vm_start vma) start in
       if s >=? vm_end vma then mret () else
       let e := Z.min (vm_end vma) end_ in
       if e <=? vm_start vma then mret () else
       xpmem_invalidate_PTEs_range q s e) (fun _ w' =>
    invalidated w w' /\ Inv T S A B w' /\ forall k y, shared_att w t k y ->
      hidden_in (fun b => vm_ops vma <> xpmem_vm_ops /\ vm_start vma <= b < vm_end vma) (pgt w') y start end_) w.
Proof.
  intros HI Hp Hwf Hh Et (V1 & V2 & V3 & V4). destruct Hspan as (S1 & S2 & S3 & S4).
  assert (forall P : Z -> Prop, (forall b, P b -> start <= b < end_ -> False) ->
    wp (mret ()) (fun _ w' => invalidated w w' /\ Inv T S A B w' /\
      forall k y, shared_att w t k y -> hidden_in P (pgt w') y start end_) w) as Hskip.
  { intros P HP. apply wp_ret. split; [done|]. split; [done|]. intros k y _ mm b Hb Em Hr. by destruct (HP b Hb). }
  unfold xpmem_is_vm_ops_set. case_bool_decide as Ho; [apply Hskip; tauto|].
  cbv zeta. rewrite Z.geb_leb. destruct (Z.leb_spec (vm_end vma) (Z.max (vm_start vma) start)); [apply Hskip; lia|].
  destruct (Z.leb_spec (Z.min (vm_end vma) end_) (vm_start vma)); [apply Hskip; lia|].
  eapply wp_mono; [eapply (invalidate_PTEs_hides T S A B w q t); try done|].
  - split; [lia|]. split; [lia|]. split; [by destruct (Z.max_spec (vm_start vma) start) as [[_ ->]|[_ ->]]|].
    by destruct (Z.min_spec (vm_end vma) end_) as [[_ ->]|[_ ->]].
  - by rewrite Hh.
  - intros _ w' (H1 & H2 & H3). split; [done|]. split; [done|].
    intros k y Hy mm b [_ Hb] Em Hr Hya. apply (H3 k y Hy mm b Em); [lia|done].
Qed.

Lemma invalidate_vmas_ok l : forall fuel o w t,
  (length l <= fuel)%nat -> Inv T S A B w -> permits_ok w -> AttWf w -> held w = L -> tgs w !! q = Some t ->
  vma_walk (vmas w) o end_ l ->
  wp (invalidate_vmas fuel q o start end_) (fun _ w' =>
    invalidated w w' /\ Inv T S A B w' /\
    forall k y, shared_att w t k y -> hidden_in (in_vmas (vmas w) l) (pgt w') y start end_) w.
Proof.
  induction l as [|v l IH]; intros fuel o w t Hf HI Hp Hwf Hh Et Hl.
  - assert (wp (invalidate_vmas fuel q o start end_) (fun _ w' => w' = w) w) as H.
    { destruct fuel, o as [v|]; cbn; try done; destruct Hl as (vma & Ev & Hv); (apply wp_bind; eapply wp_load; [done|]);
        rewrite (proj2 (Z.ltb_ge _ _)) by done; by apply wp_ret. }
    eapply wp_mono; [exact H|]. intros _ w' ->. split; [done|]. split; [done|].
    intros k y _ mm b (v & vma & Hv & _). by apply elem_of_nil in Hv.
  - destruct fuel as [|fuel]; cbn in Hf; [lia|]. destruct Hl as (-> & (vma & Ev & Hlt & Hvs) & Hl).
    cbn. apply wp_bind. eapply wp_load; [done|]. rewrite (proj2 (Z.ltb_lt _ _)) by done. cbn [negb].
    eapply wp_seq; [by apply (invalidate_vma_ok w t vma)|]. intros _ w1 (H1 & HI1 & Hv1).
    apply wp_bind, wp_get. destruct (inv_tg_lookup _ _ _ _ H1 Et) as (t1 & Et1 & _).
    eapply wp_mono; [eapply (IH fuel _ w1 t1); try done; [lia|by eapply inv_permits|by eapply AttWf_invalidated| |]|].
    + by rewrite <- (inv_held _ _ H1).
    + by rewrite <- (inv_vmas _ _ H1).
    + rewrite <- (inv_vmas _ _ H1). intros _ w' (H2 & HI2 & H3). split; [by transitivity w1|]. split; [done|].
      intros k y Hy mm b (v' & u & [->|Hv']%elem_of_cons & Eu & Ho & Hb) Em Hr Hya.
      * assert (u = vma) as -> by congruence. apply (fewer_mapped _ _ H2). by eapply (Hv1 k y Hy).
      * destruct (shared_att_invalidated _ _ q t k y H1 Et Hy) as (t1' & y1 & Et1' & Hy1 & Ny).
        assert (t1' = t1) as -> by congruence.
        assert (att_vaddr y1 = att_vaddr y) as Ea by exact (f_equal att_vaddr (eq_sym Ny)).
        assert (at_vaddr y1 = at_vaddr y) as Eat by exact (f_equal at_vaddr (eq_sym Ny)).
        assert (at_size y1 = at_size y) as Es by exact (f_equal at_size (eq_sym Ny)).
        assert (att_mm y1 = att_mm y) as Emm by exact (f_equal att_mm (eq_sym Ny)).
        rewrite <- Ea, <- Eat. apply (H3 k y1 Hy1); [by exists v', u|by rewrite Emm|done|by rewrite Ea, Es].
Qed.
End range.

Lemma walk_length tb o end_ l : vma_walk tb o end_ l -> NoDup l -> (length l <= base.size tb)%nat.
Proof.
  intros Hw Hn. rewrite <- size_dom, <- (size_list_to_set (C := gset positive)) by done. apply subseteq_size.
  revert o Hw. clear Hn. induction l as [|v l IH]; intros o; cbn; [set_solver|].
  intros (_ & (vma & Ev & _) & Hw). apply elem_of_dom_2 in Ev. specialize (IH _ Hw). set_solver.
Qed.

Lemma round_span start end_ :
  0 <= start <= end_ -> end_ + PAGE_SIZE <= 2 ^ 64 ->
  page_span (page_round_down start) (page_round_up end_) /\ page_round_down start <= start /\ end_ <= page_round_up end_.
Proof.
  intros Hs He. pose proof PAGE_SIZE_pos as Hp. unfold page_span, page_round_down, page_round_up. rewrite !offset_in_page_mod.
  pose proof (Z.mod_pos_bound start PAGE_SIZE Hp). pose proof (Z.mod_pos_bound end_ PAGE_SIZE Hp).
  pose proof (Z.mod_le start PAGE_SIZE). destruct (Z.eqb_spec (start mod PAGE_SIZE) 0) as [E1|E1], (Z.eqb_spec (end_ mod PAGE_SIZE) 0) as [E2|E2];
    rewrite ?u64_id by lia; split_and!; try done; try lia; rewrite ?offset_in_page_mod.
  all: first [done | by rewrite Zminus_mod_idemp_r, Z.sub_diag, Z.mod_0_l by lia | idtac].
  all: rewrite Z.add_sub_assoc, Zminus_mod_idemp_r; replace (end_ + PAGE_SIZE - end_) with PAGE_SIZE by lia; apply Z_mod_same_full.
Qed.

Lemma invalidate_ok T S A B w cur q t mm start end_ l :
  Inv T S A B w -> permits_ok w -> few S -> few A -> few B -> AttWf w -> outer_locks true (held w) ->
  tgs w !! q = Some t -> 0 <= start <= end_ -> end_ + PAGE_SIZE <= 2 ^ 64 ->
  let first := find_vma_intersection (vmas w) mm (page_round_down start) (page_round_up end_) in
  vma_walk (vmas w) first (page_round_up end_) l -> NoDup l ->
  wp (xpmem_invalidate_range cur q mm start end_) (fun _ w' => invalidated w w' /\ Inv T S A B w' /\ AttWf w' /\
    if tg_tgid t =? cur_tgid cur
    then forall k y, shared_att w t k y -> hidden_in (fun b => first = None \/ in_vmas (vmas w) l b) (pgt w') y start end_
    else w' = w) w.
Proof.
  intros HI Hp HS HA HB Hwf HL Et Hr He first Hw Hn. destruct (round_span start end_ Hr He) as (Hsp & Hs & Hend).
  enough (wp (xpmem_invalidate_range cur q mm start end_) (fun _ w' => invalidated w w' /\ Inv T S A B w' /\
    if tg_tgid t =? cur_tgid cur
    then forall k y, shared_att w t k y -> hidden_in (fun b => first = None \/ in_vmas (vmas w) l b) (pgt w') y start end_
    else w' = w) w) as H.
  { eapply wp_mono; [exact H|]. intros _ w' (H1 & H2 & H3). split_and!; try done. by eapply AttWf_invalidated. }
  unfold xpmem_invalidate_range. apply wp_bind. eapply wp_load; [done|].
  destruct (tg_tgid t =? cur_tgid cur); cbn [negb]; [|by apply wp_ret].
  apply wp_bind, wp_get. fold first. destruct first as [v|] eqn:Ef.
  - eapply wp_mono; [eapply (invalidate_vmas_ok T S A B HS HA HB (page_round_down start) _ Hsp q (held w) HL l); try done|].
    + by eapply walk_length.
    + intros _ w' (H1 & H2 & H3). split; [done|]. split; [done|]. intros k y Hy mm' b [[=]|Hb] Em Hbr Hya.
      apply (H3 k y Hy mm' b Hb Em); [lia|done].
  - eapply wp_mono; [by eapply (invalidate_PTEs_hides T S A B w q t)|].
    intros _ w' (H1 & H2 & H3). split; [done|]. split; [done|]. intros k y Hy mm' b _ Em Hbr Hya.
    apply (H3 k y Hy mm' b Em); [lia|done].
Qed.

(** C9: when the kernel reports a range of the address space of a thread group and the task that runs
    the callback belongs to that process, the callback terminates without faulting, unpins what it
    unmaps and changes nothing else, and when it returns no attachment of a segment of the thread
    group shows a page of the range: of the whole range when no vma is left there; otherwise only of
    the addresses inside the vmas there that are not themselves attachments.  A callback run by a
    task of another process (reclaim, say) does nothing. *)
Theorem invalidate_range_hides T S A B w cur q t mm start end_ l :
  Inv T S A B w -> permits_ok w -> few S -> few A -> few B -> AttWf w -> outer_locks true (held w) ->
  tgs w !! q = Some t -> 0 <= start <= end_ -> end_ + PAGE_SIZE <= 2 ^ 64 ->
  let first := find_vma_intersection (vmas w) mm (page_round_down start) (page_round_up end_) in
  vma_walk (vmas w) first (page_round_up end_) l -> NoDup l ->
  exists w', xpmem_invalidate_range cur q mm start end_ w = Ok () w' /\ invalidated w w' /\ Inv T S A B w' /\ AttWf w' /\
    if tg_tgid t =? cur_tgid cur
    then forall k y, shared_att w t k y -> hidden_in (fun b => first = None \/ in_vmas (vmas w) l b) (pgt w') y start end_
    else w' = w.
Proof.
  intros HI Hp HS HA HB Hwf HL Et Hr He first Hw Hn.
  destruct (wp_inv _ _ _ (invalidate_ok T S A B w cur q t mm start end_ l HI Hp HS HA HB Hwf HL Et Hr He Hw Hn)) as ([] & w' & H).
  by exists w'.
Qed.
End notifier.
