(* ===== verification/LibSpec.v ===== *)
(** What the calls of the user library do (libxpmem.c): composed with the module, a
    call of [xpmem_make] shares the memory twice, and a process that inherited
    the descriptor across a fork is registered on its first call. *)

From S2P Require Import Prelude Kernel World Monad Ids Misc Pfn Attach Make Get Main Module Lib Inv Graph Link Refs Lookup.
From S2P Require Import MakeSpec GetSpec OpenSpec PfnSpec Invalidated ClearSpec RemoveSpec Registry.

Section lib_spec.
Context `{K : Kernel} {Y : Syscalls}.
Context (fuel : nat) (cur : task).
Implicit Types (w : world) (s : lib_state).

(** The library has a descriptor. *)
Definition has_fd s : Prop := xpmem_fd s <> -1 /\ xpmem_fd s ∈ open_fds s.

(** What an ioctl of the module looks like through the system call. *)
Definition user_result (r : Z * option Z) : Z * option Z := if r.1 <? 0 then (-1, r.2) else r.
Definition user_state (r : Z * option Z) s : lib_state :=
  if r.1 <? 0 then set_errno (if r.1 =? - ENOIOCTLCMD then ENOTTY else - r.1) s else s.

Lemma has_fd_user r s : has_fd s -> has_fd (user_state r s).
Proof. intros H. unfold user_state. by destruct (r.1 <? 0). Qed.

Lemma sys_ioctl_ok fd cmd s w r w' :
  fd ∈ open_fds s -> xpmem_ioctl fuel cur false false cmd w = Ok r w' ->
  sys_ioctl fuel cur fd cmd (s, w) = Ok (user_result r) (user_state r s, w').
Proof.
  intros Hfd E. unfold sys_ioctl, mbind, L_bind, getL, liftL, mret, L_ret, changeL. cbn.
  rewrite bool_decide_eq_true_2 by done. cbn. rewrite E. unfold user_result, user_state. cbn.
  by destruct (r.1 <? 0).
Qed.

(** A call that does not fail with XPMEM_ERRNO_NOPROC is one ioctl. *)
Lemma lib_ioctl_ok cmd s w r w' :
  has_fd s -> xpmem_ioctl fuel cur false false cmd w = Ok r w' -> r.1 <> - XPMEM_ERRNO_NOPROC ->
  lib_ioctl fuel cur cmd (s, w) = Ok (user_result r) (user_state r s, w').
Proof.
  intros [Hne Hfd] E Hr. unfold lib_ioctl, mbind, L_bind, getL, mret, L_ret. cbn -[sys_ioctl].
  rewrite (proj2 (Z.eqb_neq _ _) Hne). cbn -[sys_ioctl]. rewrite (sys_ioctl_ok _ _ _ _ _ _ Hfd E). cbn.
  unfold user_result, user_state. destruct (Z.ltb_spec r.1 0); cbn.
  - assert ((if r.1 =? - ENOIOCTLCMD then ENOTTY else - r.1) =? XPMEM_ERRNO_NOPROC = false) as ->; [|done].
    apply Z.eqb_neq. destruct (r.1 =? - ENOIOCTLCMD); [done|lia].
  - by rewrite (proj2 (Z.eqb_neq r.1 (-1))) by lia.
Qed.

(** The result of the MAKE ioctl. *)
Definition make_result (r : Z + Z) : Z * option Z :=
  match r with inl e => (e, None) | inr id => (0, Some id) end.

Lemma make_cmd_ok vaddr size permit_type permit_value w :
  Inv ∅ ∅ ∅ ∅ w -> permits_ok w -> held w = [] ->
  let sp := make_spec cur vaddr size permit_type permit_value w in
  xpmem_ioctl fuel cur false false (XPMEM_CMD_MAKE vaddr size permit_type permit_value) w
    = Ok (make_result sp.1) sp.2 /\ Inv ∅ ∅ ∅ ∅ sp.2.
Proof.
  intros HI Hw Hh. destruct (wp_inv _ _ _ (make_ok cur vaddr size permit_type permit_value w HI Hw Hh))
    as (r & w' & E & Hs & HI'). cbn zeta. rewrite <- Hs. split; [|done].
  cbn. unfold mbind, M_bind. rewrite E. by destruct r.
Qed.

(** ** What [make_spec] keeps *)

Lemma make_spec_same vaddr size permit_type permit_value w :
  let sp := make_spec cur vaddr size permit_type permit_value w in
  held sp.2 = held w /\ aps sp.2 = aps w /\ forall tgid, find_tg sp.2 tgid = find_tg w tgid.
Proof.
  cbn zeta. unfold make_spec. destruct (make_args_bad _ _ _); [done|].
  destruct (find_tg w (cur_tgid cur)) as [tg|]; [|done]. destruct (tgs w !! tg) as [t|] eqn:Et; [|done].
  destruct (make_size _ _ _); [|done]. destruct (negb _ || negb _); [done|].
  destruct (_ =? XPMEM_MAX_UNIQ_ID); [done|].
  destruct (kzalloc_ok (next_ptr w)); cbn; (split; [done|]); (split; [done|]); intros tgid;
    (apply find_tg_ext; [done|]); cbn; rewrite ?insert_insert_eq; by apply (fmap_insert_same _ _ _ t).
Qed.

Lemma make_spec_noproc vaddr size permit_type permit_value w tg :
  Inv ∅ ∅ ∅ ∅ w -> find_tg w (cur_tgid cur) = Some tg ->
  (make_spec cur vaddr size permit_type permit_value w).1 <> inl (- XPMEM_ERRNO_NOPROC).
Proof.
  intros HI Ef. unfold make_spec. destruct (make_args_bad _ _ _); [done|]. rewrite Ef.
  destruct (find_tg_gen_Some _ _ _ _ _ _ _ _ HI Ef) as (_ & t & Et & _). rewrite Et. by repeat case_match.
Qed.

(** An error leaves the state as it was, unless there was no memory. *)
Lemma make_spec_retry vaddr size permit_type permit_value w :
  let sp := make_spec cur vaddr size permit_type permit_value w in
  match sp.1 with
  | inr _ => kzalloc_ok (next_ptr w) = true
  | inl _ => sp.2 = w \/ kzalloc_ok (next_ptr w) = false
  end.
Proof. cbn zeta. unfold make_spec. repeat case_match; simplify_eq; cbn in *; simplify_eq; auto. Qed.

Lemma make_spec_error vaddr size permit_type permit_value w e :
  (make_spec cur vaddr size permit_type permit_value w).1 = inl e -> e < 0.
Proof. unfold make_spec. repeat case_match; cbn; intros; simplify_eq; done. Qed.

(** Both calls of a [lib_make] by a process that is registered. *)
Lemma lib_make_ok vaddr size permit_type permit_value junk s w tg :
  Inv ∅ ∅ ∅ ∅ w -> permits_ok w -> held w = [] -> has_fd s -> find_tg w (cur_tgid cur) = Some tg ->
  let w1 := (make_spec cur vaddr size permit_type permit_value w).2 in
  let sp := make_spec cur vaddr size permit_type permit_value w1 in
  exists s', lib_make fuel cur vaddr size permit_type permit_value junk (s, w)
      = Ok (match sp.1 with inl _ => -1 | inr id => id end) (s', sp.2) /\
    has_fd s' /\ Inv ∅ ∅ ∅ ∅ w1 /\ Inv ∅ ∅ ∅ ∅ sp.2.
Proof.
  intros HI Hw Hh Hfd Ef. cbn zeta.
  destruct (make_cmd_ok vaddr size permit_type permit_value w HI Hw Hh) as [E1 HI1].
  destruct (make_spec_same vaddr size permit_type permit_value w) as (Hh1 & Ha1 & Hf1).
  pose proof (make_spec_noproc vaddr size permit_type permit_value w tg HI Ef) as N1.
  assert (permits_ok (make_spec cur vaddr size permit_type permit_value w).2) as Hw1
    by (unfold permits_ok; by rewrite Ha1).
  rewrite Hh in Hh1. rewrite <- Hf1 in Ef.
  destruct (make_spec cur vaddr size permit_type permit_value w) as [r1 w1]. cbn [fst snd] in *.
  destruct (make_cmd_ok vaddr size permit_type permit_value w1 HI1 Hw1 Hh1) as [E2 HI2].
  pose proof (make_spec_noproc vaddr size permit_type permit_value w1 tg HI1 Ef) as N2.
  pose proof (make_registry cur vaddr size permit_type permit_value w1 HI1) as [_ Hreg].
  pose proof (make_spec_error vaddr size permit_type permit_value w1) as Hneg.
  destruct (make_spec cur vaddr size permit_type permit_value w1) as [r2 w2]. cbn [fst snd] in *.
  assert (forall r, r <> inl (- XPMEM_ERRNO_NOPROC) -> (make_result r).1 <> - XPMEM_ERRNO_NOPROC) as Hn
    by (intros [e|id] Hr; cbn; [congruence|done]).
  pose proof (lib_ioctl_ok _ s w _ w1 Hfd E1 (Hn _ N1)) as L1.
  pose proof (lib_ioctl_ok _ _ w1 _ w2 (has_fd_user (make_result r1) s Hfd) E2 (Hn _ N2)) as L2.
  eexists. split; [|split; [by apply (has_fd_user (make_result r2)), (has_fd_user (make_result r1))|done]].
  unfold lib_make, mbind, L_bind, mret, L_ret. rewrite L1, L2.
  destruct r2 as [e|id]; cbn.
  - unfold user_result. cbn. by rewrite (proj2 (Z.ltb_lt _ _) (Hneg e eq_refl)).
  - by rewrite (proj2 (Z.eqb_neq id 0)) by lia.
Qed.

(** When memory does not run out on the first call, both calls make a segment or none does. *)
Lemma make_twice vaddr size permit_type permit_value w id :
  Inv ∅ ∅ ∅ ∅ w -> Inv ∅ ∅ ∅ ∅ (make_spec cur vaddr size permit_type permit_value w).2 ->
  kzalloc_ok (next_ptr w) = true ->
  let w1 := (make_spec cur vaddr size permit_type permit_value w).2 in
  let sp := make_spec cur vaddr size permit_type permit_value w1 in
  sp.1 = inr id ->
  exists id1 sz1 sz, (make_spec cur vaddr size permit_type permit_value w).1 = inr id1 /\
    0 < id /\ id1 <> id /\ live_segs w id1 = None /\ live_segs w id = None /\
    (size <> XPMEM_MAXADDR_SIZE -> sz1 = size /\ sz = size) /\
    offset_in_page vaddr = 0 /\ offset_in_page sz1 = 0 /\ offset_in_page sz = 0 /\
    forall i, live_segs sp.2 i = update (update (live_segs w) id1 (Some (mk_seg_info vaddr sz1 permit_value)))
                                   id (Some (mk_seg_info vaddr sz permit_value)) i.
Proof.
  intros HI HI1 Hk. cbn zeta. intros E2.
  pose proof (make_spec_retry vaddr size permit_type permit_value w) as Hr.
  pose proof (make_registry cur vaddr size permit_type permit_value w HI) as [_ H1].
  pose proof (make_registry cur vaddr size permit_type permit_value _ HI1) as [_ H2].
  destruct (make_spec cur vaddr size permit_type permit_value w) as [[e|id1] w1] eqn:E1; cbn [fst snd] in *.
  { destruct Hr as [->|Hr]; [|congruence]. rewrite E1 in E2. discriminate. }
  rewrite E2 in H2. destruct H1 as (_ & Hn1 & sz1 & Hs1 & Ho1 & Hp1 & U1).
  destruct H2 as (Hpos & Hn2 & sz & Hs & _ & Hp & U2). rewrite U1 in Hn2. unfold update in Hn2.
  destruct (decide (id = id1)) as [->|Hne]; [discriminate|].
  exists id1, sz1, sz. split_and!; try done; [by auto..|].
  intros i. rewrite U2. unfold update. destruct (decide (i = id)); [done|]. by rewrite U1.
Qed.

(** C36: a call of the library's [xpmem_make] by a registered process returns, and when it
    succeeds the memory is shared twice: two segments with different identifiers, neither in use
    before, are in the registry, and only one of the identifiers is returned. *)
Theorem lib_make_shares_twice vaddr size permit_type permit_value junk s w tg :
  Inv ∅ ∅ ∅ ∅ w -> permits_ok w -> held w = [] -> has_fd s -> find_tg w (cur_tgid cur) = Some tg ->
  kzalloc_ok (next_ptr w) = true ->
  exists r s' w', lib_make fuel cur vaddr size permit_type permit_value junk (s, w) = Ok r (s', w') /\
    Inv ∅ ∅ ∅ ∅ w' /\
    (r <> -1 -> exists id1 sz1 sz, id1 <> r /\ live_segs w id1 = None /\ live_segs w r = None /\
       (size <> XPMEM_MAXADDR_SIZE -> sz1 = size /\ sz = size) /\
       forall id, live_segs w' id =
         update (update (live_segs w) id1 (Some (mk_seg_info vaddr sz1 permit_value)))
           r (Some (mk_seg_info vaddr sz permit_value)) id).
Proof.
  intros HI Hw Hh Hfd Ef Hk.
  destruct (lib_make_ok vaddr size permit_type permit_value junk s w tg HI Hw Hh Hfd Ef)
    as (s' & E & _ & HI1 & HI2).
  eexists _, _, _. split; [exact E|]. split; [exact HI2|]. intros Hr.
  destruct (make_spec cur vaddr size permit_type permit_value _).1 as [e|id] eqn:E2; [done|].
  destruct (make_twice vaddr size permit_type permit_value w id HI HI1 Hk E2)
    as (id1 & sz1 & sz & _ & _ & H). exists id1, sz1, sz. tauto.
Qed.
End lib_spec.

(** * Removing what [xpmem_make] returned *)

Section lib_remove.
Context `{K : Kernel} {G : KernelGeometry K} {PT : PageTables K} {ZP : ZapPtes K} {Y : Syscalls}.
Context (HG : PGDIR_SHIFT <= PAGE_SHIFT + 31).
Context (fuel : nat) (cur : task) (vaddr size permit_type permit_value : Z).
Context (Hv : 0 <= vaddr) (Hsz : 0 <= size) (Hend : vaddr + size < 2 ^ 64).
Implicit Types (w : world) (s : lib_state).

Let spec := make_spec cur vaddr size permit_type permit_value.

Lemma make_size_end limit sz : make_size limit vaddr size = Some sz -> 0 <= sz /\ vaddr + sz < 2 ^ 64.
Proof.
  unfold make_size. destruct (_ >? _); [|intros [= <-]; lia].
  destruct (Z.eqb_spec size XPMEM_MAXADDR_SIZE) as [E|]; [|done]. intros [= <-].
  change XPMEM_MAXADDR_SIZE with (2 ^ 64 - 1) in E. assert (vaddr = 0) as -> by lia.
  unfold u64. pose proof (Z.mod_pos_bound (limit - 0) (2 ^ 64)). lia.
Qed.

Lemma make_spec_att_wf w : AttWf w -> AttWf (spec w).2.
Proof. intros H. unfold spec, make_spec. repeat case_match; try done; by eapply (AttWf_same w). Qed.

Lemma make_spec_seg_wf w : SegWf w -> SegWf (spec w).2.
Proof.
  intros H. unfold spec, make_spec. destruct (make_args_bad _ _ _); [done|].
  destruct (find_tg w (cur_tgid cur)) as [tg|]; [|done]. destruct (tgs w !! tg) as [t|]; [|done].
  destruct (make_size _ _ _) as [sz|] eqn:Esz; [|done]. destruct (negb _ || negb _) eqn:Ha; [done|].
  destruct (_ =? XPMEM_MAX_UNIQ_ID); [done|]. destruct (kzalloc_ok (next_ptr w)); [|done].
  intros s g. cbn. intros [[<- <-]|[_ E]]%lookup_insert_Some; [|by eapply H].
  apply make_size_end in Esz as [Hz1 Hz2]. apply orb_false_iff in Ha as [Ha1 Ha2]. split_and!; cbn; lia.
Qed.

Lemma make_spec_owner w id : Inv ∅ ∅ ∅ ∅ w -> (spec w).1 = inr id -> xpmem_segid_to_tgid id = cur_tgid cur.
Proof.
  intros HI. unfold spec, make_spec. destruct (make_args_bad _ _ _); [done|].
  destruct (find_tg w (cur_tgid cur)) as [tg|] eqn:Ef; [|done].
  destruct (find_tg_gen_Some _ _ _ _ _ _ _ _ HI Ef) as (_ & t & Et & Htid & _). rewrite Et.
  destruct (make_size _ _ _); [|done]. destruct (negb _ || negb _); [done|].
  destruct (Z.eqb_spec (uniq_segid t) XPMEM_MAX_UNIQ_ID); [done|].
  destruct (kzalloc_ok (next_ptr w)); [|done]. cbn. intros [= <-]. rewrite <- Htid.
  pose proof (tg_uniq_range (tg_all (inv_tg HI) tg t Et)).
  by eapply (add_seg_id w tg t); [done|done|lia].
Qed.

(** A live segment of the caller can be removed. *)
Lemma remove_live_ok w id i :
  Inv ∅ ∅ ∅ ∅ w -> 0 < id -> xpmem_segid_to_tgid id = cur_tgid cur -> live_segs w id = Some i ->
  (remove_spec cur id w).1 = 0.
Proof.
  intros HI Hid Ho. unfold live_segs, resolve_seg, remove_spec, mbind, option_bind.
  rewrite (proj2 (Z.leb_gt _ _) Hid), Ho. destruct (find_tg w (cur_tgid cur)) as [tg|] eqn:Ef; [|done].
  destruct (find_tg_gen_Some _ _ _ _ _ _ _ _ HI Ef) as (_ & t & Et & Htid & _).
  rewrite Et, Htid, Z.eqb_refl. cbn [negb]. destruct (find_seg w tg id) as [s|]; [|done].
  by destruct (segs w !! s).
Qed.

(** Removing the segment the library returned does not undo the sharing: the identifier
    is gone, but the other segment, whose identifier the caller never got, is still live, so
    that the memory can still be accessed through it. *)
Theorem lib_remove_leaves_twin junk s w tg :
  Inv ∅ ∅ ∅ ∅ w -> permits_ok w -> AttWf w -> SegWf w -> held w = [] -> has_fd s ->
  find_tg w (cur_tgid cur) = Some tg -> kzalloc_ok (next_ptr w) = true ->
  exists r s1 w1, lib_make fuel cur vaddr size permit_type permit_value junk (s, w) = Ok r (s1, w1) /\
    (r <> -1 -> exists id1 sz s2 w2, lib_remove fuel cur r (s1, w1) = Ok 0 (s2, w2) /\
       live_segs w2 r = None /\ live_segs w id1 = None /\
       live_segs w2 id1 = Some (mk_seg_info vaddr sz permit_value)).
Proof.
  intros HI Hw Hwf Hsw Hh Hfd Ef Hk.
  destruct (lib_make_ok fuel cur vaddr size permit_type permit_value junk s w tg HI Hw Hh Hfd Ef)
    as (s1 & E & Hfd1 & HI1 & HI2).
  eexists _, _, _. split; [exact E|]. clear E. intros Hr.
  destruct (make_spec cur vaddr size permit_type permit_value _).1 as [e|id] eqn:E2; [done|].
  destruct (make_twice cur vaddr size permit_type permit_value w id HI HI1 Hk E2)
    as (id1 & sz1 & sz & _ & Hpos & Hne & Hn1 & _ & _ & _ & _ & _ & U).
  pose proof (make_spec_owner _ _ HI1 E2) as Ho.
  destruct (make_spec_same cur vaddr size permit_type permit_value w) as (Hh1 & Ha1 & _).
  destruct (make_spec_same cur vaddr size permit_type permit_value (spec w).2) as (Hh2 & Ha2 & _).
  pose proof (make_spec_att_wf _ (make_spec_att_wf _ Hwf)) as Hwf2.
  pose proof (make_spec_seg_wf _ (make_spec_seg_wf _ Hsw)) as Hsw2.
  unfold spec in *. set (w1 := (make_spec cur vaddr size permit_type permit_value w).2) in *.
  set (w2 := (make_spec cur vaddr size permit_type permit_value w1).2) in *.
  assert (permits_ok w2) as Hw2 by (unfold permits_ok; by rewrite Ha2, Ha1).
  assert (held w2 = []) as Hh2' by (by rewrite Hh2, Hh1).
  assert ((remove_spec cur id w2).1 = 0) as H0.
  { eapply remove_live_ok; [done..|]. rewrite U. unfold update. by rewrite decide_True. }
  destruct (remove_registry cur id w2 HI2 H0) as [_ Hreg].
  destruct (wp_inv _ _ _ (remove_ok HG cur id w2 HI2 Hw2 Hwf2 Hsw2 Hh2')) as (r & w3 & E & Hr0 & Hi & _).
  rewrite H0 in Hr0. subst r. exists id1, sz1. eexists _, w3. split; [|split; [|split; [done|]]].
  - unfold lib_remove, mbind, L_bind, mret, L_ret. rewrite (lib_ioctl_ok fuel cur _ s1 w2 (0, None) w3); [done|done| |done].
    cbn. unfold mbind, M_bind. by rewrite E.
  - rewrite (live_segs_inv _ _ _ Hi), Hreg. unfold update. by rewrite decide_True.
  - rewrite (live_segs_inv _ _ _ Hi), Hreg. unfold update. rewrite decide_False by done.
    rewrite U. unfold update. rewrite decide_False by done. by rewrite decide_True.
Qed.
End lib_remove.

(** * A process that inherited the descriptor *)

Section lib_child.
Context `{K : Kernel} {Y : Syscalls}.
Context (fuel : nat) (cur : task).
Implicit Types (w : world) (s : lib_state).

(** [xpmem_open] can create the thread group of the caller. *)
Record can_open w : Prop := {
  open_mm : cur_mm cur = cur_leader_mm cur;
  open_tgid : 0 < cur_tgid cur < 2 ^ 31;
  open_kzalloc : kzalloc_ok (next_ptr w) = true;
  open_notifier : mmu_notifier_register (next_ptr w) = 0;
}.

Lemma opened_found w :
  Inv ∅ ∅ ∅ ∅ w -> can_open w -> find_tg w (cur_tgid cur) = None ->
  (open_spec cur w).1 = 0 /\ find_tg (open_spec cur w).2 (cur_tgid cur) = Some (next_ptr w) /\
  held (open_spec cur w).2 = held w /\ aps (open_spec cur w).2 = aps w.
Proof.
  intros HI [_ Ht Hk Hm] Hf. unfold open_spec, created. rewrite Hf, Hk, Hm. destruct (inv_part HI) as [pt Ep].
  rewrite Ep. cbn. split; [done|]. split; [|done].
  pose proof (hash_size (inv_tg HI)) as Hs. unfold hash_of in Hs. rewrite Ep in Hs.
  pose proof (tg_index_lt (cur_tgid cur)) as Hi.
  unfold find_tg, find_tg_gen in *. unfold hash_of in *. cbn. rewrite Ep in Hf.
  set (i := xpmem_tg_hashtable_index (cur_tgid cur)) in *.
  destruct (lookup_lt_is_Some_2 (tg_hashtable pt) i) as [l El]; [by rewrite Hs|].
  unfold bucket, bucket_add in *. rewrite El in Hf. rewrite list_lookup_alter_eq, El. cbn in *.
  destruct (inv_fresh HI (next_ptr w)) as (F & _); [lia|].
  assert (forall q, q ∈ l -> is_Some (tgs w !! q)) as Hl.
  { intros q Hq. apply (tg_live (inv_tg HI)). unfold tg_refs. rewrite b2n_true; [lia|].
    unfold hash_of. rewrite Ep. apply list_elem_of_join. exists l. split; [done|]. by eapply list_elem_of_lookup_2. }
  assert (next_ptr w ∉ l) as Hn by (intros H; destruct (Hl _ H); congruence).
  rewrite first_where_snoc.
  2: { intros q Hq. rewrite lookup_insert_ne by congruence. by apply Hl. }
  rewrite (first_where_agree _ _ (tgs w)), Hf.
  2: { intros q Hq. by rewrite lookup_insert_ne by congruence. }
  cbn. rewrite lookup_insert_eq. unfold is_tg. cbn. by rewrite Z.eqb_refl.
Qed.

(** A process that inherited the descriptor from its parent but never opened the device
    itself is registered by its first call of [xpmem_make]: the ioctl that failed with
    XPMEM_ERRNO_NOPROC is repeated on a new descriptor and does what it does for a
    registered process.  The new descriptor is not closed on exec. *)
Theorem lib_child_registers vaddr size permit_type permit_value s w fd :
  Inv ∅ ∅ ∅ ∅ w -> permits_ok w -> held w = [] -> has_fd s -> can_open w ->
  find_tg w (cur_tgid cur) = None -> make_args_bad size permit_type permit_value = false ->
  open_dev (opens s) = inr fd -> fd <> -1 ->
  let sp := make_spec cur vaddr size permit_type permit_value (open_spec cur w).2 in
  exists s', lib_ioctl fuel cur (XPMEM_CMD_MAKE vaddr size permit_type permit_value) (s, w)
      = Ok (user_result (make_result sp.1)) (s', sp.2) /\
    sp.1 <> inl (- XPMEM_ERRNO_NOPROC) /\ find_tg sp.2 (cur_tgid cur) = Some (next_ptr w) /\
    xpmem_fd s' = fd /\ cloexec_fds s' = cloexec_fds s /\ Inv ∅ ∅ ∅ ∅ sp.2.
Proof.
  intros HI Hw Hh [Hne Hfd] Hop Hf Hbad Eo Hfdn. cbn zeta.
  destruct (opened_found w HI Hop Hf) as (H0 & Hf' & Hh' & Ha').
  pose proof (open_spec_inv cur w HI (open_tgid _ Hop)) as HI'.
  destruct (make_cmd_ok fuel cur vaddr size permit_type permit_value w HI Hw Hh) as [E1 _].
  assert (make_spec cur vaddr size permit_type permit_value w = (inl (- XPMEM_ERRNO_NOPROC), w)) as E0
    by (unfold make_spec; by rewrite Hbad, Hf).
  rewrite E0 in E1. cbn [fst snd make_result] in E1.
  destruct (wp_inv _ _ _ (open_ok cur w HI Hw Hh (open_mm _ Hop))) as (r & w' & E & Es).
  rewrite <- Es in *. cbn [fst snd] in *. subst r.
  assert (permits_ok w') as Hw' by (unfold permits_ok; by rewrite Ha').
  rewrite Hh in Hh'.
  destruct (make_cmd_ok fuel cur vaddr size permit_type permit_value w' HI' Hw' Hh') as [E2 HI2].
  destruct (make_spec_same cur vaddr size permit_type permit_value w') as (_ & _ & Hfm).
  pose proof (make_spec_noproc cur vaddr size permit_type permit_value w' _ HI' Hf') as Hnp.
  eexists. split; [|split; [done|split; [by rewrite Hfm|]]].
  - unfold lib_ioctl, mbind, L_bind, getL, mret, L_ret. cbn -[sys_ioctl sys_open].
    rewrite (proj2 (Z.eqb_neq _ _) Hne). cbn -[sys_ioctl sys_open].
    rewrite (sys_ioctl_ok _ _ _ _ _ _ _ _ Hfd E1).
    change (user_result (- XPMEM_ERRNO_NOPROC, None)) with (-1, @None Z).
    change (user_state (- XPMEM_ERRNO_NOPROC, None) s) with (set_errno XPMEM_ERRNO_NOPROC s).
    cbn -[sys_ioctl sys_open].
    unfold sys_open at 1, mbind, L_bind, getL, mret, L_ret. cbn -[sys_ioctl]. rewrite Eo.
    unfold mbind, L_bind, liftL, changeL. cbn -[sys_ioctl]. rewrite E. cbn -[sys_ioctl].
    rewrite (proj2 (Z.eqb_neq _ _) Hfdn).
    erewrite sys_ioctl_ok; [|apply list_elem_of_here|exact E2]. reflexivity.
  - cbn. unfold user_state. by destruct (_ <? 0).
Qed.
End lib_child.
