(* ===== verification/Keeps.v ===== *)
(** What never changes: the identity of an object.

    A thread group keeps its process, owner and address space, a segment its
    identifier, range, permissions and thread group, a permit its identifier,
    mode, segment and thread group, an attachment the range of the source it
    shows, its permit and its address space, from the moment it is
    allocated to the moment it is freed, whatever the module does.  The
    proofs follow the code, from the bottom up, and hold in every state:
    no consistency is assumed. *)

From S2P Require Import Prelude Kernel World Monad Ids Misc Pfn Attach Fault Make Get Recall Notifier Main.

Create HintDb keeps.

Definition tg_ident (t : xpmem_thread_group) := (tg_tgid t, tg_uid t, tg_gid t, addr_limit t, tg_mm t).
Definition seg_ident (s : xpmem_segment) :=
  (segid s, seg_vaddr s, seg_size s, permit_type s, permit_value s, seg_tg s).
Definition ap_ident (a : xpmem_access_permit) := (apid a, ap_mode a, ap_seg a, ap_tg a).
Definition att_ident (t : xpmem_attachment) := (att_vaddr t, att_ap t, att_mm t).

(** Every object of [m'] at an address with [P] is one of [m], with the same identity. *)
Definition from {V I} (ident : V -> I) (P : positive -> Prop) (m m' : gmap positive V) : Prop :=
  forall p v', P p -> m' !! p = Some v' -> exists v, m !! p = Some v /\ ident v = ident v'.

Section from.
Context {V I : Type} (ident : V -> I) (P : positive -> Prop).
Implicit Types (m : gmap positive V).

#[global] Instance from_refl : Reflexive (from ident P).
Proof. intros m p v Hp E. eauto. Qed.
#[global] Instance from_trans : Transitive (from ident P).
Proof.
  intros m1 m2 m3 H1 H2 p v Hp E. destruct (H2 p v Hp E) as (v2 & E2 & I2).
  destruct (H1 p v2 Hp E2) as (v1 & E1 & I1). exists v1. split; [done|congruence].
Qed.
Lemma from_update m p v v' : m !! p = Some v -> ident v' = ident v -> from ident P m (<[p := v']> m).
Proof. intros E Hi q u Hq [[<- <-]|[_ Eu]]%lookup_insert_Some; eauto. Qed.
Lemma from_delete m p : from ident P m (delete p m).
Proof. intros q u Hq [_ Eu]%lookup_delete_Some; eauto. Qed.
Lemma from_new m p v : ~ P p -> from ident P m (<[p := v]> m).
Proof. intros Hn q u Hq [[<- <-]|[_ Eu]]%lookup_insert_Some; [done|eauto]. Qed.
End from.

(** * The judgement *)

(** The addresses a property is about: all of them, or those below a bound that was
    reached already when the property started to hold. *)
Definition below (n : option positive) (p : positive) : Prop := match n with None => True | Some n => (p < n)%positive end.

Section keeps.
Context `{K : Kernel}.
Implicit Types (w : world) (n : option positive).

Definition room n w : Prop := match n with None => True | Some n => (n <= next_ptr w)%positive end.

Record kept n w w' : Prop := {
  kept_tgs : from tg_ident (below n) (tgs w) (tgs w');
  kept_segs : from seg_ident (below n) (segs w) (segs w');
  kept_aps : from ap_ident (below n) (aps w) (aps w');
  kept_atts : from att_ident (below n) (atts w) (atts w');
}.

#[global] Instance kept_refl n : Reflexive (kept n).
Proof. by split. Qed.
#[global] Instance kept_trans n : Transitive (kept n).
Proof. intros w1 w2 w3 [] []. split; by etransitivity. Qed.

(** Whenever [m] returns, the objects that are left are what they were. *)
Definition Keeps {A} n (m : M A) : Prop :=
  forall w r w', room n w -> m w = Ok r w' -> room n w' /\ kept n w w'.

(** ** The monad *)

Lemma keeps_ret {A} n (a : A) : Keeps n (mret a).
Proof. intros w r w' Hr [= <- <-]. done. Qed.
Lemma keeps_bind {A B} n (m : M A) (f : A -> M B) : Keeps n m -> (forall a, Keeps n (f a)) -> Keeps n (m ≫= f).
Proof.
  intros Hm Hf w r w' Hr. unfold mbind, M_bind. destruct (m w) as [a w1|] eqn:E; [|done]. intros E'.
  destruct (Hm w a w1 Hr E) as [Hr1 H1]. destruct (Hf a w1 r w' Hr1 E') as [Hr' H']. split; [done|]. by etransitivity.
Qed.
Lemma keeps_raise {A} n e : Keeps n (raise e : M A).
Proof. by intros w r w' _. Qed.
Lemma keeps_get n : Keeps n get.
Proof. intros w r w' Hr [= <- <-]. done. Qed.
Lemma keeps_modify n f :
  (forall w, tgs (f w) = tgs w /\ segs (f w) = segs w /\ aps (f w) = aps w /\ atts (f w) = atts w /\ next_ptr (f w) = next_ptr w) ->
  Keeps n (modify f).
Proof.
  intros Hf w r w' Hr [= <- <-]. destruct (Hf w) as (E1 & E2 & E3 & E4 & E5).
  split; [destruct n; cbn in *; [by rewrite E5|done]|]. split; by rewrite ?E1, ?E2, ?E3, ?E4.
Qed.
Lemma keeps_guard n b e : Keeps n (guardM b e).
Proof. destruct b; [apply keeps_ret|apply keeps_raise]. Qed.
Lemma keeps_when n b m : Keeps n m -> Keeps n (whenM b m).
Proof. intros. destruct b; [done|apply keeps_ret]. Qed.
Lemma keeps_nonnull {A} n (o : option A) : Keeps n (nonnull o).
Proof. destruct o; [apply keeps_ret|apply keeps_raise]. Qed.
Lemma keeps_BUG_ON n c : Keeps n (BUG_ON c).
Proof. apply keeps_guard. Qed.
Lemma keeps_DBUG_ON n c : Keeps n (DBUG_ON c).
Proof. apply keeps_when, keeps_BUG_ON. Qed.

(** ** Memory *)

Lemma keeps_load {V} n (sel : world -> gmap positive V) p : Keeps n (load sel p).
Proof. intros w r w' Hr. unfold load. destruct (sel w !! p); [|done]. by intros [= <- <-]. Qed.

Section heap.
Context {V I : Type} (sel : world -> gmap positive V) (upd : gmap positive V -> world -> world) (ident : V -> I) (n : option positive).
Context (Hupd : forall w m, room n w -> from ident (below n) (sel w) m -> room n (upd m w) /\ kept n w (upd m w)).

Lemma keeps_store p f : (forall v, ident (f v) = ident v) -> Keeps n (store sel upd p f).
Proof.
  intros Hf w r w' Hr. unfold store. destruct (sel w !! p) as [v|] eqn:E; [|done]. intros [= <- <-].
  apply Hupd; [done|]. by eapply from_update.
Qed.
Lemma keeps_kfree p : Keeps n (kfree sel upd p).
Proof.
  intros w r w' Hr. unfold kfree. destruct (sel w !! p) as [v|] eqn:E; [|done]. intros [= <- <-].
  apply Hupd; [done|]. apply from_delete.
Qed.
Lemma keeps_init p v : ~ below n p -> Keeps n (init sel upd p v).
Proof. intros Hp w r w' Hr [= <- <-]. apply Hupd; [done|]. by apply from_new. Qed.
End heap.

Lemma upd_tgs n w m : room n w -> from tg_ident (below n) (tgs w) m -> room n (set_tgs m w) /\ kept n w (set_tgs m w).
Proof. intros Hr Hm. split; [by destruct n|]. by split. Qed.
Lemma upd_segs n w m : room n w -> from seg_ident (below n) (segs w) m -> room n (set_segs m w) /\ kept n w (set_segs m w).
Proof. intros Hr Hm. split; [by destruct n|]. by split. Qed.
Lemma upd_aps n w m : room n w -> from ap_ident (below n) (aps w) m -> room n (set_aps m w) /\ kept n w (set_aps m w).
Proof. intros Hr Hm. split; [by destruct n|]. by split. Qed.
Lemma upd_atts n w m : room n w -> from att_ident (below n) (atts w) m -> room n (set_atts m w) /\ kept n w (set_atts m w).
Proof. intros Hr Hm. split; [by destruct n|]. by split. Qed.
Lemma upd_vmas n w m : room n w -> from (fun _ => ()) (below n) (vmas w) m -> room n (set_vmas m w) /\ kept n w (set_vmas m w).
Proof. intros Hr _. split; [by destruct n|]. by split. Qed.

Lemma keeps_tg_store n p f : (forall v, tg_ident (f v) = tg_ident v) -> Keeps n (tg_store p f).
Proof. apply keeps_store, upd_tgs. Qed.
Lemma keeps_seg_store n p f : (forall v, seg_ident (f v) = seg_ident v) -> Keeps n (seg_store p f).
Proof. apply keeps_store, upd_segs. Qed.
Lemma keeps_ap_store n p f : (forall v, ap_ident (f v) = ap_ident v) -> Keeps n (ap_store p f).
Proof. apply keeps_store, upd_aps. Qed.
Lemma keeps_att_store n p f : (forall v, att_ident (f v) = att_ident v) -> Keeps n (att_store p f).
Proof. apply keeps_store, upd_atts. Qed.
Lemma keeps_vma_store n p f : Keeps n (vma_store p f).
Proof. apply (keeps_store _ _ _ _ (upd_vmas n)). done. Qed.
Lemma keeps_part_load n : Keeps n part_load.
Proof. intros w r w' Hr. unfold part_load. destruct (part w); [|done]. by intros [= <- <-]. Qed.
Lemma keeps_part_store n f : Keeps n (part_store f).
Proof.
  intros w r w' Hr. unfold part_store. destruct (part w); [|done]. intros [= <- <-]. split; [by destruct n|]. by split.
Qed.

(** A fresh address is above the bound. *)
Lemma keeps_kzalloc {A} b (f : option positive -> M A) :
  (forall p, ~ below (Some b) p -> Keeps (Some b) (f (Some p))) -> Keeps (Some b) (f None) ->
  Keeps (Some b) (kzalloc ≫= f).
Proof.
  intros Hs Hn w r w' Hr. unfold kzalloc, might_sleep, mbind, M_bind. destruct (existsb _ _); [done|]. cbn.
  set (w1 := set_next_ptr _ w). assert (room (Some b) w1) as Hr1 by (cbn in *; lia).
  assert (kept (Some b) w w1) as H1 by (by split). intros E.
  assert (room (Some b) w' /\ kept (Some b) w1 w') as [Hr' H'].
  { destruct (kzalloc_ok (next_ptr w)); [|by apply (Hn w1 r w')]. eapply Hs; [|exact Hr1|exact E]. cbn in *. lia. }
  split; [done|]. by etransitivity.
Qed.

(** ** Locks *)

Lemma keeps_acquire n l : Keeps n (acquire l).
Proof.
  intros w r w' Hr. unfold acquire. destruct (bool_decide _); [done|]. intros [= <- <-]. split; [by destruct n|]. by split.
Qed.
Lemma keeps_release n l : Keeps n (release l).
Proof.
  intros w r w' Hr. unfold release. destruct (bool_decide _); [|done]. intros [= <- <-]. split; [by destruct n|]. by split.
Qed.
Lemma keeps_trylock n l : Keeps n (trylock l).
Proof.
  intros w r w' Hr. unfold trylock. destruct (bool_decide _); intros [= <- <-]; [done|]. split; [by destruct n|]. by split.
Qed.
Lemma keeps_might_sleep n : Keeps n might_sleep.
Proof. intros w r w' Hr. unfold might_sleep. destruct (existsb _ _); [done|]. by intros [= <- <-]. Qed.
Lemma keeps_mutex_lock n l : Keeps n (mutex_lock l).
Proof. apply keeps_bind; [apply keeps_might_sleep|intros _; apply keeps_acquire]. Qed.
End keeps.

#[export] Hint Resolve keeps_ret keeps_raise keeps_get keeps_guard keeps_when keeps_nonnull keeps_BUG_ON keeps_DBUG_ON : keeps.
#[export] Hint Resolve keeps_load keeps_vma_store keeps_part_load keeps_part_store : keeps.
#[export] Hint Resolve keeps_acquire keeps_release keeps_trylock keeps_might_sleep keeps_mutex_lock : keeps.
#[export] Hint Extern 1 (Keeps _ (modify _)) =>
  apply keeps_modify; let w := fresh in intros w; repeat case_match; repeat split; reflexivity : keeps.
#[export] Hint Extern 1 (Keeps _ (tg_store _ _)) => apply keeps_tg_store; reflexivity : keeps.
#[export] Hint Extern 1 (Keeps _ (seg_store _ _)) => apply keeps_seg_store; reflexivity : keeps.
#[export] Hint Extern 1 (Keeps _ (ap_store _ _)) => apply keeps_ap_store; reflexivity : keeps.
#[export] Hint Extern 1 (Keeps _ (att_store _ _)) => apply keeps_att_store; reflexivity : keeps.
#[export] Hint Extern 1 (Keeps _ (kfree tgs _ _)) => apply (keeps_kfree _ _ _ _ (upd_tgs _)) : keeps.
#[export] Hint Extern 1 (Keeps _ (kfree segs _ _)) => apply (keeps_kfree _ _ _ _ (upd_segs _)) : keeps.
#[export] Hint Extern 1 (Keeps _ (kfree aps _ _)) => apply (keeps_kfree _ _ _ _ (upd_aps _)) : keeps.
#[export] Hint Extern 1 (Keeps _ (kfree atts _ _)) => apply (keeps_kfree _ _ _ _ (upd_atts _)) : keeps.
#[export] Hint Extern 1 (Keeps _ (kfree vmas _ _)) => apply (keeps_kfree _ _ _ _ (upd_vmas _)) : keeps.
#[export] Hint Extern 1 (Keeps _ (init tgs _ _ _)) => apply (keeps_init _ _ _ _ (upd_tgs _)); assumption : keeps.
#[export] Hint Extern 1 (Keeps _ (init segs _ _ _)) => apply (keeps_init _ _ _ _ (upd_segs _)); assumption : keeps.
#[export] Hint Extern 1 (Keeps _ (init aps _ _ _)) => apply (keeps_init _ _ _ _ (upd_aps _)); assumption : keeps.
#[export] Hint Extern 1 (Keeps _ (init atts _ _ _)) => apply (keeps_init _ _ _ _ (upd_atts _)); assumption : keeps.

#[export] Hint Extern 1 (Keeps _ (tg_load _)) => apply keeps_load : keeps.
#[export] Hint Extern 1 (Keeps _ (seg_load _)) => apply keeps_load : keeps.
#[export] Hint Extern 1 (Keeps _ (ap_load _)) => apply keeps_load : keeps.
#[export] Hint Extern 1 (Keeps _ (att_load _)) => apply keeps_load : keeps.
#[export] Hint Extern 1 (Keeps _ (vma_load _)) => apply keeps_load : keeps.
#[export] Hint Extern 1 (Keeps _ (spin_lock _)) => apply keeps_acquire : keeps.
#[export] Hint Extern 1 (Keeps _ (read_lock _)) => apply keeps_acquire : keeps.
#[export] Hint Extern 1 (Keeps _ (write_lock _)) => apply keeps_acquire : keeps.
#[export] Hint Extern 1 (Keeps _ (down_read _)) => apply keeps_mutex_lock : keeps.
#[export] Hint Extern 1 (Keeps _ (down_write _)) => apply keeps_mutex_lock : keeps.
#[export] Hint Extern 1 (Keeps _ (spin_unlock _)) => apply keeps_release : keeps.
#[export] Hint Extern 1 (Keeps _ (read_unlock _)) => apply keeps_release : keeps.
#[export] Hint Extern 1 (Keeps _ (write_unlock _)) => apply keeps_release : keeps.
#[export] Hint Extern 1 (Keeps _ (mutex_unlock _)) => apply keeps_release : keeps.
#[export] Hint Extern 1 (Keeps _ (up_read _)) => apply keeps_release : keeps.
#[export] Hint Extern 1 (Keeps _ (up_write _)) => apply keeps_release : keeps.

(** Follow the code. *)
Ltac keeps_step :=
  lazymatch goal with
  | |- Keeps _ (kzalloc ≫= _) => apply keeps_kzalloc; [intros ? ?|]
  | |- Keeps _ (_ ≫= _) => apply keeps_bind; [|intros ?]
  | |- Keeps _ (whenM _ _) => apply keeps_when
  | |- Keeps _ (match ?x with _ => _ end) => destruct x
  | |- Keeps _ (let _ := _ in _) => cbv zeta
  | |- Keeps _ _ => solve [auto 2 with keeps nocore]
  end.
Ltac keeps := repeat (cbv beta; keeps_step).

(** * The code *)

Section code.
Context `{K : Kernel}.
Implicit Types (cur : task).
Context (n : option positive).

Lemma keeps_tg_ref p : Keeps n (xpmem_tg_ref p).
Proof. unfold xpmem_tg_ref. keeps. Qed.
Lemma keeps_seg_ref p : Keeps n (xpmem_seg_ref p).
Proof. unfold xpmem_seg_ref. keeps. Qed.
Lemma keeps_ap_ref p : Keeps n (xpmem_ap_ref p).
Proof. unfold xpmem_ap_ref. keeps. Qed.
Lemma keeps_att_ref p : Keeps n (xpmem_att_ref p).
Proof. unfold xpmem_att_ref. keeps. Qed.
Lemma keeps_tg_deref p : Keeps n (xpmem_tg_deref p).
Proof. unfold xpmem_tg_deref, put_task_struct. keeps. Qed.
Lemma keeps_seg_deref p : Keeps n (xpmem_seg_deref p).
Proof. unfold xpmem_seg_deref. keeps. Qed.
Lemma keeps_ap_deref p : Keeps n (xpmem_ap_deref p).
Proof. unfold xpmem_ap_deref. keeps. Qed.
Lemma keeps_att_deref p : Keeps n (xpmem_att_deref p).
Proof. unfold xpmem_att_deref. keeps. Qed.
#[local] Hint Resolve keeps_tg_ref keeps_seg_ref keeps_ap_ref keeps_att_ref keeps_tg_deref keeps_seg_deref keeps_ap_deref keeps_att_deref : keeps.

(** ** Look-ups *)

Lemma keeps_tg_scan l tgid d : Keeps n (tg_scan l tgid d).
Proof. induction l as [|p l IH]; cbn; keeps; exact IH. Qed.
#[local] Hint Resolve keeps_tg_scan : keeps.
Lemma keeps_tg_lookup_nolock tgid i d : Keeps n (xpmem_tg_ref_by_tgid_nolock_internal tgid i d).
Proof. unfold xpmem_tg_ref_by_tgid_nolock_internal. keeps. Qed.
#[local] Hint Resolve keeps_tg_lookup_nolock : keeps.
Lemma keeps_tg_lookup tgid : Keeps n (xpmem_tg_ref_by_tgid tgid).
Proof. unfold xpmem_tg_ref_by_tgid, xpmem_tg_ref_by_tgid_gen. keeps. Qed.
#[local] Hint Resolve keeps_tg_lookup : keeps.
Lemma keeps_tg_lookup_segid id : Keeps n (xpmem_tg_ref_by_segid id).
Proof. unfold xpmem_tg_ref_by_segid. keeps. Qed.
Lemma keeps_tg_lookup_apid id : Keeps n (xpmem_tg_ref_by_apid id).
Proof. unfold xpmem_tg_ref_by_apid. keeps. Qed.
Lemma keeps_seg_scan l id : Keeps n (seg_scan l id).
Proof. induction l as [|p l IH]; cbn; keeps; exact IH. Qed.
#[local] Hint Resolve keeps_seg_scan : keeps.
Lemma keeps_seg_lookup tg id : Keeps n (xpmem_seg_ref_by_segid tg id).
Proof. unfold xpmem_seg_ref_by_segid. keeps. Qed.
Lemma keeps_ap_scan l id : Keeps n (ap_scan l id).
Proof. induction l as [|p l IH]; cbn; keeps; exact IH. Qed.
#[local] Hint Resolve keeps_ap_scan : keeps.
Lemma keeps_ap_lookup tg id : Keeps n (xpmem_ap_ref_by_apid tg id).
Proof. unfold xpmem_ap_ref_by_apid. keeps. Qed.
#[local] Hint Resolve keeps_tg_lookup_segid keeps_tg_lookup_apid keeps_seg_lookup keeps_ap_lookup : keeps.

(** ** The recall counter and the semaphore of a segment *)

Lemma keeps_cmpxchg tg a b : Keeps n (atomic_cmpxchg_recall tg a b).
Proof. unfold atomic_cmpxchg_recall, n_recall. keeps. Qed.
#[local] Hint Resolve keeps_cmpxchg : keeps.
Lemma keeps_block_cmpxchg fuel : forall tg v, Keeps n (block_cmpxchg fuel tg v).
Proof. induction fuel as [|fuel IH]; intros tg v; cbn; keeps; apply IH. Qed.
Lemma keeps_disallow_cmpxchg fuel : forall tg v, Keeps n (disallow_cmpxchg fuel tg v).
Proof. induction fuel as [|fuel IH]; intros tg v; cbn; keeps; apply IH. Qed.
#[local] Hint Resolve keeps_block_cmpxchg keeps_disallow_cmpxchg : keeps.
Lemma keeps_wait_event c : Keeps n c -> Keeps n (wait_event c).
Proof. intros. unfold wait_event. keeps. Qed.
Lemma keeps_block fuel : forall tg wait, Keeps n (xpmem_block_recall_PFNs fuel tg wait).
Proof.
  induction fuel as [|fuel IH]; intros tg wait; cbn; keeps; try apply IH; apply keeps_wait_event; unfold n_recall; keeps.
Qed.
Lemma keeps_disallow fuel : forall tg, Keeps n (xpmem_disallow_blocking_recall_PFNs fuel tg).
Proof.
  induction fuel as [|fuel IH]; intros tg; cbn; unfold n_recall; keeps; try apply IH; apply keeps_wait_event; keeps.
Qed.
Lemma keeps_unblock tg : Keeps n (xpmem_unblock_recall_PFNs tg).
Proof. unfold xpmem_unblock_recall_PFNs. keeps. Qed.
Lemma keeps_allow tg : Keeps n (xpmem_allow_blocking_recall_PFNs tg).
Proof. unfold xpmem_allow_blocking_recall_PFNs. keeps. Qed.
#[local] Hint Resolve keeps_block keeps_disallow keeps_unblock keeps_allow : keeps.
Lemma keeps_down_read tg s b wait : Keeps n (xpmem_seg_down_read tg s b wait).
Proof. unfold xpmem_seg_down_read. keeps. Qed.
Lemma keeps_up_read tg s b : Keeps n (xpmem_seg_up_read tg s b).
Proof. unfold xpmem_seg_up_read. keeps. Qed.
Lemma keeps_validate cur a o sz m : Keeps n (xpmem_validate_access cur a o sz m).
Proof. unfold xpmem_validate_access. keeps. Qed.
#[local] Hint Resolve keeps_down_read keeps_up_read keeps_validate : keeps.

(** ** Pages *)

Lemma keeps_put_page pfn : Keeps n (put_page pfn).
Proof. unfold put_page, page_add. keeps. Qed.
#[local] Hint Resolve keeps_put_page : keeps.
Lemma keeps_unpin_loop fuel : forall mm v k u, Keeps n (unpin_loop fuel mm v k u).
Proof. induction fuel as [|fuel IH]; intros mm v k u; cbn; unfold xpmem_vaddr_to_pte_size; keeps; apply IH. Qed.
#[local] Hint Resolve keeps_unpin_loop : keeps.
Lemma keeps_unpin s mm v size : Keeps n (xpmem_unpin_pages s mm v size).
Proof. unfold xpmem_unpin_pages. keeps. Qed.
Lemma keeps_pte_offset mm v : Keeps n (xpmem_vaddr_to_pte_offset mm v).
Proof. unfold xpmem_vaddr_to_pte_offset, xpmem_hugetlb_pte. keeps. Qed.
#[local] Hint Resolve keeps_unpin keeps_pte_offset : keeps.
Lemma keeps_pin_page tg t mm v pfn : Keeps n (xpmem_pin_page tg t mm v pfn).
Proof. unfold xpmem_pin_page, page_add. keeps. Qed.
#[local] Hint Resolve keeps_pin_page : keeps.
Lemma keeps_ensure s v pfn : Keeps n (xpmem_ensure_valid_PFN s v pfn).
Proof. unfold xpmem_ensure_valid_PFN. keeps. Qed.
Lemma keeps_vaddr_to_PFN mm v : Keeps n (xpmem_vaddr_to_PFN mm v).
Proof. unfold xpmem_vaddr_to_PFN. keeps. Qed.
#[local] Hint Resolve keeps_ensure keeps_vaddr_to_PFN : keeps.

(** ** Attachments *)

Lemma keeps_att_list_del a t : Keeps n (att_list_del a t).
Proof. unfold att_list_del. keeps. Qed.
Lemma keeps_lock_killable cur l : Keeps n (mutex_lock_killable cur l).
Proof. unfold mutex_lock_killable. keeps. Qed.
Lemma keeps_set_flag t m : Keeps n (att_set_flag t m).
Proof. unfold att_set_flag. keeps. Qed.
Lemma keeps_clear_flag t m : Keeps n (att_clear_flag t m).
Proof. unfold att_clear_flag. keeps. Qed.
#[local] Hint Resolve keeps_att_list_del keeps_lock_killable keeps_set_flag keeps_clear_flag : keeps.
Lemma keeps_mmap_lock mm : Keeps n (xpmem_mmap_write_lock mm).
Proof. apply keeps_mutex_lock. Qed.
Lemma keeps_mmap_unlock mm : Keeps n (xpmem_mmap_write_unlock mm).
Proof. apply keeps_release. Qed.
Lemma keeps_mmap_rlock mm : Keeps n (xpmem_mmap_read_lock mm).
Proof. apply keeps_mutex_lock. Qed.
Lemma keeps_mmap_runlock mm : Keeps n (xpmem_mmap_read_unlock mm).
Proof. apply keeps_release. Qed.
Lemma keeps_mmap_trylock mm : Keeps n (xpmem_mmap_read_trylock mm).
Proof. apply keeps_trylock. Qed.
#[local] Hint Resolve keeps_mmap_lock keeps_mmap_unlock keeps_mmap_rlock keeps_mmap_runlock keeps_mmap_trylock : keeps.
Lemma keeps_close_remaining cur vma a : Keeps n (close_remaining cur vma a).
Proof. unfold close_remaining. keeps. Qed.
#[local] Hint Resolve keeps_close_remaining : keeps.
Lemma keeps_close cur v : Keeps n (xpmem_close_handler cur v).
Proof. unfold xpmem_close_handler, xpmem_att_destroyable. keeps. Qed.
#[local] Hint Resolve keeps_close : keeps.
Lemma keeps_open_handler v : Keeps n (xpmem_open_handler v).
Proof. unfold xpmem_open_handler. keeps. Qed.
Lemma keeps_open_vmas l : Keeps n (open_vmas l).
Proof. induction l as [|v l IH]; cbn; keeps; first [exact IH|apply keeps_open_handler]. Qed.
#[local] Hint Resolve keeps_open_vmas : keeps.
Lemma keeps_close_vmas cur l : Keeps n (close_vmas cur l).
Proof. induction l as [|v l IH]; cbn; keeps; exact IH. Qed.
#[local] Hint Resolve keeps_close_vmas : keeps.
Lemma keeps_munmap cur a len : Keeps n (do_vm_munmap cur a len).
Proof. unfold do_vm_munmap. keeps. Qed.
Lemma keeps_mmap cur a size f o : Keeps n (do_vm_mmap cur a size f o).
Proof. unfold do_vm_mmap, xpmem_mmap. keeps. Qed.
#[local] Hint Resolve keeps_munmap keeps_mmap : keeps.
Lemma keeps_existing fuel : forall o limit, Keeps n (existing_attachment fuel o limit).
Proof. induction fuel as [|fuel IH]; intros o limit; destruct o; cbn; keeps; apply IH. Qed.
#[local] Hint Resolve keeps_existing : keeps.
Lemma keeps_attach_map cur t v size o : Keeps n (attach_map cur t v size o).
Proof. unfold attach_map. keeps. Qed.
Lemma keeps_attach_out a p s st : Keeps n (attach_out_1 a p s st).
Proof. unfold attach_out_1. keeps. Qed.
#[local] Hint Resolve keeps_attach_map keeps_attach_out : keeps.
Lemma keeps_detach cur v : Keeps n (xpmem_detach cur v).
Proof. unfold xpmem_detach, detach_vma, detach_owned, xpmem_att_destroyable. keeps. Qed.
Lemma keeps_detach_att cur a t : Keeps n (xpmem_detach_att cur a t).
Proof. unfold xpmem_detach_att, xpmem_att_destroyable. keeps. Qed.
#[local] Hint Resolve keeps_detach keeps_detach_att : keeps.

(** ** Invalidation, recall, the page fault handler *)

Lemma keeps_clear_att t a b mmu : Keeps n (xpmem_clear_PTEs_of_att t a b mmu).
Proof. unfold xpmem_clear_PTEs_of_att, clear_PTEs_window. keeps. Qed.
#[local] Hint Resolve keeps_clear_att : keeps.
Lemma keeps_clear_ap_loop fuel : forall p c a b mmu, Keeps n (clear_PTEs_of_ap_loop fuel p c a b mmu).
Proof. induction fuel as [|fuel IH]; intros p c a b mmu; cbn; keeps; apply IH. Qed.
#[local] Hint Resolve keeps_clear_ap_loop : keeps.
Lemma keeps_clear_ap p a b mmu : Keeps n (xpmem_clear_PTEs_of_ap p a b mmu).
Proof. unfold xpmem_clear_PTEs_of_ap. keeps. Qed.
#[local] Hint Resolve keeps_clear_ap : keeps.
Lemma keeps_clear_range_loop fuel : forall p c a b mmu, Keeps n (clear_PTEs_range_loop fuel p c a b mmu).
Proof. induction fuel as [|fuel IH]; intros p c a b mmu; cbn; keeps; apply IH. Qed.
#[local] Hint Resolve keeps_clear_range_loop : keeps.
Lemma keeps_clear_range s a b mmu : Keeps n (xpmem_clear_PTEs_range s a b mmu).
Proof. unfold xpmem_clear_PTEs_range. keeps. Qed.
#[local] Hint Resolve keeps_clear_range : keeps.
Lemma keeps_clear s : Keeps n (xpmem_clear_PTEs s).
Proof. unfold xpmem_clear_PTEs. keeps. Qed.
#[local] Hint Resolve keeps_clear : keeps.
Lemma keeps_recall s : Keeps n (xpmem_recall_PFNs s).
Proof.
  unfold xpmem_recall_PFNs, xpmem_seg_down_write, xpmem_seg_up_write, xpmem_wait_for_seg_destroyed. keeps.
  apply keeps_wait_event. keeps.
Qed.
#[local] Hint Resolve keeps_recall : keeps.
Lemma keeps_recall_loop fuel : forall tg c, Keeps n (recall_loop fuel tg c).
Proof. induction fuel as [|fuel IH]; intros tg c; cbn; keeps; apply IH. Qed.
#[local] Hint Resolve keeps_recall_loop : keeps.
Lemma keeps_recall_tg tg : Keeps n (xpmem_recall_PFNs_of_tg tg).
Proof. unfold xpmem_recall_PFNs_of_tg. keeps. Qed.
#[local] Hint Resolve keeps_recall_tg : keeps.
Lemma keeps_fork_begin cur : Keeps n (xpmem_fork_begin cur).
Proof. unfold xpmem_fork_begin. keeps. Qed.
Lemma keeps_fork_end cur : Keeps n (xpmem_fork_end cur).
Proof. unfold xpmem_fork_end. keeps. Qed.
Lemma keeps_threads_stopped fuel : forall l t, Keeps n (threads_stopped fuel l t).
Proof. induction fuel as [|fuel IH]; intros l t; cbn; keeps; apply IH. Qed.
#[local] Hint Resolve keeps_threads_stopped : keeps.
Lemma keeps_procfs_write fuel tgid count : Keeps n (xpmem_unpin_procfs_write fuel tgid count).
Proof. unfold xpmem_unpin_procfs_write, xpmem_is_thread_group_stopped. keeps. Qed.
Lemma keeps_fault_pin cur mm t p s q v b : Keeps n (fault_pin cur mm t p s q v b).
Proof. unfold fault_pin, fault_verify_vma. keeps. Qed.
Lemma keeps_fault_install mm v s a pfn : Keeps n (fault_install mm v s a pfn).
Proof. unfold fault_install. keeps. Qed.
Lemma keeps_fault_lock mm smm : Keeps n (fault_lock_seg_mm mm smm).
Proof. unfold fault_lock_seg_mm. keeps. Qed.
#[local] Hint Resolve keeps_fault_pin keeps_fault_install keeps_fault_lock : keeps.
Lemma keeps_fault cur v a : Keeps n (xpmem_fault_handler cur v a).
Proof. unfold xpmem_fault_handler. keeps. Qed.

(** ** Removing and releasing *)

Lemma keeps_seg_set_flag s m : Keeps n (seg_set_flag s m).
Proof. unfold seg_set_flag. keeps. Qed.
#[local] Hint Resolve keeps_seg_set_flag : keeps.
Lemma keeps_remove_seg tg s : Keeps n (xpmem_remove_seg tg s).
Proof. unfold xpmem_remove_seg, xpmem_seg_destroyable, xpmem_seg_down_write, xpmem_seg_up_write. keeps. Qed.
#[local] Hint Resolve keeps_remove_seg : keeps.
Lemma keeps_remove cur id : Keeps n (xpmem_remove cur id).
Proof. unfold xpmem_remove. keeps. Qed.
Lemma keeps_remove_segs_loop fuel : forall tg, Keeps n (remove_segs_loop fuel tg).
Proof. induction fuel as [|fuel IH]; intros tg; cbn; keeps; apply IH. Qed.
#[local] Hint Resolve keeps_remove keeps_remove_segs_loop : keeps.
Lemma keeps_release_atts_loop fuel : forall cur a, Keeps n (release_atts_loop fuel cur a).
Proof. induction fuel as [|fuel IH]; intros cur a; cbn; keeps; apply IH. Qed.
#[local] Hint Resolve keeps_release_atts_loop : keeps.
Lemma keeps_release_ap fuel cur tg a : Keeps n (xpmem_release_ap fuel cur tg a).
Proof. unfold xpmem_release_ap, xpmem_ap_destroyable. keeps. Qed.
#[local] Hint Resolve keeps_release_ap : keeps.
Lemma keeps_release_permit fuel cur id : Keeps n (xpmem_release fuel cur id).
Proof. unfold xpmem_release. keeps. Qed.
Lemma keeps_release_bucket k fuel cur tg i : Keeps n (release_bucket_loop k fuel cur tg i).
Proof. induction k as [|k IH]; cbn; keeps; apply IH. Qed.
#[local] Hint Resolve keeps_release_permit keeps_release_bucket : keeps.
Lemma keeps_release_buckets k fuel cur tg l : Keeps n (release_buckets k fuel cur tg l).
Proof. induction l as [|i l IH]; cbn; keeps; apply IH. Qed.
#[local] Hint Resolve keeps_release_buckets : keeps.

(** ** Notifiers and the end of a thread group *)

Lemma keeps_tg_set_flag tg m u : Keeps n (tg_set_flag tg m u).
Proof. unfold tg_set_flag. keeps. Qed.
#[local] Hint Resolve keeps_tg_set_flag : keeps.
Lemma keeps_teardown fuel cur tg : Keeps n (xpmem_teardown fuel cur tg).
Proof. unfold xpmem_teardown, xpmem_release_aps_of_tg, xpmem_remove_segs_of_tg. keeps. Qed.
#[local] Hint Resolve keeps_teardown : keeps.
Lemma keeps_mm_scan l mm : Keeps n (mm_scan l mm).
Proof. induction l as [|tg l IH]; cbn; keeps; apply IH. Qed.
#[local] Hint Resolve keeps_mm_scan : keeps.
Lemma keeps_release_search fuel cur mm l : Keeps n (release_search fuel cur mm l).
Proof. induction l as [|i l IH]; cbn; keeps; apply IH. Qed.
#[local] Hint Resolve keeps_release_search : keeps.
Lemma keeps_mmu_release fuel cur mm : Keeps n (xpmem_mmu_release fuel cur mm).
Proof. unfold xpmem_mmu_release. keeps. Qed.
#[local] Hint Resolve keeps_mmu_release : keeps.
Lemma keeps_flush fuel cur owner : Keeps n (xpmem_flush fuel cur owner).
Proof.
  unfold xpmem_flush, xpmem_destroy_tg, xpmem_mmu_notifier_unlink, mmu_notifier_unregister, xpmem_tg_destroyable,
    xpmem_tg_ref_by_tgid_all_nolock. keeps.
Qed.
Lemma keeps_invalidate_loop fuel : forall tg c a b, Keeps n (invalidate_loop fuel tg c a b).
Proof. induction fuel as [|fuel IH]; intros tg c a b; cbn; keeps; apply IH. Qed.
#[local] Hint Resolve keeps_invalidate_loop : keeps.
Lemma keeps_invalidate_PTEs tg a b : Keeps n (xpmem_invalidate_PTEs_range tg a b).
Proof. unfold xpmem_invalidate_PTEs_range. keeps. Qed.
#[local] Hint Resolve keeps_invalidate_PTEs : keeps.
Lemma keeps_invalidate_vmas fuel : forall tg o a b, Keeps n (invalidate_vmas fuel tg o a b).
Proof. induction fuel as [|fuel IH]; intros tg o a b; destruct o; cbn; keeps; apply IH. Qed.
#[local] Hint Resolve keeps_invalidate_vmas : keeps.
Lemma keeps_invalidate cur tg mm a b : Keeps n (xpmem_invalidate_range cur tg mm a b).
Proof. unfold xpmem_invalidate_range. keeps. Qed.
End code.

#[export] Hint Resolve keeps_tg_ref keeps_seg_ref keeps_ap_ref keeps_att_ref keeps_tg_deref keeps_seg_deref keeps_ap_deref keeps_att_deref : keeps.
#[export] Hint Resolve keeps_tg_lookup keeps_tg_lookup_segid keeps_tg_lookup_apid keeps_seg_lookup keeps_ap_lookup : keeps.
#[export] Hint Resolve keeps_down_read keeps_up_read keeps_validate keeps_attach_map keeps_attach_out keeps_set_flag keeps_att_list_del : keeps.
#[export] Hint Resolve keeps_remove keeps_release_permit keeps_detach keeps_fork_begin keeps_fork_end : keeps.

(** * What allocates *)

Section alloc.
Context `{K : Kernel}.
Implicit Types (cur : task).
Context (b : positive).

Lemma keeps_make cur v size pt pv : Keeps (Some b) (xpmem_make cur v size pt pv).
Proof. unfold xpmem_make, xpmem_make_segid, xpmem_seg_not_destroyable. keeps. Qed.
Lemma keeps_get_permit cur id f pt pv : Keeps (Some b) (xpmem_get cur id f pt pv).
Proof. unfold xpmem_get, xpmem_check_permit_mode, xpmem_make_apid, xpmem_ap_not_destroyable. keeps. Qed.
Lemma keeps_attach cur id o size v : Keeps (Some b) (xpmem_attach cur id o size v).
Proof. unfold xpmem_attach, attach_locked, xpmem_att_destroyable, xpmem_att_not_destroyable. keeps. Qed.
Lemma keeps_open cur : Keeps (Some b) (xpmem_open cur).
Proof. unfold xpmem_open, open_new, xpmem_tg_not_destroyable, xpmem_mmu_notifier_init, get_task_struct. keeps. Qed.
#[local] Hint Resolve keeps_make keeps_get_permit keeps_attach : keeps.
Lemma keeps_ioctl fuel cur cf pf cmd : Keeps (Some b) (xpmem_ioctl fuel cur cf pf cmd).
Proof. unfold xpmem_ioctl. keeps. Qed.
End alloc.
