(* ===== verification/Wf.v ===== *)
(** How well-formedness is carried along: by what the code keeps (Keeps), and by
    invalidation. *)

From S2P Require Import Prelude Kernel World Monad Ids Misc Pfn Attach Inv Graph Link Refs Lookup PfnSpec Invalidated ClearSpec Chain.
From S2P Require Import PinSpec FaultSpec DetachSpec RemoveSpec Keeps.

Section wf.
Context `{K : Kernel}.
Implicit Types (w : world) (cur : task).

Lemma wp_keeps {A} n (m : M A) Q w :
  Keeps n m -> room n w -> wp m Q w -> wp m (fun r w' => Q r w' /\ Keeps.kept n w w') w.
Proof. intros Hk Hr H. destruct (wp_inv _ _ _ H) as (r & w' & E & HQ). eapply wp_Ok; [exact E|]. split; [done|]. by eapply Hk. Qed.

Lemma SegWf_equiv w w' : w' ≡ w -> SegWf w -> SegWf w'.
Proof. intros Hq H s g' E. destruct (equiv_seg _ _ _ _ Hq E) as [n E']. exact (H s _ E'). Qed.

Lemma SegWf_kept w w' : Keeps.kept None w w' -> SegWf w -> SegWf w'.
Proof.
  intros Hk H s g' E. destruct (kept_segs _ _ _ Hk s g' I E) as (g & Eg & [= H1 H2 H3 H4 H5 H6]).
  unfold seg_wf. rewrite <- H2, <- H3. exact (H s g Eg).
Qed.

Lemma VmaWf_invalidated w w' : invalidated w w' -> VmaWf w -> VmaWf w'.
Proof.
  intros H [Hm Ha Hb Hp]. pose proof (inv_vmas _ _ H) as Ev. split.
  - intros mm b Hs. rewrite <- Ev. apply Hm. destruct (mapped_pfn (pgt w) mm b) eqn:E; [done|].
    rewrite (fewer_mapped _ _ H mm b E) in Hs. by destruct Hs.
  - intros t y' E'. destruct (invalidated_att_back _ _ _ _ H E') as (y & E & En).
    destruct (Ha t y E) as (Hd & mm & v & vma & Hy). split; [by rewrite (norm_destroying y y' En)|].
    exists mm, v, vma. by apply (attached_norm w w' t y).
  - intros v vma t. rewrite <- Ev. intros E Ho Hd. destruct (Hb v vma t E Ho Hd) as (y & Ey & Hy).
    destruct (inv_att_lookup _ _ _ _ H Ey) as (y' & Ey' & En & _). exists y'. split; [done|].
    rewrite <- Hy. exact (f_equal at_vma (eq_sym En)).
  - by rewrite <- Ev.
Qed.

(** A permit has at most as many attachments as there are. *)
Lemma att_list_size T S A B w a x :
  Inv T S A B w -> aps w !! a = Some x -> (length (ap_att_list x) <= base.size (atts w))%nat.
Proof.
  intros HI Ex. pose proof (ap_all (inv_ap HI) a x Ex) as Hok.
  rewrite <- size_dom, <- (size_list_to_set (C := gset positive)) by apply Hok. apply subseteq_size.
  intros t Ht%elem_of_list_to_set. pose proof (ap_atts Hok t Ht) as E. rewrite lookup_fmap in E.
  destruct (atts w !! t) eqn:Et; [|done]. by eapply elem_of_dom_2.
Qed.
End wf.

(** * Nothing half done *)

Definition busy_flags : Z := Z.lor XPMEM_FLAG_DESTROYING XPMEM_FLAG_RECALLINGPFNS.

Lemma busy_destroying f : has f busy_flags = false -> has f XPMEM_FLAG_DESTROYING = false.
Proof.
  unfold has. intros H%negb_false_iff%Z.eqb_eq. apply negb_false_iff, Z.eqb_eq.
  change XPMEM_FLAG_DESTROYING with (Z.land busy_flags (2 ^ 6)). rewrite Z.land_assoc, H. apply Z.land_0_l.
Qed.

(** Between calls no permit is half released, and no listed segment half removed or recalled. *)
Record Resting `{K : Kernel} (w : world) : Prop := {
  rest_aps : forall a x, aps w !! a = Some x -> has (ap_flags x) XPMEM_FLAG_DESTROYING = false;
  rest_segs : forall q s g, s ∈ list_of seg_list (tgs w) q -> segs w !! s = Some g ->
    has (seg_flags g) busy_flags = false;
}.

Section resting.
Context `{K : Kernel}.
Implicit Types (w : world).

Lemma lookup_view {V U} (f : V -> U) (m m' : gmap positive V) p v :
  f <$> m = f <$> m' -> m !! p = Some v -> exists v', m' !! p = Some v' /\ f v = f v'.
Proof.
  intros E Ev. assert ((f <$> m') !! p = Some (f v)) as H by (by rewrite <- E, lookup_fmap, Ev).
  rewrite lookup_fmap in H. destruct (m' !! p) as [v'|]; [|done]. injection H as H. eauto.
Qed.

(** All it depends on. *)
Lemma Resting_views w w' :
  ap_flags <$> aps w' = ap_flags <$> aps w -> seg_flags <$> segs w' = seg_flags <$> segs w ->
  seg_list <$> tgs w' = seg_list <$> tgs w -> Resting w -> Resting w'.
Proof.
  intros Ea Es Et [R1 R2]. split.
  - intros a x' E. destruct (lookup_view _ _ _ _ _ Ea E) as (x & Ex & ->). by eapply R1.
  - intros q s g' Hin E. destruct (lookup_view _ _ _ _ _ Es E) as (g & Eg & ->).
    rewrite (list_of_fmap seg_list (tgs w') (tgs w)) in Hin by done. by eapply R2.
Qed.

Lemma Resting_same w w' : aps w' = aps w -> segs w' = segs w -> tgs w' = tgs w -> Resting w -> Resting w'.
Proof. intros E1 E2 E3. apply Resting_views; congruence. Qed.

Lemma Resting_equiv w w' : w' ≡ w -> Resting w -> Resting w'.
Proof. intros H. apply Resting_views; [by apply equiv_aps|by apply equiv_segs|by apply equiv_tgs]. Qed.

Lemma Resting_invalidated w w' : invalidated w w' -> Resting w -> Resting w'.
Proof.
  intros H%same_links. injection H as _ Ht Hs Ha _ _ _ _ _ _ _ _ _ _.
  apply Resting_views; symmetry; [by apply (fmap_norm (set_ap_refcnt 0))|by apply (fmap_norm (set_seg_refcnt 0))|by apply (fmap_norm norm_pins)].
Qed.
End resting.
