(* ===== verification/RecallSpec.v ===== *)
(** Recalling pages (xpmem_pfn.c): [xpmem_recall_PFNs_of_tg] hides every page of every segment of
    a thread group and changes nothing else; the fork ioctls and /proc/xpmem add the counter that
    keeps page faults out. *)

From S2P Require Import Prelude Kernel World Monad Ids Misc Pfn Attach Make Recall Inv Graph Link Refs Lookup.
From S2P Require Import MakeSpec GetSpec PfnSpec Invalidated ClearSpec Chain PinSpec Fault FaultSpec RemoveSpec Registry Wf.

Section recall.
Context `{K : Kernel} {G : KernelGeometry K} {PT : PageTables K} {ZP : ZapPtes K}.
Context (HG : PGDIR_SHIFT <= PAGE_SHIFT + 31).
Implicit Types (T S A B : gmultiset positive) (w : world) (cur : task).

(** * One segment *)

Lemma recalling_flag f : has f busy_flags = false -> clear (Z.lor f XPMEM_FLAG_RECALLINGPFNS) XPMEM_FLAG_RECALLINGPFNS = f.
Proof.
  intros H%negb_false_iff%Z.eqb_eq. apply Z.bits_inj'. intros n Hn. unfold clear. rewrite Z.land_spec, Z.lnot_spec, Z.lor_spec by done.
  assert (Z.testbit (Z.land f busy_flags) n = false) as E by (rewrite H; apply Z.bits_0).
  unfold busy_flags in E. rewrite Z.land_spec, Z.lor_spec in E. destruct (Z.testbit f n), (Z.testbit XPMEM_FLAG_RECALLINGPFNS n); cbn in *; try done.
  by rewrite orb_true_r in E.
Qed.

Lemma recall_seg_ok T S A B w s g st :
  Inv T (S ⊎ {[+ s +]}) A B w -> few A -> few B -> AttWf w -> seg_wf g ->
  outer_locks false (held w) -> SegSema s ∉ held w -> segs w !! s = Some g -> tgs w !! seg_tg g = Some st ->
  has (seg_flags g) busy_flags = false ->
  wp (xpmem_recall_PFNs s) (fun _ w' => Inv T (S ⊎ {[+ s +]}) A B w' /\ invalidated w w' /\
    forall a, a ∈ seg_ap_list g -> ap_cleared (seg_vaddr g) (seg_vaddr g + seg_size g) false a w w') w.
Proof.
  intros HI HA HB Hwf Hgw HL Hsem Eg Est Hb. pose proof (seg_all (inv_seg HI) s g Eg) as Hok.
  pose proof (seg_count Hok) as Hc. pose proof (seg_counted Hok).
  pose proof (tg_count (tg_all (inv_tg HI) _ st Est)). pose proof (tg_counted (tg_all (inv_tg HI) _ st Est)).
  assert (SegLock s ∉ held w) as Hlk by (by eapply outer_not_in).
  apply wp_bind. eapply wp_load; [done|]. apply wp_bind. eapply wp_load; [done|].
  apply wp_bind, wp_DBUG_ON; [lia|]. apply wp_bind, wp_DBUG_ON; [lia|].
  apply wp_bind, wp_acquire; [done|]. apply wp_bind. eapply wp_load; [done|].
  change (Z.lor XPMEM_FLAG_DESTROYING XPMEM_FLAG_RECALLINGPFNS) with busy_flags. rewrite Hb.
  apply wp_bind. eapply wp_store; [done|]. apply wp_bind. eapply (wp_release _ (held w)); [done|done|]. cbn.
  set (g1 := set_seg_flags (Z.lor (seg_flags g) XPMEM_FLAG_RECALLINGPFNS) g).
  match goal with |- wp _ _ ?W => replace W with (set_segs (<[s := g1]> (segs w)) w) by (by destruct w) end.
  assert (Inv T (S ⊎ {[+ s +]}) A B (set_segs (<[s := g1]> (segs w)) w)) as HI1
    by (eapply Inv_seg_update; [done|done|apply seg_same_flags|done|apply Hok..]).
  apply wp_bind, wp_mutex_lock; [by eapply outer_sleep|done|]. cbn [held set_segs]. set (w2 := set_held _ _).
  assert (segs w2 !! s = Some g1) as Eg2 by apply lookup_insert_eq.
  eapply wp_seq; [eapply (clear_PTEs_ok HG T (S ⊎ {[+ s +]}) A B w2 s g1); try done|].
  { by eapply Inv_same. }
  { by eapply (AttWf_same w). }
  { by constructor. }
  intros _ w3 (H23 & HI3 & Hcl). destruct (inv_seg_lookup _ _ _ _ H23 Eg2) as [n3 Eg3].
  pose proof (inv_held _ _ H23) as Hh3. cbn in Hh3.
  apply wp_bind, wp_acquire; [rewrite <- Hh3; apply not_elem_of_cons; done|].
  apply wp_bind. eapply wp_store; [exact Eg3|].
  apply wp_bind. eapply (wp_release _ (SegSema s :: held w)); [cbn; by rewrite <- Hh3|apply not_elem_of_cons; done|].
  eapply (wp_release _ (held w)); [done|done|]. cbn [seg_flags set_seg_refcnt set_seg_flags g1].
  rewrite recalling_flag by done. set (g' := set_seg_flags _ _). set (w' := set_held (held w) _).
  assert (w' = set_held (held w) (set_segs (<[s := g']> (segs w3)) w3)) as E' by (by destruct w3).
  assert (invalidated w w') as Hw.
  { rewrite E'. replace w with (set_held (held w) (set_segs (<[s := g]> (segs w2)) w2)) at 1.
    - apply set_held_invalidated, (invalidated_seg_store _ _ _ _ g1); [done..|]. by destruct g.
    - unfold w2. cbn. rewrite insert_insert_eq, insert_id by done. by destruct w. }
  split; [|split; [done|]].
  - rewrite E'. pose proof (seg_all (inv_seg HI3) s _ Eg3) as Hok3. apply (Inv_same _ _ _ _ (set_segs (<[s := g']> (segs w3)) w3)); [|done..].
    eapply Inv_seg_update; [exact HI3|exact Eg3| |done|apply Hok3..]. split; try done. intros Hd. exfalso. cbn in Hd.
    pose proof (busy_destroying _ Hb) as Hn. change XPMEM_FLAG_DESTROYING with (2 ^ 6) in *. by rewrite has_lor, Hn in Hd by lia.
  - intros a Ha x t Ex Ht y y' Ey Ey'. rewrite E' in Ey' |- *. exact (Hcl a Ha x t Ex Ht y y' Ey Ey').
Qed.

(** * The segments of a thread group *)

Section walk.
Context (T S A B : gmultiset positive) (HS : few S) (HA : few A) (HB : few B).
Context (tg : positive) (L : list lock) (HL : outer_locks false L) (Hsem : forall s, SegSema s ∉ L).

(** What holds while the list of [tg] is walked, under its lock. *)
Record recalling (l : list positive) w : Prop := {
  rec_inv : Inv T S A B w;
  rec_permits : permits_ok w;
  rec_wf : AttWf w;
  rec_segwf : SegWf w;
  rec_held : held w = SegListLock tg :: L;
  rec_tg : exists t, tgs w !! tg = Some t /\ seg_list t = l;
  rec_idle : forall s g, s ∈ l -> segs w !! s = Some g -> has (seg_flags g) busy_flags = false;
}.

Lemma recalling_invalidated l w w' : invalidated w w' -> Inv T S A B w' -> recalling l w -> recalling l w'.
Proof using.
  intros H HI' [_ Hp Hwf Hsw Hh (t & Et & El) Hi].
  assert (forall s g', segs w' !! s = Some g' -> exists n, segs w !! s = Some (set_seg_refcnt n g')) as Hback.
  { intros s g' E'. pose proof (same_links _ _ H) as Hl. injection Hl as _ _ Hs _ _ _ _ _ _ _ _ _ _ _.
    destruct (lookup_norm _ _ _ _ _ (eq_sym Hs) E') as (g & Eg & En). exists (seg_refcnt g). rewrite Eg. f_equal.
    destruct g, g'. unfold set_seg_refcnt in *. cbn in *. congruence. }
  split.
  - done.
  - unfold permits_ok in *. pose proof (same_links _ _ H) as Hl. injection Hl as _ _ _ Ha _ _ _ _ _ _ _ _ _ _.
    rewrite <- (map_size_fmap (set_ap_refcnt 0) (aps w')), <- Ha, map_size_fmap. done.
  - by eapply AttWf_invalidated.
  - intros s g' E'. destruct (Hback s g' E') as [n E]. exact (Hsw s _ E).
  - by rewrite <- (inv_held _ _ H).
  - destruct (inv_tg_lookup _ _ _ _ H Et) as (t' & Et' & N). exists t'. split; [done|]. rewrite <- El. exact (eq_sym (f_equal seg_list N)).
  - intros s g' Hs E'. destruct (Hback s g' E') as [n E]. exact (Hi s _ Hs E).
Qed.

(** One segment: reference, unlock, recall, lock again, drop. *)
Lemma recall_step_ok l w s (k : option positive -> M unit) Q :
  recalling l w -> s ∈ l ->
  (forall w', invalidated w w' -> Inv T S A B w' -> seg_cleared s w w' -> wp (k (Some s)) Q w') ->
  wp (xpmem_seg_ref s ;;
      read_unlock (SegListLock tg) ;;
      xpmem_recall_PFNs s ;;
      read_lock (SegListLock tg) ;;
      t ← tg_load tg ;
      xpmem_seg_deref s ;;
      k (if bool_decide (s ∈ seg_list t) then Some s else None)) Q w.
Proof using HG HS HA HB HL Hsem G PT ZP.
  intros [HI Hp Hwf Hsw Hh (t & Et & <-) Hi] Hs HQ.
  assert (s ∈ list_of seg_list (tgs w) tg) as Hls by (by rewrite (list_of_Some _ _ _ _ Et)).
  destruct (seg_list_live _ _ _ _ _ _ _ HI Hls) as (g & Eg & Hg).
  eapply wp_seq; [by eapply seg_ref_ok|]. intros _ w1 [HI1 Hq1].
  pose proof (equiv_invalidated _ _ (symmetry Hq1)) as H01.
  apply wp_bind. eapply (wp_release _ L); [by rewrite <- (inv_held _ _ H01)|by eapply outer_not_in|].
  set (w2 := set_held L w1).
  destruct (inv_seg_lookup _ _ _ _ H01 Eg) as [n1 Eg1]. destruct (inv_tg_lookup _ _ _ _ H01 Et) as (t1 & Et1 & N1).
  eapply wp_seq.
  { eapply (recall_seg_ok T S A B w2 s _ t1); try done; [by eapply Inv_same| |exact (Hsw s g Eg)|cbn; by rewrite Hg|exact (Hi s g Hs Eg)].
    apply (AttWf_same w1); [done..|]. by eapply AttWf_invalidated. }
  intros _ w3 (HI3 & H23 & Hc3). pose proof (inv_held _ _ H23) as Hh3. cbn in Hh3.
  apply wp_bind, wp_acquire; [rewrite <- Hh3; by eapply outer_not_in|]. rewrite <- Hh3. set (w4 := set_held _ w3).
  assert (invalidated w1 w4) as H14.
  { apply (set_held_invalidated (SegListLock tg :: L)) in H23.
    replace w1 with (set_held (SegListLock tg :: L) w2); [done|]. unfold w2.
    pose proof (inv_held _ _ H01) as E. rewrite Hh in E. destruct w1; cbn in *. by subst. }
  assert (invalidated w w4) as H04 by (by transitivity w1).
  destruct (inv_tg_lookup _ _ _ _ H04 Et) as (t4 & Et4 & N4).
  assert (seg_list t4 = seg_list t) as El4 by exact (eq_sym (f_equal seg_list N4)).
  apply wp_bind. eapply wp_load; [exact Et4|]. rewrite El4, bool_decide_eq_true_2 by done.
  assert (Inv T (S ⊎ {[+ s +]}) A B w4) as HI4 by (by eapply Inv_same).
  destruct (inv_seg_lookup _ _ _ _ H04 Eg) as [n4 Eg4].
  eapply wp_seq; [eapply seg_deref_ok; [done|done|]|].
  { unfold segrefs, seg_refs. cbn. rewrite Hg, (list_of_Some _ _ _ _ Et4), El4, (b2n_true _ Hs). lia. }
  intros _ w5 [HI5 Hq5]. pose proof (equiv_invalidated _ _ (symmetry Hq5)) as H45.
  apply HQ; [by transitivity w4|done|]. intros g0 a Eg0 Ha. assert (g0 = g) as -> by congruence.
  eapply ap_cleared_then; [|exact H45]. eapply ap_cleared_after; [exact H01|]. exact (Hc3 a Ha).
Qed.

Lemma seg_recalled_then s w w1 w' : seg_cleared s w w1 -> invalidated w1 w' -> seg_cleared s w w'.
Proof using. intros Hc H g a Eg Ha. eapply ap_cleared_then; [by eapply Hc|done]. Qed.

Lemma seg_recalled_after s w w1 w' : invalidated w w1 -> seg_cleared s w1 w' -> seg_cleared s w w'.
Proof using.
  intros H Hc g a Eg Ha. eapply ap_cleared_after; [done|]. destruct (inv_seg_lookup _ _ _ _ H Eg) as [n En]. exact (Hc _ a En Ha).
Qed.

Lemma recall_loop_ok suf : forall fuel w pre, (length suf <= fuel)%nat -> recalling (pre ++ suf) w ->
  wp (recall_loop fuel tg (cursor_at pre)) (fun _ w' =>
    invalidated w w' /\ Inv T S A B w' /\ forall s, s ∈ suf -> seg_cleared s w w') w.
Proof using HG HS HA HB HL Hsem G PT ZP.
  induction suf as [|s suf IH]; intros fuel w pre Hf Hw; pose proof Hw as [HI _ _ _ _ (t & Et & El) Hi];
    pose proof (tg_segs_nodup (tg_all (inv_tg HI) tg t Et)) as Hnd; rewrite El in Hnd.
  - destruct fuel; cbn; apply wp_bind; (eapply wp_load; [exact Et|]); (rewrite El, list_next_at; [|exact Hnd]);
      apply wp_ret; (split; [done|]); (split; [done|]); by intros s ?%elem_of_nil.
  - destruct fuel as [|fuel]; cbn in Hf; [lia|]. cbn. apply wp_bind. eapply wp_load; [exact Et|].
    rewrite El, list_next_at by done. cbn [head].
    assert (s ∈ list_of seg_list (tgs w) tg) as Hls by (rewrite (list_of_Some _ _ _ _ Et), El; set_solver).
    destruct (seg_list_live _ _ _ _ _ _ _ HI Hls) as (g & Eg & Hg).
    apply wp_bind. eapply wp_load; [exact Eg|]. rewrite (busy_destroying _ (Hi s g ltac:(set_solver) Eg)).
    eapply (recall_step_ok _ w s (fun c => recall_loop fuel tg c)); [done|set_solver|]. intros w1 H1 HI1 Hc.
    rewrite <- (cursor_snoc pre s). eapply wp_mono; [apply (IH fuel w1 (pre ++ [s])); [lia|]|].
    + rewrite <- app_assoc. by eapply recalling_invalidated.
    + intros _ w' (H2 & HI2 & H3). split; [by transitivity w1|]. split; [done|].
      intros s' [->|Hs']%elem_of_cons; [by eapply seg_recalled_then|]. eapply seg_recalled_after; eauto.
Qed.

Lemma recall_tg_ok w t :
  Inv T S A B w -> permits_ok w -> AttWf w -> SegWf w -> held w = L -> tgs w !! tg = Some t ->
  (forall s g, s ∈ seg_list t -> segs w !! s = Some g -> has (seg_flags g) busy_flags = false) ->
  wp (xpmem_recall_PFNs_of_tg tg) (fun _ w' => invalidated w w' /\ Inv T S A B w' /\
    forall s, s ∈ seg_list t -> seg_cleared s w w') w.
Proof using HG HS HA HB HL Hsem G PT ZP.
  intros HI Hp Hwf Hsw Hh Et Hi. unfold xpmem_recall_PFNs_of_tg.
  apply wp_bind, wp_acquire; [rewrite Hh; by eapply outer_not_in|]. set (w1 := set_held _ w).
  apply wp_bind. eapply wp_load; [exact Et|]. apply wp_bind.
  eapply wp_mono; [apply (recall_loop_ok (seg_list t) _ w1 []); [done|]|].
  - split; try done; [by eapply Inv_same|by apply (AttWf_same w)|cbn; by rewrite Hh|by exists t].
  - intros _ w' (H1 & H2 & H3). eapply (wp_release _ (held w)).
    + by rewrite <- (inv_held _ _ H1).
    + rewrite Hh. by eapply outer_not_in.
    + split; [by eapply inv_unlock|]. split; [by eapply Inv_same|exact H3].
Qed.
End walk.

(** * The counter *)

Definition recall_shift (k : Z) (tg : positive) w : world :=
  set_tgs (alter (fun t => set_n_recall_PFNs (s32 (n_recall_PFNs t + k)) t) tg (tgs w)) w.

Lemma recall_shift_store k tg t w : tgs w !! tg = Some t ->
  recall_shift k tg w = set_tgs (<[tg := set_n_recall_PFNs (s32 (n_recall_PFNs t + k)) t]> (tgs w)) w.
Proof.
  intros E. unfold recall_shift. f_equal. apply map_eq. intros q.
  destruct (decide (q = tg)) as [->|Hne]; [by rewrite lookup_alter_eq, lookup_insert_eq, E|by rewrite lookup_alter_ne, lookup_insert_ne].
Qed.

Lemma recall_shift_lookup k tg t w : tgs w !! tg = Some t ->
  tgs (recall_shift k tg w) !! tg = Some (set_n_recall_PFNs (s32 (n_recall_PFNs t + k)) t).
Proof. intros E. cbn. by rewrite lookup_alter_eq, E. Qed.

Lemma Inv_recall_shift T S A B k tg w : Inv T S A B w -> Inv T S A B (recall_shift k tg w).
Proof.
  intros HI. destruct (tgs w !! tg) as [t|] eqn:Et.
  - pose proof (tg_all (inv_tg HI) tg t Et) as Hok. pose proof (tg_uniq_range Hok).
    rewrite (recall_shift_store k tg t w Et). eapply (Inv_tg_update T T); [done|done| |done|apply Hok..].
    split; cbn; try done; first [lia|by left].
  - assert (forall f, alter f tg (tgs w) = tgs w) as E.
    { intros f. apply map_eq. intros q. destruct (decide (q = tg)) as [->|Hne]; [by rewrite lookup_alter_eq, Et|by rewrite lookup_alter_ne]. }
    unfold recall_shift. rewrite E. by eapply Inv_same.
Qed.

Lemma norm_pins_alter k tg (m : gmap positive xpmem_thread_group) :
  norm_pins <$> alter (fun t => set_n_recall_PFNs (s32 (n_recall_PFNs t + k)) t) tg m =
  alter (fun t => set_n_recall_PFNs (s32 (n_recall_PFNs t + k)) t) tg (norm_pins <$> m).
Proof.
  apply map_eq. intros q. rewrite lookup_fmap. destruct (decide (q = tg)) as [->|Hne].
  - rewrite !lookup_alter_eq, lookup_fmap. by destruct (m !! tg).
  - by rewrite !lookup_alter_ne, lookup_fmap.
Qed.

Lemma recall_shift_invalidated k tg w w' : invalidated w w' -> invalidated (recall_shift k tg w) (recall_shift k tg w').
Proof.
  assert (forall v q t, tgs (recall_shift k tg v) !! q = Some t -> exists t0, tgs v !! q = Some t0 /\ tg_n_pinned t0 = tg_n_pinned t) as Hs.
  { intros v q t. cbn. destruct (decide (q = tg)) as [->|Hne]; [|rewrite lookup_alter_ne by done; eauto].
    rewrite lookup_alter_eq. destruct (tgs v !! tg) as [t0|]; [|done]. cbn. intros [= <-]. eauto. }
  intros [H Hv Hm Hu [D HD]]. split; [|exact Hv|exact Hm|exact Hu|].
  - unfold links in *. cbn. injection H. intros. rewrite !norm_pins_alter. congruence.
  - exists D. eapply dropped_step; [exact HD|try done; eauto..].
Qed.

Lemma recall_shift_back tg t w :
  tgs w !! tg = Some t -> 0 <= n_recall_PFNs t < INT_MAX -> recall_shift (- 1) tg (recall_shift 1 tg w) = w.
Proof.
  intros E Hn. rewrite (recall_shift_store (- 1) tg _ _ (recall_shift_lookup 1 tg t w E)), (recall_shift_store 1 tg t w E). cbn.
  rewrite insert_insert_eq, (s32_id (n_recall_PFNs t + 1)) by lia. replace (n_recall_PFNs t + 1 + - 1) with (n_recall_PFNs t) by lia.
  rewrite s32_id, insert_id by (lia || (rewrite E; by destruct t)). by destruct w.
Qed.

Lemma disallow_ok tg t w : tgs w !! tg = Some t -> 0 <= n_recall_PFNs t ->
  wp (xpmem_disallow_blocking_recall_PFNs RETRIES tg) (fun _ w' => w' = recall_shift 1 tg w) w.
Proof.
  intros Et Hn. rewrite (recall_shift_store 1 tg t w Et). unfold RETRIES. cbn.
  unfold wp, n_recall, atomic_cmpxchg_recall, n_recall, mbind, M_bind, tg_load, load, tg_store, store, whenM, mret, M_ret. rewrite Et.
  replace (n_recall_PFNs t <? 0) with false by lia. rewrite Et, Z.eqb_refl, Et, Z.eqb_refl.
  by replace (n_recall_PFNs t >=? 0) with true by lia.
Qed.

Lemma allow_ok tg t w : tgs w !! tg = Some t ->
  wp (xpmem_allow_blocking_recall_PFNs tg) (fun _ w' => w' = recall_shift (- 1) tg w) w.
Proof. intros Et. eapply wp_store; [exact Et|]. by rewrite (recall_shift_store (- 1) tg t w Et). Qed.

(** * Callers *)

(** The segments of [tg] are not being removed or recalled, and nobody has let recalls out more
    often than in. *)
Definition recallable w (tg : positive) : Prop := forall t, tgs w !! tg = Some t ->
  0 <= n_recall_PFNs t < INT_MAX /\
  forall s g, s ∈ seg_list t -> segs w !! s = Some g -> has (seg_flags g) busy_flags = false.

(** The pages of [tg]'s segments are hidden; [w'] is [w] up to pages, page tables and counts. *)
Definition recalled (tg : positive) w w' : Prop :=
  forall t s, tgs w !! tg = Some t -> s ∈ seg_list t -> seg_cleared s w w'.

(** Page faults shut out, the pages recalled under the mutex; with references more. *)
Lemma recall_excl_ok {V} T w w0 tg t (k : M V) Q :
  Inv T ∅ ∅ ∅ w0 -> w0 ≡ w -> permits_ok w -> AttWf w -> SegWf w -> held w = [] -> tgs w !! tg = Some t -> recallable w tg ->
  (forall w', invalidated (recall_shift 1 tg w) w' -> Inv T ∅ ∅ ∅ w' -> recalled tg w w' -> wp k Q w') ->
  wp (xpmem_disallow_blocking_recall_PFNs RETRIES tg ;; mutex_lock (RecallMutex tg) ;;
      xpmem_recall_PFNs_of_tg tg ;; mutex_unlock (RecallMutex tg) ;; k) Q w0.
Proof.
  intros HI Hq Hp Hwf Hsw Hh Et Hr HQ. destruct (Hr t Et) as [Hn Hi].
  pose proof (equiv_invalidated _ _ (symmetry Hq)) as H0. destruct (equiv_tg _ _ _ _ (symmetry Hq) Et) as [n Et0].
  assert (held w0 = []) as Hh0 by (by rewrite (equiv_held _ _ Hq)).
  eapply wp_seq; [apply (disallow_ok tg _ w0 Et0); cbn; lia|]. intros _ w1 ->. set (w1 := recall_shift 1 tg w0).
  assert (held w1 = []) as Hh1 by done.
  apply wp_bind, wp_mutex_lock; [by rewrite Hh1|rewrite Hh1; apply not_elem_of_nil|]. rewrite Hh1. set (w2 := set_held _ w1).
  pose proof (recall_shift_lookup 1 tg _ w0 Et0) as Et1. fold w1 in Et1. assert (few ∅) as F by tokens.
  eapply wp_seq.
  { eapply (recall_tg_ok T ∅ ∅ ∅ F F F tg [RecallMutex tg]) with (w := w2); [by repeat constructor|intros s; unheld| | | | |done|exact Et1|].
    - apply (Inv_same _ _ _ _ w1); [by apply Inv_recall_shift|done..].
    - change (permits_ok w0). by rewrite Hq.
    - apply (AttWf_same w0); [done..|]. by eapply AttWf_invalidated.
    - apply (SegWf_equiv w w0 Hq Hsw).
    - intros s g Hs Eg. destruct (equiv_seg _ _ _ _ Hq Eg) as [m Eg0]. exact (Hi s _ Hs Eg0). }
  intros _ w3 (H23 & HI3 & Hc). apply wp_bind. eapply (wp_release _ []); [by rewrite <- (inv_held _ _ H23)|apply not_elem_of_nil|].
  apply inv_unlock in H23. rewrite Hh1 in H23. apply HQ.
  - transitivity w1; [by apply recall_shift_invalidated|done].
  - by eapply Inv_same.
  - intros t' s Et' Hs. assert (t' = t) as -> by congruence. eapply seg_recalled_after; [exact H0|]. exact (Hc s Hs).
Qed.

(** Dropping the reference of a caller, when the thread group is still in the table. *)
Lemma recall_drop_ok w w1 tg (r : Z) :
  Inv (∅ ⊎ {[+ tg +]}) ∅ ∅ ∅ w1 -> tg ∈ mjoin (hash_of w) -> invalidated w w1 ->
  wp (xpmem_tg_deref tg ;; mret r) (fun r' w' => r' = r /\ invalidated w w' /\ invalidated w1 w' /\ Inv ∅ ∅ ∅ ∅ w') w1.
Proof.
  intros HI Hin H. eapply wp_seq; [apply (tg_deref_ok ∅ ∅ ∅ ∅ w1 tg HI), hashed_tgrefs; by rewrite (inv_hash _ _ H)|].
  intros _ w2 [HI2 Hq]. apply wp_ret. pose proof (equiv_invalidated _ _ (symmetry Hq)). split; [done|]. split; [by transitivity w1|done].
Qed.

(** [xpmem_fork_begin] and [xpmem_fork_end]. *)
Definition fork_spec cur (k : Z) w : Z * world :=
  match find_tg w (cur_tgid cur) with None => (- ENOENT, w) | Some tg => (0, recall_shift k tg w) end.

Lemma fork_begin_ok cur w :
  Inv ∅ ∅ ∅ ∅ w -> permits_ok w -> AttWf w -> SegWf w -> held w = [] ->
  (forall tg, find_tg w (cur_tgid cur) = Some tg -> recallable w tg) ->
  wp (xpmem_fork_begin cur) (fun r w' => r = (fork_spec cur 1 w).1 /\ invalidated (fork_spec cur 1 w).2 w' /\ Inv ∅ ∅ ∅ ∅ w' /\
    forall tg, find_tg w (cur_tgid cur) = Some tg -> recalled tg w w') w.
Proof.
  intros HI Hp Hwf Hsw Hh Hr. unfold xpmem_fork_begin, fork_spec.
  eapply wp_seq; [apply (tg_lookup_ok ∅ ∅ ∅ ∅); side|]. intros r w1.
  destruct (find_tg w (cur_tgid cur)) as [tg|] eqn:Ef; [|intros [-> ->]; by apply wp_ret].
  intros (-> & HI1 & Hq1). destruct (find_tg_gen_Some _ _ _ _ _ _ _ _ HI Ef) as (Hin & t & Et & _).
  apply (recall_excl_ok (∅ ⊎ {[+ tg +]}) w w1 tg t); try done; [by apply Hr|]. intros w2 H12 HI2 Hc2.
  eapply wp_mono; [by apply (recall_drop_ok (recall_shift 1 tg w) w2 tg 0)|]. intros r w3 (-> & H3 & H23 & HI3).
  split; [done|]. split; [done|]. split; [done|]. intros tg' [= <-] t' s Et' Hs. eapply seg_recalled_then; [by eapply Hc2|exact H23].
Qed.

Lemma fork_end_ok cur w :
  Inv ∅ ∅ ∅ ∅ w -> permits_ok w -> held w = [] ->
  wp (xpmem_fork_end cur) (fun r w' => r = (fork_spec cur (- 1) w).1 /\ w' = (fork_spec cur (- 1) w).2 /\ Inv ∅ ∅ ∅ ∅ w') w.
Proof.
  intros HI Hp Hh. unfold xpmem_fork_end, fork_spec.
  eapply wp_seq; [apply (tg_lookup_ok ∅ ∅ ∅ ∅); side|]. intros r w1.
  destruct (find_tg w (cur_tgid cur)) as [tg|] eqn:Ef; [|intros [-> ->]; by apply wp_ret].
  intros (-> & HI1 & Hq1). destruct (find_tg_gen_Some _ _ _ _ _ _ _ _ HI Ef) as (Hin & t & Et & _).
  destruct (equiv_tg _ _ _ _ (symmetry Hq1) Et) as [n1 Et1].
  eapply wp_seq; [exact (allow_ok tg _ w1 Et1)|]. intros _ w2 ->.
  pose proof (Inv_recall_shift _ _ _ _ (- 1) tg w1 HI1) as HI2. pose proof (Inv_recall_shift _ _ _ _ (- 1) tg w HI) as HI0.
  eapply wp_seq; [eapply (tg_deref_back ∅ ∅ ∅ ∅ _ (recall_shift (- 1) tg w)); [exact HI2|exact HI0| |by apply hashed_tgrefs]|].
  - rewrite (recall_shift_store _ _ _ _ Et1), (recall_shift_store _ _ _ _ Et). by apply (equiv_insert_tg w1 w).
  - intros _ w' ->. by apply wp_ret.
Qed.

(** * Through /proc/xpmem *)

(** The threads of the group, from [p] on until the leader comes round again. *)
Fixpoint thread_ring (leader p : positive) (l : list positive) : Prop :=
  match l with
  | [] => False
  | x :: l => x = p /\
      match l with
      | [] => next_thread p = leader
      | _ => next_thread p <> leader /\ thread_ring leader (next_thread p) l
      end
  end.

Definition thread_stopped (p : positive) : bool := task_exiting p || task_stopped p.

Lemma threads_stopped_ok leader l : forall fuel p w, thread_ring leader p l -> (length l <= S fuel)%nat ->
  threads_stopped fuel leader p w = Ok (forallb thread_stopped l) w.
Proof.
  induction l as [|x l IH]; intros fuel p w Hr Hf; [done|]. cbn in Hr. destruct Hr as [-> Hr]. cbn [forallb].
  assert (negb (task_exiting p) && negb (task_stopped p) = negb (thread_stopped p)) as E by (unfold thread_stopped; by rewrite negb_orb).
  destruct fuel; cbn; rewrite E; (destruct (thread_stopped p); cbn [negb]; [|done]); (destruct l as [|y l]; [by rewrite bool_decide_eq_true_2|]).
  - cbn in Hf. lia.
  - destruct Hr as [Hn Hr]. rewrite bool_decide_eq_false_2 by done. apply IH; [done|]. cbn in *. lia.
Qed.

Lemma unpin_write_ok fuel tgid count w :
  Inv ∅ ∅ ∅ ∅ w -> permits_ok w -> AttWf w -> SegWf w -> held w = [] ->
  (forall tg, find_tg w tgid = Some tg -> recallable w tg) ->
  (forall tg t leader, find_tg w tgid = Some tg -> tgs w !! tg = Some t -> group_leader t = Some leader ->
     exists l, thread_ring leader leader l /\ (length l <= S fuel)%nat) ->
  wp (xpmem_unpin_procfs_write fuel tgid count) (fun r w' => invalidated w w' /\ Inv ∅ ∅ ∅ ∅ w' /\
    match find_tg w tgid with
    | None => r = - ESRCH /\ w' = w
    | Some tg => exists t leader l, tgs w !! tg = Some t /\ group_leader t = Some leader /\ thread_ring leader leader l /\
        if forallb thread_stopped l then r = count /\ recalled tg w w' else r = - EPERM /\ w' = w
    end) w.
Proof.
  intros HI Hp Hwf Hsw Hh Hr Hring. unfold xpmem_unpin_procfs_write.
  eapply wp_seq; [apply (tg_lookup_ok ∅ ∅ ∅ ∅); side|]. intros r w1.
  destruct (find_tg w tgid) as [tg|] eqn:Ef; [|intros [-> ->]; by apply wp_ret].
  intros (-> & HI1 & Hq1). destruct (find_tg_gen_Some _ _ _ _ _ _ _ _ HI Ef) as (Hin & t & Et & _).
  destruct (tg_leader (tg_all (inv_tg HI) tg t Et)) as [leader El]. destruct (Hring tg t leader eq_refl Et El) as (l & Hl & Hf).
  destruct (equiv_tg _ _ _ _ (symmetry Hq1) Et) as [n1 Et1].
  assert (xpmem_is_thread_group_stopped fuel tg w1 = Ok (forallb thread_stopped l) w1) as Es.
  { unfold xpmem_is_thread_group_stopped, tg_load, load, mbind, M_bind. rewrite Et1. cbn. rewrite El. by apply threads_stopped_ok. }
  apply wp_bind. eapply wp_Ok; [exact Es|]. destruct (forallb thread_stopped l) eqn:Eall; cbn [negb].
  - apply (recall_excl_ok (∅ ⊎ {[+ tg +]}) w w1 tg t); try done; [by apply Hr|]. intros w2 H12 HI2 Hc2.
    destruct (inv_tg_lookup _ _ _ _ H12 (recall_shift_lookup 1 tg t w Et)) as (t2 & Et2 & _).
    eapply wp_seq; [exact (allow_ok tg t2 w2 Et2)|]. intros _ w3 ->.
    assert (invalidated w (recall_shift (- 1) tg w2)) as H3.
    { apply (recall_shift_invalidated (- 1) tg) in H12. rewrite (recall_shift_back tg t w Et) in H12; [done|]. by apply (Hr tg). }
    eapply wp_mono; [apply (recall_drop_ok w _ tg count); [by apply Inv_recall_shift|done|exact H3]|].
    intros r w4 (-> & H4 & H34 & HI4). split; [done|]. split; [done|]. exists t, leader, l. rewrite Eall. split_and!; try done.
    intros t' s Et' Hs. eapply seg_recalled_then; [|exact H34]. exact (Hc2 t' s Et' Hs).
  - eapply wp_seq; [eapply (tg_deref_back ∅ ∅ ∅ ∅ w1 w); [done|done|done|by apply hashed_tgrefs]|].
    intros _ w' ->. apply wp_ret. split; [done|]. split; [done|]. exists t, leader, l. by rewrite Eall.
Qed.

(** * What it is for *)

(** A page fault is turned away while recalls are allowed, unless it waits. *)
Lemma block_recall_refused tg t w : tgs w !! tg = Some t -> 0 < n_recall_PFNs t ->
  xpmem_block_recall_PFNs RETRIES tg false w = Ok (- EAGAIN) w.
Proof.
  intros Et Hn. cbn. unfold mbind, M_bind, tg_load, load. rewrite Et. destruct (allow_recall_PFNs_wq t); [cbn|done].
  replace (n_recall_PFNs t >? 0) with true by lia. unfold mret, M_ret. by replace (n_recall_PFNs t <=? 0) with false by lia.
Qed.

Lemma find_tg_invalidated_shift k tg w w' tgid :
  invalidated (recall_shift k tg w) w' -> find_tg w' tgid = find_tg w tgid.
Proof.
  intros H. rewrite (find_tg_inv _ _ _ H). apply find_tg_ext; [done|].
  apply map_eq. intros q. rewrite !lookup_fmap. cbn. destruct (decide (q = tg)) as [->|Hne]; [rewrite lookup_alter_eq|by rewrite lookup_alter_ne].
  by destruct (tgs w !! tg).
Qed.

(** C17: writing to the file of a process in /proc/xpmem.  The call terminates without a fault.  It
    fails with -ESRCH when the module does not know the process, with -EPERM when one of its
    threads is neither stopped nor exiting, and changes nothing then; otherwise it hides every
    page of every segment of the process, and changes nothing but pages and their counts. *)
Theorem unpin_write_recalls fuel tgid count w :
  Inv ∅ ∅ ∅ ∅ w -> permits_ok w -> AttWf w -> SegWf w -> held w = [] ->
  (forall tg, find_tg w tgid = Some tg -> recallable w tg) ->
  (forall tg t leader, find_tg w tgid = Some tg -> tgs w !! tg = Some t -> group_leader t = Some leader ->
     exists l, thread_ring leader leader l /\ (length l <= S fuel)%nat) ->
  exists r w', xpmem_unpin_procfs_write fuel tgid count w = Ok r w' /\ invalidated w w' /\ Inv ∅ ∅ ∅ ∅ w' /\
    match find_tg w tgid with
    | None => r = - ESRCH /\ w' = w
    | Some tg => exists t leader l, tgs w !! tg = Some t /\ group_leader t = Some leader /\ thread_ring leader leader l /\
        if forallb thread_stopped l then r = count /\ recalled tg w w' else r = - EPERM /\ w' = w
    end.
Proof. intros HI Hp Hwf Hsw Hh Hr Hring. exact (wp_inv _ _ _ (unpin_write_ok fuel tgid count w HI Hp Hwf Hsw Hh Hr Hring)). Qed.

Lemma disallow_blocked tg t w :
  tgs w !! tg = Some t -> n_recall_PFNs t < 0 -> held w = [] -> xpmem_disallow_blocking_recall_PFNs RETRIES tg w = Fault Deadlock.
Proof.
  intros Et Hn Hh. unfold RETRIES. cbn.
  unfold n_recall, wait_event, might_sleep, n_recall, mbind, M_bind, tg_load, load, mret, M_ret, guardM, raise. rewrite Et.
  replace (n_recall_PFNs t <? 0) with true by lia. replace (n_recall_PFNs t >=? 0) with false by lia. cbn. rewrite Hh. cbn. rewrite Et.
  by replace (n_recall_PFNs t >=? 0) with false by lia.
Qed.

(** C40: [xpmem_fork_end] does not check that a fork was announced: called alone it leaves the counter
    at -1, and the next [xpmem_fork_begin] of the process waits for a page fault to end that
    never began. *)
Theorem fork_end_unbalanced cur w tg t :
  Inv ∅ ∅ ∅ ∅ w -> permits_ok w -> held w = [] ->
  find_tg w (cur_tgid cur) = Some tg -> tgs w !! tg = Some t -> n_recall_PFNs t = 0 ->
  exists w1, xpmem_fork_end cur w = Ok 0 w1 /\ Inv ∅ ∅ ∅ ∅ w1 /\ xpmem_fork_begin cur w1 = Fault Deadlock.
Proof.
  intros HI Hp Hh Ef Et Hn.
  destruct (wp_inv _ _ _ (fork_end_ok cur w HI Hp Hh)) as (r & w1 & E & Hr & Hw & HI1). unfold fork_spec in Hr, Hw. rewrite Ef in Hr, Hw.
  cbn in Hr, Hw. subst r. exists w1. split; [done|]. split; [done|].
  assert (find_tg w1 (cur_tgid cur) = Some tg) as Ef1 by (rewrite <- Ef; apply (find_tg_invalidated_shift (- 1) tg); by rewrite Hw).
  destruct (wp_inv _ _ _ (tg_lookup_ok ∅ ∅ ∅ ∅ w1 (cur_tgid cur) HI1 ltac:(by rewrite Hw) ltac:(tokens) ltac:(rewrite Hw; cbn; rewrite Hh; apply not_elem_of_nil)))
    as (r & w2 & E2 & H2). rewrite Ef1 in H2. destruct H2 as (-> & HI2 & Hq2).
  unfold xpmem_fork_begin, mbind, M_bind. rewrite E2.
  pose proof (recall_shift_lookup (- 1) tg t w Et) as Et1. rewrite <- Hw in Et1. destruct (equiv_tg _ _ _ _ (symmetry Hq2) Et1) as [n Et2].
  rewrite (disallow_blocked tg _ w2 Et2); [done|cbn; by rewrite Hn|]. rewrite (equiv_held _ _ Hq2), Hw. exact Hh.
Qed.
End recall.

Section window.
Context `{K : Kernel} {G : KernelGeometry K} {PT : PageTables K} {ZP : ZapPtes K} {VT : VmaTree K}.
Context (HG : PGDIR_SHIFT <= PAGE_SHIFT + 31) (HT : CONFIG_TRANSPARENT_HUGEPAGE = true).
Implicit Types (w : world) (cur : task).

(** A page fault in an attachment of a segment of [tg], by a process that lives, through a permit
    for writing. *)
Definition faults_on (tg : positive) cur mm v vma k y x p g st smm vaddr w : Prop :=
  fault_state cur mm v vma k y x p g st smm vaddr w /\ seg_tg g = tg /\ ap_mode x = XPMEM_RDWR /\
  cur_dumpcore cur = false /\ has (ap_flags x) XPMEM_FLAG_DESTROYING = false /\
  has (tg_flags p) XPMEM_FLAG_DESTROYING = false.

(** Such a fault sleeps while recalls are allowed. *)
Lemma fault_sleeps tg t cur mm v vma k y x p g st smm vaddr w :
  tgs w !! tg = Some t -> 0 < n_recall_PFNs t -> faults_on tg cur mm v vma k y x p g st smm vaddr w ->
  xpmem_fault_handler cur v vaddr w = Fault Deadlock.
Proof.
  intros Et Hn (HF & Hg & Hm & Hd & H1 & H2). rewrite (fault_handler_outcome HT _ _ _ _ _ _ _ _ _ _ _ _ _ HF). unfold fault_outcome.
  pose proof (ch_stg _ _ _ _ _ _ (ch_permit _ _ _ _ _ _ _ (fs_chain _ _ _ _ _ _ _ _ _ _ _ _ _ HF))) as Est.
  rewrite Hg, Et in Est. injection Est as <-. rewrite Hd, H1, H2, Hm, Z.eqb_refl, andb_false_r. cbn.
  by destruct (Z.ltb_spec 0 (n_recall_PFNs t)); [|lia].
Qed.

End window.
