(* ===== verification/Teardown.v ===== *)
(** Process exit (xpmem_mmu_notifier.c, xpmem_get.c, xpmem_make.c): [xpmem_teardown] releases
    every permit and removes every segment of a thread group, and marks it destroyed. *)

From S2P Require Import Prelude Kernel World Monad Ids Misc Pfn Attach Make Get Notifier Inv Graph Link Refs Lookup.
From S2P Require Import MakeSpec GetSpec PfnSpec Invalidated ClearSpec Chain PinSpec FaultSpec DetachSpec RemoveSpec Registry ReleaseSpec.
From S2P Require Import Main Keeps Wf.

Section teardown.
Context `{K : Kernel} {G : KernelGeometry K} {PT : PageTables K} {ZP : ZapPtes K} {VT : VmaTree K} {UV : UnmapVma K}.
Context (HG : PGDIR_SHIFT <= PAGE_SHIFT + 31).
Context (fuel : nat) (cur : task) (tg : positive).
Implicit Types (T S A B : gmultiset positive) (w : world).

(** What is known while [tg] is torn down: nothing else is running, its attachments are in the
    address space of the process that exits, if it still has one, and there is enough fuel. *)
Record exiting T w : Prop := {
  ex_inv : Inv T ∅ ∅ ∅ w;
  ex_vma : VmaWf w;
  ex_att : AttWf w;
  ex_seg : SegWf w;
  ex_rest : Resting w;
  ex_hashed : tg ∈ mjoin (hash_of w);
  ex_own : forall t y x, atts w !! t = Some y -> aps w !! att_ap y = Some x -> ap_tg x = tg ->
    cur_mm cur = att_mm y \/ cur_mm cur = None;
  ex_permits : permits_ok w;
  ex_fuel : (base.size (aps w) <= fuel /\ base.size (atts w) <= fuel /\ base.size (segs w) <= fuel)%nat;
}.

Lemma from_size {V D} (ident : V -> D) (m m' : gmap positive V) : from ident (below None) m m' -> (base.size m' <= base.size m)%nat.
Proof.
  intros H. rewrite <- !size_dom. apply subseteq_size. intros p [v Ev]%elem_of_dom.
  destruct (H p v I Ev) as (v0 & E0 & _). by eapply elem_of_dom_2.
Qed.

Lemma exiting_kept T T' w w' :
  exiting T w -> Keeps.kept None w w' -> Inv T' ∅ ∅ ∅ w' -> VmaWf w' -> AttWf w' -> Resting w' -> hash_of w' = hash_of w ->
  exiting T' w'.
Proof.
  intros [_ _ _ HS _ Hh Ho Hp (F1 & F2 & F3)] Hk HI HV HA HR Eh.
  pose proof (from_size _ _ _ (kept_aps _ _ _ Hk)). pose proof (from_size _ _ _ (kept_atts _ _ _ Hk)).
  pose proof (from_size _ _ _ (kept_segs _ _ _ Hk)). split; try done.
  - by eapply SegWf_kept.
  - by rewrite Eh.
  - intros t y' x' Ey' Ex' Htg. destruct (kept_atts _ _ _ Hk t y' I Ey') as (y & Ey & [= _ Ea Em]).
    destruct (kept_aps _ _ _ Hk (att_ap y') x' I Ex') as (x & Ex & [= _ _ _ Et]).
    rewrite <- Em. apply (Ho t y x); [done|by rewrite Ea|congruence].
  - unfold permits_ok in *. lia.
  - lia.
Qed.

Lemma exiting_held T L w : exiting T w -> exiting T (set_held L w).
Proof.
  intros [HI HV HA HS [R1 R2] Hh Ho Hp HF]. split; try done.
  - by eapply Inv_same.
  - by apply (VmaWf_same w).
  - by apply (AttWf_same w).
Qed.

(** What the others keep: thread groups with their lists, segments but for permits of [tg],
    permits with their attachments. *)
Record spared w w' : Prop := {
  sp_hash : hash_of w' = hash_of w;
  sp_tg : forall q t, q <> tg -> q ∈ mjoin (hash_of w) -> tgs w !! q = Some t -> exists t', tgs w' !! q = Some t' /\
    tg_tgid t' = tg_tgid t /\ tg_flags t' = tg_flags t /\ seg_list t' = seg_list t /\ ap_hashtable t' = ap_hashtable t;
  sp_seg : forall q s g, q <> tg -> q ∈ mjoin (hash_of w) -> s ∈ list_of seg_list (tgs w) q -> segs w !! s = Some g ->
    exists g', segs w' !! s = Some g' /\ norm_permits g = norm_permits g';
  sp_ap : forall b y, aps w !! b = Some y -> ap_tg y <> tg -> exists y', aps w' !! b = Some y' /\ norm_atts y = norm_atts y';
}.

#[local] Instance spared_refl : Reflexive spared.
Proof. intros w. split; eauto 6. Qed.
#[local] Instance spared_trans : Transitive spared.
Proof.
  intros w1 w2 w3 [A1 A2 A3 A4] [B1 B2 B3 B4]. split; [congruence|..].
  - intros q t Hq Hh E. destruct (A2 q t Hq Hh E) as (t2 & E2 & ? & ? & ? & ?). rewrite <- A1 in Hh.
    destruct (B2 q t2 Hq Hh E2) as (t3 & E3 & ? & ? & ? & ?). exists t3. split_and!; congruence.
  - intros q s g Hq Hh Hs Eg. destruct (A3 q s g Hq Hh Hs Eg) as (g2 & Eg2 & N2).
    apply elem_of_list_of in Hs as (t & Et & Hs). destruct (A2 q t Hq Hh Et) as (t2 & E2 & _ & _ & El & _). rewrite <- A1 in Hh.
    destruct (B3 q s g2 Hq Hh) as (g3 & Eg3 & N3); [by rewrite (list_of_Some _ _ _ _ E2), El|done|]. exists g3. split; congruence.
  - intros b y E Hb. destruct (A4 b y E Hb) as (y2 & E2 & N2).
    destruct (B4 b y2 E2) as (y3 & E3 & N3); [by rewrite <- (f_equal ap_tg N2 : ap_tg y = ap_tg y2)|]. exists y3. split; congruence.
Qed.

(** Another transition that other thread groups do not see. *)
Lemma spared_same w w' :
  part w' = part w -> tgs w' = tgs w -> segs w' = segs w -> aps w' = aps w -> spared w w'.
Proof. intros E1 E2 E3 E4. split; unfold hash_of; rewrite ?E1, ?E2, ?E3, ?E4; eauto 6. Qed.

Lemma spared_gone a x w w' : ap_gone a x w w' -> aps w !! a = Some x -> ap_tg x = tg -> spared w w'.
Proof.
  intros [G1 G2 G3 G4] Ex Hx. split; [done| |by eauto|].
  - intros q t Hq Hh E. destruct (G2 q t Hh E) as (t' & E' & F1 & F2 & F3 & F4). rewrite decide_False in F4 by congruence. eauto 8.
  - intros b y E Hb. apply G4; [|done]. intros ->. congruence.
Qed.

#[local] Instance faded_trans : Transitive faded.
Proof.
  intros w1 w2 w3 [A1 A2] [B1 B2]. split; [by auto|]. intros k y' E. destruct (B2 k y' E) as (y2 & E2 & N2).
  destruct (A2 k y2 E2) as (y & E1 & N1). exists y. split; congruence.
Qed.
Lemma faded_same w w' : atts w' = atts w -> pgt w' = pgt w -> faded w w'.
Proof. intros E1 E2. split; rewrite ?E1, ?E2; eauto. Qed.
Lemma faded_invalidated w w' : invalidated w w' -> faded w w'.
Proof. intros H. split; [apply H|]. intros k y' E. by eapply invalidated_att_back. Qed.

(** What a step of the teardown does to the rest. *)
Record went w w' : Prop := {
  went_spared : spared w w';
  went_kept : Keeps.kept None w w';
  went_faded : faded w w';
}.

#[local] Instance went_trans : Transitive went.
Proof. intros w1 w2 w3 [] []. split; by etransitivity. Qed.
Lemma went_same w w' :
  part w' = part w -> tgs w' = tgs w -> segs w' = segs w -> aps w' = aps w -> atts w' = atts w -> pgt w' = pgt w -> went w w'.
Proof. intros E1 E2 E3 E4 E5 E6. split; [by apply spared_same|split; by rewrite ?E2, ?E3, ?E4, ?E5|by apply faded_same]. Qed.

(** A listed segment is one of a hashed thread group. *)
Lemma listed_hashed T S A B w q s : Inv T S A B w -> s ∈ list_of seg_list (tgs w) q -> q ∈ mjoin (hash_of w).
Proof.
  intros HI (t & Et & Hs)%elem_of_list_of. destruct (decide (q ∈ mjoin (hash_of w))) as [|Hn]; [done|].
  pose proof (tg_all (inv_tg HI) q t Et) as Hok. destruct (tg_destroyed Hok (tg_unhashed Hok Hn)) as (_ & El & _).
  rewrite El in Hs. by apply elem_of_nil in Hs.
Qed.

Lemma Resting_gone T S A B a x w w' :
  ap_gone a x w w' -> Keeps.kept None w w' -> aps w' !! a = None -> Inv T S A B w' -> Resting w -> Resting w'.
Proof.
  intros Hg Hk Ea HI [R1 R2]. split.
  - intros b y' E. destruct (kept_aps _ _ _ Hk b y' I E) as (y & Ey & _).
    destruct (ag_ap _ _ _ _ Hg b y) as (y2 & E2 & N); [congruence|done|]. assert (y2 = y') as -> by congruence.
    rewrite <- (f_equal ap_flags N : ap_flags y = ap_flags y'). by eapply R1.
  - intros q s g' Hs Eg'. pose proof (listed_hashed _ _ _ _ _ _ _ HI Hs) as Hh. rewrite (ag_hash _ _ _ _ Hg) in Hh.
    destruct (elem_of_list_of _ _ _ _ Hs) as (t' & Et' & Hs'). destruct (kept_tgs _ _ _ Hk q t' I Et') as (t & Et & _).
    destruct (ag_tg _ _ _ _ Hg q t Hh Et) as (t2 & E2 & _ & _ & El & _). assert (t2 = t') as -> by congruence.
    destruct (kept_segs _ _ _ Hk s g' I Eg') as (g & Eg & _). rewrite El in Hs'.
    assert (s ∈ list_of seg_list (tgs w) q) as Hsw by (by rewrite (list_of_Some _ _ _ _ Et)).
    destruct (ag_seg _ _ _ _ Hg q s g Hsw Eg) as (g2 & Eg2 & N). assert (g2 = g') as -> by congruence.
    rewrite <- (f_equal seg_flags N : seg_flags g = seg_flags g'). by eapply R2.
Qed.

(** ** Releasing the permits *)

(** [tg] as it was, but for its permits. *)
Definition with_aps (h : list (list positive)) (t : xpmem_thread_group) w : Prop :=
  exists t', tgs w !! tg = Some t' /\ tg_tgid t' = tg_tgid t /\ tg_flags t' = tg_flags t /\ seg_list t' = seg_list t /\ ap_hashtable t' = h.

Lemma exiting_permit T w t i a :
  exiting T w -> tgs w !! tg = Some t -> a ∈ bucket (ap_hashtable t) i ->
  exists x p g st, permit w a x p g st /\ ap_tg x = tg /\ xpmem_ap_hashtable_index (apid x) = i /\ own_atts cur a w /\
    (length (ap_att_list x) <= fuel)%nat.
Proof.
  intros [HI HV HA HS HR Hh Ho Hp (F1 & F2 & F3)] Et Hb.
  destruct (ap_bucket_live _ _ _ _ _ _ _ _ _ HI Et Hb) as (Hha & x & Ex & Htg).
  destruct (permit_of _ _ _ _ _ _ _ HI Ex) as (p & g & st & HP); [by rewrite Htg, (list_of_Some _ _ _ t)|].
  exists x, p, g, st. split; [done|]. split; [done|]. split; [by eapply ap_bucket_index|]. split.
  - intros k y Ey Hy. apply (Ho k y x); [done|by rewrite Hy|done].
  - etransitivity; [|exact F2]. by eapply att_list_size.
Qed.

(** One turn of the loop on a bucket. *)
Lemma release_one {V} T w t i a (k : M V) Q :
  few T -> exiting T w -> held w = [ApHashLock tg i] -> tgs w !! tg = Some t -> a ∈ bucket (ap_hashtable t) i ->
  (forall w', exiting T w' -> held w' = [ApHashLock tg i] -> went w w' -> with_aps (bucket_del i a (ap_hashtable t)) t w' -> wp k Q w') ->
  wp (xpmem_ap_ref a ;; read_unlock (ApHashLock tg i) ;; xpmem_release_ap fuel cur tg a ;; xpmem_ap_deref a ;;
      read_lock (ApHashLock tg i) ;; k) Q w.
Proof.
  intros HT He Hh Et Hb Hk. destruct (exiting_permit _ _ _ _ _ He Et Hb) as (x & p & g & st & HP & Htg & Hi & Hown & Hlen).
  pose proof He as [HI HV HA HS HR Hha Ho Hp HF]. pose proof (ch_ap _ _ _ _ _ _ HP) as Ex.
  eapply wp_seq; [apply (wp_keeps None); [apply keeps_ap_ref|done|eapply (ap_ref_ok T ∅ ∅ ∅ w a x); side]|].
  intros _ w1 [[HI1 Hq] K1]. destruct (permit_equiv _ _ _ _ _ _ _ Hq HP) as (k1 & k2 & k3 & k4 & HP1).
  apply wp_bind. eapply (wp_release _ []); [by rewrite (equiv_held _ _ Hq)|side|]. set (w2 := set_held [] w1).
  assert (permit w2 a (set_ap_refcnt k1 x) (set_tg_refcnt k2 p) (set_seg_refcnt k3 g) (set_tg_refcnt k4 st)) as HP2 by (by destruct HP1; split).
  pose proof (release_ap_ok HG cur T ∅ ∅ w2 a (set_ap_refcnt k1 x) (set_tg_refcnt k2 p) (set_seg_refcnt k3 g) (set_tg_refcnt k4 st) fuel) as HR2.
  cbn [ap_tg set_ap_refcnt] in HR2. rewrite Htg in HR2.
  eapply wp_seq; [apply (wp_keeps None); [apply keeps_release_ap|done|apply HR2; clear HR2]|].
  { by eapply Inv_same. }
  { by apply (VmaWf_same w1); [..|apply (VmaWf_equiv w)]. }
  { by apply (AttWf_same w1); [..|apply (AttWf_equiv w)]. }
  { intros b y' E' Hy'. destruct (equiv_att _ _ _ _ Hq E') as [n E0]. exact (Hown b _ E0 Hy'). }
  { done. }
  { exact HP2. }
  { exact (rest_aps _ HR a x Ex). }
  { exact Hlen. }
  intros _ w3 [(HI3 & HV3 & HA3 & Hh3 & Hg3 & (x3 & Ex3 & Hoff1 & Hoff2) & Hf3 & _) K3].
  eapply wp_seq; [apply (wp_keeps None); [apply keeps_ap_deref|done|eapply wp_ap_deref; [exact HI3|exact Ex3|by intros _]]|].
  intros _ w4 [[HI4 E4] K4]. rewrite decide_True in E4 by (unfold aprefs, ap_refs; by rewrite multiplicity_empty, b2n_false).
  apply wp_bind, wp_acquire; [rewrite E4; cbn; side|]. set (w5 := set_held _ w4).
  assert (Keeps.kept None w w5) as K5.
  { etransitivity; [exact K1|]. transitivity w3; [destruct K3|destruct K4]; by split. }
  assert (ap_gone a x w w5) as Hg.
  { apply (ap_gone_equiv a x k1 w1 w w5 w5 Hq); [done|]. apply ap_gone_free in Hg3. rewrite <- E4 in Hg3. destruct Hg3. by split. }
  assert (Inv T ∅ ∅ ∅ w5) as HI5 by (by eapply Inv_same).
  assert (aps w5 !! a = None) as Ea5 by (cbn; rewrite E4; apply lookup_delete_eq).
  destruct (ag_tg _ _ _ _ Hg tg t Hha Et) as (t' & Et' & F1 & F2 & F3 & F4). rewrite decide_True, Hi in F4 by done.
  apply Hk.
  - apply (exiting_kept T T w); try done.
    + apply (VmaWf_same w3); [cbn; by rewrite E4..|done].
    + apply (AttWf_same w3); [cbn; by rewrite E4..|done].
    + by eapply Resting_gone.
    + exact (ag_hash _ _ _ _ Hg).
  - cbn. rewrite E4. cbn. by rewrite Hh3.
  - split; [by eapply spared_gone|done|]. transitivity w2; [transitivity w1; [by apply faded_invalidated, equiv_invalidated|by apply faded_same]|].
    transitivity w3; [done|]. apply faded_same; cbn; by rewrite E4.
  - by exists t'.
Qed.

Lemma bucket_nodup T S A B w t i l : Inv T S A B w -> tgs w !! tg = Some t -> ap_hashtable t !! i = Some l -> NoDup l.
Proof.
  intros HI Et El. pose proof (tg_aps_nodup (tg_all (inv_tg HI) tg t Et)) as Hn.
  rewrite <- (take_drop_middle _ _ _ El), join_app in Hn. apply NoDup_app in Hn as (_ & _ & Hn).
  cbn in Hn. by apply NoDup_app in Hn as (Hn & _ & _).
Qed.

Lemma bucket_size T w t i l : exiting T w -> tgs w !! tg = Some t -> ap_hashtable t !! i = Some l -> (length l <= fuel)%nat.
Proof.
  intros [HI _ _ _ _ _ _ _ (F1 & _)] Et El. etransitivity; [|exact F1].
  rewrite <- size_dom, <- (size_list_to_set (C := gset positive)) by (by eapply bucket_nodup). apply subseteq_size.
  intros a Ha%elem_of_list_to_set. destruct (ap_bucket_live _ _ _ _ w tg t i a HI Et) as (_ & x & Ex & _); [unfold bucket; by rewrite El|].
  by eapply elem_of_dom_2.
Qed.

Lemma release_bucket_ok T i : few T -> forall l n w t,
  exiting T w -> held w = [ApHashLock tg i] -> tgs w !! tg = Some t -> ap_hashtable t !! i = Some l -> (length l <= n)%nat ->
  wp (release_bucket_loop n fuel cur tg i) (fun _ w' =>
    exiting T w' /\ held w' = [ApHashLock tg i] /\ went w w' /\ with_aps (<[i := []]> (ap_hashtable t)) t w') w.
Proof.
  intros HT. induction l as [|a l IH]; intros n w t He Hh Et El Hn.
  - destruct n; cbn; (apply wp_bind; eapply wp_load; [exact Et|]); rewrite El; apply wp_bind, wp_ret, wp_ret;
      (split; [done|]); (split; [done|]); (split; [by apply went_same|]); exists t; rewrite list_insert_id by done; done.
  - destruct n as [|n]; cbn in Hn; [lia|]. cbn. apply wp_bind. eapply wp_load; [exact Et|]. rewrite El. apply wp_bind, wp_ret.
    eapply (release_one T w t i a); try done; [unfold bucket; rewrite El; apply list_elem_of_here|].
    intros w1 He1 Hh1 Hs1 (t1 & Et1 & F1 & F2 & F3 & F4).
    pose proof (bucket_nodup _ _ _ _ _ _ _ _ (ex_inv _ _ He) Et El) as [Ha Hl]%NoDup_cons.
    eapply wp_mono; [apply (IH n w1 t1); try done|].
    + rewrite F4. unfold bucket_del. rewrite list_lookup_alter_eq, El. cbn [fmap option_fmap option_map]. by rewrite unlink_cons_eq.
    + lia.
    + intros _ w' (He' & Hh' & Hs' & t' & Et' & D1 & D2 & D3 & D4). split; [done|]. split; [done|]. split; [by transitivity w1|].
      exists t'. split_and!; try congruence. rewrite D4, F4. unfold bucket_del. apply list_eq. intros j.
      destruct (decide (i = j)) as [->|Hne]; [|by rewrite !list_lookup_insert_ne, list_lookup_alter_ne by done].
      apply lookup_lt_Some in El. by rewrite !list_lookup_insert_eq by (rewrite ?length_alter; done).
Qed.

Lemma release_buckets_ok T : few T -> forall l w t,
  exiting T w -> held w = [] -> tgs w !! tg = Some t -> (forall i, i ∈ l -> (i < 8)%nat) ->
  wp (release_buckets fuel fuel cur tg l) (fun _ w' => exiting T w' /\ held w' = [] /\ went w w' /\
    exists h, with_aps h t w' /\ forall i, h !! i = if decide (i ∈ l) then (fun _ => []) <$> ap_hashtable t !! i else ap_hashtable t !! i) w.
Proof.
  intros HT. induction l as [|i l IH]; intros w t He Hh Et Hl; cbn.
  - apply wp_ret. split; [done|]. split; [done|]. split; [by apply went_same|]. exists (ap_hashtable t). split; [by exists t|].
    intros i. by rewrite decide_False by apply not_elem_of_nil.
  - apply wp_bind, wp_acquire; [rewrite Hh; apply not_elem_of_nil|]. rewrite Hh. set (w1 := set_held _ w).
    assert (exiting T w1) as He1 by (by apply exiting_held).
    pose proof (tg_aps_size (tg_all (inv_tg (ex_inv _ _ He)) tg t Et)) as H8.
    destruct (lookup_lt_is_Some_2 (ap_hashtable t) i) as [b Eb]; [rewrite H8; apply Hl, list_elem_of_here|].
    eapply wp_seq; [by apply (release_bucket_ok T i HT b fuel w1 t); [..|eapply bucket_size]|].
    intros _ w2 (He2 & Hh2 & Hs2 & t2 & Et2 & F1 & F2 & F3 & F4).
    apply wp_bind. eapply (wp_release _ []); [done|apply not_elem_of_nil|]. set (w3 := set_held [] w2).
    assert (exiting T w3) as He3 by (by apply exiting_held).
    eapply wp_mono; [apply (IH w3 t2 He3 eq_refl Et2)|].
    { intros j Hj. apply Hl. by right. }
    intros _ w' (He' & Hh' & Hs' & h & (t' & Et' & D1 & D2 & D3 & D4) & Hh3).
    split; [done|]. split; [done|]. split.
    { transitivity w2; [transitivity w1; [by apply went_same|done]|]. transitivity w3; [by apply went_same|done]. }
    exists h. split; [exists t'; split_and!; congruence|]. intros j. rewrite Hh3, F4.
    destruct (decide (j = i)) as [->|Hne].
    + rewrite (decide_True (P := i ∈ i :: l)) by apply list_elem_of_here. apply lookup_lt_Some in Eb as Hlt.
      rewrite list_lookup_insert_eq, Eb by done. by destruct (decide _).
    + rewrite list_lookup_insert_ne by done. destruct (decide (j ∈ l)) as [Hj|Hj].
      * by rewrite decide_True by (by right).
      * by rewrite decide_False by (rewrite elem_of_cons; tauto).
Qed.

(** [xpmem_release_aps_of_tg]: no permit is left. *)
Lemma release_aps_ok T w t : few T -> exiting T w -> held w = [] -> tgs w !! tg = Some t ->
  wp (xpmem_release_aps_of_tg fuel fuel cur tg) (fun _ w' => exiting T w' /\ held w' = [] /\ went w w' /\
    exists h, with_aps h t w' /\ mjoin h = []) w.
Proof.
  intros HT He Hh Et. eapply wp_mono; [apply (release_buckets_ok T HT _ w t He Hh Et)|].
  { intros i [_ Hi]%elem_of_seq. done. }
  intros _ w' (He' & Hh' & Hs & h & Hw & Hl). split_and!; try done. exists h. split; [done|].
  pose proof (tg_aps_size (tg_all (inv_tg (ex_inv _ _ He)) tg t Et)) as H8.
  apply elem_of_nil_inv. intros a (b & Ha & [i Ei]%list_elem_of_lookup)%list_elem_of_join. rewrite Hl in Ei. case_decide as Hi.
  - destruct (ap_hashtable t !! i); [|done]. injection Ei as <-. by apply elem_of_nil in Ha.
  - apply Hi, elem_of_seq. apply lookup_lt_Some in Ei. change (Z.to_nat XPMEM_AP_HASHTABLE_SIZE) with 8%nat. lia.
Qed.

(** ** Removing the segments *)

Lemma spared_invalidated w w' : invalidated w w' -> spared w w'.
Proof.
  intros H. pose proof (same_links _ _ H) as Hl. injection Hl as _ Ht Hs Ha _ _ _ _ _ _ _ _ _ _. split.
  - by apply inv_hash.
  - intros q t _ _ E. destruct (lookup_norm _ _ _ _ _ Ht E) as (t' & E' & N). exists t'. split; [done|].
    split_and!; [exact (eq_sym (f_equal tg_tgid N))|exact (eq_sym (f_equal tg_flags N))|exact (eq_sym (f_equal seg_list N))|exact (eq_sym (f_equal ap_hashtable N))].
  - intros q s g _ _ _ E. destruct (lookup_norm _ _ _ _ _ Hs E) as (g' & E' & N). exists g'. split; [done|].
    exact (f_equal (set_seg_ap_list []) N).
  - intros b y E _. destruct (lookup_norm _ _ _ _ _ Ha E) as (y' & E' & N). exists y'. split; [done|].
    exact (f_equal (set_ap_att_list []) N).
Qed.

Section remove.
Context (T S A B : gmultiset positive) (w : world) (t : xpmem_thread_group) (s : positive).
Context (HI : Inv T S A B w) (Et : tgs w !! tg = Some t) (Hs : s ∈ seg_list t).

Lemma other_segs q s' : q <> tg -> s' ∈ list_of seg_list (tgs w) q -> s' <> s.
Proof.
  intros Hq Hs' ->. destruct (seg_list_live _ _ _ _ _ _ _ HI Hs') as (g' & Eg' & H1).
  destruct (seg_list_live _ _ _ _ w tg s HI) as (g2 & Eg2 & H2); [by rewrite (list_of_Some _ _ _ _ Et)|]. congruence.
Qed.

Lemma spared_removed w' : tgs w' = <[tg := set_seg_list (unlink s (seg_list t)) t]> (tgs w) -> hash_of w' = hash_of w -> aps w' = aps w ->
  (forall s', s' <> s -> segs w' !! s' = segs w !! s') -> spared w w'.
Proof.
  intros E1 E2 E3 E4. split; [done|..].
  - intros q u Hq _ E. exists u. rewrite E1, lookup_insert_ne by done. done.
  - intros q s' g' Hq _ Hs' E. exists g'. by rewrite E4 by (by eapply other_segs).
  - intros b y E _. exists y. by rewrite E3.
Qed.

Lemma Resting_removed w' : tgs w' = <[tg := set_seg_list (unlink s (seg_list t)) t]> (tgs w) -> aps w' = aps w ->
  (forall s', s' <> s -> segs w' !! s' = segs w !! s') -> Resting w -> Resting w'.
Proof.
  intros E1 E2 E3 [R1 R2]. split; [by rewrite E2|]. intros q s' g' Hs'. rewrite E1, list_of_insert in Hs'. case_decide as Hq.
  - cbn in Hs'. apply elem_of_unlink in Hs' as [Hin Hne]. rewrite E3 by done. apply (R2 tg s'). by rewrite (list_of_Some _ _ _ _ Et).
  - rewrite E3 by (by eapply (other_segs q)). by apply (R2 q).
Qed.
End remove.

(** No attachment shows a page of the segment. *)
Definition seg_hidden (s : positive) (g : xpmem_segment) w : Prop :=
  forall k y x, atts w !! k = Some y -> aps w !! att_ap y = Some x -> ap_seg x = s ->
    hidden (pgt w) y (seg_vaddr g) (seg_vaddr g + seg_size g).

Lemma seg_hidden_went s g w w' : went w w' -> seg_hidden s g w -> seg_hidden s g w'.
Proof.
  intros [_ Hk [Hm Ha]] H k y' x' Ey' Ex' Hs. destruct (Ha k y' Ey') as (y & Ey & N).
  destruct (kept_aps _ _ _ Hk _ x' I Ex') as (x & Ex & [= _ _ Es _]).
  apply (hidden_norm _ y' y); [done|]. intros mm a Em Hr1 Hr2. apply Hm.
  apply (H k y x Ey); [by rewrite (f_equal att_ap N : att_ap y = att_ap y')|congruence|done..].
Qed.

(** [tg] as it was, but for its segments. *)
Definition with_segs (l : list positive) (t : xpmem_thread_group) w : Prop :=
  exists t', tgs w !! tg = Some t' /\ tg_tgid t' = tg_tgid t /\ tg_flags t' = tg_flags t /\ seg_list t' = l /\ ap_hashtable t' = ap_hashtable t.

(** Dropping the reference of the loop: the segment is freed, unless permits keep it. *)
Lemma drop_removed T w w3 t s g :
  Inv T (∅ ⊎ {[+ s +]}) ∅ ∅ w3 -> invalidated (mark_removed tg s t g w) w3 ->
  wp (xpmem_seg_deref s) (fun _ w4 => Inv T ∅ ∅ ∅ w4 /\ exists M, invalidated M w4 /\
    tgs M = <[tg := set_seg_list (unlink s (seg_list t)) t]> (tgs w) /\ part M = part w /\ aps M = aps w /\
    (forall s', s' <> s -> segs M !! s' = segs w !! s') /\ atts M = atts w /\ vmas M = vmas w /\ pgt M = pgt w /\ held M = held w /\
    atts w4 = atts w3 /\ aps w4 = aps w3 /\ pgt w4 = pgt w3 /\ forall g4, segs w4 !! s = Some g4 -> seg_ap_list g4 = seg_ap_list g) w3.
Proof.
  intros HI H. set (gm := set_seg_flags (Z.lor (seg_flags g) removed_flags) g).
  destruct (inv_seg_lookup _ _ s gm H) as [n Eg]; [apply lookup_insert_eq|].
  eapply wp_mono; [by apply (wp_seg_deref T ∅ ∅ ∅ w3 s _ HI Eg)|]. intros _ w4 [HI4 ->]. split; [done|].
  set (mr := mark_removed tg s t g w) in *.
  assert (forall s', s' <> s -> segs mr !! s' = segs w !! s') as Hseg by (intros; cbn; by rewrite lookup_insert_ne).
  case_decide.
  - exists (set_segs (delete s (segs mr)) mr). split; [by apply invalidated_seg_delete|]. split_and!; try done.
    + intros s' Hs'. cbn. rewrite lookup_delete_ne by done. by apply Hseg.
    + intros g4. cbn. by rewrite lookup_delete_eq.
  - exists mr. split; [|split_and!; try done; intros g4; cbn; rewrite lookup_insert_eq; by intros [= <-]]. etransitivity; [exact H|]. apply equiv_invalidated. symmetry. by apply equiv_seg_refcnt.
Qed.

Lemma remove_one {V} T w t s l (k : M V) Q :
  few T -> exiting T w -> held w = [SegListLock tg] -> tgs w !! tg = Some t -> seg_list t = s :: l ->
  (forall w', exiting T w' -> held w' = [SegListLock tg] -> went w w' -> with_segs l t w' ->
     (forall g, segs w !! s = Some g -> seg_hidden s g w') -> wp k Q w') ->
  wp (xpmem_seg_ref s ;; read_unlock (SegListLock tg) ;; xpmem_remove_seg tg s ;; xpmem_seg_deref s ;;
      read_lock (SegListLock tg) ;; k) Q w.
Proof.
  intros HT He Hh Et El Hk. pose proof He as [HI HV HA HS HR Hha Ho Hp HF].
  assert (s ∈ list_of seg_list (tgs w) tg) as Hs by (rewrite (list_of_Some _ _ _ _ Et), El; apply list_elem_of_here).
  destruct (seg_list_live _ _ _ _ _ _ _ HI Hs) as (g & Eg & Hg).
  eapply wp_seq; [apply (wp_keeps None); [apply keeps_seg_ref|done|eapply (seg_ref_ok T ∅ ∅ ∅ w s g); side]|].
  intros _ w1 [[HI1 Hq] K1]. destruct (equiv_tg _ _ _ _ (symmetry Hq) Et) as [n1 Et1]. destruct (equiv_seg _ _ _ _ (symmetry Hq) Eg) as [n2 Eg1].
  apply wp_bind. eapply (wp_release _ []); [by rewrite (equiv_held _ _ Hq)|side|]. set (w2 := set_held [] w1).
  assert (Inv T (∅ ⊎ {[+ s +]}) ∅ ∅ w2) as HI2 by (by eapply Inv_same).
  eapply wp_seq; [apply (wp_keeps None); [apply keeps_remove_seg|done|]|].
  { eapply (remove_seg_ok HG T ∅ ∅ ∅ w2 tg _ s _ HI2); try side; try exact Et1; try exact Eg1.
    - by apply (AttWf_same w1); [..|apply (AttWf_equiv w)].
    - exact (HS s g Eg).
    - cbn. rewrite El. apply list_elem_of_here.
    - exact (busy_destroying _ (rest_segs _ HR tg s g Hs Eg)). }
  intros _ w3 [(HI3 & H3 & Hcl) K3].
  eapply wp_seq; [apply (wp_keeps None); [apply keeps_seg_deref|done|by eapply drop_removed]|].
  intros _ w4 [(HI4 & M & HM & M1 & M2 & M3 & M4 & M5 & M6 & M7 & M8 & W1 & W2 & W3 & W4) K4].
  assert (held w4 = []) as Hh4 by (by rewrite <- (inv_held _ _ HM), M8).
  apply wp_bind, wp_acquire; [rewrite Hh4; apply not_elem_of_nil|]. rewrite Hh4. set (w5 := set_held _ w4).
  assert (Keeps.kept None w w4) as K5.
  { etransitivity; [exact K1|]. transitivity w3; [destruct K3|destruct K4]; by split. }
  assert (s ∈ seg_list (set_tg_refcnt n1 t)) as Hs1 by (cbn; rewrite El; apply list_elem_of_here).
  assert (spared w w4) as Hsp.
  { transitivity w2; [transitivity w1; [by apply spared_invalidated, equiv_invalidated|by apply spared_same]|].
    transitivity M; [|by apply spared_invalidated].
    apply (spared_removed _ _ _ _ w2 _ s HI2 Et1 Hs1); [done| |done|done]. unfold hash_of. by rewrite M2. }
  assert (went w w4) as Hw4.
  { split; [done|done|]. transitivity w1; [by apply faded_invalidated, equiv_invalidated|].
    transitivity M; [by apply faded_same|by apply faded_invalidated]. }
  apply Hk; [apply exiting_held|done|by transitivity w4; [|apply went_same]| |].
  - apply (exiting_kept T T w); try done.
    + eapply VmaWf_invalidated; [exact HM|]. by apply (VmaWf_same w1); [..|apply (VmaWf_equiv w)].
    + eapply AttWf_invalidated; [exact HM|]. by apply (AttWf_same w1); [..|apply (AttWf_equiv w)].
    + eapply Resting_invalidated; [exact HM|]. apply (Resting_removed _ _ _ _ w2 _ s HI2 Et1 Hs1); try done.
      destruct (Resting_invalidated w w1) as [R1 R2]; [by apply equiv_invalidated|done|by split].
    + by rewrite <- (sp_hash _ _ Hsp).
  - assert (tgs M !! tg = Some (set_seg_list (unlink s (seg_list t)) (set_tg_refcnt n1 t))) as EM by (rewrite M1; apply lookup_insert_eq).
    destruct (inv_tg_lookup _ _ _ _ HM EM) as (t' & Et' & N). exists t'. split; [exact Et'|].
    split_and!; [exact (eq_sym (f_equal tg_tgid N))|exact (eq_sym (f_equal tg_flags N))| |exact (eq_sym (f_equal ap_hashtable N))].
    rewrite (eq_sym (f_equal seg_list N) : seg_list t' = unlink s (seg_list t)), El. apply unlink_cons_eq.
    pose proof (tg_segs_nodup (tg_all (inv_tg HI) tg t Et)) as Hn. rewrite El in Hn. by apply NoDup_cons in Hn as [??].
  - intros g' Eg'. assert (g' = g) as -> by congruence. apply (seg_hidden_went s g w4); [by apply went_same|].
    intros k4 y4 x4 Ey4 Ex4 Hx4. destruct (chain_of _ _ _ _ _ _ _ HI4 Ey4) as (x4' & p4 & g4 & st4 & [_ Hin [E1 E2 E3 E4 _ Hlk _]]); [by eapply rest_listed|].
    assert (x4' = x4) as -> by congruence. rewrite Hx4 in E3. rewrite (W4 g4 E3) in Hlk.
    rewrite W1 in Ey4. rewrite W2 in Ex4. rewrite W3.
    destruct (invalidated_att_back _ _ _ _ H3 Ey4) as (y2 & Ey2 & N2).
    pose proof (same_links _ _ H3) as Hlinks. injection Hlinks as _ _ _ Haps _ _ _ _ _ _ _ _ _ _.
    destruct (lookup_norm _ _ _ _ _ (eq_sym Haps) Ex4) as (x2 & Ex2 & Nx).
    assert (k4 ∈ ap_att_list x2) as Hin2 by (by rewrite <- (f_equal ap_att_list Nx : ap_att_list x4 = ap_att_list x2)).
    apply (hidden_norm _ y4 y2); [done|]. apply (Hcl _ Hlk x2 k4 Ex2 Hin2 y2 y4 Ey2 Ey4).
    assert (VmaWf w1) as HV1 by (by apply (VmaWf_equiv w)). destruct (vw_attached _ HV1 k4 y2 Ey2) as (Hd2 & mm2 & v2 & vma2 & Ha2).
    split; [done|]. exists v2. apply (atd_shown _ _ _ _ _ _ Ha2).
Qed.

(** Hidden as the segment was earlier. *)
Lemma seg_hidden_later T w w1 w' s g :
  exiting T w1 -> went w w1 -> s ∈ list_of seg_list (tgs w1) tg -> segs w !! s = Some g ->
  (forall g1, segs w1 !! s = Some g1 -> seg_hidden s g1 w') -> seg_hidden s g w'.
Proof.
  intros He Hs Hin Eg H. destruct (seg_list_live _ _ _ _ _ _ _ (ex_inv _ _ He) Hin) as (g1 & Eg1 & _).
  destruct (kept_segs _ _ _ (went_kept _ _ Hs) s g1 I Eg1) as (g2 & Eg2 & [= _ Hv Hz _ _ _]). assert (g2 = g) as -> by congruence.
  unfold seg_hidden. rewrite Hv, Hz. by apply H.
Qed.

Lemma remove_segs_ok T : few T -> forall l n w t,
  exiting T w -> held w = [SegListLock tg] -> tgs w !! tg = Some t -> seg_list t = l -> (length l <= n)%nat ->
  wp (remove_segs_loop n tg) (fun _ w' => exiting T w' /\ held w' = [SegListLock tg] /\ went w w' /\ with_segs [] t w' /\
    forall s g, s ∈ l -> segs w !! s = Some g -> seg_hidden s g w') w.
Proof.
  intros HT. induction l as [|s l IH]; intros n w t He Hh Et El Hn.
  - destruct n; cbn; (apply wp_bind; eapply wp_load; [exact Et|]); rewrite El; apply wp_ret;
      (split; [done|]); (split; [done|]); (split; [by apply went_same|]); (split; [by exists t|]); by intros s g ?%elem_of_nil.
  - destruct n as [|n]; cbn in Hn; [lia|]. cbn. apply wp_bind. eapply wp_load; [exact Et|]. rewrite El.
    eapply (remove_one T w t s l); try done. intros w1 He1 Hh1 Hs1 (t1 & Et1 & F1 & F2 & F3 & F4) Hhid.
    eapply wp_mono; [apply (IH n w1 t1); try done; lia|].
    intros _ w' (He' & Hh' & Hs' & (t' & Et' & D1 & D2 & D3 & D4) & Hhid'). split; [done|]. split; [done|]. split; [by transitivity w1|].
    split; [exists t'; split_and!; congruence|]. intros s' g' [->|Hin]%elem_of_cons Eg'; [by apply (seg_hidden_went _ _ w1), Hhid|].
    apply (seg_hidden_later T w w1); try done; [by rewrite (list_of_Some _ _ _ _ Et1), F3|by intros; apply Hhid'].
Qed.

Lemma remove_segs_of_tg_ok T w t : few T -> exiting T w -> held w = [] -> tgs w !! tg = Some t ->
  wp (xpmem_remove_segs_of_tg fuel tg) (fun _ w' => exiting T w' /\ held w' = [] /\ went w w' /\ with_segs [] t w' /\
    forall s g, s ∈ seg_list t -> segs w !! s = Some g -> seg_hidden s g w') w.
Proof.
  intros HT He Hh Et. apply wp_bind, wp_acquire; [rewrite Hh; apply not_elem_of_nil|]. rewrite Hh. set (w1 := set_held _ w).
  assert (exiting T w1) as He1 by (by apply exiting_held).
  eapply wp_seq; [apply (remove_segs_ok T HT (seg_list t) fuel w1 t); try done|].
  - pose proof He as [HI _ _ _ _ _ _ _ (_ & _ & F)]. etransitivity; [|exact F].
    rewrite <- size_dom, <- (size_list_to_set (C := gset positive)) by apply (tg_all (inv_tg HI) tg t Et). apply subseteq_size.
    intros s Hs%elem_of_list_to_set. destruct (seg_list_live _ _ _ _ w tg s HI) as (g & Eg & _); [by rewrite (list_of_Some _ _ _ t)|].
    by eapply elem_of_dom_2.
  - intros _ w2 (He2 & Hh2 & Hs2 & Hw2 & Hhid). eapply (wp_release _ []); [done|apply not_elem_of_nil|].
    split; [by apply exiting_held|]. split; [done|]. split; [|split; [done|]].
    2: { intros s g Hs Eg. apply (seg_hidden_went s g w2); [by apply went_same|]. by apply Hhid. }
    transitivity w1; [by apply went_same|]. transitivity w2; [done|by apply went_same].
Qed.

(** ** The whole *)

Lemma tg_set_flag_ok T w t m unexpected :
  exiting T w -> held w = [] -> tgs w !! tg = Some t -> has (tg_flags t) unexpected = false ->
  let t' := set_tg_flags (Z.lor (tg_flags t) m) t in tg_same t t' ->
  wp (tg_set_flag tg m unexpected) (fun _ w' => exiting T w' /\ held w' = [] /\ went w w' /\ tgs w' !! tg = Some t') w.
Proof.
  intros He Hh Et Hun t' Hsame. pose proof He as [HI HV HA HS [R1 R2] Hha Ho Hp HF].
  eapply wp_mono; [apply (wp_keeps None _ (fun _ w' => w' = set_tgs (<[tg := t']> (tgs w)) w)); [apply keeps_tg_set_flag|done|]|].
  - apply wp_bind, wp_acquire; [rewrite Hh; apply not_elem_of_nil|]. rewrite Hh. apply wp_bind. eapply wp_load; [exact Et|].
    apply wp_bind, wp_DBUG_ON; [done|]. apply wp_bind. eapply wp_store; [exact Et|].
    eapply (wp_release _ []); [done|apply not_elem_of_nil|]. rewrite <- Hh. by destruct w.
  - intros _ w' [-> Hk]. pose proof (tg_all (inv_tg HI) tg t Et) as Hok. split; [|split; [done|split]].
    + apply (exiting_kept T T w); try done.
      * eapply (Inv_tg_update T T); [done|done|done|done|apply Hok..].
      * by apply (VmaWf_same w).
      * by apply (AttWf_same w).
      * split; [done|]. intros q s g. cbn. rewrite (list_of_insert_same _ _ _ t) by done. apply R2.
    + split; [|done|by apply faded_same]. split; [done| |by eauto|by eauto]. intros q u Hq _ E. exists u. cbn. by rewrite lookup_insert_ne.
    + apply lookup_insert_eq.
Qed.

(** The thread group is empty and marked. *)
Definition torn_down (tgid : Z) w : Prop := exists t, tgs w !! tg = Some t /\ tg_tgid t = tgid /\
  has (tg_flags t) XPMEM_FLAG_DESTROYING = true /\ has (tg_flags t) XPMEM_FLAG_DESTROYED = true /\
  seg_list t = [] /\ mjoin (ap_hashtable t) = [].

Lemma teardown_ok T w t :
  few (T ⊎ {[+ tg +]}) -> exiting (T ⊎ {[+ tg +]}) w -> held w = [] -> tgs w !! tg = Some t ->
  has (tg_flags t) XPMEM_FLAG_DESTROYING = false ->
  wp (xpmem_teardown fuel cur tg) (fun _ w' => exiting T w' /\ held w' = [] /\ went w w' /\ torn_down (tg_tgid t) w' /\
    forall s g, s ∈ seg_list t -> segs w !! s = Some g -> seg_hidden s g w') w.
Proof.
  intros HT He Hh Et Hd. pose proof (tg_all (inv_tg (ex_inv _ _ He)) tg t Et) as Hok. pose proof (tg_uniq_range Hok).
  assert (has (tg_flags t) XPMEM_FLAG_DESTROYED = false) as Hd'.
  { destruct (has (tg_flags t) XPMEM_FLAG_DESTROYED) eqn:E; [|done]. destruct (tg_destroyed Hok E) as [E' _]. congruence. }
  change XPMEM_FLAG_DESTROYING with (2 ^ 6) in *. change XPMEM_FLAG_DESTROYED with (2 ^ 7) in *.
  set (T1 := T ⊎ {[+ tg +]}) in *. eapply wp_seq; [apply (tg_set_flag_ok T1 w t); try done|].
  { split; cbn; try done; try lia; [intros _|left]; change XPMEM_FLAG_DESTROYING with (2 ^ 6); change XPMEM_FLAG_DESTROYED with (2 ^ 7);
      rewrite has_lor by lia; [apply orb_true_r|]. by rewrite Hd'. }
  intros _ w1 (He1 & Hh1 & Hs1 & Et1).
  eapply wp_seq; [by eapply (release_aps_ok T1)|]. intros _ w2 (He2 & Hh2 & Hs2 & h & (t2 & Et2 & A1 & A2 & A3 & A4) & Hnil).
  eapply wp_seq; [by eapply (remove_segs_of_tg_ok T1)|]. intros _ w3 (He3 & Hh3 & Hs3 & (t3 & Et3 & B1 & B2 & B3 & B4) & Hhid).
  assert (tg_flags t3 = Z.lor (tg_flags t) (2 ^ 6)) as Hf by (rewrite B2; exact A2).
  assert (tg_tgid t3 = tg_tgid t) as Hid by (rewrite B1; exact A1).
  assert (mjoin (ap_hashtable t3) = []) as Hnil3 by congruence.
  pose proof (tg_all (inv_tg (ex_inv _ _ He3)) tg t3 Et3) as Hok3. pose proof (tg_uniq_range Hok3).
  eapply wp_seq; [apply (tg_set_flag_ok T1 w3 t3); try done|].
  { change XPMEM_FLAG_DESTROYED with (2 ^ 7). rewrite Hf, has_lor by lia. by rewrite Hd'. }
  { split; cbn; try done; try lia; change XPMEM_FLAG_DESTROYING with (2 ^ 6); change XPMEM_FLAG_DESTROYED with (2 ^ 7); rewrite Hf, !has_lor by lia;
      [by intros ->|right]. by rewrite Hd, Hd'. }
  intros _ w4 (He4 & Hh4 & Hs4 & Et4).
  eapply wp_mono; [apply (wp_keeps None); [apply keeps_tg_deref|done|apply (tg_deref_ok T ∅ ∅ ∅ w4 tg); [apply He4|apply hashed_tgrefs, He4]]|].
  intros _ w5 [[HI5 Hq] K5]. pose proof (equiv_invalidated _ _ (symmetry Hq)) as Hinv.
  assert (went w4 w5) as Hs5 by (split; [by apply spared_invalidated|done|by apply faded_invalidated]).
  split; [|split; [|split; [|split]]].
  - apply (exiting_kept T1 T w4); try done.
    + apply (VmaWf_equiv w4); [done|apply He4].
    + apply (AttWf_equiv w4); [done|apply He4].
    + apply (Resting_invalidated w4); [done|apply He4].
    + by apply inv_hash.
  - by rewrite (equiv_held _ _ Hq).
  - do 4 (etransitivity; [eassumption|]). done.
  - destruct (equiv_tg _ _ _ _ (symmetry Hq) Et4) as [n Et5]. eexists. split; [exact Et5|]. cbn. rewrite Hf.
    change XPMEM_FLAG_DESTROYING with (2 ^ 6); change XPMEM_FLAG_DESTROYED with (2 ^ 7). rewrite !has_lor, Hd, Hd' by lia.
    split_and!; try done; congruence.
  - intros s g Hin Eg. apply (seg_hidden_later T1 w w2); try done; [by transitivity w1|rewrite (list_of_Some _ _ _ _ Et2), A3; exact Hin|].
    intros g2 Eg2. apply (seg_hidden_went s g2 w3); [by transitivity w4|]. apply (Hhid s g2); [|done]. rewrite A3. exact Hin.
Qed.
End teardown.

(** * [xpmem_mmu_release] *)

Section mmu_release.
Context `{K : Kernel} {G : KernelGeometry K} {PT : PageTables K} {ZP : ZapPtes K} {VT : VmaTree K} {UV : UnmapVma K}.
Context (HG : PGDIR_SHIFT <= PAGE_SHIFT + 31).
Context (fuel : nat) (cur : task) (mm : positive).
Implicit Types (w : world).

Definition is_mm (t : xpmem_thread_group) : bool :=
  bool_decide (tg_mm t = Some mm) && negb (has (tg_flags t) XPMEM_FLAG_DESTROYING).

(** The thread group that goes away with the address space: that of the process, and otherwise
    the first one of the address space that there is. *)
Definition release_target w : option positive :=
  let search := first_where is_mm (tgs w) (mjoin (hash_of w)) in
  match find_tg w (cur_tgid cur) with
  | Some tg => match tgs w !! tg with
      | Some t => if bool_decide (tg_mm t = Some mm) then Some tg else search
      | None => search
      end
  | None => search
  end.

Lemma mm_scan_ok T w l i :
  Inv T ∅ ∅ ∅ w -> permits_ok w -> few T -> held w = [TgHashLock i] -> (forall p, p ∈ l -> is_Some (tgs w !! p)) ->
  wp (mm_scan l mm) (fun r w' =>
    match first_where is_mm (tgs w) l with
    | Some p => r = Some p /\ Inv (T ⊎ {[+ p +]}) ∅ ∅ ∅ w' /\ w' ≡ w
    | None => r = None /\ w' = w
    end) w.
Proof.
  intros HI Hw HT Hh. induction l as [|p l IH]; intros Hl; [done|]. cbn.
  destruct (Hl p) as [t E]; [apply list_elem_of_here|]. rewrite E.
  assert (forall q, q ∈ l -> is_Some (tgs w !! q)) as Hl' by (intros; apply Hl; by apply list_elem_of_further).
  apply wp_bind. eapply wp_load; [exact E|]. unfold is_mm at 1. destruct (bool_decide (tg_mm t = Some mm)); cbn [andb]; [|by apply IH].
  apply wp_bind, wp_acquire; [rewrite Hh; not_held|]. apply wp_bind. eapply wp_load; [exact E|].
  apply wp_bind. eapply (wp_release _ (held w)); [done|rewrite Hh; not_held|].
  replace (set_held (held w) (set_held (TgLock p :: held w) w)) with w by (by destruct w).
  destruct (has (tg_flags t) XPMEM_FLAG_DESTROYING); cbn [negb]; [by apply IH|].
  eapply wp_seq; [by eapply tg_ref_ok|]. intros _ w' [? ?]. by apply wp_ret.
Qed.

Lemma first_where_app {V} (P : V -> bool) m l l' : (forall q, q ∈ l -> is_Some (m !! q)) ->
  first_where P m (l ++ l') = match first_where P m l with Some p => Some p | None => first_where P m l' end.
Proof.
  induction l as [|q l IH]; intros Hl; [done|]. cbn. destruct (Hl q) as [v ->]; [apply list_elem_of_here|].
  destruct (P v); [done|]. apply IH. intros; apply Hl; by apply list_elem_of_further.
Qed.

(** The thread group is still there to be torn down. *)
Definition ready w : Prop := forall tg t, tgs w !! tg = Some t -> tg ∈ mjoin (hash_of w) -> tg_mm t = Some mm -> exiting fuel cur tg ∅ w.

Definition gone_from w (o : option positive) w' : Prop :=
  match o with
  | None => w' = w
  | Some tg => exiting fuel cur tg ∅ w' /\ held w' = [] /\ went tg w w' /\ exists t, tgs w !! tg = Some t /\ torn_down tg (tg_tgid t) w' /\
      forall s g, s ∈ seg_list t -> segs w !! s = Some g -> seg_hidden s g w'
  end.

Lemma teardown_from w w1 tg t :
  exiting fuel cur tg ∅ w -> held w = [] -> tgs w !! tg = Some t -> has (tg_flags t) XPMEM_FLAG_DESTROYING = false ->
  Inv (∅ ⊎ {[+ tg +]}) ∅ ∅ ∅ w1 -> w1 ≡ w -> Keeps.kept None w w1 ->
  wp (xpmem_teardown fuel cur tg) (fun _ w' => gone_from w (Some tg) w') w1.
Proof.
  intros He Hh Et Hd HI1 Hq K1. destruct (equiv_tg _ _ _ _ (symmetry Hq) Et) as [n Et1].
  pose proof (equiv_invalidated _ _ (symmetry Hq)) as Hinv.
  eapply wp_mono; [eapply (teardown_ok HG fuel cur tg ∅ w1); [tokens| |by rewrite (equiv_held _ _ Hq)|exact Et1|exact Hd]|].
  - apply (exiting_kept _ _ _ ∅ _ w); try done.
    + apply (VmaWf_equiv w); [done|apply He].
    + apply (AttWf_equiv w); [done|apply He].
    + apply (Resting_invalidated w); [done|apply He].
    + by apply inv_hash.
  - intros _ w' (He' & Hh' & Hs & Ht & Hhid).
    assert (went tg w w1) as Hw1 by (split; [by apply spared_invalidated|done|by apply faded_invalidated]).
    split; [done|]. split; [done|]. split; [by eapply went_trans|]. exists t. split; [done|]. split; [done|].
    intros s g Hin Eg. destruct (equiv_seg _ _ _ _ (symmetry Hq) Eg) as [m Eg1]. exact (Hhid s _ Hin Eg1).
Qed.

Section search.
Context (w : world) (HI : Inv ∅ ∅ ∅ ∅ w) (Hp : permits_ok w) (Hh : held w = []) (Hr : ready w).

Lemma release_search_ok suf : forall pre, hash_of w = pre ++ suf ->
  wp (release_search fuel cur mm (seq (length pre) (length suf))) (fun _ w' => gone_from w (first_where is_mm (tgs w) (mjoin suf)) w') w.
Proof.
  induction suf as [|b suf IH]; intros pre Eh; cbn; [by apply wp_ret|].
  assert (hash_of w !! length pre = Some b) as Eb by (rewrite Eh; by apply list_lookup_middle).
  assert (forall q, q ∈ b -> q ∈ mjoin (hash_of w) /\ is_Some (tgs w !! q)) as Hb
    by (intros q Hq; apply (hash_bucket_live ∅ ∅ ∅ ∅ w (length pre) q HI); unfold bucket; by rewrite Eb).
  rewrite first_where_app by (intros; by apply Hb).
  set (i := length pre) in *. destruct (inv_part HI) as [pt Ept].
  apply wp_bind, wp_acquire; [rewrite Hh; apply not_elem_of_nil|]. rewrite Hh. set (w0 := set_held _ w).
  apply wp_bind. eapply (wp_part_load pt); [done|]. unfold hash_of in Eb. rewrite Ept in Eb. rewrite Eb. apply wp_bind, wp_ret.
  eapply wp_seq; [apply (wp_keeps None); [apply keeps_mm_scan|done|apply (mm_scan_ok ∅ w0 b i); try done; [by eapply Inv_same|tokens|by intros; apply Hb]]|].
  intros r w1 [Hs K1]. change (tgs w0) with (tgs w) in Hs. destruct (first_where is_mm (tgs w) b) as [tg|] eqn:Ef.
  - destruct Hs as (-> & HI1 & Hq). apply wp_bind. eapply (wp_release _ []); [by rewrite (equiv_held _ _ Hq)|apply not_elem_of_nil|].
    apply first_where_Some in Ef as (Hin & t & Et & [Em%bool_decide_eq_true Hd%negb_true_iff]%andb_true_iff).
    apply (teardown_from w _ tg t); try done.
    + apply (Hr tg t); try done. by apply Hb.
    + by eapply Inv_same.
    + replace w with (set_held [] w0) by (rewrite <- Hh; by destruct w). by apply set_held_proper.
    + destruct K1. by split.
  - destruct Hs as (-> & ->). apply wp_bind. eapply (wp_release _ []); [done|apply not_elem_of_nil|].
    replace (set_held [] w0) with w by (rewrite <- Hh; by destruct w).
    specialize (IH (pre ++ [b])). rewrite length_app, Nat.add_1_r in IH. apply IH. by rewrite <- app_assoc.
Qed.

Lemma mmu_release_ok : wp (xpmem_mmu_release fuel cur mm) (fun _ w' => gone_from w (release_target w) w') w.
Proof.
  unfold xpmem_mmu_release, release_target.
  assert (wp (release_search fuel cur mm (seq 0 (Z.to_nat XPMEM_TG_HASHTABLE_SIZE)))
    (fun _ w' => gone_from w (first_where is_mm (tgs w) (mjoin (hash_of w))) w') w) as Hsearch.
  { pose proof (release_search_ok (hash_of w) [] eq_refl) as H. by rewrite (hash_size (inv_tg HI)) in H. }
  eapply wp_seq; [apply (wp_keeps None); [apply keeps_tg_lookup|done|apply (tg_lookup_ok ∅ ∅ ∅ ∅); try done; [tokens|rewrite Hh; apply not_elem_of_nil]]|].
  intros r w1 [Hl K1]. destruct (find_tg w (cur_tgid cur)) as [tg|] eqn:Ef; [|by destruct Hl as [-> ->]].
  destruct Hl as (-> & HI1 & Hq). destruct (find_tg_gen_Some _ _ _ _ _ _ _ _ HI Ef) as (Hin & t & Et & _ & Hd).
  rewrite Et. destruct (equiv_tg _ _ _ _ (symmetry Hq) Et) as [n Et1]. apply wp_bind. eapply wp_load; [exact Et1|].
  cbn [tg_mm set_tg_refcnt]. case_bool_decide as Hm.
  - apply (teardown_from w w1 tg t); try done; [by apply (Hr tg t)|by apply Hd].
  - eapply wp_seq; [eapply (tg_deref_back ∅ ∅ ∅ ∅ w1 w); [exact HI1|done|done|by apply hashed_tgrefs]|]. intros _ w' ->. exact Hsearch.
Qed.
End search.
End mmu_release.

(** * What the other processes see *)

Section others.
Context `{K : Kernel}.
Context (tg : positive) (w w' : world) (t t1 : xpmem_thread_group).
Context (HI : Inv ∅ ∅ ∅ ∅ w) (Hs : spared tg w w') (Et : tgs w !! tg = Some t) (Et1 : tgs w' !! tg = Some t1).
Context (Htid : tg_tgid t1 = tg_tgid t).

Lemma spared_find_tg tgid : tgid <> tg_tgid t -> find_tg w' tgid = find_tg w tgid.
Proof.
  intros Hne. unfold find_tg, find_tg_gen. rewrite (sp_hash _ _ _ Hs). apply first_where_agree. intros q Hq.
  destruct (hash_bucket_live _ _ _ _ _ _ _ HI Hq) as [Hh [u Eu]]. destruct (decide (q = tg)) as [->|Hq'].
  - rewrite Et, Et1. cbn. unfold is_tg. rewrite Htid. by rewrite (proj2 (Z.eqb_neq _ _)) by congruence.
  - destruct (sp_tg _ _ _ Hs q u Hq' Hh Eu) as (u' & Eu' & F1 & F2 & _). rewrite Eu, Eu'. cbn. unfold is_tg. by rewrite F1, F2.
Qed.

Lemma spared_found tgid q : tgid <> tg_tgid t -> find_tg w tgid = Some q ->
  q <> tg /\ q ∈ mjoin (hash_of w) /\ exists u u', tgs w !! q = Some u /\ tgs w' !! q = Some u' /\
    seg_list u' = seg_list u /\ ap_hashtable u' = ap_hashtable u.
Proof.
  intros Hne Ef. destruct (find_tg_gen_Some _ _ _ _ _ _ _ _ HI Ef) as (Hh & u & Eu & Hu & _).
  assert (q <> tg) as Hq by (intros ->; congruence).
  destruct (sp_tg _ _ _ Hs q u Hq Hh Eu) as (u' & Eu' & _ & _ & F). eauto 10.
Qed.

Lemma spared_live_segs id : xpmem_segid_to_tgid id <> tg_tgid t -> live_segs w' id = live_segs w id.
Proof.
  intros Hne. unfold live_segs, resolve_seg, mbind, option_bind. rewrite spared_find_tg by done.
  destruct (find_tg w (xpmem_segid_to_tgid id)) as [q|] eqn:Ef; [|done].
  destruct (spared_found _ _ Hne Ef) as (Hq & Hh & u & u' & Eu & Eu' & El & _).
  assert (forall s, s ∈ seg_list u -> seg_info_of <$> segs w' !! s = seg_info_of <$> segs w !! s /\
    is_seg id <$> segs w' !! s = is_seg id <$> segs w !! s) as Hag.
  { intros s Hin. rewrite <- (list_of_Some seg_list _ _ _ Eu) in Hin. destruct (seg_list_live _ _ _ _ w q s HI Hin) as (g & Eg & _).
    destruct (sp_seg _ _ _ Hs q s g Hq Hh Hin Eg) as (g' & Eg' & N). rewrite Eg, Eg'. cbn.
    split; f_equal; symmetry; [exact (f_equal seg_info_of N)|exact (f_equal (is_seg id) N)]. }
  assert (find_seg w' q id = find_seg w q id) as Es.
  { unfold find_seg. rewrite (list_of_Some _ _ _ u'), (list_of_Some _ _ _ u), El by done. apply first_where_agree. intros s Hin. by apply Hag. }
  rewrite Es. destruct (find_seg w q id) as [s|] eqn:E; [|done].
  apply Hag. apply first_where_Some in E as [Hin _]. by rewrite (list_of_Some _ _ _ u) in Hin.
Qed.

Lemma spared_live_aps id : xpmem_apid_to_tgid id <> tg_tgid t -> live_aps w' id = live_aps w id.
Proof.
  intros Hne. unfold live_aps, resolve_ap, mbind, option_bind. rewrite spared_find_tg by done.
  destruct (find_tg w (xpmem_apid_to_tgid id)) as [q|] eqn:Ef; [|done].
  destruct (spared_found _ _ Hne Ef) as (Hq & Hh & u & u' & Eu & Eu' & _ & El). set (j := xpmem_ap_hashtable_index id).
  assert (forall a, a ∈ bucket (ap_hashtable u) j -> ap_info_of <$> aps w' !! a = ap_info_of <$> aps w !! a /\
    is_ap id <$> aps w' !! a = is_ap id <$> aps w !! a) as Hag.
  { intros a Hin. destruct (ap_bucket_live _ _ _ _ _ _ _ _ _ HI Eu Hin) as (_ & x & Ex & Hx).
    destruct (sp_ap _ _ _ Hs a x Ex) as (x' & Ex' & N); [congruence|]. rewrite Ex, Ex'. cbn.
    split; f_equal; symmetry; [exact (f_equal ap_info_of N)|exact (f_equal (is_ap id) N)]. }
  assert (find_ap w' q id = find_ap w q id) as Es.
  { unfold find_ap. rewrite (list_of_Some _ _ _ u'), (list_of_Some _ _ _ u), El by done. apply first_where_agree. intros a Hin. by apply Hag. }
  rewrite Es. destruct (find_ap w q id) as [a|] eqn:E; [|done].
  apply Hag. apply first_where_Some in E as [Hin _]. by rewrite (list_of_Some _ _ _ u) in Hin.
Qed.
End others.
