(* ===== verification/Flush.v ===== *)
(** Closing the device (xpmem_main.c): [xpmem_flush] after the address space is gone takes the
    thread group out of the table and frees it; before that, it does not tear it down. *)

From S2P Require Import Prelude Kernel World Monad Ids Misc Pfn Attach Make Get Notifier Main Inv Graph Link Refs Lookup.
From S2P Require Import MakeSpec Invalidated ClearSpec FaultSpec DetachSpec RemoveSpec Registry ReleaseSpec Keeps Wf Teardown.

Section flush.
Context `{K : Kernel}.
Implicit Types (w : world) (cur : task).

(** The close that counts: the last one of the table of descriptors, or one at exit. *)
Definition last_close cur (owner : option positive) : Prop := cur_files cur = None \/ cur_files cur = owner.

Lemma last_close_guard cur owner : last_close cur owner ->
  bool_decide (is_Some (cur_files cur)) && negb (bool_decide (cur_files cur = owner)) = false.
Proof.
  intros [-> | ->]; [by rewrite bool_decide_eq_false_2 by (by intros [])|]. by rewrite (bool_decide_eq_true_2 (owner = owner)), andb_false_r.
Qed.

(** Looking up a thread group in any state: exactly its count changes. *)
Lemma tg_lookup_exact w tgid d tg t :
  Inv ∅ ∅ ∅ ∅ w -> permits_ok w -> find_tg_gen w tgid d = Some tg -> tgs w !! tg = Some t ->
  wp (xpmem_tg_ref_by_tgid_nolock_internal tgid (xpmem_tg_hashtable_index tgid) d) (fun r w' => r = inr tg /\
    Inv (∅ ⊎ {[+ tg +]}) ∅ ∅ ∅ w' /\ w' = set_tgs (<[tg := set_tg_refcnt (tg_refcnt t + 1) t]> (tgs w)) w) w.
Proof.
  intros HI Hp Ef Et. eapply wp_mono; [apply (tg_lookup_nolock_ok ∅ ∅ ∅ ∅); [done|done|tokens]|]. rewrite Ef.
  intros r w' (-> & HI' & Hq). split; [done|]. split; [done|].
  destruct (wp_inv _ _ _ (wp_tg_ref ∅ ∅ ∅ ∅ w tg t HI Et ltac:(eapply tg_room; [done|done|tokens]))) as ([] & w2 & _ & -> & HI2).
  eapply Inv_equiv_eq; [done|done|]. rewrite Hq. symmetry. by apply equiv_tg_refcnt.
Qed.

Lemma set_tgs_same tg t w : tgs w !! tg = Some t -> set_tgs (<[tg := t]> (tgs w)) w = w.
Proof. intros E. rewrite insert_id by done. by destruct w. Qed.

Lemma notifier_unlink_ok T fuel cur tg t w :
  Inv T ∅ ∅ ∅ w -> held w = [] -> tgs w !! tg = Some t -> (tg, tg_mm t) ∉ notifiers w ->
  wp (xpmem_mmu_notifier_unlink fuel cur tg) (fun _ w' => Inv T ∅ ∅ ∅ w' /\ exists t', w' = set_tgs (<[tg := t']> (tgs w)) w) w.
Proof.
  intros HI Hh Et Hn. pose proof (tg_all (inv_tg HI) tg t Et) as Hok. pose proof (tg_uniq_range Hok).
  apply wp_bind, wp_acquire; [rewrite Hh; apply not_elem_of_nil|]. rewrite Hh. apply wp_bind. eapply wp_load; [exact Et|].
  destruct (negb (mmu_initialized t) || mmu_unregister_called t).
  - eapply (wp_release _ []); [done|apply not_elem_of_nil|].
    assert (set_held [] (set_held [TgLock tg] w) = w) as -> by (rewrite <- Hh; by destruct w).
    split; [done|]. exists t. by rewrite set_tgs_same.
  - apply wp_bind. eapply wp_store; [exact Et|]. apply wp_bind. eapply (wp_release _ []); [done|apply not_elem_of_nil|].
    set (w1 := set_held [] _).
    assert (w1 = set_tgs (<[tg := set_mmu_unregister_called true t]> (tgs w)) w) as -> by (unfold w1; rewrite <- Hh; by destruct w).
    assert (Inv T ∅ ∅ ∅ (set_tgs (<[tg := set_mmu_unregister_called true t]> (tgs w)) w)) as HI1.
    { eapply (Inv_tg_update T T); [done|done| |done|apply Hok..]. split; cbn; try done; first [lia|by left]. }
    apply wp_bind, wp_might_sleep; [cbn; by rewrite Hh|]. apply wp_bind, wp_get. cbn. rewrite bool_decide_eq_false_2 by done.
    apply wp_ret. split; [done|]. by eexists.
Qed.

Lemma run_bind {A B} (P : outcome world B -> Prop) (m : M A) (f : A -> M B) w :
  wp m (fun a w' => P (f a w')) w -> P ((m ≫= f) w).
Proof. unfold wp, mbind, M_bind. by destruct (m w). Qed.

(** Off the table, with one more reference; the entry of the process is gone. *)
Definition unhashed cur (tg : positive) t pt w : world :=
  set_procfs (unlink (cur_tgid cur) (procfs w))
    (set_part (Some (set_tg_hashtable (bucket_del (xpmem_tg_hashtable_index (cur_tgid cur)) tg (tg_hashtable pt)) pt))
      (set_tgs (<[tg := set_tg_refcnt (tg_refcnt t + 1) t]> (tgs w)) w)).

Lemma flush_prefix (P : outcome world Z -> Prop) fuel cur owner w tg t pt :
  Inv ∅ ∅ ∅ ∅ w -> permits_ok w -> held w = [] -> part w = Some pt -> last_close cur owner ->
  find_tg_gen w (cur_tgid cur) true = Some tg -> tgs w !! tg = Some t ->
  P ((xpmem_destroy_tg fuel cur tg ;; mret 0) (unhashed cur tg t pt w)) -> P (xpmem_flush fuel cur owner w).
Proof.
  intros HI Hp Hh Ept Hl Ef Et HP. unfold xpmem_flush. rewrite last_close_guard by done.
  destruct (find_tg_gen_Some _ _ _ _ _ _ _ _ HI Ef) as (_ & t' & Et' & Htid & _). assert (t' = t) as -> by congruence.
  apply run_bind, wp_acquire; [rewrite Hh; apply not_elem_of_nil|]. rewrite Hh. set (w0 := set_held _ w).
  apply run_bind. eapply wp_mono; [apply (tg_lookup_exact w0 (cur_tgid cur) true tg t); [by eapply Inv_same|done..]|].
  intros r w1 (-> & _ & ->). apply run_bind. eapply (wp_part_store pt); [done|].
  apply run_bind. eapply (wp_release _ []); [done|apply not_elem_of_nil|].
  apply run_bind. eapply wp_load; [apply lookup_insert_eq|].
  apply run_bind, wp_acquire; [apply not_elem_of_nil|]. apply run_bind, wp_modify. apply run_bind.
  eapply (wp_release _ []); [done|apply not_elem_of_nil|].
  match goal with |- P (_ ?W) => replace W with (unhashed cur tg t pt w); [exact HP|] end.
  unfold unhashed. cbn. rewrite Htid. unfold w0. destruct w. cbn in *. by subst.
Qed.

Lemma flush_ok fuel cur owner w tg t :
  Inv ∅ ∅ ∅ ∅ w -> permits_ok w -> held w = [] -> last_close cur owner ->
  find_tg_gen w (cur_tgid cur) true = Some tg -> tgs w !! tg = Some t -> has (tg_flags t) XPMEM_FLAG_DESTROYED = true ->
  (tg, tg_mm t) ∉ notifiers w ->
  wp (xpmem_flush fuel cur owner) (fun r w' => r = 0 /\ Inv ∅ ∅ ∅ ∅ w' /\ held w' = [] /\
    segs w' = segs w /\ aps w' = aps w /\ atts w' = atts w /\ vmas w' = vmas w /\ pgt w' = pgt w /\
    (forall q, q <> tg -> tgs w' !! q = tgs w !! q) /\
    hash_of w' = bucket_del (xpmem_tg_hashtable_index (cur_tgid cur)) tg (hash_of w) /\
    procfs w' = unlink (cur_tgid cur) (procfs w)) w.
Proof.
  intros HI Hp Hh Hl Ef Et Hd Hn.
  destruct (find_tg_gen_Some _ _ _ _ _ _ _ _ HI Ef) as (Hin & t' & Et' & Htid & _). assert (t' = t) as -> by congruence. clear Et'.
  destruct (inv_part HI) as [pt Ept]. assert (hash_of w = tg_hashtable pt) as Eh by (unfold hash_of; by rewrite Ept).
  unfold wp. apply (flush_prefix (fun o => match o with Ok r w' => _ | Fault _ => False end) fuel cur owner w tg t pt); try done.
  set (t1 := set_tg_refcnt (tg_refcnt t + 1) t).
  destruct (wp_inv _ _ _ (wp_tg_ref ∅ ∅ ∅ ∅ w tg t HI Et ltac:(eapply tg_room; [done|done|tokens]))) as ([] & w1 & _ & E1 & HI1). fold t1 in E1.
  pose proof (Inv_tg_unhash _ ∅ ∅ ∅ w1 tg t1 pt HI1 ltac:(by rewrite E1) ltac:(rewrite E1; apply lookup_insert_eq) ltac:(by rewrite <- Eh) Hd) as HI2.
  change (tg_tgid t1) with (tg_tgid t) in HI2. rewrite Htid in HI2. set (w4 := unhashed cur tg t pt w).
  assert (Inv (∅ ⊎ {[+ tg +]} ⊎ {[+ tg +]}) ∅ ∅ ∅ w4) as HI4 by (eapply Inv_same; [exact HI2|by rewrite E1..]).
  match goal with |- match _ with Ok r w' => @?Q r w' | Fault _ => False end =>
    change (wp (xpmem_destroy_tg fuel cur tg ;; mret 0) Q w4) end.
  eapply wp_seq; [|intros r w' H; apply wp_ret; exact (conj eq_refl H)]. unfold xpmem_destroy_tg, xpmem_tg_destroyable.
  eapply wp_seq; [apply (notifier_unlink_ok _ fuel cur tg t1 w4 HI4 Hh); [apply lookup_insert_eq|done]|].
  intros _ w5 (HI5 & t5 & E5).
  eapply wp_seq; [apply (wp_tg_deref _ ∅ ∅ ∅ w5 tg HI5)|]. intros _ w6 (HI6 & (m6 & u6 & E6 & Hm6) & _).
  eapply wp_mono; [apply (wp_tg_deref _ ∅ ∅ ∅ w6 tg HI6)|]. intros _ w7 (HI7 & (m7 & u7 & E7 & Hm7) & _).
  split; [done|]. rewrite E7, E6, E5. unfold w4. cbn. split_and!; try done.
  - intros q Hq. rewrite (Hm7 q Hq), E6. cbn. rewrite (Hm6 q Hq), E5. cbn. by rewrite !lookup_insert_ne by done.
  - by rewrite Eh.
Qed.

(** No thread group of the process, or a close that does not count: nothing happens. *)
Lemma flush_none fuel cur owner w :
  Inv ∅ ∅ ∅ ∅ w -> permits_ok w -> held w = [] -> last_close cur owner -> find_tg_gen w (cur_tgid cur) true = None ->
  wp (xpmem_flush fuel cur owner) (fun r w' => r = 0 /\ w' = w) w.
Proof.
  intros HI Hp Hh Hl Ef. unfold xpmem_flush. rewrite last_close_guard by done.
  apply wp_bind, wp_acquire; [rewrite Hh; apply not_elem_of_nil|]. rewrite Hh.
  eapply wp_seq; [apply (tg_lookup_nolock_ok ∅ ∅ ∅ ∅); [by eapply Inv_same|done|tokens]|].
  change (find_tg_gen (set_held [TgHashLock (xpmem_tg_hashtable_index (cur_tgid cur))] w) (cur_tgid cur) true) with (find_tg_gen w (cur_tgid cur) true). rewrite Ef. intros r w' [-> ->].
  apply wp_bind. eapply (wp_release _ []); [done|apply not_elem_of_nil|]. apply wp_ret. split; [done|]. rewrite <- Hh. by destruct w.
Qed.

Lemma flush_other fuel cur owner w : ~ last_close cur owner -> xpmem_flush fuel cur owner w = Ok 0 w.
Proof.
  intros Hn. unfold xpmem_flush. replace (bool_decide _ && negb _) with true; [done|]. symmetry. apply andb_true_iff.
  unfold last_close in Hn. destruct (cur_files cur) as [f|]; [|tauto]. split; [by apply bool_decide_eq_true|].
  apply negb_true_iff, bool_decide_eq_false. tauto.
Qed.

(** A destroyed thread group that leaves the table takes nothing live along. *)
Section left.
Context (w w' : world) (tg : positive) (t : xpmem_thread_group).
Context (HI : Inv ∅ ∅ ∅ ∅ w) (HI' : Inv ∅ ∅ ∅ ∅ w') (Et : tgs w !! tg = Some t).
Context (Hd : has (tg_flags t) XPMEM_FLAG_DESTROYED = true) (Hin : tg ∈ mjoin (hash_of w)).
Context (Hh : hash_of w' = bucket_del (xpmem_tg_hashtable_index (tg_tgid t)) tg (hash_of w)).
Context (Hq : forall q, q <> tg -> tgs w' !! q = tgs w !! q).

Lemma left_unhashed : tg ∉ mjoin (hash_of w').
Proof using HI Et Hin Hh. rewrite Hh, (hash_unlink _ _ _ _ _ _ _ HI Et Hin), elem_of_unlink. tauto. Qed.

Lemma left_list_of (f : xpmem_thread_group -> list positive) q :
  (forall u, has (tg_flags u) XPMEM_FLAG_DESTROYED = true -> seg_list u = [] -> mjoin (ap_hashtable u) = [] -> f u = []) ->
  list_of f (tgs w') q = list_of f (tgs w) q.
Proof using HI HI' Et Hd Hin Hh Hq.
  intros Hf. destruct (decide (q = tg)) as [->|Hne]; [|unfold list_of; by rewrite (Hq q Hne)].
  destruct (tg_destroyed (tg_all (inv_tg HI) tg t Et) Hd) as (_ & H1 & H2). rewrite (list_of_Some f (tgs w) tg t), (Hf t) by done.
  unfold list_of. destruct (tgs w' !! tg) as [t'|] eqn:Et'; [|done]. cbn. pose proof (tg_all (inv_tg HI') tg t' Et') as Hok.
  pose proof (tg_unhashed Hok left_unhashed) as Hd'. destruct (tg_destroyed Hok Hd') as (_ & H1' & H2'). by apply Hf.
Qed.

Lemma left_seg_list q : list_of seg_list (tgs w') q = list_of seg_list (tgs w) q.
Proof using HI HI' Et Hd Hin Hh Hq. by apply left_list_of. Qed.

Lemma left_find_tg tgid : find_tg w' tgid = find_tg w tgid.
Proof using HI Et Hd Hin Hh Hq.
  unfold find_tg, find_tg_gen. rewrite Hh, bucket_bucket_del. set (P := is_tg tgid false). set (i := xpmem_tg_hashtable_index tgid).
  assert (forall q, q ∈ bucket (hash_of w) i -> is_Some (tgs w !! q)) as Hlive by (intros q H; by eapply hash_bucket_live).
  assert (first_where P (tgs w) (unlink tg (bucket (hash_of w) i)) = first_where P (tgs w) (bucket (hash_of w) i)) as Eu.
  { apply first_where_unlink; [done|]. intros u Eu. assert (u = t) as -> by congruence. unfold P, is_tg.
    destruct (tg_destroyed (tg_all (inv_tg HI) tg t Et) Hd) as [-> _]. by rewrite andb_false_r. }
  case_decide as Hi.
  - rewrite <- Eu. apply first_where_agree. intros q [Hne _]%elem_of_unlink. by rewrite (Hq q Hne).
  - apply first_where_agree. intros q Hb. rewrite (Hq q); [done|]. intros ->. apply Hi.
    unfold bucket in Hb. destruct (hash_of w !! i) as [l|] eqn:El; [|by apply elem_of_nil in Hb].
    destruct (hash_entry (inv_tg HI) i l tg El Hb) as (u & Eu' & Ei). congruence.
Qed.

Lemma left_registry id : segs w' = segs w -> aps w' = aps w -> live_segs w' id = live_segs w id /\ live_aps w' id = live_aps w id.
Proof using HI HI' Et Hd Hin Hh Hq.
  intros Es Ea. split.
  - apply live_segs_ext; [apply left_find_tg| |intros; by rewrite Es].
    intros q i. unfold find_seg. by rewrite Es, left_seg_list.
  - apply live_aps_ext; [apply left_find_tg| |intros; by rewrite Ea].
    intros q i. unfold find_ap. rewrite Ea, left_list_of; [done|]. intros u _ _ Hn. unfold bucket.
    destruct (ap_hashtable u !! _) as [l|] eqn:El; [|done]. cbn. apply elem_of_nil_inv. intros a Hl.
    apply (not_elem_of_nil a). rewrite <- Hn. apply list_elem_of_join. eauto using list_elem_of_lookup_2.
Qed.
End left.

(** ** Before the address space is gone *)

Lemma tg_scan_none w l tgid d :
  (forall p, p ∈ l -> exists t, tgs w !! p = Some t /\ is_tg tgid d t = false) ->
  wp (tg_scan l tgid d) (fun r w' => r = inl (- ENOENT) /\ w' = w) w.
Proof.
  induction l as [|p l IH]; intros Hl; [done|]. cbn. destruct (Hl p) as (t & Et & Hf); [apply list_elem_of_here|].
  assert (wp (tg_scan l tgid d) (fun r w' => r = inl (- ENOENT) /\ w' = w) w) as H by (apply IH; intros; apply Hl; by apply list_elem_of_further).
  apply wp_bind. eapply wp_load; [exact Et|]. unfold is_tg in Hf. destruct (tg_tgid t =? tgid); [|done]. cbn in Hf |- *.
  destruct d; [done|]. by destruct (has (tg_flags t) XPMEM_FLAG_DESTROYING).
Qed.

Lemma mm_scan_none w l mm i :
  held w = [TgHashLock i] -> (forall p, p ∈ l -> exists t, tgs w !! p = Some t /\ is_mm mm t = false) ->
  wp (mm_scan l mm) (fun r w' => r = None /\ w' = w) w.
Proof.
  intros Hh. induction l as [|p l IH]; intros Hl; [done|]. cbn. destruct (Hl p) as (t & Et & Hf); [apply list_elem_of_here|].
  assert (wp (mm_scan l mm) (fun r w' => r = None /\ w' = w) w) as H by (apply IH; intros; apply Hl; by apply list_elem_of_further).
  apply wp_bind. eapply wp_load; [exact Et|]. unfold is_mm in Hf. destruct (bool_decide _); [|done]. cbn in Hf.
  apply wp_bind, wp_acquire; [rewrite Hh; not_held|]. apply wp_bind. eapply wp_load; [exact Et|].
  apply wp_bind. eapply (wp_release _ (held w)); [done|rewrite Hh; not_held|].
  replace (set_held (held w) (set_held (TgLock p :: held w) w)) with w by (by destruct w).
  by apply negb_false_iff in Hf as ->.
Qed.

(** No live thread group of the process, none of the address space: nothing is torn down. *)
Lemma release_none fuel cur mm w pt :
  held w = [] -> part w = Some pt -> length (tg_hashtable pt) = 8%nat ->
  (forall p, p ∈ mjoin (tg_hashtable pt) -> exists t, tgs w !! p = Some t /\ is_tg (cur_tgid cur) false t = false /\ is_mm mm t = false) ->
  wp (xpmem_mmu_release fuel cur mm) (fun _ w' => w' = w) w.
Proof.
  intros Hh Ep H8 Hall.
  assert (forall L, set_held [] (set_held L w) = w) as Hback by (intros; rewrite <- Hh; by destruct w).
  assert (forall i l p, tg_hashtable pt !! i = Some l -> p ∈ l -> p ∈ mjoin (tg_hashtable pt)) as Hj
    by (intros i l p Ei Hin; apply list_elem_of_join; eauto using list_elem_of_lookup_2).
  assert (forall l, (forall i, i ∈ l -> (i < 8)%nat) -> wp (release_search fuel cur mm l) (fun _ w' => w' = w) w) as Hsearch.
  { induction l as [|i l IH]; intros Hl; cbn; [done|].
    destruct (lookup_lt_is_Some_2 (tg_hashtable pt) i) as [b Eb]; [rewrite H8; apply Hl, list_elem_of_here|].
    apply wp_bind, wp_acquire; [rewrite Hh; apply not_elem_of_nil|]. rewrite Hh. apply wp_bind. eapply (wp_part_load pt); [done|].
    rewrite Eb. apply wp_bind, wp_ret. eapply wp_seq; [apply (mm_scan_none _ b mm i); [done|]|].
    { intros p Hp. destruct (Hall p) as (t & Et & _ & H); [by eapply Hj|]. by exists t. }
    intros r w' [-> ->]. apply wp_bind. eapply (wp_release _ []); [done|apply not_elem_of_nil|]. rewrite Hback.
    apply IH. intros j Hin. apply Hl. by right. }
  unfold xpmem_mmu_release. eapply (wp_seq _ _ (fun r w' => r = inl (- ENOENT) /\ w' = w)).
  - unfold xpmem_tg_ref_by_tgid, xpmem_tg_ref_by_tgid_gen. set (i := xpmem_tg_hashtable_index (cur_tgid cur)).
    eapply (wp_locked _ _ (fun r w' => r = inl (- ENOENT) /\ w' = set_held [TgHashLock i] w)); [rewrite Hh; apply not_elem_of_nil| |].
    + rewrite Hh. apply wp_bind. eapply (wp_part_load pt); [done|].
      destruct (lookup_lt_is_Some_2 (tg_hashtable pt) i) as [b Eb]; [rewrite H8; apply tg_index_lt|]. rewrite Eb. apply wp_bind, wp_ret.
      eapply wp_mono; [apply tg_scan_none|by intros r w' [-> ->]]. intros p Hp. destruct (Hall p) as (t & Et & H & _); [by eapply Hj|]. by exists t.
    + intros r w' [-> ->]. by rewrite Hh, Hback.
  - intros r w' [-> ->]. apply Hsearch. intros i [_ Hi]%elem_of_seq. done.
Qed.

(** The only reference on a thread group that nobody uses is that of the table. *)
Lemma seg_refs_none T S A B tg w :
  Inv T S A B w -> (forall a x g, aps w !! a = Some x -> segs w !! ap_seg x = Some g -> seg_tg g <> tg) ->
  map_sum (key_refs tg) (seg_key <$> segs w) = 0%nat.
Proof.
  intros HI Hno. apply map_sum_none. intros s k. rewrite lookup_fmap. destruct (segs w !! s) as [g|] eqn:Eg; [|done]. cbn. intros [= <-].
  unfold key_refs, seg_key. cbn. case_decide as Hg; [|done]. destruct (seg_ap_list g) as [|a l] eqn:El; [done|]. exfalso.
  destruct (linked_permit _ _ _ _ _ _ _ a HI Eg) as ((x & Ex & Hx) & _); [rewrite El; apply list_elem_of_here|].
  apply (Hno a x g); [done|by rewrite Hx|done].
Qed.

Lemma run_assoc {A B C} (P : outcome world C -> Prop) (m : M A) (f : A -> M B) (g : B -> M C) w :
  P ((m ≫= (fun a => f a ≫= g)) w) -> P (((m ≫= f) ≫= g) w).
Proof. unfold mbind, M_bind. by destruct (m w). Qed.

(** Giving back a reference that is not the last one. *)
Lemma tg_deref_step w tg t :
  tgs w !! tg = Some t -> tg_refcnt t = 2 ->
  wp (xpmem_tg_deref tg) (fun _ w' => w' = set_tgs (<[tg := set_tg_refcnt 1 t]> (tgs w)) w) w.
Proof.
  intros Et Hr. apply wp_bind. eapply wp_load; [exact Et|]. rewrite Hr. apply wp_bind, wp_DBUG_ON; [done|].
  apply wp_bind. eapply wp_store; [exact Et|]. rewrite Hr. by apply wp_ret.
Qed.

(** The last one, on a thread group that was not destroyed. *)
Lemma tg_deref_last w tg t leader :
  tgs w !! tg = Some t -> tg_refcnt t = 1 -> has (tg_flags t) XPMEM_FLAG_DESTROYED = false -> group_leader t = Some leader ->
  xpmem_tg_deref tg w =
    if USE_DBUG_ON then Fault BugOn
    else Ok () (set_tgs (delete tg (tgs w)) (set_task_usage (<[leader := default 0 (task_usage w !! leader) - 1]> (task_usage w)) w)).
Proof.
  intros Et Hr Hd Hg. unfold xpmem_tg_deref, tg_load, tg_store, load, store, DBUG_ON, whenM, BUG_ON. cbn.
  unfold mbind, M_bind. cbn. rewrite Et, Hr, Hd, Hg. cbn. destruct USE_DBUG_ON; unfold mret, M_ret; cbn; rewrite Et; cbn; change (s32 (1 - 1) =? 0) with true; cbn; [done|].
  unfold kfree. cbn. rewrite lookup_insert_eq, delete_insert_eq. done.
Qed.

(** C39: a process that closes the device while its address space is still there is not torn down:
    the thread group is taken off the table first, so that the release callback that the
    unregistration runs does not find it.  When no other process has a permit on its segments, a
    build with assertions stops at the check that a thread group that is freed was destroyed, and
    a build without them frees the thread group and leaves its segments and permits behind. *)
Theorem explicit_close_not_torn_down fuel cur owner mm tg t w :
  Inv ∅ ∅ ∅ ∅ w -> permits_ok w -> held w = [] -> last_close cur owner ->
  find_tg_gen w (cur_tgid cur) true = Some tg -> tgs w !! tg = Some t -> has (tg_flags t) XPMEM_FLAG_DESTROYED = false ->
  tg_mm t = Some mm -> mmu_initialized t = true -> mmu_unregister_called t = false -> (tg, Some mm) ∈ notifiers w ->
  (forall q u, q <> tg -> q ∈ mjoin (hash_of w) -> tgs w !! q = Some u -> tg_tgid u <> cur_tgid cur /\ tg_mm u <> Some mm) ->
  (forall a x g, aps w !! a = Some x -> segs w !! ap_seg x = Some g -> seg_tg g <> tg) ->
  if USE_DBUG_ON then xpmem_flush fuel cur owner w = Fault BugOn
  else exists w', xpmem_flush fuel cur owner w = Ok 0 w' /\ tgs w' !! tg = None /\ segs w' = segs w /\ aps w' = aps w.
Proof.
  intros HI Hp Hh Hl Ef Et Hd Hm Hi Hc Hn Hother Hno.
  set (P := fun o : outcome world Z => if USE_DBUG_ON then o = Fault BugOn
    else exists w', o = Ok 0 w' /\ tgs w' !! tg = None /\ segs w' = segs w /\ aps w' = aps w).
  change (P (xpmem_flush fuel cur owner w)).
  destruct (find_tg_gen_Some _ _ _ _ _ _ _ _ HI Ef) as (Hin & t' & Et' & Htid & _). assert (t' = t) as -> by congruence. clear Et'.
  destruct (inv_part HI) as [pt Ept]. assert (hash_of w = tg_hashtable pt) as Eh by (unfold hash_of; by rewrite Ept).
  apply (flush_prefix P fuel cur owner w tg t pt); try done. set (t1 := set_tg_refcnt (tg_refcnt t + 1) t). set (w4 := unhashed cur tg t pt w).
  assert (tgs w4 !! tg = Some t1) as Et4 by apply lookup_insert_eq.
  assert (tg_refcnt t = 1) as Hrc.
  { pose proof (tg_count (tg_all (inv_tg HI) tg t Et)) as H. unfold tg_refs in H.
    rewrite (b2n_true _ Hin), (seg_refs_none _ _ _ _ _ _ HI Hno), multiplicity_empty in H. exact H. }
  assert (part w4 = Some (set_tg_hashtable (bucket_del (xpmem_tg_hashtable_index (cur_tgid cur)) tg (tg_hashtable pt)) pt)) as Ept4 by done.
  unfold xpmem_destroy_tg. apply run_assoc, run_bind.
  eapply (wp_mono _ (fun _ w5 => exists n, w5 = set_notifiers n (set_tgs (<[tg := set_mmu_unregister_called true t1]> (tgs w4)) w4))).
  { apply wp_bind, wp_acquire; [cbn; rewrite Hh; apply not_elem_of_nil|]. apply wp_bind. eapply wp_load; [exact Et4|].
    cbn [mmu_initialized mmu_unregister_called t1 set_tg_refcnt]. rewrite Hi, Hc. cbn [negb orb].
    apply wp_bind. eapply wp_store; [exact Et4|]. apply wp_bind. eapply (wp_release _ []); [cbn; by rewrite Hh|apply not_elem_of_nil|].
    apply wp_bind, wp_might_sleep; [done|]. apply wp_bind, wp_get. cbn [tg_mm t1 set_tg_refcnt]. rewrite Hm, bool_decide_eq_true_2 by exact Hn.
    apply wp_bind, wp_ret. eapply wp_seq; [eapply release_none; [done|exact Ept4| |]|].
    - cbn. rewrite length_bucket_del, <- Eh. apply (hash_size (inv_tg HI)).
    - intros q Hq. cbn [tg_hashtable set_tg_hashtable] in Hq. rewrite <- Eh, <- Htid, (hash_unlink _ _ _ _ _ _ _ HI Et Hin) in Hq.
      apply elem_of_unlink in Hq as [Hne Hq]. pose proof Hq as (l & Hql & [j Hj]%list_elem_of_lookup)%list_elem_of_join.
      destruct (hash_entry (inv_tg HI) j l q Hj Hql) as (u & Eu & _).
      exists u. destruct (Hother q u Hne Hq Eu) as [H1 H2]. split_and!.
      + cbn. by rewrite !lookup_insert_ne by done.
      + unfold is_tg. by apply Z.eqb_neq in H1 as ->.
      + unfold is_mm. by rewrite bool_decide_eq_false_2.
    - intros _ w' ->. apply wp_modify. exists (unlink (tg, Some mm) (notifiers w)). unfold w4, unhashed. destruct w. cbn in *. by subst. }
  intros _ w5 [n ->].
  destruct (tg_leader (tg_all (inv_tg HI) tg t Et)) as [leader Hlead].
  set (t2 := set_mmu_unregister_called true t1). set (w5 := set_notifiers n _).
  assert (tgs w5 !! tg = Some t2) as Et5 by apply lookup_insert_eq.
  apply run_assoc, run_bind. eapply wp_mono; [apply (tg_deref_step w5 tg t2); [exact Et5|unfold t2, t1; cbn; by rewrite Hrc]|].
  intros _ w6 ->. unfold P, mbind, M_bind. rewrite (tg_deref_last _ tg (set_tg_refcnt 1 t2) leader); [|apply lookup_insert_eq|done..].
  destruct USE_DBUG_ON; [done|]. eexists. split; [reflexivity|]. split; [apply lookup_delete_eq|done].
Qed.
End flush.
