(* ===== verification/System.v ===== *)
(** The module as a whole: every process may call the device in any order, and the
    state stays consistent.

    [enter] collects the ways into the module.  Whatever the state, none of them
    changes the identity of an object that is left.  [step] is one call into the module, or
    a change of the kernel to the mappings that are not the module's; from a consistent state
    every call that the kernel and the processes may make returns, and leaves a consistent state. *)

From S2P Require Import Prelude Kernel World Monad Ids Misc Pfn Attach Fault Make Get Recall Notifier Main Module Inv Graph.
From S2P Require Import Link Refs Lookup MakeSpec GetSpec AccessSpec OpenSpec PfnSpec Invalidated ClearSpec Chain PinSpec FaultSpec.
From S2P Require Import DetachSpec CloseSpec RemoveSpec Registry ReleaseSpec MapSpec AttachSpec NotifierSpec LibSpec FaultWf Keeps Wf RecallSpec Teardown Flush.

(** * The ways into the module *)

(** The calls of the device and of its proc files, the operations of the vmas, and the
    callbacks of the mmu notifier, through the module's tables of operations.  The kernel calls the fault handler with the lock of the
    address space held, and takes the notifiers off an address space that it has released. *)
Inductive entry :=
  | EnterOpen
  | EnterFlush (owner : option positive)
  | EnterIoctl (copy_fails put_fails : bool) (cmd : xpmem_cmd)
  | EnterFault (mm v : positive) (vaddr : Z)
  | EnterVmaOpen (v : positive)
  | EnterVmaClose (v : positive)
  | EnterMunmap (start len : Z)
  | EnterInvalidate (tg mm : positive) (start end_ : Z)
  | EnterRelease (mm : positive)
  | EnterUnpin (tgid count : Z).

Section enter.
Context `{K : Kernel}.
Implicit Types (w : world) (cur : task).

Definition drop_notifiers (mm : positive) : M unit :=
  modify (fun w => set_notifiers (filter (fun n => n.2 <> Some mm) (notifiers w)) w).

Definition enter (fuel : nat) cur (e : entry) : M unit :=
  match e with
  | EnterOpen => fop_open xpmem_fops cur ;; mret ()
  | EnterFlush owner => fop_flush xpmem_fops fuel cur owner ;; mret ()
  | EnterIoctl copy_fails put_fails cmd => fop_unlocked_ioctl xpmem_fops fuel cur copy_fails put_fails cmd ;; mret ()
  | EnterFault mm v vaddr => xpmem_mmap_read_lock mm ;; vm_op_fault xpmem_vm_operations cur v vaddr ;; xpmem_mmap_read_unlock mm
  | EnterVmaOpen v => vm_op_open xpmem_vm_operations v
  | EnterVmaClose v => vm_op_close xpmem_vm_operations cur v
  | EnterMunmap start len => do_vm_munmap cur start len ;; mret ()
  | EnterInvalidate tg mm start end_ => mmu_invalidate_range_end xpmem_mmuops cur tg mm start end_
  | EnterRelease mm => mmu_release xpmem_mmuops fuel cur mm ;; drop_notifiers mm
  | EnterUnpin tgid count => xpmem_unpin_procfs_write fuel tgid count ;; mret ()
  end.

Lemma keeps_fault_entry n cur mm v vaddr :
  Keeps n (xpmem_mmap_read_lock mm ;; xpmem_fault_handler cur v vaddr ;; xpmem_mmap_read_unlock mm).
Proof.
  unfold xpmem_mmap_read_lock, xpmem_mmap_read_unlock. apply keeps_bind; [keeps|intros].
  apply keeps_bind; [apply keeps_fault|intros; keeps].
Qed.

Lemma keeps_enter b fuel cur e : Keeps (Some b) (enter fuel cur e).
Proof.
  destruct e; cbn; first
    [ apply keeps_bind; [|intros; apply keeps_ret];
      first [apply keeps_open|apply keeps_flush|apply keeps_ioctl|apply keeps_munmap|apply keeps_procfs_write]
    | apply keeps_fault_entry
    | apply keeps_open_handler | apply keeps_close | apply keeps_invalidate
    | apply keeps_bind; [apply keeps_mmu_release|intros; unfold drop_notifiers; keeps] ].
Qed.

(** C30: the identity of an object never changes, however the module is entered and in whatever
    state, consistent or not: when a call returns, every object that was there before and is
    left has its process, owner and address space (a thread group), its identifier, range,
    permissions and thread group (a segment), its identifier, mode, segment and thread group (a
    permit), its source address, permit and address space (an attachment). *)
Theorem identity_kept fuel cur e w w' :
  enter fuel cur e w = Ok () w' -> forall p, (p < next_ptr w)%positive ->
  (forall t', tgs w' !! p = Some t' -> exists t, tgs w !! p = Some t /\ tg_ident t = tg_ident t') /\
  (forall g', segs w' !! p = Some g' -> exists g, segs w !! p = Some g /\ seg_ident g = seg_ident g') /\
  (forall x', aps w' !! p = Some x' -> exists x, aps w !! p = Some x /\ ap_ident x = ap_ident x') /\
  (forall y', atts w' !! p = Some y' -> exists y, atts w !! p = Some y /\ att_ident y = att_ident y').
Proof.
  intros E p Hp. destruct (keeps_enter (next_ptr w) fuel cur e w () w') as [_ [H1 H2 H3 H4]]; [apply Pos.le_refl|exact E|].
  split_and!; intros v' Ev'; eauto.
Qed.
End enter.

(** * Consistent states *)

Section system.
Context `{K : Kernel}.
Implicit Types (w : world) (cur : task).

(** The address space of each process. *)
Context (mm_of : Z -> positive).

(** An attachment is in the address space of the process that has the permit. *)
Definition owned w : Prop := forall t y x p,
  atts w !! t = Some y -> aps w !! att_ap y = Some x -> tgs w !! ap_tg x = Some p ->
  att_mm y = Some (mm_of (tg_tgid p)).

Record consistent w : Prop := {
  con_inv : Inv ∅ ∅ ∅ ∅ w;
  con_vma : VmaWf w;
  con_att : AttWf w;
  con_seg : SegWf w;
  con_rest : Resting w;
  con_held : held w = [];
  con_owned : owned w;
  con_mm : forall p t, tgs w !! p = Some t -> tg_mm t = Some (mm_of (tg_tgid t));
}.

Lemma fresh_below w p : fresh_ok w ->
  is_Some (tgs w !! p) \/ is_Some (aps w !! p) \/ is_Some (atts w !! p) -> (p < next_ptr w)%positive.
Proof.
  intros Hf H. destruct (decide (p < next_ptr w)%positive) as [|Hn]; [done|].
  destruct (Hf p) as (E1 & E2 & E3 & E4); [lia|]. rewrite E1, E3, E4 in H. by destruct H as [[]|[[]|[]]].
Qed.

(** Objects that keep their identity keep their owner. *)
Lemma owned_kept w w' :
  Inv ∅ ∅ ∅ ∅ w -> Keeps.kept (Some (next_ptr w)) w w' -> owned w ->
  (forall t y' x' p', atts w !! t = None -> atts w' !! t = Some y' -> aps w' !! att_ap y' = Some x' ->
     tgs w' !! ap_tg x' = Some p' -> att_mm y' = Some (mm_of (tg_tgid p'))) ->
  owned w'.
Proof.
  intros HI Hk Ho Hnew t y' x' p' Ey' Ex' Ep'. pose proof (inv_fresh HI) as Hf.
  destruct (atts w !! t) as [y0|] eqn:E0; [|by eapply Hnew].
  destruct (kept_atts _ _ _ Hk t y') as (y & Ey & [= _ Hap Hmm]); [eapply fresh_below; eauto|done|].
  destruct (chain_of _ _ _ _ _ _ _ HI Ey) as (x & p & g & st & [_ _ [Ex Ep _ _ _ _ _]]); [by eapply rest_listed|].
  rewrite <- Hap in Ex'. destruct (kept_aps _ _ _ Hk (att_ap y) x') as (x2 & Ex2 & [= _ _ _ Htg]); [eapply fresh_below; eauto|done|].
  assert (x2 = x) as -> by congruence. rewrite <- Htg in Ep'.
  destruct (kept_tgs _ _ _ Hk (ap_tg x) p') as (p2 & Ep2 & [= Hid _ _ _ _]); [eapply fresh_below; eauto|done|].
  assert (p2 = p) as -> by congruence. rewrite <- Hmm, <- Hid. by eapply Ho.
Qed.

Lemma mm_kept w w' :
  Inv ∅ ∅ ∅ ∅ w -> Keeps.kept (Some (next_ptr w)) w w' ->
  (forall p t, tgs w !! p = Some t -> tg_mm t = Some (mm_of (tg_tgid t))) ->
  (forall p t', tgs w !! p = None -> tgs w' !! p = Some t' -> tg_mm t' = Some (mm_of (tg_tgid t'))) ->
  forall p t', tgs w' !! p = Some t' -> tg_mm t' = Some (mm_of (tg_tgid t')).
Proof.
  intros HI Hk Hm Hnew p t' E'. destruct (tgs w !! p) as [t|] eqn:E; [|by eapply Hnew].
  destruct (kept_tgs _ _ _ Hk p t') as (t0 & E0 & [= H1 _ _ _ H2]); [eapply fresh_below; [apply HI|eauto]|done|].
  rewrite <- H1, <- H2. by eapply Hm.
Qed.

Lemma consistent_kept w w' :
  consistent w -> Inv ∅ ∅ ∅ ∅ w' -> VmaWf w' -> AttWf w' -> SegWf w' -> Resting w' -> held w' = [] ->
  Keeps.kept (Some (next_ptr w)) w w' -> (forall t, is_Some (atts w' !! t) -> is_Some (atts w !! t)) ->
  (forall p t', tgs w !! p = None -> tgs w' !! p = Some t' -> tg_mm t' = Some (mm_of (tg_tgid t'))) -> consistent w'.
Proof.
  intros [HI _ _ _ _ _ Ho Hm] HI' HV HA HS HR Hh Hk Hn Hnt. split; try done; [apply (owned_kept w)|by apply (mm_kept w)]; try done.
  intros t y' x' p' E E'. destruct (Hn t) as [? ?]; [by rewrite E'|congruence].
Qed.

Lemma kept_all w w' b : Keeps.kept None w w' -> Keeps.kept (Some b) w w'.
Proof. intros [H1 H2 H3 H4]. split; intros p v _; [by apply H1|by apply H2|by apply H3|by apply H4]. Qed.

Lemma consistent_all w w' :
  consistent w -> Inv ∅ ∅ ∅ ∅ w' -> VmaWf w' -> AttWf w' -> Resting w' -> held w' = [] -> Keeps.kept None w w' -> consistent w'.
Proof.
  intros Hc HI' HV HA HR Hh Hk. eapply consistent_kept; try done.
  - eapply SegWf_kept; [done|apply Hc].
  - by apply kept_all.
  - intros t [y' E]. destruct (kept_atts _ _ _ Hk t y' I E) as (y & -> & _). done.
  - intros p t' E E'. destruct (kept_tgs _ _ _ Hk p t' I E') as (t & E0 & _). congruence.
Qed.
End system.

(** * Calls *)

Section calls.
Context `{K : Kernel} {G : KernelGeometry K} {PT : PageTables K} {ZP : ZapPtes K} {VT : VmaTree K} {UV : UnmapVma K} {MV : MapVma K} {MP : MapPages K}.
Context (HG : PGDIR_SHIFT <= PAGE_SHIFT + 31) (HT : CONFIG_TRANSPARENT_HUGEPAGE = true).
Context (mm_of : Z -> positive).
Implicit Types (w : world) (cur : task).

(** A process, in its own address space. *)
Record task_ok cur : Prop := {
  task_tgid : 0 < cur_tgid cur < 2 ^ 31;
  task_mm : cur_mm cur = Some (mm_of (cur_tgid cur));
  task_leader : cur_leader_mm cur = cur_mm cur;
}.

(** The process has not said more often that a fork ended than that one began. *)
Definition fork_ready (tgid : Z) w : Prop := forall tg t,
  find_tg w tgid = Some tg -> tgs w !! tg = Some t -> 0 <= n_recall_PFNs t < INT_MAX.

(** What the kernel passes on: ranges of user addresses, fewer than 2^31 pages to attach, and no
    FORK_BEGIN after a FORK_END too many. *)
Definition served cur w (cmd : xpmem_cmd) : Prop :=
  match cmd with
  | XPMEM_CMD_MAKE vaddr size _ _ => 0 <= vaddr /\ 0 <= size /\ vaddr + size < 2 ^ 64
  | XPMEM_CMD_ATTACH _ offset size vaddr =>
      0 <= vaddr /\ 0 <= size < 2 ^ 64 /\ offset < 2 ^ 63 /\ whole_pages size < 2 ^ 31 * PAGE_SIZE
  | XPMEM_CMD_FORK_BEGIN => fork_ready (cur_tgid cur) w
  | _ => True
  end.

(** Room for one more permit, and enough turns for the loops over permits, attachments and segments. *)
Definition room_left (fuel : nat) w : Prop :=
  Z.of_nat (base.size (aps w)) + 1 < 2 ^ 30 /\
  (base.size (aps w) <= fuel /\ base.size (atts w) <= fuel /\ base.size (segs w) <= fuel)%nat.

Lemma room_permits fuel w : room_left fuel w -> permits_ok w.
Proof. intros [H _]. unfold permits_ok. lia. Qed.

Section one_call.
Context (cur : task) (Hcur : task_ok cur) (w : world) (Hc : consistent mm_of w).

Lemma remove_spec_cases id (P : world -> Prop) : P w ->
  (forall tg s t g, tgs w !! tg = Some t -> s ∈ seg_list t -> P (removed tg s t g w)) -> P (remove_spec cur id w).2.
Proof.
  intros H1 H2. unfold remove_spec. destruct (id <=? 0); [done|]. destruct (find_tg w _) as [tg|] eqn:Ef; [|done].
  destruct (tgs w !! tg) as [t|] eqn:Et; [|done]. destruct (negb _); [done|]. destruct (find_seg w tg id) as [s|] eqn:Es; [|done].
  destruct (segs w !! s) as [g|]; [|done]. apply H2; [done|].
  destruct (find_seg_Some _ _ _ _ _ _ _ _ (con_inv _ _ Hc) Es) as (_ & _ & _ & _ & _ & Hin). by rewrite (list_of_Some _ _ _ t) in Hin.
Qed.

Lemma remove_consistent id : permits_ok w -> wp (xpmem_remove cur id) (fun _ w' => consistent mm_of w') w.
Proof.
  intros Hp. destruct Hc as [HI HV HA HS HR Hh Ho Hmm].
  eapply wp_mono; [apply (wp_keeps None); [apply keeps_remove|done|by apply (remove_ok HG)]|].
  intros r w' [(_ & Hinv & HI' & Hne & _) Hk]. cbn zeta in *.
  assert (VmaWf (remove_spec cur id w).2 /\ AttWf (remove_spec cur id w).2 /\ Resting (remove_spec cur id w).2 /\
    held (remove_spec cur id w).2 = []) as (H1 & H2 & H3 & H4).
  { apply remove_spec_cases; [done|]. intros tg s t g Et Es. unfold removed.
    split_and!; [apply (VmaWf_same w)|apply (AttWf_same w)|apply (Resting_removed tg ∅ ∅ ∅ ∅ w t s)|]; try done;
      try (unfold mark_removed; by case_match).
    intros s' Hs'. unfold mark_removed. case_match; cbn; [by rewrite lookup_delete_ne|by rewrite lookup_insert_ne]. }
  apply (consistent_all mm_of w); try done.
  - by eapply VmaWf_invalidated.
  - by eapply AttWf_invalidated.
  - by eapply Resting_invalidated.
  - by rewrite <- (inv_held _ _ Hinv).
Qed.

Lemma detach_spec_resting vaddr : Resting w -> Resting (detach_spec cur vaddr w).2.
Proof.
  intros HR. unfold detach_spec. destruct (addr_vma cur vaddr w) as [[[mm v] vma]|]; [|done]. destruct (_ >? _); [done|].
  destruct (vm_private_data vma) as [t|]; [|done]. destruct (xpmem_is_vm_ops_set vma); [|done]. destruct (cur_killed cur); [done|].
  destruct (att_objects w t) as [[[[[[y x] p] g] st] pt]|] eqn:Eo; [|done]. destruct (negb _); [done|].
  unfold att_objects, mbind, option_bind in Eo. repeat case_match; simplify_eq. cbn.
  apply (Resting_views w); [|done| |done]; cbn.
  - by erewrite fmap_insert_same.
  - by erewrite fmap_insert_same.
Qed.

Lemma detach_consistent vaddr : wp (xpmem_detach cur vaddr) (fun _ w' => consistent mm_of w') w.
Proof.
  destruct Hc as [HI HV HA HS HR Hh Ho Hmm]. pose proof (task_mm _ Hcur) as Hm.
  eapply wp_mono; [apply (wp_keeps None); [apply keeps_detach|done|by eapply (detach_ok HG cur (mm_of (cur_tgid cur)))]|].
  intros r w' [(_ & Hq & _ & HI' & HV' & HA') Hk]. apply (consistent_all mm_of w); try done.
  - apply (Resting_equiv (detach_spec cur vaddr w).2); [done|]. by apply detach_spec_resting.
  - rewrite (equiv_held _ _ Hq). unfold detach_spec. repeat case_match; exact Hh.
Qed.

Lemma release_consistent fuel id : permits_ok w -> (base.size (atts w) <= fuel)%nat ->
  wp (xpmem_release fuel cur id) (fun _ w' => consistent mm_of w') w.
Proof.
  intros Hp Hf. destruct Hc as [HI HV HA HS HR Hh Ho Hmm].
  eapply wp_mono; [apply (wp_keeps None); [apply keeps_release_permit|done|apply (release_ok HG cur fuel id w); try done]|].
  - intros a Hme Hr. split; [|unfold list_of; destruct (aps w !! a) as [x|] eqn:Ex; [pose proof (att_list_size _ _ _ _ _ _ _ HI Ex); lia|cbn; lia]].
    intros t y Ey Ha. left. subst a.
    unfold resolve_ap in Hr. destruct (find_tg w _) as [tg|] eqn:Ef; [|done]. cbn in Hr.
    destruct (find_tg_gen_Some _ _ _ _ _ _ _ _ HI Ef) as (_ & p & Ep & Htid & _).
    destruct (find_ap_Some _ _ _ _ _ _ _ _ _ HI Ep Hr) as (x & Ex & Htg & _).
    rewrite (task_mm _ Hcur), Hme, <- Htid. symmetry. eapply Ho; [done..|]. by rewrite Htg.
  - intros r w' [(_ & HI' & HV' & HA' & Hh' & Hne & Hok) Hk]. apply (consistent_all mm_of w); try done.
    destruct (decide (r = 0)) as [H0|H0]; [|by rewrite (Hne H0)].
    destruct (Hok H0) as (a & x & p & _ & _ & _ & _ & _ & _ & Hg & Ha & _). by eapply Resting_gone.
Qed.
Lemma insert_known {V} (m : gmap positive V) k v v' p u : m !! k = Some v -> m !! p = None -> <[k := v']> m !! p = Some u -> False.
Proof. intros E En [[<- _]|[_ E']]%lookup_insert_Some; congruence. Qed.

Lemma make_spec_resting vaddr size pt pv : Resting w -> Resting (make_spec cur vaddr size pt pv w).2.
Proof.
  intros [R1 R2]. pose proof (con_inv _ _ Hc) as HI. unfold make_spec. destruct (make_args_bad _ _ _); [done|].
  destruct (find_tg w (cur_tgid cur)) as [tg|]; [|done]. destruct (tgs w !! tg) as [t|] eqn:Et; [|done].
  destruct (make_size _ _ _); [|done]. destruct (negb _ || negb _); [done|]. destruct (_ =? XPMEM_MAX_UNIQ_ID); [done|].
  assert (forall q s, s ∈ list_of seg_list (tgs w) q -> s <> next_ptr w) as Hold.
  { intros q s Hs ->. destruct (seg_list_live _ _ _ _ _ _ _ HI Hs) as (g & Eg & _).
    destruct (inv_fresh HI (next_ptr w)) as (_ & E & _); [apply Pos.le_refl|congruence]. }
  destruct (kzalloc_ok (next_ptr w)); cbn; (split; [done|]); intros q s g; cbn; rewrite ?insert_insert_eq.
  - rewrite list_of_insert, lookup_insert. case_decide as Hq; cbn.
    + intros [Hs|Hs]%elem_of_app; [|apply list_elem_of_singleton in Hs as ->; rewrite decide_True by done; by intros [= <-]].
      assert (s ∈ list_of seg_list (tgs w) tg) as Hs' by (by rewrite (list_of_Some _ _ _ _ Et)).
      rewrite decide_False by (intros <-; by eapply Hold). by apply (R2 tg).
    + intros Hs. rewrite decide_False by (intros <-; by eapply Hold). by apply (R2 q).
  - rewrite (list_of_insert_same _ _ _ t) by done. by apply R2.
Qed.

Lemma make_spec_tgs vaddr size pt pv p t : tgs w !! p = None -> tgs (make_spec cur vaddr size pt pv w).2 !! p = Some t -> False.
Proof.
  intros E. unfold make_spec. repeat case_match; cbn; rewrite ?insert_insert_eq; try congruence; by eapply insert_known.
Qed.

Lemma make_consistent vaddr size pt pv : permits_ok w -> 0 <= vaddr -> 0 <= size -> vaddr + size < 2 ^ 64 ->
  wp (xpmem_make cur vaddr size pt pv) (fun _ w' => consistent mm_of w' /\ permits_ok w') w.
Proof.
  intros Hp Hv Hs He. destruct Hc as [HI HV HA HS HR Hh Ho Hmm].
  eapply wp_mono; [apply (wp_keeps (Some (next_ptr w))); [apply keeps_make|apply Pos.le_refl|by apply make_ok]|].
  intros r w' [[E HI'] Hk]. set (sp := make_spec cur vaddr size pt pv w) in *.
  assert (w' = sp.2) as -> by (by rewrite <- E). clear E.
  destruct (make_spec_same cur vaddr size pt pv w) as (H1 & H2 & _).
  assert (atts sp.2 = atts w /\ VmaWf sp.2) as [H3 H4].
  { unfold sp, make_spec. repeat case_match; (split; [done|]); try done; by eapply (VmaWf_same w). }
  split; [|unfold permits_ok; fold sp in H2; by rewrite H2].
  apply (consistent_kept mm_of w); try done.
  - by apply make_spec_att_wf.
  - by apply make_spec_seg_wf.
  - by apply make_spec_resting.
  - fold sp in H1. by rewrite H1.
  - intros t. by rewrite H3.
  - intros p t' E E'. by destruct (make_spec_tgs vaddr size pt pv p t' E).
Qed.

Lemma get_spec_resting id flags pt pv : Resting w -> Resting (get_spec cur id flags pt pv w).2.
Proof.
  intros HR. unfold get_spec. destruct (get_args_bad _ _ _ _); [done|]. destruct (find_tg w (xpmem_segid_to_tgid id)) as [stg|]; [|done].
  destruct (tgs w !! stg) as [st|]; [|done]. destruct (find_seg w stg id) as [s|]; [|done]. destruct (segs w !! s) as [g|] eqn:Eg; [|done].
  destruct (negb _); [done|]. destruct (find_tg w (cur_tgid cur)) as [tg|]; [|done]. destruct (tgs w !! tg) as [t|] eqn:Et; [|done].
  destruct (_ =? _); [done|]. destruct (kzalloc_ok _); cbn.
  - split; cbn; rewrite ?insert_insert_eq.
    + intros a x [[<- <-]|[_ E]]%lookup_insert_Some; [done|by eapply (rest_aps _ HR)].
    + intros q s' g'. rewrite (list_of_insert_same _ _ _ t) by done. intros Hs [[<- <-]|[_ E]]%lookup_insert_Some.
      * exact (rest_segs _ HR q s g Hs Eg).
      * by apply (rest_segs _ HR q s').
  - apply (Resting_views w); [done|done| |done]. cbn. by erewrite fmap_insert_same.
Qed.

Lemma get_spec_tgs id flags pt pv p t : tgs w !! p = None -> tgs (get_spec cur id flags pt pv w).2 !! p = Some t -> False.
Proof.
  intros E. unfold get_spec. repeat case_match; cbn; rewrite ?insert_insert_eq; try congruence; by eapply insert_known.
Qed.

Lemma get_spec_same id flags pt pv :
  let w' := (get_spec cur id flags pt pv w).2 in
  atts w' = atts w /\ vmas w' = vmas w /\ pgt w' = pgt w /\ held w' = held w /\
  (base.size (aps w') <= Datatypes.S (base.size (aps w)))%nat /\ (SegWf w -> SegWf w').
Proof.
  cbn zeta. unfold get_spec. repeat case_match; cbn; split_and!; try done; try lia.
  - rewrite map_size_insert. case_match; cbn; lia.
  - intros HS s' g'. cbn. intros [[<- <-]|[_ E]]%lookup_insert_Some; [|by eapply HS].
    match goal with E : segs w !! _ = Some ?g |- _ => exact (HS _ g E) end.
Qed.

Lemma get_consistent id flags pt pv : permits_ok w ->
  wp (xpmem_get cur id flags pt pv) (fun _ w' => consistent mm_of w' /\
    (base.size (aps w') <= Datatypes.S (base.size (aps w)))%nat /\ base.size (atts w') = base.size (atts w)) w.
Proof.
  intros Hp. destruct Hc as [HI HV HA HS HR Hh Ho Hmm].
  eapply wp_mono; [apply (wp_keeps (Some (next_ptr w))); [apply keeps_get_permit|apply Pos.le_refl|by apply get_ok]|].
  intros r w' [(_ & Hq & HI') Hk]. cbn zeta in *.
  destruct (get_spec_same id flags pt pv) as (H1 & H2 & H3 & H4 & H5 & H6). set (sp := (get_spec cur id flags pt pv w).2) in *.
  assert (forall t, is_Some (atts w' !! t) -> is_Some (atts w !! t)) as Ha.
  { intros t [y E]. destruct (equiv_att _ _ _ _ Hq E) as [n E']. rewrite H1 in E'. by rewrite E'. }
  split; [|split; [by rewrite (equiv_size _ _ Hq)|]].
  - apply (consistent_kept mm_of w); try done.
    + eapply VmaWf_equiv; [exact Hq|]. by apply (VmaWf_same w).
    + eapply AttWf_equiv; [exact Hq|]. by apply (AttWf_same w).
    + eapply SegWf_equiv; [exact Hq|]. by apply H6.
    + eapply Resting_equiv; [exact Hq|]. by apply get_spec_resting.
    + by rewrite (equiv_held _ _ Hq), H4.
    + intros p t' E E'. destruct (equiv_tg _ _ _ _ Hq E') as [n E2]. by destruct (get_spec_tgs id flags pt pv p _ E E2).
  - rewrite <- H1, <- (map_size_fmap (set_att_refcnt 0) (atts sp)), <- (erase_atts _ _ Hq). by rewrite map_size_fmap.
Qed.

Lemma attach_spec_resting mm id offset size vaddr : Resting w -> Resting (attach_spec cur mm id offset size vaddr w).2.
Proof.
  intros HR. unfold attach_spec. destruct (_ || _ || _); [done|]. destruct (resolve_ap w id) as [a|]; [|done].
  destruct (permit_objects w a) as [[[[x p] g] st]|] eqn:Eo; [|done]. destruct (negb _); [done|].
  unfold permit_objects, mbind, option_bind in Eo. destruct (aps w !! a) as [x0|] eqn:Ex; [|done]. repeat case_match; simplify_eq.
  unfold map_spec. destruct (attach_access _ _ _ _ _ _); [done|]. destruct (over_itself _ _ _ _ _); [done|].
  destruct (negb (kzalloc_ok _)); [by apply (Resting_same w)|]. destruct (taken _ _ _ _); [by apply (Resting_same w)|].
  destruct (vm_mmap _ _ _ _ _ _) as [|r]; [by apply (Resting_same w)|]. destruct (mm_table r !! mm_vma r); [|done]. cbn.
  apply (Resting_views w); [|done|done|done]. cbn. by erewrite fmap_insert_same.
Qed.

Lemma attach_consistent id offset size vaddr : permits_ok w ->
  0 <= size < 2 ^ 64 -> offset < 2 ^ 63 -> whole_pages size < 2 ^ 31 * PAGE_SIZE -> 0 <= vaddr ->
  wp (xpmem_attach cur id offset size vaddr) (fun _ w' => consistent mm_of w') w.
Proof.
  intros Hp Hs Hoff Hpg Hv. destruct Hc as [HI HV HA HS HR Hh Ho Hmm]. set (mm := mm_of (cur_tgid cur)).
  assert (cur_mm cur = Some mm) as Hm by apply (task_mm _ Hcur).
  eapply wp_mono; [apply (wp_keeps (Some (next_ptr w))); [apply keeps_attach|apply Pos.le_refl|apply (attach_ok cur mm); try done; apply HV]|].
  intros r w' [(Hr & Hq & HI') Hk]. cbn zeta in *.
  destruct (attach_spec_wf cur mm id offset size vaddr w) as [HV' HA']; try done.
  assert (forall e, (attach_spec cur mm id offset size vaddr w).1 = inl e -> atts (attach_spec cur mm id offset size vaddr w).2 = atts w) as Herr.
  { intros e. unfold attach_spec, map_spec. by repeat case_match. }
  assert (segs (attach_spec cur mm id offset size vaddr w).2 = segs w /\ held (attach_spec cur mm id offset size vaddr w).2 = held w) as [Es Eh].
  { unfold attach_spec, map_spec. by repeat case_match. }
  split; try done.
  - by eapply VmaWf_equiv.
  - by eapply AttWf_equiv.
  - eapply SegWf_equiv; [exact Hq|]. intros s g. rewrite Es. apply HS.
  - eapply Resting_equiv; [exact Hq|]. by apply attach_spec_resting.
  - by rewrite (equiv_held _ _ Hq), Eh.
  - apply (owned_kept mm_of w); try done. intros t y' x' p' E0 Ey' Ex' Ep'. destruct (equiv_att _ _ _ _ Hq Ey') as [n Ey].
    destruct ((attach_spec cur mm id offset size vaddr w).1) as [e|addr] eqn:Ea; [rewrite (Herr e eq_refl) in Ey; congruence|].
    destruct (attach_spec_success cur mm id offset size vaddr w addr) as (a & x & p & g & st & sv & v & vma & _ & HP & Hme & _ & _ & _ & _ & E); try done; [apply HV|].
    rewrite E in Ey. cbn in Ey. apply lookup_insert_Some in Ey as [[_ Ey]|[_ Ey]]; [|congruence].
    assert (att_ap y' = a) as Hap by exact (f_equal att_ap (eq_sym Ey)).
    assert (att_mm y' = Some mm) as -> by (rewrite <- Hm; exact (f_equal att_mm (eq_sym Ey))).
    rewrite Hap in Ex'. destruct HP as [Ex Ep _ _ _ _ _].
    destruct (kept_aps _ _ _ Hk a x') as (x2 & Ex2 & [= _ _ _ Htg]); [eapply fresh_below; [apply HI|eauto]|done|].
    assert (x2 = x) as -> by congruence. rewrite <- Htg in Ep'.
    destruct (kept_tgs _ _ _ Hk (ap_tg x) p') as (p2 & Ep2 & [= Hid _ _ _ _]); [eapply fresh_below; [apply HI|eauto]|done|].
    assert (p2 = p) as -> by congruence. unfold mm. by rewrite Hme, <- Hid.
  - apply (mm_kept mm_of w); try done. intros p t' E E'. destruct (equiv_tg _ _ _ _ Hq E') as [n E2].
    assert (tgs (attach_spec cur mm id offset size vaddr w).2 = tgs w) as Et by (unfold attach_spec, map_spec; by repeat case_match).
    congruence.
Qed.

Lemma open_spec_resting : Resting w -> Resting (open_spec cur w).2.
Proof.
  intros HR. unfold open_spec, created. destruct (find_tg w (cur_tgid cur)); [done|]. destruct (part w) as [pt|]; [|done].
  destruct (negb _); [by apply (Resting_same w)|]. destruct (negb _); [by apply (Resting_same w)|]. cbn.
  destruct (inv_fresh (con_inv _ _ Hc) (next_ptr w)) as (E & _); [apply Pos.le_refl|].
  split; cbn; [apply HR|]. intros q s g. rewrite list_of_insert. case_decide; [by intros ?%elem_of_nil|]. by apply (rest_segs _ HR).
Qed.

Lemma open_consistent : permits_ok w -> wp (xpmem_open cur) (fun _ w' => consistent mm_of w') w.
Proof.
  intros Hp. destruct Hc as [HI HV HA HS HR Hh Ho Hmm].
  eapply wp_mono; [apply (wp_keeps (Some (next_ptr w))); [apply keeps_open|apply Pos.le_refl|apply open_ok; try done]|].
  { symmetry. apply (task_leader _ Hcur). }
  intros r w' [E Hk]. pose proof (open_spec_inv cur w HI (task_tgid _ Hcur)) as HI'.
  set (sp := open_spec cur w) in *. assert (w' = sp.2) as -> by (by rewrite <- E). clear E.
  assert (atts sp.2 = atts w /\ vmas sp.2 = vmas w /\ pgt sp.2 = pgt w /\ segs sp.2 = segs w /\ held sp.2 = held w)
    as (H1 & H2 & H3 & H4 & H5) by (unfold sp, open_spec, created; by repeat case_match).
  apply (consistent_kept mm_of w); try done.
  - by apply (VmaWf_same w).
  - by apply (AttWf_same w).
  - intros s g. rewrite H4. apply HS.
  - apply (open_spec_resting HR).
  - by rewrite H5.
  - intros t. by rewrite H1.
  - intros p t' E. unfold sp, open_spec, created. repeat case_match; cbn; try congruence;
    intros [[<- <-]|[_ E']]%lookup_insert_Some; first [apply (task_mm _ Hcur)|congruence].
Qed.

Lemma fault_resting w1 w' : Resting w1 -> FaultSpec.kept w1 w' -> Resting w'.
Proof.
  intros HR [_ Ht Hs Ha _ _]. apply (Resting_views w1); [symmetry..|done];
    [by apply (fmap_norm (set_ap_refcnt 0))|by apply (fmap_norm (set_seg_refcnt 0))|by apply (fmap_norm norm_pins)].
Qed.

Lemma fault_spec_kept mm vma t y x p g st smm vaddr w1 :
  atts w1 !! t = Some y -> FaultSpec.kept w1 (fault_spec cur mm vma t y x p g st smm vaddr w1).2.
Proof.
  intros E. unfold fault_spec. destruct (_ || _ || _ || _); [by split|]. eapply FaultSpec.kept_trans; [by apply kept_mid|apply kept_install].
Qed.

Lemma fault_consistent mm v vma t y x p g st smm vaddr :
  vm_ops vma = xpmem_vm_ops -> vm_mm vma = mm -> vm_start vma <= vaddr < vm_end vma -> gup_inside w smm (fault_addr y vaddr) ->
  fault_pre cur mm v vma t y x p g st smm vaddr (set_held [MmapLock mm] w) ->
  wp (enter 0 cur (EnterFault mm v vaddr)) (fun _ w' => consistent mm_of w') w.
Proof.
  intros Ho Hmm Hr Hg HP. set (e := EnterFault mm v vaddr). destruct Hc as [HI HV HA HS HR Hh Hw _].
  eapply wp_mono; [apply (wp_keeps None _ (fun _ w' => Inv ∅ ∅ ∅ ∅ w' /\ VmaWf w' /\ AttWf w' /\ Resting w' /\ held w' = [])); [|done|]|].
  - apply keeps_fault_entry.
  - unfold e, enter. apply wp_bind, wp_mutex_lock; [by rewrite Hh|rewrite Hh; not_held|]. rewrite Hh.
    eapply wp_seq; [by eapply (fault_handler_ok HT)|]. cbn zeta. intros r w' [_ ->]. set (w1 := set_held [MmapLock mm] w) in *.
    pose proof HP as [HI1 _ _ _ Ev Hd [Ey _ _] _ _ _ _ _ _].
    assert (VmaWf w1) as HV1 by (by apply (VmaWf_same w)). assert (AttWf w1) as HA1 by (by apply (AttWf_same w)).
    destruct (vma_attached w1 v vma t HV1 Ev Ho Hd) as (y1 & Ey1 & _ & Ha). assert (y1 = y) as -> by congruence. rewrite Hmm in Ha.
    pose proof (fault_spec_faulted cur mm vma t y x p g st smm vaddr w1 Hg Hmm) as Hf.
    destruct (faulted_wf w1 _ t y mm smm v vma _ vaddr HV1 HA1 Ey1 Ha Hr Hf) as [HV' HA'].
    pose proof (Inv_fault_spec cur mm vma t y x p g st smm vaddr w1 HI1 Ey) as HI'.
    pose proof (held_fault_spec cur mm vma t y x p g st smm vaddr w1) as Hh'. cbn in Hh'.
    set (w2 := (fault_spec cur mm vma t y x p g st smm vaddr w1).2) in *. eapply (wp_release _ []); [done|not_held|].
    split; [by eapply Inv_same|]. split; [by apply (VmaWf_same w2)|]. split; [by apply (AttWf_same w2)|]. split; [|done].
    apply (Resting_same w2); [done..|]. apply (fault_resting w1), fault_spec_kept; [by apply (Resting_same w)|done].
  - intros r w' [(H1 & H2 & H3 & H4 & H5) Hk]. by apply (consistent_all mm_of w).
Qed.

Lemma munmap_consistent t y v vma : atts w !! t = Some y -> attached w t y (mm_of (cur_tgid cur)) v vma ->
  wp (do_vm_munmap cur (vm_start vma) (vm_end vma - vm_start vma)) (fun _ w' => consistent mm_of w') w.
Proof.
  intros Ey Ha. destruct Hc as [HI HV HA HS HR Hh Ho Hmm]. destruct (vw_attached _ HV t y Ey) as [Hnd _].
  destruct (chain_of _ _ _ _ _ _ _ HI Ey) as (x & p & g & st & Hch); [by eapply rest_listed|].
  eapply wp_mono; [apply (wp_keeps None); [apply keeps_munmap|done|]|].
  { apply (munmap_att_ok cur (mm_of (cur_tgid cur)) v vma t y x p g st w HI Hch Ha Hnd Hh). apply (task_mm _ Hcur). }
  destruct (munmapped_wf cur w (mm_of (cur_tgid cur)) t y x v vma HV HA Ey Ha) as [HV' HA'].
  intros r w' [(_ & HI' & Hq) Hk]. apply (consistent_all mm_of w); try done; [by eapply VmaWf_equiv|by eapply AttWf_equiv| |].
  - apply (Resting_equiv _ _ Hq). apply (Resting_views w); [|done..]. destruct Hch as [_ _ [Ex _ _ _ _ _ _]]. cbn. by erewrite fmap_insert_same.
  - by rewrite (equiv_held _ _ Hq).
Qed.

Lemma ready_recallable tgid tg : fork_ready tgid w -> find_tg w tgid = Some tg -> recallable w tg.
Proof.
  intros Hr Ef t Et. split; [by eapply Hr|]. intros s g Hs. apply (rest_segs _ (con_rest _ _ Hc) tg). by rewrite (list_of_Some _ _ _ _ Et).
Qed.

(** The counter of a thread group is nobody else's business. *)
Lemma shift_wf k tg : VmaWf (recall_shift k tg w) /\ AttWf (recall_shift k tg w) /\ Resting (recall_shift k tg w).
Proof.
  destruct Hc as [HI HV HA HS HR Hh Ho Hmm]. split; [by apply (VmaWf_same w)|]. split; [by apply (AttWf_same w)|].
  apply (Resting_views w); [done|done| |done]. cbn. apply map_eq. intros q. rewrite !lookup_fmap.
  destruct (decide (q = tg)) as [->|Hne]; [rewrite lookup_alter_eq; by destruct (tgs w !! tg)|by rewrite lookup_alter_ne].
Qed.

Lemma fork_spec_wf k : VmaWf (fork_spec cur k w).2 /\ AttWf (fork_spec cur k w).2 /\ Resting (fork_spec cur k w).2 /\ held (fork_spec cur k w).2 = [].
Proof.
  pose proof Hc as [HI HV HA HS HR Hh Ho Hmm]. unfold fork_spec. destruct (find_tg w (cur_tgid cur)) as [tg|]; [|done].
  destruct (shift_wf k tg) as (H1 & H2 & H3). done.
Qed.

Lemma fork_begin_consistent : permits_ok w -> fork_ready (cur_tgid cur) w -> wp (xpmem_fork_begin cur) (fun _ w' => consistent mm_of w') w.
Proof.
  intros Hp Hr. pose proof Hc as [HI HV HA HS HR Hh Ho Hmm]. destruct (fork_spec_wf 1) as (H1 & H2 & H3 & H4).
  eapply wp_mono; [apply (wp_keeps None); [apply keeps_fork_begin|done|apply (fork_begin_ok HG); try done; intros; by eapply ready_recallable]|].
  intros r w' [(_ & Hinv & HI' & _) Hk]. apply (consistent_all mm_of w); try done;
    [by eapply VmaWf_invalidated|by eapply AttWf_invalidated|by eapply Resting_invalidated|by rewrite <- (inv_held _ _ Hinv)].
Qed.

Lemma fork_end_consistent : permits_ok w -> wp (xpmem_fork_end cur) (fun _ w' => consistent mm_of w') w.
Proof.
  intros Hp. pose proof Hc as [HI HV HA HS HR Hh Ho Hmm]. destruct (fork_spec_wf (- 1)) as (H1 & H2 & H3 & H4).
  eapply wp_mono; [apply (wp_keeps None); [apply keeps_fork_end|done|by apply fork_end_ok]|].
  intros r w' [(_ & -> & HI') Hk]. by apply (consistent_all mm_of w).
Qed.

Lemma unpin_consistent fuel tgid count : permits_ok w -> fork_ready tgid w ->
  (forall tg t leader, find_tg w tgid = Some tg -> tgs w !! tg = Some t -> group_leader t = Some leader ->
     exists l, thread_ring leader leader l /\ (length l <= S fuel)%nat) ->
  wp (xpmem_unpin_procfs_write fuel tgid count) (fun _ w' => consistent mm_of w') w.
Proof.
  intros Hp Hr Hring. pose proof Hc as [HI HV HA HS HR Hh Ho Hmm].
  eapply wp_mono; [apply (wp_keeps None); [apply keeps_procfs_write|done|apply (unpin_write_ok HG); try done; intros; by eapply ready_recallable]|].
  intros r w' [(Hinv & HI' & _) Hk]. apply (consistent_all mm_of w); try done;
    [by eapply VmaWf_invalidated|by eapply AttWf_invalidated|by eapply Resting_invalidated|by rewrite <- (inv_held _ _ Hinv)].
Qed.

Lemma invalidate_consistent q t mm start end_ l : permits_ok w -> tgs w !! q = Some t ->
  0 <= start <= end_ -> end_ + PAGE_SIZE <= 2 ^ 64 -> NoDup l ->
  vma_walk (vmas w) (find_vma_intersection (vmas w) mm (page_round_down start) (page_round_up end_)) (page_round_up end_) l ->
  wp (xpmem_invalidate_range cur q mm start end_) (fun _ w' => consistent mm_of w') w.
Proof.
  intros Hp Et Hr He Hn Hl. destruct Hc as [HI HV HA HS HR Hh Ho Hmm].
  eapply wp_mono; [apply (wp_keeps None); [apply keeps_invalidate|done|eapply (invalidate_ok HG ∅ ∅ ∅ ∅ w cur q t); try done; first [side|rewrite Hh; constructor]]|].
  intros r w' [(Hinv & HI' & HA' & _) Hk].
  apply (consistent_all mm_of w); try done; [by eapply VmaWf_invalidated|by eapply Resting_invalidated|by rewrite <- (inv_held _ _ Hinv)].
Qed.
End one_call.

Lemma wp_then {A B} (m : M A) (r : A -> B) w :
  wp m (fun _ w' => consistent mm_of w') w -> wp (a ← m ; mret (r a)) (fun _ w' => consistent mm_of w') w.
Proof. intros H. eapply wp_seq; [exact H|]. intros a w' Hw. by apply wp_ret. Qed.

(** An ioctl, with the undo when the result cannot be copied to the user. *)
Lemma ioctl_consistent cur w fuel copy_fails put_fails cmd :
  task_ok cur -> consistent mm_of w -> room_left fuel w -> served cur w cmd ->
  wp (xpmem_ioctl fuel cur copy_fails put_fails cmd) (fun _ w' => consistent mm_of w') w.
Proof.
  intros Ht Hc Hr Hs. pose proof (room_permits _ _ Hr) as Hp. destruct Hr as (Hr & _ & Hf & _).
  destruct cmd; cbn in Hs; try done; unfold xpmem_ioctl; try (by apply wp_ret);
    first [by apply wp_then, fork_begin_consistent|by apply wp_then, fork_end_consistent|destruct copy_fails; try (by apply wp_ret)].
  - destruct Hs as (? & ? & ?). eapply wp_seq; [by apply make_consistent|]. intros [e|v] w1 [Hc1 Hp1]; [by apply wp_ret|].
    destruct put_fails; [|by apply wp_ret]. apply wp_then, wp_then. by apply remove_consistent.
  - by apply wp_then, remove_consistent.
  - eapply wp_seq; [by apply get_consistent|]. intros [e|v] w1 (Hc1 & Hp1 & Hf1); [by apply wp_ret|].
    destruct put_fails; [|by apply wp_ret]. apply wp_then, wp_then.
    apply release_consistent; try done; [unfold permits_ok; lia|lia].
  - by apply wp_then, release_consistent.
  - destruct Hs as (? & ? & ? & ?). eapply wp_seq; [by apply attach_consistent|]. intros [e|v] w1 Hc1; [by apply wp_ret|].
    destruct put_fails; [|by apply wp_ret]. by apply wp_then, wp_then, detach_consistent.
  - by apply wp_then, detach_consistent.
Qed.

(** * Process exit *)

(** The address space goes away; the task may have left it already. *)
Definition leaves cur (mm : positive) : Prop := cur_mm cur = None \/ cur_mm cur = Some mm.

Lemma consistent_ready fuel cur mm w : consistent mm_of w -> room_left fuel w -> leaves cur mm -> ready fuel cur mm w.
Proof.
  intros Hc Hr Hl tg t Et Hh Hm. destruct Hc as [HI HV HA HS HR Hd Ho Hmm]. split; try done; [|by eapply room_permits|apply Hr].
  intros k y x Ey Ex Hx. rewrite (Ho k y x t Ey Ex) by (by rewrite Hx). rewrite <- (Hmm tg t Et), Hm. destruct Hl as [-> | ->]; auto.
Qed.

Lemma torn_permits fuel cur tg tgid w : exiting fuel cur tg ∅ w -> torn_down tg tgid w -> forall a x, aps w !! a = Some x -> ap_tg x <> tg.
Proof.
  intros He (t & Et & _ & _ & _ & _ & Hn) a x Ex Hx. pose proof (ap_counted (ap_all (inv_ap (ex_inv _ _ _ _ _ He)) a x Ex)) as Hr.
  unfold ap_refs, b2n in Hr. rewrite multiplicity_empty in Hr. case_decide as Hin; [|lia].
  rewrite Hx, (list_of_Some _ _ _ t), Hn in Hin by done. by apply elem_of_nil in Hin.
Qed.

Lemma exit_consistent fuel cur mm w : consistent mm_of w -> room_left fuel w -> leaves cur mm ->
  wp (xpmem_mmu_release fuel cur mm) (fun _ w' => consistent mm_of w' /\ gone_from fuel cur w (release_target cur mm w) w') w.
Proof.
  intros Hc Hr Hl. pose proof (consistent_ready _ _ _ _ Hc Hr Hl) as Hready. pose proof Hc as [HI HV HA HS HR Hh Ho Hmm].
  eapply wp_mono; [apply (wp_keeps None); [apply keeps_mmu_release|done|apply (mmu_release_ok HG fuel cur mm w); try done; by eapply room_permits]|].
  intros r w' [Hg Hk]. split; [|done]. destruct (release_target cur mm w) as [tg|]; cbn in Hg; [|by subst].
  destruct Hg as (He & Hh' & _). by apply (consistent_all mm_of w); [..|apply He|apply He|apply He|apply He| |].
Qed.

(** C2: when the address space of a process goes away, the release callback terminates without
    faulting and tears down its thread group: marked destroyed, it has no segment and no permit
    left, no attachment of any process shows a page of a segment it had, the segments and permits
    of all other processes are as they were, and the state is consistent.  When the module knows
    no thread group of the address space, nothing happens. *)
Theorem process_exit_tears_down fuel cur mm w :
  consistent mm_of w -> room_left fuel w -> leaves cur mm ->
  exists w', xpmem_mmu_release fuel cur mm w = Ok () w' /\ consistent mm_of w' /\
    match release_target cur mm w with
    | None => w' = w
    | Some tg => exists t, tgs w !! tg = Some t /\ torn_down tg (tg_tgid t) w' /\
        (forall a x, aps w' !! a = Some x -> ap_tg x <> tg) /\
        (forall s g k y x, s ∈ seg_list t -> segs w !! s = Some g -> atts w' !! k = Some y -> aps w' !! att_ap y = Some x ->
           ap_seg x = s -> hidden (pgt w') y (seg_vaddr g) (seg_vaddr g + seg_size g)) /\
        forall id, (xpmem_segid_to_tgid id <> tg_tgid t -> live_segs w' id = live_segs w id) /\
                   (xpmem_apid_to_tgid id <> tg_tgid t -> live_aps w' id = live_aps w id)
    end.
Proof.
  intros Hc Hr Hl. destruct (wp_inv _ _ _ (exit_consistent fuel cur mm w Hc Hr Hl)) as ([] & w' & E & Hc' & Hg).
  exists w'. split; [done|]. split; [done|]. destruct (release_target cur mm w) as [tg|]; [|done].
  destruct Hg as (He & _ & [Hsp _ _] & t & Et & Ht & Hhid). exists t. split; [done|]. split; [done|]. split; [by eapply torn_permits|].
  split; [intros s g k y x Hs Eg Ey Ex Hx; exact (Hhid s g Hs Eg k y x Ey Ex Hx)|].
  destruct Ht as (t1 & Et1 & Hid & _). intros id. split; intros Hne.
  - exact (spared_live_segs tg w w' t t1 (con_inv _ _ Hc) Hsp Et Et1 Hid id Hne).
  - exact (spared_live_aps tg w w' t t1 (con_inv _ _ Hc) Hsp Et Et1 Hid id Hne).
Qed.

Lemma consistent_notifiers n w : consistent mm_of w -> consistent mm_of (set_notifiers n w).
Proof.
  intros [HI HV HA HS HR Hh Ho Hmm].
  split; try done; [by eapply Inv_same|by apply (VmaWf_same w)|by apply (AttWf_same w)|by apply (Resting_same w)].
Qed.

(** * The last close *)

(** The kernel closes the files of a process after its address space. *)
Definition closes cur (owner : option positive) w : Prop := last_close cur owner -> forall tg t,
  find_tg_gen w (cur_tgid cur) true = Some tg -> tgs w !! tg = Some t ->
  has (tg_flags t) XPMEM_FLAG_DESTROYED = true /\ (tg, tg_mm t) ∉ notifiers w.

Lemma flush_one fuel cur owner w tg t :
  consistent mm_of w -> permits_ok w -> last_close cur owner ->
  find_tg_gen w (cur_tgid cur) true = Some tg -> tgs w !! tg = Some t -> has (tg_flags t) XPMEM_FLAG_DESTROYED = true ->
  (tg, tg_mm t) ∉ notifiers w ->
  wp (xpmem_flush fuel cur owner) (fun r w' => r = 0 /\ consistent mm_of w' /\ tg ∉ mjoin (hash_of w') /\
    segs w' = segs w /\ aps w' = aps w /\ procfs w' = unlink (cur_tgid cur) (procfs w) /\
    forall id, live_segs w' id = live_segs w id /\ live_aps w' id = live_aps w id) w.
Proof.
  intros Hc Hp Hl Ef Et Hd Hn. pose proof Hc as [HI HV HA HS HR Hh Ho Hmm].
  destruct (find_tg_gen_Some _ _ _ _ _ _ _ _ HI Ef) as (Hin & t' & Et' & Htid & _). assert (t' = t) as -> by congruence.
  eapply wp_mono; [apply (wp_keeps None); [apply keeps_flush|done|by apply (flush_ok fuel cur owner w tg t)]|].
  intros r w' [(-> & HI' & Hh' & Es & Ea & Et2 & Ev & Eg & Hq & Hb & Hpr) Hk]. rewrite <- Htid in Hb. split; [done|]. split.
  - apply (consistent_all mm_of w); try done; [by apply (VmaWf_same w)|by apply (AttWf_same w)|].
    split; [intros a x; rewrite Ea; apply HR|]. intros q s g. rewrite Es, (left_seg_list w w' tg t) by done. apply HR.
  - split; [by apply (left_unhashed w w' tg t)|]. split_and!; try done. intros id. by apply (left_registry w w' tg t).
Qed.

Lemma flush_consistent fuel cur owner w :
  consistent mm_of w -> permits_ok w -> closes cur owner w -> wp (xpmem_flush fuel cur owner) (fun _ w' => consistent mm_of w') w.
Proof.
  intros Hc Hp Hcl. destruct (decide (cur_files cur = None \/ cur_files cur = owner)) as [Hl|Hl];
    [|eapply wp_Ok; [by apply flush_other|done]].
  destruct (find_tg_gen w (cur_tgid cur) true) as [tg|] eqn:Ef.
  - destruct (find_tg_gen_Some _ _ _ _ _ _ _ _ (con_inv _ _ Hc) Ef) as (_ & t & Et & _). destruct (Hcl Hl tg t Ef Et) as [Hd Hn].
    eapply wp_mono; [by apply (flush_one fuel cur owner w tg t)|]. by intros r w' (_ & ? & _).
  - eapply wp_mono; [apply flush_none; try done; apply Hc|]. by intros r w' [_ ->].
Qed.

(** C27: the last close of a process whose address space is gone returns 0 and takes its thread
    group off the table and its entry out of the proc directory; no segment and no permit that can
    be looked up changes; the thread group is freed unless a permit on one of its segments is
    left; the state is consistent. *)
Theorem flush_frees_tg fuel cur owner w tg t :
  consistent mm_of w -> permits_ok w -> last_close cur owner ->
  find_tg_gen w (cur_tgid cur) true = Some tg -> tgs w !! tg = Some t -> has (tg_flags t) XPMEM_FLAG_DESTROYED = true ->
  (tg, tg_mm t) ∉ notifiers w ->
  exists w', xpmem_flush fuel cur owner w = Ok 0 w' /\ consistent mm_of w' /\
    tg ∉ mjoin (hash_of w') /\ procfs w' = unlink (cur_tgid cur) (procfs w) /\
    (forall id, live_segs w' id = live_segs w id /\ live_aps w' id = live_aps w id) /\
    ((forall a x g, aps w !! a = Some x -> segs w !! ap_seg x = Some g -> seg_tg g <> tg) -> tgs w' !! tg = None).
Proof.
  intros Hc Hp Hl Ef Et Hd Hn.
  destruct (wp_inv _ _ _ (flush_one fuel cur owner w tg t Hc Hp Hl Ef Et Hd Hn)) as (r & w' & E & -> & Hc' & Hu & Es & Ea & Hpr & Hreg).
  exists w'. split_and!; try done. intros Hno. destruct (tgs w' !! tg) as [t'|] eqn:Et'; [|done]. exfalso.
  pose proof (con_inv _ _ Hc') as HI'. pose proof (tg_counted (tg_all (inv_tg HI') tg t' Et')) as H. unfold tg_refs in H.
  rewrite (b2n_false _ Hu), (seg_refs_none _ _ _ _ _ _ HI'), multiplicity_empty in H; [cbn in H; lia|]. by rewrite Es, Ea.
Qed.

(** * Any number of calls *)

(** The calls considered, and what the kernel guarantees when it makes them. *)
Definition admissible (fuel : nat) cur (e : entry) w : Prop :=
  match e with
  | EnterOpen => task_ok cur
  | EnterIoctl _ _ cmd => task_ok cur /\ served cur w cmd
  | EnterRelease mm => leaves cur mm
  | EnterFlush owner => closes cur owner w
  | EnterMunmap start len => task_ok cur /\ exists t y v vma,
      atts w !! t = Some y /\ attached w t y (mm_of (cur_tgid cur)) v vma /\ start = vm_start vma /\ len = vm_end vma - vm_start vma
  | EnterUnpin tgid _ => fork_ready tgid w /\ forall tg t leader,
      find_tg w tgid = Some tg -> tgs w !! tg = Some t -> group_leader t = Some leader ->
      exists l, thread_ring leader leader l /\ (length l <= S fuel)%nat
  | EnterFault mm v vaddr => exists vma t y x p g st smm,
      vm_ops vma = xpmem_vm_ops /\ vm_mm vma = mm /\ vm_start vma <= vaddr < vm_end vma /\
      gup_inside w smm (fault_addr y vaddr) /\ fault_pre cur mm v vma t y x p g st smm vaddr (set_held [MmapLock mm] w)
  | EnterInvalidate q mm start end_ => exists t l,
      tgs w !! q = Some t /\ 0 <= start <= end_ /\ end_ + PAGE_SIZE <= 2 ^ 64 /\ NoDup l /\
      vma_walk (vmas w) (find_vma_intersection (vmas w) mm (page_round_down start) (page_round_up end_)) (page_round_up end_) l
  | _ => False
  end.

Lemma enter_consistent fuel cur e w :
  consistent mm_of w -> room_left fuel w -> admissible fuel cur e w ->
  wp (enter fuel cur e) (fun _ w' => consistent mm_of w') w.
Proof.
  intros Hc Hr Ha. pose proof (room_permits _ _ Hr) as Hp. destruct e; cbn in Ha; try done.
  - by apply wp_then, open_consistent.
  - by apply wp_then, flush_consistent.
  - destruct Ha. by apply wp_then, ioctl_consistent.
  - destruct Ha as (vma & t & y & x & p & g & st & smm & H1 & H2 & H3 & H4 & H5). by eapply fault_consistent.
  - destruct Ha as (Ht & t & y & v & vma & H1 & H2 & -> & ->). apply wp_then. by eapply munmap_consistent.
  - destruct Ha as (t & l & H1 & H2 & H3 & H4 & H5). by eapply invalidate_consistent.
  - eapply wp_seq; [by apply exit_consistent|]. intros r w' [? _]. by apply wp_modify, consistent_notifiers.
  - destruct Ha. by apply wp_then, unpin_consistent.
Qed.

(** What the kernel may do meanwhile: change the mappings and the pages of every process, but for
    those of the module's vmas that show an attachment. *)
Record kernel_change w w' : Prop := {
  kc_module : w' = set_vmas (vmas w') (set_pgt (pgt w') w);
  kc_kept : forall v vma t, vmas w !! v = Some vma -> vm_ops vma = xpmem_vm_ops -> vm_private_data vma = Some t ->
    vmas w' !! v = Some vma /\
    forall a, vm_start vma <= a < vm_end vma -> mapped_pfn (pgt w') (vm_mm vma) a = mapped_pfn (pgt w) (vm_mm vma) a;
  kc_new : forall v vma t, vmas w' !! v = Some vma -> vm_ops vma = xpmem_vm_ops -> vm_private_data vma = Some t ->
    vmas w !! v = Some vma;
  kc_ptes : PtesInVmas w';
  kc_apart : vmas_apart (vmas w');
}.

Lemma attached_change w w' t y mm v vma : kernel_change w w' -> attached w t y mm v vma -> attached w' t y mm v vma.
Proof.
  intros Hk Ha. apply (attached_in w); [apply Hk| |done]. apply (kc_kept _ _ Hk v vma t); [|apply Ha..].
  exact (shown_lookup _ _ _ _ _ (atd_shown _ _ _ _ _ _ Ha)).
Qed.

Lemma change_consistent w w' : kernel_change w w' -> consistent mm_of w -> consistent mm_of w'.
Proof.
  intros Hk [HI HV HA HS HR Hh Ho Hmm]. pose proof (kc_module _ _ Hk) as E.
  assert (atts w' = atts w) as Ea by (by rewrite E).
  assert (forall t y, atts w' !! t = Some y -> exists mm v vma, attached w' t y mm v vma) as Hatt.
  { intros t y. rewrite Ea. intros Ey. destruct (vw_attached _ HV t y Ey) as (_ & mm & v & vma & H).
    exists mm, v, vma. by apply (attached_change w). }
  split.
  - eapply Inv_same; [exact HI|by rewrite E..].
  - split; [apply Hk| | |apply Hk].
    + intros t y Ey. split; [|by apply Hatt]. rewrite Ea in Ey. apply (vw_attached _ HV t y Ey).
    + intros v vma t Ev Hops Hp. rewrite Ea. apply (vw_back _ HV v vma t); [by apply (kc_new _ _ Hk v vma t)|done..].
  - split.
    + intros t y Ey _. destruct (Hatt t y Ey) as (? & ? & ? & H). apply H.
    + intros t y Ey _. destruct (Hatt t y Ey) as (? & ? & ? & H). apply H.
    + intros t y Ey Hv Hl mm a Em Hr. rewrite Ea in Ey. destruct (vw_attached _ HV t y Ey) as (_ & mm' & v & vma & Hat).
      pose proof Hat as [[V1 V2 V3 V4 V5 V6 V7] _ Hs H1 H2 [R1 R2]]. assert (mm' = mm) as -> by congruence. rewrite <- V5 in *.
      destruct (kc_kept _ _ Hk v vma t V3 H1 H2) as [_ Hf]. rewrite (Hf a) by lia.
      apply (wf_invalid _ HA t y Ey Hv Hl (vm_mm vma) a); [congruence|done].
  - intros s g. rewrite E. apply HS.
  - apply (Resting_same w); [by rewrite E..|done].
  - by rewrite E.
  - intros t y x p. rewrite E. apply Ho.
  - intros p t. rewrite E. apply Hmm.
Qed.

(** One call of one process returned, or the kernel did something. *)
Inductive step w w' : Prop :=
  | step_kernel : kernel_change w w' -> step w w'
  | step_enter fuel cur e : room_left fuel w -> admissible fuel cur e w ->
      enter fuel cur e w = Ok () w' -> step w w'.

Lemma step_consistent w w' : step w w' -> consistent mm_of w -> consistent mm_of w'.
Proof.
  intros [Hk|fuel cur e Hr Ha E] Hc; [by apply (change_consistent w)|]. pose proof (enter_consistent fuel cur e w Hc Hr Ha) as H. unfold wp in H. by rewrite E in H.
Qed.

Lemma steps_consistent w w' : rtc step w w' -> consistent mm_of w -> consistent mm_of w'.
Proof. induction 1 as [|w w1 w' Hs _ IH]; [done|]. intros Hc. by apply IH, (step_consistent w). Qed.

(** The module as it is loaded: a partition with an empty table, and no vma that claims to
    show an attachment. *)
Record loaded w : Prop := {
  ld_part : part w = Some (mk_part 0 0 (replicate (Z.to_nat XPMEM_TG_HASHTABLE_SIZE) []));
  ld_tgs : tgs w = ∅;
  ld_segs : segs w = ∅;
  ld_aps : aps w = ∅;
  ld_atts : atts w = ∅;
  ld_held : held w = [];
  ld_vmas : forall v vma, vmas w !! v = Some vma -> vm_ops vma <> xpmem_vm_ops;
  ld_ptes : PtesInVmas w;
  ld_apart : vmas_apart (vmas w);
}.

Lemma loaded_consistent w : loaded w -> consistent mm_of w.
Proof.
  intros [Hp Ht Hs Ha Hat Hh Hv Hm Hap]. assert (forall t y, atts w !! t = Some y -> False) as Hno by (intros t y; by rewrite Hat, lookup_empty).
  split; [by apply Inv_init|..|done| |].
  - split; [done|by intros t y ?%Hno| |done]. intros v vma t E Ho. by destruct (Hv v vma E).
  - split; by intros t y ?%Hno.
  - intros s g. by rewrite Hs, lookup_empty.
  - split; [intros a x; by rewrite Ha, lookup_empty|]. intros q s g. by rewrite Hs, lookup_empty.
  - by intros t y x p ?%Hno.
  - intros p t. by rewrite Ht, lookup_empty.
Qed.

(** C1: however many processes open the device, share and remove memory, get and release permits,
    attach, fault on, detach and unmap them, announce forks, have their pages recalled through
    /proc, exit and close the device, in any order, with results that cannot be copied out, with
    invalidations and with any change of the kernel to all other mappings in between: every state
    they reach by admissible calls from the module as it is loaded is consistent, and in every such
    state every further admissible call returns: it neither faults, nor loops, nor blocks on a lock
    that was left behind.  Not admissible, and not claimed: closing the device while the address
    space lives, MAKE of a range whose end wraps around, ATTACH of 2^31 pages or more,
    FORK_BEGIN and recalls after a FORK_END too many, page faults through a permit that is not for
    XPMEM_RDWR or while the source recalls pages, and unmapping a part of an attachment; the theorems
    on these calls are named in the header. *)
Theorem reachable_consistent w0 w :
  loaded w0 -> rtc step w0 w ->
  consistent mm_of w /\
  forall fuel cur e, room_left fuel w -> admissible fuel cur e w -> exists w', enter fuel cur e w = Ok () w'.
Proof.
  intros Hl Hs. pose proof (steps_consistent w0 w Hs (loaded_consistent w0 Hl)) as Hc. split; [done|].
  intros fuel cur e Hr Ha. destruct (wp_inv _ _ _ (enter_consistent fuel cur e w Hc Hr Ha)) as ([] & w' & E & _). by exists w'.
Qed.
End calls.
