(* ===== verification/RecallProto.v ===== *)
(** The recall counter under concurrency (xpmem_pfn.c, lines 442-546).

    [n_recall_PFNs] is a lock with two kinds of owners: page faults block
    recalls (they make it negative), recalls block page faults (they make it
    positive).  Every atomic access is one step of one task, so that the steps
    of different tasks interleave freely: the read and each turn of the
    compare-and-exchange loop, the test of the wait queue, and the decrement or
    increment and the wake-up that follows it are separate steps.

    [wait_event] is a wait queue entry ([_queued]), a test, and sleep until a
    wake-up puts the task back to the test.  The test and going to sleep are one
    step: a wake-up between them is not lost, because the task is on the queue
    before it tests.

    [step] is what tasks do that give back what they took; [run] adds the decrement of a
    [xpmem_fork_end] that no [xpmem_fork_begin] preceded.  The counter is unbounded here. *)

From S2P Require Import Prelude.

Inductive pc :=
  | Idle
  (* xpmem_block_recall_PFNs, with its argument [wait] *)
  | B_check (wait : bool)           (* line 448 *)
  | B_read (wait : bool)            (* line 451 *)
  | B_cas (wait : bool) (value : Z) (* lines 452-461 *)
  | B_wait (wait : bool)            (* line 466 *)
  | B_queued                        (* line 470 *)
  | B_asleep
  | B_in                            (* returned 0 *)
  | B_wake                          (* line 479 *)
  (* xpmem_disallow_blocking_recall_PFNs *)
  | R_read                          (* line 488 *)
  | R_cas (value : Z)               (* lines 489-497 *)
  | R_queued                        (* line 502 *)
  | R_asleep
  | R_in                            (* returned *)
  | R_wake.                         (* line 511 *)

#[export] Instance pc_eq : EqDecision pc.
Proof. solve_decision. Defined.

Record st := mk_st { n_recall : Z; pcs : gmap positive pc }.

Definition on_allow_wq (p : pc) : bool := match p with R_queued | R_asleep => true | _ => false end.

(** waitqueue_active(&tg->allow_recall_PFNs_wq) *)
Definition waitqueue_active (s : st) : Prop := exists i p, pcs s !! i = Some p /\ on_allow_wq p = true.

(** wake_up: every sleeper of the queue tests its condition again. *)
Definition wake_allow (p : pc) : pc := match p with R_asleep => R_queued | _ => p end.
Definition wake_block (p : pc) : pc := match p with B_asleep => B_queued | _ => p end.

(** Task [i] moves to [p], leaving the counter at [n]. *)
Definition goto (i : positive) (p : pc) (n : Z) (s : st) : st := mk_st n (<[i := p]> (pcs s)).

(** One atomic step of task [i]. *)
Inductive step_of (i : positive) (s : st) : pc -> st -> Prop :=
  (* xpmem_block_recall_PFNs *)
  | st_block wait : step_of i s Idle (goto i (B_check wait) (n_recall s) s)
  | st_check_wait wait : waitqueue_active s ->
      step_of i s (B_check wait) (goto i (B_wait wait) (n_recall s) s)
  | st_check_read wait : ~ waitqueue_active s ->
      step_of i s (B_check wait) (goto i (B_read wait) (n_recall s) s)
  | st_read wait : step_of i s (B_read wait) (goto i (B_cas wait (n_recall s)) (n_recall s) s)
  | st_cas_refused wait value : value > 0 ->
      step_of i s (B_cas wait value) (goto i (B_wait wait) (n_recall s) s)
  | st_cas_taken wait value : value <= 0 -> n_recall s = value ->
      step_of i s (B_cas wait value) (goto i B_in (value - 1) s)
  | st_cas_retry wait value : value <= 0 -> n_recall s <> value ->
      step_of i s (B_cas wait value) (goto i (B_cas wait (n_recall s)) (n_recall s) s)
  | st_eagain : step_of i s (B_wait false) (goto i Idle (n_recall s) s)
  | st_enqueue : step_of i s (B_wait true) (goto i B_queued (n_recall s) s)
  | st_dequeue : n_recall s <= 0 -> step_of i s B_queued (goto i (B_check true) (n_recall s) s)
  | st_sleep : n_recall s > 0 -> step_of i s B_queued (goto i B_asleep (n_recall s) s)
  (* xpmem_unblock_recall_PFNs *)
  | st_unblock : n_recall s + 1 <> 0 -> step_of i s B_in (goto i Idle (n_recall s + 1) s)
  | st_unblock_last : n_recall s + 1 = 0 -> step_of i s B_in (goto i B_wake 0 s)
  | st_wake_allow : step_of i s B_wake (mk_st (n_recall s) (wake_allow <$> <[i := Idle]> (pcs s)))
  (* xpmem_disallow_blocking_recall_PFNs *)
  | st_disallow : step_of i s Idle (goto i R_read (n_recall s) s)
  | st_rread : step_of i s R_read (goto i (R_cas (n_recall s)) (n_recall s) s)
  | st_rcas_refused value : value < 0 -> step_of i s (R_cas value) (goto i R_queued (n_recall s) s)
  | st_rcas_taken value : value >= 0 -> n_recall s = value ->
      step_of i s (R_cas value) (goto i R_in (value + 1) s)
  | st_rcas_retry value : value >= 0 -> n_recall s <> value ->
      step_of i s (R_cas value) (goto i (R_cas (n_recall s)) (n_recall s) s)
  | st_rdequeue : n_recall s >= 0 -> step_of i s R_queued (goto i R_read (n_recall s) s)
  | st_rsleep : n_recall s < 0 -> step_of i s R_queued (goto i R_asleep (n_recall s) s)
  (* xpmem_allow_blocking_recall_PFNs *)
  | st_allow : n_recall s - 1 <> 0 -> step_of i s R_in (goto i Idle (n_recall s - 1) s)
  | st_allow_last : n_recall s - 1 = 0 -> step_of i s R_in (goto i R_wake 0 s)
  | st_wake_block : step_of i s R_wake (mk_st (n_recall s) (wake_block <$> <[i := Idle]> (pcs s))).

Definition step (s s' : st) : Prop := exists i p, pcs s !! i = Some p /\ step_of i s p s'.

(** All tasks idle. *)
Definition initial (s : st) : Prop := n_recall s = 0 /\ forall i p, pcs s !! i = Some p -> p = Idle.

Definition reachable (s : st) : Prop := exists s0, initial s0 /\ rtc step s0 s.

(** [xpmem_fork_end] calls [xpmem_allow_blocking_recall_PFNs] without looking at the counter: a
    task that has not disallowed anything lowers it all the same. *)
Inductive lone_end (s : st) : st -> Prop :=
  | le_dec i : pcs s !! i = Some Idle -> n_recall s - 1 <> 0 -> lone_end s (goto i Idle (n_recall s - 1) s)
  | le_dec_last i : pcs s !! i = Some Idle -> n_recall s - 1 = 0 -> lone_end s (goto i R_wake 0 s).

(** Runs in which [k] such calls were made. *)
Inductive run : nat -> st -> Prop :=
  | run_start s : initial s -> run 0 s
  | run_step k s s' : run k s -> step s s' -> run k s'
  | run_lone_end k s s' : run k s -> lone_end s s' -> run (S k) s'.

(** * Counting the owners *)

Definition is_B (p : pc) : nat := match p with B_in => 1 | _ => 0 end.
Definition is_R (p : pc) : nat := match p with R_in => 1 | _ => 0 end.
Definition blockers (s : st) : nat := map_sum is_B (pcs s).
Definition recallers (s : st) : nat := map_sum is_R (pcs s).

(** The counter says who owns the lock, but for the [k] lone calls of [xpmem_fork_end]. *)
Record counted (k : nat) (s : st) : Prop := {
  counter : n_recall s = Z.of_nat (recallers s) - Z.of_nat (blockers s) - Z.of_nat k;
  (* no wake-up is lost *)
  wake_B : forall i, pcs s !! i = Some B_asleep -> n_recall s > 0 \/ exists j, pcs s !! j = Some R_wake;
  wake_R : forall i, pcs s !! i = Some R_asleep -> n_recall s < 0 \/ exists j, pcs s !! j = Some B_wake;
}.

(** Never both kinds of owners at once. *)
Definition exclusive (s : st) : Prop := recallers s = 0%nat \/ blockers s = 0%nat.

Lemma map_sum_fmap {V U} (f : U -> nat) (g : V -> U) (m : gmap positive V) :
  map_sum f (g <$> m) = map_sum (fun v => f (g v)) m.
Proof.
  induction m as [|k v m Hk IH] using map_ind; [done|].
  rewrite fmap_insert, !map_sum_insert by (rewrite ?lookup_fmap, ?Hk; done). by rewrite IH.
Qed.

Lemma map_sum_ext {V} (f g : V -> nat) (m : gmap positive V) :
  (forall v, f v = g v) -> map_sum f m = map_sum g m.
Proof.
  intros H. induction m as [|k v m Hk IH] using map_ind; [done|].
  by rewrite !map_sum_insert, IH, H by done.
Qed.

Lemma initial_counted s : initial s -> counted 0 s /\ exclusive s.
Proof.
  intros [Hn Hi].
  assert (forall f : pc -> nat, f Idle = 0%nat -> map_sum f (pcs s) = 0%nat) as Hz.
  { intros f Hf. destruct s as [n m]; cbn in *. clear Hn.
    induction m as [|k v m Hk IH] using map_ind; [done|]. rewrite map_sum_insert by done.
    rewrite (Hi k v) by apply lookup_insert_eq. rewrite Hf, IH; [done|].
    intros i p Hp. apply (Hi i). rewrite lookup_insert_ne; [done|]. intros ->. congruence. }
  unfold exclusive. split; [split|]; unfold recallers, blockers; rewrite ?(Hz is_R), ?(Hz is_B) by done; auto;
    intros i Hp; by specialize (Hi i _ Hp).
Qed.

(** Moving one task. *)
Lemma goto_counts i p p' n s :
  pcs s !! i = Some p ->
  (recallers (goto i p' n s) + is_R p = recallers s + is_R p')%nat /\
  (blockers (goto i p' n s) + is_B p = blockers s + is_B p')%nat.
Proof. intros E. split; by apply map_sum_update. Qed.

(** A move that does not touch the counter and neither enters nor leaves. *)
Lemma goto_quiet k i p p' s :
  counted k s -> pcs s !! i = Some p ->
  is_R p' = is_R p -> is_B p' = is_B p -> p <> R_wake -> p <> B_wake ->
  (p' = B_asleep -> n_recall s > 0) -> (p' = R_asleep -> n_recall s < 0) ->
  counted k (goto i p' (n_recall s) s).
Proof.
  intros [C1 C3 C4] E HR HB N1 N2 S1 S2. destruct (goto_counts i p p' (n_recall s) s E) as [E1 E2].
  assert (forall j q, q <> p -> pcs s !! j = Some q -> pcs (goto i p' (n_recall s) s) !! j = Some q) as Hk.
  { intros j q Hq Ej. cbn. rewrite lookup_insert_ne; [done|]. intros <-. congruence. }
  split; [cbn [n_recall goto]; lia|..].
  - intros j. cbn. rewrite lookup_insert. case_decide as Hj.
    + intros [= ->]. left. by apply S1.
    + intros Hs. destruct (C3 j Hs) as [|[j' Hk']]; [by left|right]. exists j'. by apply Hk.
  - intros j. cbn. rewrite lookup_insert. case_decide as Hj.
    + intros [= ->]. left. by apply S2.
    + intros Hs. destruct (C4 j Hs) as [|[j' Hk']]; [by left|right]. exists j'. by apply Hk.
Qed.

(** Entering or leaving: the new counter still explains the sleepers. *)
Lemma goto_counter k k' i p p' n s :
  counted k s -> pcs s !! i = Some p -> p <> R_wake -> p <> B_wake ->
  p' <> B_asleep -> p' <> R_asleep ->
  n = n_recall s + Z.of_nat (is_R p') - Z.of_nat (is_R p) - Z.of_nat (is_B p') + Z.of_nat (is_B p) + Z.of_nat k - Z.of_nat k' ->
  (n_recall s > 0 -> n > 0 \/ p' = R_wake) -> (n_recall s < 0 -> n < 0 \/ p' = B_wake) ->
  counted k' (goto i p' n s).
Proof.
  intros [C1 C3 C4] E N1 N2 N3 N4 Hn Hb Hr. destruct (goto_counts i p p' n s E) as [E1 E2].
  assert (forall j q, q <> p -> pcs s !! j = Some q -> pcs (goto i p' n s) !! j = Some q) as Hk.
  { intros j q Hq Ej. cbn. rewrite lookup_insert_ne; [done|]. intros <-. congruence. }
  split; [cbn [n_recall goto]; lia|..].
  - intros j. cbn. rewrite lookup_insert. case_decide as Hj; [congruence|]. intros Hs.
    destruct (C3 j Hs) as [H|[j' Hk']].
    + destruct (Hb H) as [|Hw]; [by left|right]. exists i. cbn. by rewrite lookup_insert_eq, Hw.
    + right. exists j'. by apply Hk.
  - intros j. cbn. rewrite lookup_insert. case_decide as Hj; [congruence|]. intros Hs.
    destruct (C4 j Hs) as [H|[j' Hk']].
    + destruct (Hr H) as [|Hw]; [by left|right]. exists i. cbn. by rewrite lookup_insert_eq, Hw.
    + right. exists j'. by apply Hk.
Qed.

(** A wake-up: the sleepers go back to their test. *)
Lemma wake_counted k i p wake s :
  counted k s -> pcs s !! i = Some p -> is_R p = 0%nat -> is_B p = 0%nat ->
  ((p = B_wake /\ wake = wake_allow) \/ (p = R_wake /\ wake = wake_block)) ->
  counted k (mk_st (n_recall s) (wake <$> <[i := Idle]> (pcs s))).
Proof.
  intros [C1 C3 C4] E HR HB Hw. destruct (goto_counts i p Idle (n_recall s) s E) as [E1 E2].
  assert (forall q, is_R (wake q) = is_R q /\ is_B (wake q) = is_B q) as Hq
    by (intros q; destruct Hw as [[_ ->]|[_ ->]]; by destruct q).
  assert (recallers (mk_st (n_recall s) (wake <$> <[i := Idle]> (pcs s))) = recallers s) as R1.
  { unfold recallers. cbn. rewrite map_sum_fmap, (map_sum_ext _ is_R) by apply Hq.
    cbn in E1. unfold recallers in E1. cbn in E1. lia. }
  assert (blockers (mk_st (n_recall s) (wake <$> <[i := Idle]> (pcs s))) = blockers s) as B1.
  { unfold blockers. cbn. rewrite map_sum_fmap, (map_sum_ext _ is_B) by apply Hq.
    cbn in E2. unfold blockers in E2. cbn in E2. lia. }
  assert (forall j q, q <> p -> pcs s !! j = Some q -> (wake <$> <[i := Idle]> (pcs s)) !! j = Some (wake q)) as Hk.
  { intros j q Hne Ej. rewrite lookup_fmap, lookup_insert_ne; [by rewrite Ej|]. intros <-. congruence. }
  assert (forall j q, (wake <$> <[i := Idle]> (pcs s)) !! j = Some q -> q <> Idle -> wake q = q ->
            exists q', pcs s !! j = Some q' /\ wake q' = q) as Hb.
  { intros j q. rewrite lookup_fmap, lookup_insert. case_decide as Hj; cbn.
    - intros [= <-] Hi _. destruct Hw as [[_ ->]|[_ ->]]; done.
    - destruct (pcs s !! j) as [q'|]; cbn; [|done]. intros [= <-] _ _. eauto. }
  split; cbn [n_recall pcs]; rewrite ?R1, ?B1; try done.
  - intros j Hs. destruct Hw as [[-> ->]|[-> ->]].
    + destruct (Hb j _ Hs) as (q & Ej & Eq); [done|done|].
      assert (q = B_asleep) as -> by (destruct q; cbn in *; congruence).
      destruct (C3 j Ej) as [|[j' Ek]]; [by left|right]. exists j'. by apply (Hk j' R_wake).
    + destruct (Hb j _ Hs) as (q & Ej & Eq); [done| |destruct q; cbn in Eq; congruence].
      exfalso. rewrite lookup_fmap in Hs. destruct (_ !! j) as [q|] eqn:Ej in Hs; [|done].
      cbn in Hs. destruct q; cbn in Hs; congruence.
  - intros j Hs. destruct Hw as [[-> ->]|[-> ->]].
    + exfalso. rewrite lookup_fmap in Hs. destruct (_ !! j) as [q|] eqn:Ej in Hs; [|done].
      cbn in Hs. destruct q; cbn in Hs; congruence.
    + destruct (Hb j _ Hs) as (q & Ej & Eq); [done|done|].
      assert (q = R_asleep) as -> by (destruct q; cbn in *; congruence).
      destruct (C4 j Ej) as [|[j' Ek]]; [by left|right]. exists j'. by apply (Hk j' B_wake).
Qed.

(** Owners are counted. *)
Lemma owner_counted i s p (f : pc -> nat) : pcs s !! i = Some p -> (f p <= map_sum f (pcs s))%nat.
Proof. intros E. by apply (map_sum_ge f _ i). Qed.

Lemma step_counted k s s' : counted k s -> step s s' -> counted k s'.
Proof.
  intros C (i & p & E & Hs).
  destruct Hs; try (by eapply goto_quiet); try (eapply (goto_counter k k); try done; cbn; try lia; by right).
  - eapply wake_counted; try done. by left.
  - eapply wake_counted; try done. by right.
Qed.

Lemma lone_end_counted k s s' : counted k s -> lone_end s s' -> counted (S k) s'.
Proof. intros C [i E H|i E H]; eapply (goto_counter k (S k)); try done; cbn; try lia; by right. Qed.

Lemma run_counted k s : run k s -> counted k s.
Proof.
  induction 1 as [s H|k s s' _ IH H|k s s' _ IH H].
  - by apply initial_counted.
  - by eapply step_counted.
  - by eapply lone_end_counted.
Qed.

(** A wake-up leaves the owners alone. *)
Lemma wake_owners i p wake s (f : pc -> nat) :
  pcs s !! i = Some p -> f p = 0%nat -> f Idle = 0%nat -> (forall q, f (wake q) = f q) ->
  map_sum f (wake <$> <[i := Idle]> (pcs s)) = map_sum f (pcs s).
Proof.
  intros E Hp Hi Hw. rewrite map_sum_fmap, (map_sum_ext _ f) by done.
  pose proof (map_sum_update f (pcs s) i p Idle E). lia.
Qed.

Lemma step_exclusive s s' : counted 0 s -> exclusive s -> step s s' -> exclusive s'.
Proof.
  intros C C2 (i & p & E & Hs). pose proof (counter _ _ C) as C1. unfold exclusive in *.
  pose proof (owner_counted i s p is_B E) as OB. pose proof (owner_counted i s p is_R E) as OR.
  fold (blockers s) in OB. fold (recallers s) in OR.
  destruct Hs; cbn in OB, OR;
    try (match goal with |- context [goto i ?p' ?n s] => destruct (goto_counts i _ p' n s E) as [E1 E2]; cbn in E1, E2; lia end).
  - unfold recallers, blockers. cbn. by rewrite !(wake_owners i B_wake) by (done || by intros []).
  - unfold recallers, blockers. cbn. by rewrite !(wake_owners i R_wake) by (done || by intros []).
Qed.

Lemma reachable_counted s : reachable s -> counted 0 s /\ exclusive s.
Proof.
  intros (s0 & Hi & Hr). apply initial_counted in Hi.
  induction Hr as [s|s0 s1 s Hs _ IH]; [done|]. destruct Hi as [C X]. apply IH.
  split; [by eapply step_counted|by eapply step_exclusive].
Qed.

Lemma reachable_run s : reachable s -> run 0 s.
Proof.
  intros (s0 & Hi%run_start & Hr). revert Hi. induction Hr as [s|s0 s1 s Hs _ IH]; [done|]. intros Hi. apply IH.
  by eapply run_step.
Qed.

Lemma owner_exists s (f : pc -> nat) :
  (0 < map_sum f (pcs s))%nat -> exists j q, pcs s !! j = Some q /\ (0 < f q)%nat.
Proof.
  destruct s as [n m]. cbn. induction m as [|k v m Hk IH] using map_ind; [cbn; unfold map_sum; rewrite map_fold_empty; lia|].
  rewrite map_sum_insert by done. intros H. destruct (decide (0 < f v)%nat).
  - exists k, v. by rewrite lookup_insert_eq.
  - destruct IH as (j & q & Ej & Hq); [lia|]. exists j, q. rewrite lookup_insert_ne; [done|]. intros ->. congruence.
Qed.

(** In every interleaving of tasks that block and disallow recalls, the counter is the number of
    recalls in progress minus the number of page faults in progress, and never are there both. *)
Theorem recall_mutual_exclusion s :
  reachable s ->
  n_recall s = Z.of_nat (recallers s) - Z.of_nat (blockers s) /\
  (recallers s = 0%nat \/ blockers s = 0%nat).
Proof. intros [C X]%reachable_counted. split; [|exact X]. pose proof (counter _ _ C). lia. Qed.

(** C28: no wake-up is lost, also when tasks call [xpmem_fork_end] without [xpmem_fork_begin]: in
    every run, a page fault asleep waits for a recall that owns the counter or is about to wake it
    up, and a recall asleep waits for a page fault that owns the counter or is about to wake it
    up; that task can always move. The one exception is what the lone calls of [xpmem_fork_end]
    cause: a recall asleep on a counter that only they made negative, with no page fault under
    way. *)
Theorem recall_no_lost_wakeup k s i p :
  run k s -> pcs s !! i = Some p -> p = B_asleep \/ p = R_asleep ->
  (exists j q s', pcs s !! j = Some q /\
    (p = B_asleep -> q = R_in \/ q = R_wake) /\ (p = R_asleep -> q = B_in \/ q = B_wake) /\
    step_of j s q s') \/
  (p = R_asleep /\ (0 < k)%nat /\ n_recall s < 0 /\ blockers s = 0%nat).
Proof.
  intros C%run_counted E Hp. pose proof (counter _ _ C) as C1.
  destruct Hp as [-> | ->].
  - left. destruct (wake_B _ _ C i E) as [H|[j Ej]].
    + destruct (owner_exists s is_R) as (j & q & Ej & Hq); [unfold recallers in C1; lia|].
      assert (q = R_in) as -> by (destruct q; cbn in Hq; done || lia). exists j, R_in.
      destruct (decide (n_recall s - 1 = 0)); eexists; (split; [done|]); (split; [by left|]);
        (split; [done|]); by constructor.
    + exists j, R_wake. eexists. split; [done|]. split; [by right|]. split; [done|]. constructor.
  - destruct (wake_R _ _ C i E) as [H|[j Ej]].
    + destruct (decide (blockers s = 0%nat)) as [Hb|Hb]; [right; split_and!; try done; lia|]. left.
      destruct (owner_exists s is_B) as (j & q & Ej & Hq); [unfold blockers in *; lia|].
      assert (q = B_in) as -> by (destruct q; cbn in Hq; done || lia). exists j, B_in.
      destruct (decide (n_recall s + 1 = 0)); eexists; (split; [done|]); (split; [done|]);
        (split; [by left|]); by constructor.
    + left. exists j, B_wake. eexists. split; [done|]. split; [done|]. split; [by right|]. constructor.
Qed.

(** * An execution *)

Definition two_tasks : st := mk_st 0 {[1%positive := Idle; 2%positive := Idle]}.
(** Task 1 recalls pages; task 2 wants to fault and goes to sleep. *)
Definition asleep : st := mk_st 1 {[1%positive := R_in; 2%positive := B_asleep]}.

Ltac task_step i p H := eapply rtc_l; [exists i, p; split; [reflexivity|eapply H; cbn; try lia]|cbn -[insert]].

Lemma asleep_reachable : reachable asleep.
Proof.
  exists two_tasks. split.
  - split; [done|]. intros i p. cbn. rewrite lookup_insert. case_decide; [by intros [= <-]|].
    by intros [_ <-]%lookup_singleton_Some.
  - task_step 1%positive Idle st_disallow. task_step 1%positive R_read st_rread.
    task_step 1%positive (R_cas 0) st_rcas_taken.
    task_step 2%positive Idle st_block.
    task_step 2%positive (B_check true) st_check_read.
    { intros (i & p & E & Hp). cbn in E. rewrite !lookup_insert in E.
      repeat case_decide; simplify_eq; try done. by apply lookup_singleton_Some in E as [_ <-]. }
    task_step 2%positive (B_read true) st_read. task_step 2%positive (B_cas true 1) st_cas_refused.
    task_step 2%positive (B_wait true) st_enqueue. task_step 2%positive B_queued st_sleep.
    apply rtc_refl.
Qed.

(** One lone call of [xpmem_fork_end], and the recall that follows sleeps with nobody to wake it up. *)
Definition one_task : st := mk_st 0 {[1%positive := Idle]}.
Definition stranded : st := mk_st (-1) {[1%positive := R_asleep]}.

Lemma stranded_run : run 1 stranded.
Proof.
  set (at_ := fun p => mk_st (-1) {[1%positive := p]}).
  assert (forall n p p', goto 1 p' (-1) (mk_st n {[1%positive := p]}) = at_ p') as Hg
    by (intros; unfold goto, at_; cbn; by rewrite insert_singleton_eq).
  assert (run 1 (at_ Idle)) as H1.
  { rewrite <- (Hg 0 Idle). apply (run_lone_end 0 one_task); [|by apply (le_dec one_task)].
    constructor. split; [done|]. intros i p. cbn. by intros [_ <-]%lookup_singleton_Some. }
  assert (forall p p', run 1 (at_ p) -> step_of 1 (at_ p) p (goto 1 p' (-1) (at_ p)) -> run 1 (at_ p')) as Hk.
  { intros p p' H Hs. rewrite (Hg (-1) p p' : goto 1 p' (-1) (at_ p) = at_ p') in Hs. eapply run_step; [exact H|]. exists 1%positive, p. split; [apply lookup_singleton_eq|done]. }
  apply (Hk R_queued); [|by apply (st_rsleep 1 (at_ R_queued))].
  apply (Hk (R_cas (-1))); [|by apply (st_rcas_refused 1 (at_ (R_cas (-1))))].
  apply (Hk R_read); [|by apply (st_rread 1 (at_ R_read))].
  apply (Hk Idle); [done|by apply (st_disallow 1 (at_ Idle))].
Qed.
