(* ===== verification/Conc.v ===== *)
(** A small language of concurrent code: locks, shared state, any number of tasks.

    A task is a tree of atomic actions over a shared store.  Taking a lock waits until no task
    holds it in a mode that excludes the one asked for; everything else can always be done.
    [Get] and [Put] are one read and one write of the store, so that a C statement such as
    [flags |= F] is two actions, with the actions of other tasks in between; [Any] is a choice of
    the kernel or of the user (whether a call fails, which page frame it returns).

    [ordered] is a discipline of the text of a program: a task waits only for locks above all it
    holds, and ends with no lock.  [ordered_completes] is its soundness: whatever tasks that follow
    it run at once, they never all wait.  That a task has finitely many actions is in the type:
    a loop that polls is modelled as a wait. *)

From S2P Require Import Prelude.

(** Shared, exclusive, and the second kind of owners of the recall counter, who share it among
    themselves. *)
Inductive mode := Rd | Wr | Rc.

#[export] Instance mode_eq : EqDecision mode.
Proof. solve_decision. Defined.

Definition compat (m m' : mode) : bool :=
  match m, m' with Rd, Rd => true | Rc, Rc => true | _, _ => false end.

Lemma compat_sym m m' : compat m m' = compat m' m.
Proof. by destruct m, m'. Qed.

(** Ranks are compared lexicographically. *)
Definition lex_lt (a b : Z * Z) : Prop := a.1 < b.1 \/ (a.1 = b.1 /\ a.2 < b.2).

#[export] Instance lex_lt_dec a b : Decision (lex_lt a b).
Proof. unfold lex_lt. apply _. Defined.

#[export] Instance lex_lt_strict : StrictOrder lex_lt.
Proof. split; [intros [x y]|intros [x y] [x' y'] [x2 y2]]; unfold complement, lex_lt; cbn; lia. Qed.

Section conc.
Context {lock : Type} `{!EqDecision lock} (rank : lock -> Z * Z) {store : Type}.

Inductive prog :=
  | Done
  | Acq (l : lock) (m : mode) (k : prog)       (* waits *)
  | Try (l : lock) (m : mode) (yes no : prog)  (* does not wait *)
  | Enter (l : lock) (m : mode) (k : prog)     (* becomes an owner whoever else is one *)
  | Rel (l : lock) (k : prog)
  | Get (k : store -> prog)
  | Put (f : store -> store) (k : prog)
  | Any (k : Z -> prog).

Definition locks := list (lock * mode).
Record task := mk_task { held : locks; rest : prog }.
Record cfg := mk_cfg { sto : store; tasks : list task }.

Definition drop_lock (l : lock) (H : list (lock * mode)) : list (lock * mode) :=
  filter (fun x => x.1 <> l) H.

Definition holds (H : locks) (l : lock) : Prop := l ∈ H.*1.

(** No task owns [l] in a mode that excludes [m]. *)
Definition grantable (l : lock) (m : mode) (ts : list task) : Prop :=
  Forall (fun t => Forall (fun x : lock * mode => x.1 = l -> compat m x.2 = true) (held t)) ts.

(** A task that waits for [l] in a mode that is not shared. *)
Definition waits_excl (l : lock) (t : task) : Prop :=
  match rest t with Acq l' m' _ => l' = l /\ m' <> Rd | _ => False end.

(** New readers queue up behind a waiting writer. *)
Definition granted (l : lock) (m : mode) (ts : list task) : Prop :=
  grantable l m ts /\ (m = Rd -> Forall (fun t => ~ waits_excl l t) ts).

#[export] Instance waits_excl_dec l t : Decision (waits_excl l t).
Proof. unfold waits_excl. destruct (rest t); apply _. Defined.

#[export] Instance granted_dec l m ts : Decision (granted l m ts).
Proof. unfold granted, grantable. apply _. Defined.

(** One action of a task whose locks are [H], in store [s], beside the tasks [ts]: its new locks,
    what is left of it, and the new store.  A lock that can be granted may still be refused to a
    reader by [Try], when a writer waits for it. *)
Inductive act (ts : list task) (s : store) (H : locks) : prog -> locks -> prog -> store -> Prop :=
  | act_acq l m k : grantable l m ts -> act ts s H (Acq l m k) ((l, m) :: H) k s
  | act_try_yes l m yes no : grantable l m ts -> act ts s H (Try l m yes no) ((l, m) :: H) yes s
  | act_try_no l m yes no : ~ granted l m ts -> act ts s H (Try l m yes no) H no s
  | act_enter l m k : act ts s H (Enter l m k) ((l, m) :: H) k s
  | act_rel l k : act ts s H (Rel l k) (drop_lock l H) k s
  | act_get k : act ts s H (Get k) H (k s) s
  | act_put f k : act ts s H (Put f k) H k (f s)
  | act_any k v : act ts s H (Any k) H (k v) s.

Inductive step (c : cfg) : cfg -> Prop :=
  | step_act i t H' p' s' :
      tasks c !! i = Some t -> act (tasks c) (sto c) (held t) (rest t) H' p' s' ->
      step c (mk_cfg s' (<[i := mk_task H' p']> (tasks c))).

(** A step that also respects the queue of the lock. *)
Definition fair_step (c c' : cfg) : Prop :=
  step c c' /\
  forall i t l m k, tasks c !! i = Some t -> rest t = Acq l m k ->
    tasks c' !! i <> Some t -> granted l m (tasks c).

Definition all_done (c : cfg) : Prop := Forall (fun t => rest t = Done /\ held t = []) (tasks c).

(** * The discipline *)

Definition above (l : lock) (H : locks) : Prop := Forall (fun x => lex_lt (rank x.1) (rank l)) H.

Fixpoint ordered (H : locks) (p : prog) : Prop :=
  match p with
  | Done => H = []
  | Acq l m k => above l H /\ ordered ((l, m) :: H) k
  | Try l m yes no => ordered ((l, m) :: H) yes /\ ordered H no
  | Enter l m k => ordered ((l, m) :: H) k
  | Rel l k => holds H l /\ ordered (drop_lock l H) k
  | Get k => forall s, ordered H (k s)
  | Put _ k => ordered H k
  | Any k => forall v, ordered H (k v)
  end.

Definition disciplined (ts : list task) : Prop := Forall (fun t => ordered (held t) (rest t)) ts.

Lemma act_ordered ts s H p H' p' s' : act ts s H p H' p' s' -> ordered H p -> ordered H' p'.
Proof. destruct 1; cbn; solve [tauto | auto]. Qed.

Lemma step_disciplined c c' : step c c' -> disciplined (tasks c) -> disciplined (tasks c').
Proof.
  intros [i t H' p' s' Ht Ha] D. apply Forall_insert; [done|]. cbn.
  eapply act_ordered; [done|]. by apply (Forall_lookup_1 _ _ _ _ D Ht).
Qed.

(** ** Progress *)

(** What a task waits for. *)
Definition waits_for (t : task) : option lock :=
  match rest t with Acq l _ _ => Some l | _ => None end.

Definition may_wait (p : prog) : bool := match p with Acq _ _ _ | Done => true | _ => false end.

(** A task that neither waits for a lock nor has ended can act. *)
Lemma act_exists ts s H p :
  may_wait p = false -> exists H' p' s', act ts s H p H' p' s'.
Proof.
  destruct p as [|l m k|l m yes no|l m k|l k|k|f k|k]; intros Hp; try done.
  - destruct (decide (granted l m ts)) as [[]|]; do 3 eexists; [by apply act_try_yes|by apply act_try_no].
  - do 3 eexists. apply act_enter.
  - do 3 eexists. apply act_rel.
  - do 3 eexists. apply act_get.
  - do 3 eexists. apply act_put.
  - do 3 eexists. apply (act_any _ _ _ _ 0).
Qed.

(** Of the tasks that wait, one waits for a lock that none of the others waits above. *)
Lemma highest_waiter (ts : list task) i t l :
  ts !! i = Some t -> waits_for t = Some l ->
  exists j u l', ts !! j = Some u /\ waits_for u = Some l' /\
    forall n v l2, ts !! n = Some v -> waits_for v = Some l2 -> ~ lex_lt (rank l') (rank l2).
Proof.
  assert (forall us : list task,
            (forall u, u ∈ us -> waits_for u = None) \/
            exists u l', u ∈ us /\ waits_for u = Some l' /\
              forall v l2, v ∈ us -> waits_for v = Some l2 -> ~ lex_lt (rank l') (rank l2)) as Hmax.
  { induction us as [|u us IH]; [left; by intros u ?%elem_of_nil|].
    destruct (waits_for u) as [lu|] eqn:Eu.
    - right. destruct IH as [IH|(v & lv & Hv & Ev & IH)].
      + exists u, lu. split; [left|]. split; [done|]. intros v l2 [-> |Hv]%elem_of_cons E2.
        * simplify_eq. apply irreflexivity. apply _.
        * rewrite IH in E2; done.
      + destruct (decide (lex_lt (rank lu) (rank lv))) as [Hlt|Hge].
        * exists v, lv. split; [by right|]. split; [done|]. intros v' l2 [-> |Hv']%elem_of_cons E2; [|by eapply IH].
          simplify_eq. intros Hgt. apply (irreflexivity lex_lt (rank lv)). by transitivity (rank lu).
        * exists u, lu. split; [left|]. split; [done|]. intros v' l2 [-> |Hv']%elem_of_cons E2.
          -- simplify_eq. apply irreflexivity. apply _.
          -- intros Hgt. apply (IH v' l2 Hv' E2). unfold lex_lt in *. lia.
    - destruct IH as [IH|(v & lv & Hv & Ev & IH)].
      + left. intros v [-> |Hv]%elem_of_cons; auto.
      + right. exists v, lv. split; [by right|]. split; [done|].
        intros v' l2 [-> |Hv']%elem_of_cons E2; [congruence|eauto]. }
  intros Ht El. destruct (Hmax ts) as [Hn|(u & l' & Hu & Eu & Hm)].
  { rewrite (Hn t) in El; [done|]. by eapply list_elem_of_lookup_2. }
  apply list_elem_of_lookup in Hu as [j Hj]. exists j, u, l'. split; [done|]. split; [done|].
  intros n v l2 Hn. apply Hm. by eapply list_elem_of_lookup_2.
Qed.

Lemma insert_other (ts : list task) i (t : task) j v : ts !! j = Some v -> <[i := t]> ts !! j <> Some v -> j = i.
Proof. intros Hj Hne. destruct (decide (j = i)); [done|]. by rewrite list_lookup_insert_ne in Hne. Qed.

(** A task that may act makes a fair step, if its lock is granted to it should it wait for one. *)
Lemma act_fair c i t H' p' s' :
  tasks c !! i = Some t -> act (tasks c) (sto c) (held t) (rest t) H' p' s' ->
  (forall l m k, rest t = Acq l m k -> granted l m (tasks c)) -> exists c', fair_step c c'.
Proof.
  intros Ht Ha Hg. eexists. split; [by eapply step_act|]. intros j u l m k Hj Er Hne.
  cbn in Hne. apply insert_other in Hne as ->; [|done]. simplify_eq. by eapply Hg.
Qed.

(** A lock that no task holds is granted to some task that waits for it. *)
Lemma free_lock_granted c i t l :
  tasks c !! i = Some t -> waits_for t = Some l ->
  (forall u, u ∈ tasks c -> ~ holds (held u) l) -> exists c', fair_step c c'.
Proof.
  intros Ht Ew Hfree.
  assert (forall m, grantable l m (tasks c)) as Hg.
  { intros m. apply Forall_forall. intros u Hu. apply Forall_forall. intros [l' m'] Hx E; cbn in E; subst l'.
    exfalso. apply (Hfree u Hu). by apply (list_elem_of_fmap_2 fst) in Hx. }
  destruct (decide (Exists (waits_excl l) (tasks c))) as [Hx|Hx%not_Exists_Forall]; [| |apply _].
  - apply Exists_exists in Hx as (u & [j Hj]%list_elem_of_lookup & Hu). unfold waits_excl in Hu.
    destruct (rest u) as [|l' m' k'| | | | | |] eqn:Er; try done. destruct Hu as [-> Hm].
    eapply act_fair; [exact Hj|rewrite Er; by apply act_acq|]. intros ? ? ? E. rewrite Er in E. simplify_eq. done.
  - unfold waits_for in Ew. destruct (rest t) as [|l' m' k'| | | | | |] eqn:Er; simplify_eq.
    eapply act_fair; [exact Ht|rewrite Er; by apply act_acq|]. intros ? ? ? E. rewrite Er in E. simplify_eq. done.
Qed.

(** Whatever is left to do, some task can act, also when readers queue up behind writers. *)
Lemma ordered_progress c : disciplined (tasks c) -> all_done c \/ exists c', fair_step c c'.
Proof.
  intros D.
  destruct (decide (Forall (fun t => may_wait (rest t) = true) (tasks c)))
    as [Hw|Hw%not_Forall_Exists]; [| |apply _].
  - destruct (decide (Exists (fun t => is_Some (waits_for t)) (tasks c))) as [Hx|Hx%not_Exists_Forall];
      [| |apply _].
    + right. apply Exists_exists in Hx as (t0 & [i0 Hi0]%list_elem_of_lookup & [l0 El0]).
      destruct (highest_waiter _ _ _ _ Hi0 El0) as (i & t & l & Ht & El & Hmax).
      eapply free_lock_granted; [exact Ht|exact El|]. intros u [j Hj]%list_elem_of_lookup Hh.
      pose proof (Forall_lookup_1 _ _ _ _ D Hj) as Du. pose proof (Forall_lookup_1 _ _ _ _ Hw Hj) as Wu.
      cbn in Du, Wu. destruct (rest u) as [|l' m' k'| | | | | |] eqn:Er in Du, Wu |- *; try done; cbn in Du.
      * rewrite Du in Hh. by apply elem_of_nil in Hh.
      * apply (Hmax j u l'); [done|by unfold waits_for; rewrite Er|].
        apply list_elem_of_fmap in Hh as ([l2 m2] & -> & Hx). destruct Du as [Ha _].
        by apply (proj1 (Forall_forall _ _) Ha).
    + left. apply Forall_forall. intros t Ht.
      pose proof (proj1 (Forall_forall _ _) Hx t Ht) as Nt. pose proof (proj1 (Forall_forall _ _) Hw t Ht) as Wt.
      pose proof (proj1 (Forall_forall _ _) D t Ht) as Dt. unfold waits_for in Nt. cbn in Nt, Wt, Dt.
      destruct (rest t) in Nt, Wt, Dt |- *; try done. exfalso. by apply Nt.
  - right. apply Exists_exists in Hw as (t & [i Hi]%list_elem_of_lookup & Ht). cbn in Ht.
    destruct (act_exists (tasks c) (sto c) (held t) (rest t)) as (H' & p' & s' & Ha); [by apply not_true_is_false|].
    eapply act_fair; [exact Hi|exact Ha|]. intros ? ? ? E. by rewrite E in Ht.
Qed.

Lemma rtc_disciplined c c' : rtc step c c' -> disciplined (tasks c) -> disciplined (tasks c').
Proof. induction 1; eauto using step_disciplined. Qed.

(** Tasks that follow the discipline never get stuck before every task is done. *)
Lemma ordered_completes c :
  disciplined (tasks c) -> forall c', rtc step c c' -> all_done c' \/ exists c'', fair_step c' c''.
Proof. intros D c' Hr. by eapply ordered_progress, rtc_disciplined. Qed.
End conc.

Arguments prog : clear implicits.
Arguments task : clear implicits.
Arguments cfg : clear implicits.
Arguments locks : clear implicits.
