(* ===== verification/ConcOps.v ===== *)
(** The handlers as concurrent code (xpmem_attach.c, xpmem_make.c, xpmem_get.c, xpmem_pfn.c,
    xpmem_mmu_notifier.c): the locks they take, and what they read and write of attachments,
    permits, segments and page tables in between, action by action.  Get, Make and the other files
    of the program have the same functions as one task runs them, in full.

    Which attachment belongs to which permit, segment and address space does not change and is
    given by a [Layout]; addresses are page numbers.  Spinlocks that protect more than one access
    (ap->lock, seg->lock) are locks here; list and hash table locks, under which nothing is waited for,
    are not.  A walk over a list that starts over when the list changed is a walk over all members that
    ever are on it, which passes over those that are not at the time, and a loop that polls until another
    task is done waits for it.  Reference counts, identifiers and the counters of
    pages are left out. *)

From S2P Require Import Prelude Conc.

(** ** Locks *)

Inductive lock :=
  | Recall (tg : Z)        (* n_recall_PFNs: [Rd] blocks recalls, [Rc] recalls *)
  | RecallMutex (tg : Z)   (* recall_PFNs_mutex *)
  | Busy (seg : Z)         (* held while seg->flags has DESTROYING and not DESTROYED, or RECALLINGPFNS:
                              xpmem_wait_for_seg_destroyed waits for it *)
  | ApBusy (ap : Z)        (* held from setting XPMEM_FLAG_DESTROYING to the removal of the permit *)
  | Sema (seg : Z)         (* seg->sema *)
  | Mmap (mm : Z)          (* mmap_lock, of the address space at this address *)
  | AttMutex (att : Z)     (* att->mutex *)
  | InvMutex (att : Z)     (* att->invalidate_mutex *)
  | SegLock (seg : Z)      (* seg->lock *)
  | ApLock (ap : Z).       (* ap->lock *)

#[export] Instance lock_eq : EqDecision lock.
Proof. solve_decision. Defined.

(** The order in which locks are waited for; mmap locks by address. *)
Definition rank (l : lock) : Z * Z :=
  match l with
  | Recall tg => (0, tg)
  | RecallMutex tg => (1, tg)
  | Busy seg => (2, seg)
  | ApBusy ap => (2, ap)
  | Sema seg => (3, seg)
  | Mmap mm => (4, mm)
  | AttMutex att => (5, att)
  | InvMutex att => (6, att)
  | SegLock seg => (7, seg)
  | ApLock ap => (8, ap)
  end.

(** ** Shared state *)

(** att->flags *)
Record att_flags := mk_flags { DESTROYING : bool; VALIDPTEs : bool }.

Record attachment := mk_attachment {
  flags : att_flags;
  on_list : bool;      (* on the list of its permit *)
  has_vma : bool;      (* its vma is there, with vm_private_data pointing to it *)
  ptes : gmap Z Z;     (* the page frame mapped at each of its pages *)
  refs : Z -> Z;       (* references taken on page frames for it and not dropped *)
  lost : Z -> Z;       (* of these, the references of faults whose remap failed: nothing drops them *)
}.

Record store := mk_store {
  att : Z -> attachment;
  ap_destroying : Z -> bool;
  seg_destroying : Z -> bool;
  seg_destroyed : Z -> bool;
  seg_recalling : Z -> bool;
  tg_destroying : Z -> bool;
}.

Abbreviation code := (prog lock store) (only parsing).

(** Update of a function at one point. *)
Definition upd {V} (k : Z) (v : V) (f : Z -> V) : Z -> V := fun x => if decide (x = k) then v else f x.

Definition on_att (a : Z) (g : attachment -> attachment) (s : store) : store :=
  mk_store (upd a (g (att s a)) (att s)) (ap_destroying s) (seg_destroying s) (seg_destroyed s)
    (seg_recalling s) (tg_destroying s).

Definition set_flags (w : att_flags) (t : attachment) : attachment :=
  mk_attachment w (on_list t) (has_vma t) (ptes t) (refs t) (lost t).
Definition set_on_list (b : bool) (t : attachment) : attachment :=
  mk_attachment (flags t) b (has_vma t) (ptes t) (refs t) (lost t).
Definition set_has_vma (b : bool) (t : attachment) : attachment :=
  mk_attachment (flags t) (on_list t) b (ptes t) (refs t) (lost t).
Definition set_ptes (m : gmap Z Z) (t : attachment) : attachment :=
  mk_attachment (flags t) (on_list t) (has_vma t) m (refs t) (lost t).
Definition add_refs (d : Z -> Z) (t : attachment) : attachment :=
  mk_attachment (flags t) (on_list t) (has_vma t) (ptes t) (fun p => refs t p + d p) (lost t).
Definition lose (pfn : Z) (t : attachment) : attachment :=
  mk_attachment (flags t) (on_list t) (has_vma t) (ptes t) (refs t) (upd pfn (lost t pfn + 1) (lost t)).

Definition set_ap_destroying (ap : Z) (s : store) : store :=
  mk_store (att s) (upd ap true (ap_destroying s)) (seg_destroying s) (seg_destroyed s)
    (seg_recalling s) (tg_destroying s).
Definition set_seg_destroying (seg : Z) (s : store) : store :=
  mk_store (att s) (ap_destroying s) (upd seg true (seg_destroying s)) (seg_destroyed s)
    (seg_recalling s) (tg_destroying s).
Definition set_seg_destroyed (seg : Z) (s : store) : store :=
  mk_store (att s) (ap_destroying s) (seg_destroying s) (upd seg true (seg_destroyed s))
    (seg_recalling s) (tg_destroying s).
Definition set_seg_recalling (seg : Z) (b : bool) (s : store) : store :=
  mk_store (att s) (ap_destroying s) (seg_destroying s) (seg_destroyed s)
    (upd seg b (seg_recalling s)) (tg_destroying s).
Definition set_tg_destroying (tg : Z) (s : store) : store :=
  mk_store (att s) (ap_destroying s) (seg_destroying s) (seg_destroyed s)
    (seg_recalling s) (upd tg true (tg_destroying s)).

(** The number of pages of [m] that show frame [pfn]. *)
Definition shows (pfn : Z) (m : gmap Z Z) : Z :=
  Z.of_nat (size (filter (fun x : Z * Z => x.2 = pfn) m)).

(** The pages of an attachment in [lo, hi), and those outside. *)
Definition inside (lo hi : Z) (m : gmap Z Z) : gmap Z Z := filter (fun x : Z * Z => lo <= x.1 < hi) m.
Definition outside (lo hi : Z) (m : gmap Z Z) : gmap Z Z := filter (fun x : Z * Z => ~ (lo <= x.1 < hi)) m.

Definition pin (pfn : Z) : attachment -> attachment := add_refs (fun p => if decide (p = pfn) then 1 else 0).
Definition put_page (pfn : Z) : attachment -> attachment := add_refs (fun p => if decide (p = pfn) then -1 else 0).

(** xpmem_unpin_pages and zap_vma_ptes on pages [lo, hi) of an attachment *)
Definition unpin (lo hi : Z) (t : attachment) : attachment := add_refs (fun p => - shows p (inside lo hi (ptes t))) t.
Definition zap (lo hi : Z) (t : attachment) : attachment := set_ptes (outside lo hi (ptes t)) t.

(** [att->flags = w(att->flags)], a read and a write *)
Definition rmw (a : Z) (w : att_flags -> att_flags) (k : code) : code :=
  Get $ fun s => let old := flags (att s a) in Put (on_att a (set_flags (w old))) k.

Definition or_DESTROYING (w : att_flags) : att_flags := mk_flags true (VALIDPTEs w).
Definition not_DESTROYING (w : att_flags) : att_flags := mk_flags false (VALIDPTEs w).
Definition or_VALIDPTEs (w : att_flags) : att_flags := mk_flags (DESTROYING w) true.
Definition not_VALIDPTEs (w : att_flags) : att_flags := mk_flags (DESTROYING w) false.

(** What does not change while the handlers run. *)
Class Layout := {
  att_ap : Z -> Z;
  ap_seg : Z -> Z;
  ap_tg : Z -> Z;
  seg_tg : Z -> Z;
  tg_mm : Z -> Z;
  att_mm : Z -> Z;
  att_vaddr : Z -> Z;  (* first page of the source that is attached *)
  att_size : Z -> Z;
  seg_vaddr : Z -> Z;
  seg_size : Z -> Z;
  att_list : Z -> list Z;     (* of a permit *)
  ap_list : Z -> list Z;      (* of a segment *)
  seg_list : Z -> list Z;     (* of a thread group *)
  ap_hashtable : Z -> list Z; (* of a thread group *)
  pfn_valid : Z -> bool;
}.

Definition att_seg `{Layout} (a : Z) : Z := ap_seg (att_ap a).
Definition seg_mm `{Layout} (seg : Z) : Z := tg_mm (seg_tg seg).

Section ops.
Context {layout : Layout}.

(** [for (x in l) body], then [k] *)
Fixpoint foreach (l : list Z) (body : Z -> code -> code) (k : code) : code :=
  match l with [] => k | x :: l => body x (foreach l body k) end.

(** [if (held) unlock(l);] *)
Definition rel_if (held : bool) (l : lock) (k : code) : code := if held then Rel l k else k.

(** ** Clearing page tables *)

(** xpmem_clear_PTEs_of_att *)
Definition clear_PTEs_of_att (a start fin : Z) (from_mmu : bool) (k : code) : code :=
  let out := if from_mmu then Rel (InvMutex a) k else Rel (AttMutex a) (Rel (Mmap (att_mm a)) k) in
  let body := Get $ fun s =>
    if VALIDPTEs (flags (att s a)) then
      let invalidate_start := Z.max start (att_vaddr a) in
      let invalidate_end := Z.min fin (att_vaddr a + att_size a) in
      if bool_decide (invalidate_start >= att_vaddr a + att_size a \/ invalidate_end <= att_vaddr a) then out else
      let offset_start := invalidate_start - att_vaddr a in
      let offset_end := invalidate_end - att_vaddr a in
      Put (on_att a (unpin offset_start offset_end)) $
      Put (on_att a (zap offset_start offset_end)) $
      if bool_decide (offset_start = 0 /\ att_size a = offset_end - offset_start)
      then rmw a not_VALIDPTEs out else out
    else out in
  if from_mmu then
    Acq (InvMutex a) Wr $ Get $ fun s => if DESTROYING (flags (att s a)) then Rel (InvMutex a) k else body
  else Acq (Mmap (att_mm a)) Rd $ Acq (AttMutex a) Wr body.

(** xpmem_clear_PTEs_of_ap *)
Definition clear_PTEs_of_ap (ap start fin : Z) (from_mmu : bool) (k : code) : code :=
  Acq (ApLock ap) Wr $
  foreach (att_list ap) (fun a k => Get $ fun s =>
    if on_list (att s a) && VALIDPTEs (flags (att s a))
    then Rel (ApLock ap) $ clear_PTEs_of_att a start fin from_mmu $ Acq (ApLock ap) Wr k
    else k) $
  Rel (ApLock ap) k.

(** xpmem_clear_PTEs_range *)
Definition clear_PTEs_range (seg start fin : Z) (from_mmu : bool) (k : code) : code :=
  Acq (SegLock seg) Wr $
  foreach (ap_list seg) (fun ap k =>
    Rel (SegLock seg) $ clear_PTEs_of_ap ap start fin from_mmu $ Acq (SegLock seg) Wr k) $
  Rel (SegLock seg) k.

(** xpmem_clear_PTEs *)
Definition clear_PTEs (seg : Z) (k : code) : code :=
  clear_PTEs_range seg (seg_vaddr seg) (seg_vaddr seg + seg_size seg) false k.

(** ** Segments *)

(** xpmem_seg_down_read with block_recall_PFNs set; [k true] when it returns 0, [again] on -EAGAIN *)
Definition seg_down_read (seg : Z) (wait : bool) (k : bool -> code) (again : code) : code :=
  let tg := seg_tg seg in
  let checked := Get $ fun s =>
    if seg_destroying s seg || tg_destroying s tg
    then Rel (Sema seg) $ Rel (Recall tg) $ k false
    else k true in
  let down := Try (Sema seg) Rd checked $
    if wait then Acq (Sema seg) Rd checked else Rel (Recall tg) again in
  if wait then Acq (Recall tg) Rd down else Try (Recall tg) Rd down again.

(** xpmem_seg_up_read with unblock_recall_PFNs set *)
Definition seg_up_read (seg : Z) (k : code) : code := Rel (Sema seg) $ Rel (Recall (seg_tg seg)) k.

(** xpmem_remove_seg; [other] goes on when another task is removing the segment *)
Definition remove_seg (seg : Z) (other k : code) : code :=
  Acq (SegLock seg) Wr $ Get $ fun s =>
  if seg_destroying s seg then Rel (SegLock seg) other else
  Enter (Busy seg) Wr $ Put (set_seg_destroying seg) $
  Rel (SegLock seg) $
  Acq (Sema seg) Wr $
  clear_PTEs seg $
  Acq (SegLock seg) Wr $ Put (set_seg_destroyed seg) $ Rel (Busy seg) $ Rel (SegLock seg) $
  Rel (Sema seg) k.

(** xpmem_recall_PFNs; the wait is xpmem_wait_for_seg_destroyed *)
Definition recall_PFNs (seg : Z) (k : code) : code :=
  Acq (SegLock seg) Wr $ Get $ fun s =>
  if seg_destroying s seg || seg_recalling s seg
  then Rel (SegLock seg) $ Acq (Busy seg) Rd $ Rel (Busy seg) k else
  Enter (Busy seg) Wr $ Put (set_seg_recalling seg true) $
  Rel (SegLock seg) $
  Acq (Sema seg) Wr $
  clear_PTEs seg $
  Acq (SegLock seg) Wr $ Put (set_seg_recalling seg false) $ Rel (Busy seg) $ Rel (SegLock seg) $
  Rel (Sema seg) k.

(** xpmem_recall_PFNs_of_tg *)
Definition recall_PFNs_of_tg (tg : Z) (k : code) : code :=
  foreach (seg_list tg) (fun seg k => Get $ fun s => if seg_destroying s seg then k else recall_PFNs seg k) k.

(** xpmem_fork_begin, and xpmem_fork_end of a task that has called it: the counter goes down by what the task had
    added to it.  (Without [fork_begin] the decrement is no release; RecallProto has that case.) *)
Definition fork_begin (tg : Z) (k : code) : code :=
  Acq (Recall tg) Rc $ Acq (RecallMutex tg) Wr $ recall_PFNs_of_tg tg $ Rel (RecallMutex tg) k.
Definition fork_end (tg : Z) (k : code) : code := Rel (Recall tg) k.

(** xpmem_unpin_procfs_write; [Any]: whether the thread group is stopped *)
Definition unpin_procfs_write (tg : Z) : code :=
  Any $ fun stopped => if decide (stopped = 0) then Done else
  Acq (Recall tg) Rc $ Acq (RecallMutex tg) Wr $ recall_PFNs_of_tg tg $ Rel (RecallMutex tg) $
  Rel (Recall tg) Done.

(** ** The page fault handler *)

(** From line 301: the locks of the segment are given back before the page is mapped.  [pfn] is 0 when
    no page was pinned; [locked] and [src_locked] say which locks are held. *)
Definition fault_out (a pg pfn : Z) (locked src_locked : bool) : code :=
  let seg := att_seg a in
  let out :=
    rel_if src_locked (Mmap (seg_mm seg)) $
    rel_if locked (AttMutex a) $
    Rel (Mmap (att_mm a)) Done in
  seg_up_read seg $
  if bool_decide (pfn = 0) then out else
  if pfn_valid pfn then
    Get $ fun s => match ptes (att s a) !! pg with
    | Some old => Put (on_att a (put_page pfn)) out
    | None => Any $ fun remap =>
        if decide (remap = 0)
        then Put (on_att a (fun t => set_ptes (<[pg := pfn]> (ptes t)) t)) out
        else Put (on_att a (lose pfn)) out
    end
  else Put (on_att a (lose pfn)) out.

(** From line 279: the attachment is locked, the page of the source pinned. *)
Definition fault_locked (a pg : Z) (src_locked : bool) : code :=
  let seg := att_seg a in
  Any $ fun killed => if decide (killed <> 0) then fault_out a pg 0 false src_locked else
  Acq (AttMutex a) Wr $ Get $ fun s =>
  if DESTROYING (flags (att s a)) || tg_destroying s (ap_tg (att_ap a)) || tg_destroying s (seg_tg seg)
  then fault_out a pg 0 true src_locked else
  if bool_decide (pg < 0 \/ pg >= att_size a) then fault_out a pg 0 true src_locked else
  Get $ fun s => if seg_destroying s seg then fault_out a pg 0 true src_locked else
  Any $ fun pfn => if decide (pfn <= 0) then fault_out a pg 0 true src_locked else
  Put (on_att a (pin pfn)) $ rmw a or_VALIDPTEs $ fault_out a pg pfn true src_locked.

(** From line 250: the address space of the source is locked, by address; [verify]: the lock of the own
    address space was dropped, and the vma is looked up again. *)
Definition fault_mmap (a pg : Z) (verify : bool) : code :=
  let seg := att_seg a in
  let cur := att_mm a in
  let src := seg_mm seg in
  let verified (verify src_locked : bool) := Get $ fun s =>
    if verify && negb (has_vma (att s a)) then fault_out a pg 0 false src_locked
    else fault_locked a pg src_locked in
  if bool_decide (src = cur) then verified verify false else
  if bool_decide (cur < src) then Acq (Mmap src) Rd $ verified verify true else
  Try (Mmap src) Rd (verified verify true) $
    Rel (Mmap cur) $ Acq (Mmap src) Rd $ Acq (Mmap cur) Rd $ verified true true.

(** xpmem_fault_handler, with the lock that the kernel takes around it; [Any]: the process is dumping core *)
Definition fault_handler (a pg : Z) : code :=
  let seg := att_seg a in
  let cur := att_mm a in
  Acq (Mmap cur) Rd $ Any $ fun dumpcore => if decide (dumpcore <> 0) then Rel (Mmap cur) Done else Get $ fun s =>
  if negb (has_vma (att s a)) then Rel (Mmap cur) Done else Get $ fun s =>
  if ap_destroying s (att_ap a) || tg_destroying s (ap_tg (att_ap a)) then Rel (Mmap cur) Done else
  seg_down_read seg false
    (fun ok => if ok then fault_mmap a pg false else Rel (Mmap cur) Done) $
    Rel (Mmap cur) $
    seg_down_read seg true
      (fun ok => Acq (Mmap cur) Rd $ if ok then fault_mmap a pg true else Rel (Mmap cur) Done)
      (Acq (Mmap cur) Rd $ Rel (Mmap cur) Done).

(** ** Detaching *)

(** vm_munmap of the attachment, whose vma does not point to it any more *)
Definition munmap_detached (a : Z) (k : code) : code :=
  Acq (Mmap (att_mm a)) Wr $ Put (on_att a (set_ptes ∅)) $ Rel (Mmap (att_mm a)) k.

(** The part that xpmem_detach and xpmem_detach_att share: pages, vma, flag, list, locks *)
Definition detach_tail (a : Z) (k : code) : code :=
  Put (on_att a (unpin 0 (att_size a))) $
  Put (on_att a (set_has_vma false)) $
  rmw a not_VALIDPTEs $
  Acq (ApLock (att_ap a)) Wr $ Put (on_att a (set_on_list false)) $ Rel (ApLock (att_ap a)) $
  Rel (AttMutex a) $ Rel (Mmap (att_mm a)) k.

(** xpmem_detach, of the attachment [a] that the vma points to; [Any]: a signal, another process *)
Definition detach (a : Z) : code :=
  Acq (Mmap (att_mm a)) Wr $ Get $ fun s =>
  if negb (has_vma (att s a)) then Rel (Mmap (att_mm a)) Done else
  Any $ fun killed => if decide (killed <> 0) then Rel (Mmap (att_mm a)) Done else
  Acq (AttMutex a) Wr $ Acq (InvMutex a) Wr $ Get $ fun s =>
  if DESTROYING (flags (att s a))
  then Rel (InvMutex a) $ Rel (AttMutex a) $ Rel (Mmap (att_mm a)) Done else
  rmw a or_DESTROYING $ Rel (InvMutex a) $
  Any $ fun other => if decide (other <> 0)
  then rmw a not_DESTROYING $ Rel (AttMutex a) $ Rel (Mmap (att_mm a)) Done else
  detach_tail a $ munmap_detached a Done.

(** xpmem_detach_att, where mm is att->mm; [Any]: whether the task has an address space *)
Definition detach_att (a : Z) (k : code) : code :=
  Acq (Mmap (att_mm a)) Wr $ Acq (AttMutex a) Wr $ Acq (InvMutex a) Wr $ Get $ fun s =>
  if DESTROYING (flags (att s a))
  then Rel (InvMutex a) $ Rel (AttMutex a) $ Rel (Mmap (att_mm a)) k else
  rmw a or_DESTROYING $ Rel (InvMutex a) $ Get $ fun s =>
  if negb (has_vma (att s a)) then Rel (AttMutex a) $ Rel (Mmap (att_mm a)) k else
  detach_tail a $ Any $ fun mm => if decide (mm = 0) then k else munmap_detached a k.

(** munmap of a whole attachment outside of the interface: the kernel removes the pages and the vma, then
    calls xpmem_close_handler *)
Definition munmap (a : Z) : code :=
  Acq (Mmap (att_mm a)) Wr $ Get $ fun s =>
  if negb (has_vma (att s a)) then Rel (Mmap (att_mm a)) Done else
  Put (on_att a (fun t => set_has_vma false (set_ptes ∅ t))) $
  Acq (AttMutex a) Wr $ Get $ fun s =>
  if DESTROYING (flags (att s a)) then Rel (AttMutex a) $ Rel (Mmap (att_mm a)) Done else
  rmw a or_DESTROYING $
  Acq (ApLock (att_ap a)) Wr $ Put (on_att a (set_on_list false)) $ Rel (ApLock (att_ap a)) $
  Rel (AttMutex a) $ Rel (Mmap (att_mm a)) Done.

(** ** Permits *)

(** xpmem_release_ap; [other] goes on when another task is releasing the permit *)
Definition release_ap (ap : Z) (other k : code) : code :=
  Acq (ApLock ap) Wr $ Get $ fun s =>
  if ap_destroying s ap then Rel (ApLock ap) other else
  Enter (ApBusy ap) Wr $ Put (set_ap_destroying ap) $
  foreach (att_list ap) (fun a k => Get $ fun s =>
    if on_list (att s a) then Rel (ApLock ap) $ detach_att a $ Acq (ApLock ap) Wr k else k) $
  Rel (ApLock ap) $ Rel (ApBusy ap) k.

(** xpmem_release_aps_of_tg and xpmem_remove_segs_of_tg repeat a turn until the permit or the segment is off its
    list: they wait for the task that is at work on it. *)
Definition release_aps_of_tg (tg : Z) (k : code) : code :=
  foreach (ap_hashtable tg) (fun ap k => release_ap ap (Acq (ApBusy ap) Rd $ Rel (ApBusy ap) k) k) k.

Definition remove_segs_of_tg (tg : Z) (k : code) : code :=
  foreach (seg_list tg) (fun seg k => remove_seg seg (Acq (Busy seg) Rd $ Rel (Busy seg) k) k) k.

(** xpmem_teardown *)
Definition teardown (tg : Z) : code :=
  Put (set_tg_destroying tg) $ release_aps_of_tg tg $ remove_segs_of_tg tg Done.

(** ** Attaching *)

(** xpmem_attach from line 435, of a permit that was found; [Any]: access is refused or there is no memory; an address
    is given; it is taken by another attachment; vm_mmap fails *)
Definition attach (a : Z) : code :=
  let seg := att_seg a in
  let ap := att_ap a in
  let mm := att_mm a in
  let out_2 := Rel (Sema seg) Done in
  let failed := rmw a or_DESTROYING $ Acq (ApLock ap) Wr $ Put (on_att a (set_on_list false)) $ Rel (ApLock ap) $
    Rel (AttMutex a) out_2 in
  let checked := Get $ fun s =>
    if seg_destroying s seg || tg_destroying s (seg_tg seg) then Rel (Sema seg) Done else
    Any $ fun refused => if decide (refused <> 0) then out_2 else
    Acq (AttMutex a) Wr $
    Acq (ApLock ap) Wr $ Put (on_att a (set_on_list true)) $ Get $ fun s =>
    if ap_destroying s ap then Rel (ApLock ap) failed else
    Rel (ApLock ap) $
    let map := Any $ fun err =>
      Acq (Mmap mm) Wr $ Rel (Mmap mm) $ (* vm_mmap *)
      if decide (err <> 0) then failed else
      Acq (Mmap mm) Wr $ Rel (Mmap mm) $
      Put (on_att a (set_has_vma true)) $
      Rel (AttMutex a) out_2 in
    Any $ fun fixed => if decide (fixed = 0) then map else
    Acq (Mmap mm) Wr $ Rel (Mmap mm) $
    Any $ fun taken => if decide (taken <> 0) then failed else map in
  Try (Sema seg) Rd checked $ Acq (Sema seg) Rd checked.

(** ** The MMU notifier *)

(** xpmem_invalidate_PTEs_range *)
Definition invalidate_PTEs_range (tg start fin : Z) (k : code) : code :=
  foreach (seg_list tg) (fun seg k => Get $ fun s =>
    if negb (seg_destroying s seg) &&
       bool_decide (start <= seg_vaddr seg + seg_size seg /\ fin >= seg_vaddr seg)
    then clear_PTEs_range seg start fin true k else k) k.

(** A vma of the source: its pages, and whether it is an attachment itself (xpmem_is_vm_ops_set) *)
Record vma := mk_vma { vm_start : Z; vm_end : Z; is_xpmem : bool }.

(** The loop over the vmas of xpmem_invalidate_range *)
Fixpoint invalidate_each (tg start fin : Z) (vmas : list vma) (k : code) : code :=
  match vmas with
  | [] => k
  | v :: vmas =>
      if bool_decide (vm_start v >= fin) then k else
      let next := invalidate_each tg start fin vmas k in
      if is_xpmem v then next else
      let lo := Z.max (vm_start v) start in
      if bool_decide (lo >= vm_end v) then next else
      let hi := Z.min (vm_end v) fin in
      if bool_decide (hi <= vm_start v) then next else
      invalidate_PTEs_range tg lo hi next
  end.

(** xpmem_invalidate_range, by a task of process [caller], for pages [start, fin) of the address space of [tg];
    [vmas]: the vmas from the first one that meets the range on, none when there is none (they do not change
    while the notifier runs); munmap holds the mmap lock for writing, madvise and reclaim for reading *)
Definition invalidate_range (caller tg start fin : Z) (vmas : list vma) (writing : bool) : code :=
  Acq (Mmap (tg_mm tg)) (if writing then Wr else Rd) $
  let out := Rel (Mmap (tg_mm tg)) Done in
  if bool_decide (tg <> caller) then out else
  match vmas with
  | [] => invalidate_PTEs_range tg start fin out
  | _ => invalidate_each tg start fin vmas out
  end.

(** ** Calls *)

Inductive call :=
  | Fault (a pg : Z)
  | Detach (a : Z)
  | Munmap (a : Z)
  | Release (ap : Z)
  | Remove (seg : Z)
  | Fork (tg : Z)   (* xpmem_fork_begin and then xpmem_fork_end *)
  | Unpin (tg : Z)
  | Teardown (tg : Z)
  | Attach (a : Z)
  | Invalidate (caller tg start fin : Z) (vmas : list vma) (writing : bool).

Definition body (c : call) : code :=
  match c with
  | Fault a pg => fault_handler a pg
  | Detach a => detach a
  | Munmap a => munmap a
  | Release ap => release_ap ap Done Done
  | Remove seg => remove_seg seg Done Done
  | Fork tg => fork_begin tg $ fork_end tg Done
  | Unpin tg => unpin_procfs_write tg
  | Teardown tg => teardown tg
  | Attach a => attach a
  | Invalidate caller tg start fin vmas writing => invalidate_range caller tg start fin vmas writing
  end.

(** A task for each call, before its first action. *)
Definition launch (s : store) (cs : list call) : cfg lock store :=
  mk_cfg s (map (fun c => mk_task [] (body c)) cs).

Definition runs (s : store) (cs : list call) (c : cfg lock store) : Prop := rtc step (launch s cs) c.
End ops.
