(* ===== verification/ConcOrder.v ===== *)
(** The order of the locks: every handler but xpmem_attach takes them in the order of [rank], so that any
    number of them, on any objects, never deadlock. *)

From S2P Require Import Prelude Conc ConcOps.

(** Every lock in [H] belongs to a class below [n]. *)
Definition low (n : Z) (H : locks lock) : Prop := Forall (fun x => (rank x.1).1 < n) H.

Lemma low_weaken n n' H : low n H -> n <= n' -> low n' H.
Proof. intros L Hn. eapply Forall_impl; [exact L|]. cbn. lia. Qed.

Lemma low_above n l H : low n H -> n <= (rank l).1 -> above rank l H.
Proof. intros L Hn. eapply Forall_impl; [exact L|]. intros x Hx. cbn in Hx. left. lia. Qed.

Lemma low_not_held n l H : low n H -> n <= (rank l).1 -> ~ holds H l.
Proof.
  intros L Hn Hh. apply list_elem_of_fmap in Hh as (x & -> & Hx).
  pose proof (proj1 (Forall_forall _ _) L x Hx). cbn in *. lia.
Qed.

Lemma drop_eq (l : lock) m H : drop_lock l ((l, m) :: H) = drop_lock l H.
Proof. unfold drop_lock. rewrite filter_cons_False; [done|]. cbn. tauto. Qed.

Lemma drop_ne (l l' : lock) m H : l' <> l -> drop_lock l ((l', m) :: H) = (l', m) :: drop_lock l H.
Proof. intros. unfold drop_lock. by rewrite filter_cons_True. Qed.

Lemma drop_nil (l : lock) : drop_lock l [] = [].
Proof. done. Qed.

Lemma drop_none (l : lock) H : ~ holds H l -> drop_lock l H = H.
Proof.
  induction H as [|[l' m] H IH]; intros Hn; [done|].
  unfold holds in *. cbn in Hn. rewrite not_elem_of_cons in Hn.
  destruct Hn. rewrite drop_ne by congruence. by rewrite IH.
Qed.

Lemma drop_low n (l : lock) H : low n H -> n <= (rank l).1 -> drop_lock l H = H.
Proof. intros. eapply drop_none, low_not_held; done. Qed.

Lemma above_perm H H' (l : lock) : H ≡ₚ H' -> above rank l H -> above rank l H'.
Proof. intros E. unfold above. by rewrite E. Qed.

(** The order in which a list names the locks does not matter. *)
#[export] Instance drop_lock_perm : Proper ((=) ==> (≡ₚ) ==> (≡ₚ)) (@drop_lock lock _).
Proof. intros l _ <- H H' E. unfold drop_lock. by rewrite E. Qed.

Lemma ordered_perm H H' (p : prog lock store) : H ≡ₚ H' -> ordered rank H p -> ordered rank H' p.
Proof.
  revert H H'. induction p as [|l m k IH|l m yes IHy no IHn|l m k IH|l k IH|k IH|f k IH|k IH]; cbn; intros H H' E.
  - intros ->. by apply Permutation_nil.
  - intros [A O]. split; [by eapply above_perm|]. eapply IH; [|done]. by rewrite E.
  - intros [Oy On]. split; [eapply IHy; [|done]; by rewrite E|by eapply IHn].
  - apply IH. by rewrite E.
  - intros [Hh O]. split; [unfold holds in *; by rewrite <- E|]. eapply IH; [|done]. by rewrite E.
  - intros O s. by eapply IH.
  - by apply IH.
  - intros O v. by eapply IH.
Qed.

(** Evaluates [drop_lock] on a list of locks on top of [H], with [low n H] known. *)
Ltac drop :=
  repeat (rewrite drop_eq || (rewrite drop_ne by congruence) || rewrite drop_nil || (erewrite drop_low by (eauto; cbn; lia))).

(** One action of an ordered program. *)
Ltac ord1 :=
  lazymatch goal with
  | |- ordered _ _ (Acq _ _ _) => split
  | |- ordered _ _ (Try _ _ _ _) => split
  | |- ordered ?r ?H (Enter ?l ?m ?k) => change (ordered r ((l, m) :: H) k)
  | |- ordered _ _ (Rel _ _) => split; [unfold holds; cbn; solve [repeat (apply list_elem_of_here || apply list_elem_of_further)]|drop]
  | |- ordered ?r ?H (Get ?k) => let s := fresh "s" in intros s; change (ordered r H (k s)); cbv beta
  | |- ordered ?r ?H (Put _ ?k) => change (ordered r H k)
  | |- ordered ?r ?H (Any ?k) => let v := fresh "v" in intros v; change (ordered r H (k v)); cbv beta
  | |- ordered _ _ Done => reflexivity
  | |- above _ _ _ => solve [repeat (apply List.Forall_cons; [unfold lex_lt; cbn; lia|]);
                             first [apply List.Forall_nil | eapply low_above; [eassumption|cbn; lia]]]
  | |- ordered _ _ (match ?b with true => _ | false => _ end) => destruct b eqn:?
  | |- ordered _ _ (match ?b with left _ => _ | right _ => _ end) => destruct b
  | |- ordered _ _ (match ?b with Some _ => _ | None => _ end) => destruct b
  end.
Ltac ord := repeat (ord1 || assumption).

Section order.
Context {layout : Layout}.

Lemma foreach_ordered H l (bd : Z -> prog lock store -> prog lock store) k :
  (forall x k, ordered rank H k -> ordered rank H (bd x k)) ->
  ordered rank H k -> ordered rank H (foreach l bd k).
Proof. intros Hb Hk. induction l; cbn; auto. Qed.

Lemma rmw_ordered H a w k : ordered rank H k -> ordered rank H (rmw a w k).
Proof. unfold rmw. intros. by ord. Qed.

Lemma clear_PTEs_of_att_ordered H a start fin (from_mmu : bool) k :
  low (if from_mmu then 6 else 4) H -> ordered rank H k ->
  ordered rank H (clear_PTEs_of_att a start fin from_mmu k).
Proof.
  intros L Hk. unfold clear_PTEs_of_att. destruct from_mmu; ord; apply rmw_ordered; ord.
Qed.

Lemma clear_PTEs_of_ap_ordered H ap start fin (from_mmu : bool) k :
  low (if from_mmu then 6 else 4) H -> ordered rank H k ->
  ordered rank H (clear_PTEs_of_ap ap start fin from_mmu k).
Proof.
  intros L Hk. assert (low 7 H) by (eapply low_weaken; [done|destruct from_mmu; lia]).
  unfold clear_PTEs_of_ap. ord. apply foreach_ordered; [|by ord].
  intros a k' Hk'. ord. apply clear_PTEs_of_att_ordered; [done|]. ord.
Qed.

Lemma clear_PTEs_range_ordered H seg start fin (from_mmu : bool) k :
  low (if from_mmu then 6 else 4) H -> ordered rank H k ->
  ordered rank H (clear_PTEs_range seg start fin from_mmu k).
Proof.
  intros L Hk. assert (low 7 H) by (eapply low_weaken; [done|destruct from_mmu; lia]).
  unfold clear_PTEs_range. ord. apply foreach_ordered; [|by ord].
  intros ap k' Hk'. ord. apply clear_PTEs_of_ap_ordered; [done|]. ord.
Qed.

Lemma remove_seg_ordered H seg other k :
  low 2 H -> ordered rank H other -> ordered rank H k -> ordered rank H (remove_seg seg other k).
Proof.
  intros L Ho Hk. unfold remove_seg, clear_PTEs. ord. apply clear_PTEs_range_ordered; [|by ord].
  repeat constructor; cbn; try lia. eapply low_weaken; [done|lia].
Qed.

Lemma recall_PFNs_ordered H seg k : low 2 H -> ordered rank H k -> ordered rank H (recall_PFNs seg k).
Proof.
  intros L Hk. unfold recall_PFNs, clear_PTEs. ord. apply clear_PTEs_range_ordered; [|by ord].
  repeat constructor; cbn; try lia. eapply low_weaken; [done|lia].
Qed.

Lemma recall_PFNs_of_tg_ordered H tg k : low 2 H -> ordered rank H k -> ordered rank H (recall_PFNs_of_tg tg k).
Proof.
  intros L Hk. unfold recall_PFNs_of_tg. apply foreach_ordered; [|done]. intros seg k' Hk'. ord.
  by apply recall_PFNs_ordered.
Qed.

Lemma detach_tail_ordered H a k :
  low 4 H -> ordered rank H k ->
  ordered rank ((AttMutex a, Wr) :: (Mmap (att_mm a), Wr) :: H) (detach_tail a k).
Proof. intros L Hk. unfold detach_tail. ord. apply rmw_ordered. ord. Qed.

Lemma munmap_detached_ordered H a k : low 4 H -> ordered rank H k -> ordered rank H (munmap_detached a k).
Proof. intros L Hk. unfold munmap_detached. ord. Qed.

Lemma detach_att_ordered H a k : low 4 H -> ordered rank H k -> ordered rank H (detach_att a k).
Proof.
  intros L Hk. unfold detach_att. ord. apply rmw_ordered. ord. apply detach_tail_ordered; [done|].
  ord. by apply munmap_detached_ordered.
Qed.

Lemma release_ap_ordered H ap other k :
  low 2 H -> ordered rank H other -> ordered rank H k -> ordered rank H (release_ap ap other k).
Proof.
  intros L Ho Hk. assert (low 4 ((ApBusy ap, Wr) :: H)) as L4.
  { constructor; [cbn; lia|]. eapply low_weaken; [done|lia]. }
  unfold release_ap. ord.
  apply (ordered_perm ((ApLock ap, Wr) :: (ApBusy ap, Wr) :: H)); [solve_Permutation|].
  apply foreach_ordered; [|by ord]. intros a k' Hk'. ord. apply detach_att_ordered; [done|]. ord.
Qed.

Lemma release_aps_of_tg_ordered H tg k :
  low 2 H -> ordered rank H k -> ordered rank H (release_aps_of_tg tg k).
Proof.
  intros L Hk. apply foreach_ordered; [|done]. intros ap k' Hk'. apply release_ap_ordered; [done| |done]. ord.
Qed.

Lemma remove_segs_of_tg_ordered H tg k :
  low 2 H -> ordered rank H k -> ordered rank H (remove_segs_of_tg tg k).
Proof.
  intros L Hk. apply foreach_ordered; [|done]. intros seg k' Hk'. apply remove_seg_ordered; [done| |done]. ord.
Qed.

(** ** The page fault handler *)

Definition fault_locks (a : Z) (locked src_locked : bool) : locks lock :=
  let seg := att_seg a in
  (if locked then [(AttMutex a, Wr)] else []) ++
  (if src_locked then [(Mmap (seg_mm seg), Rd)] else []) ++
  [(Sema seg, Rd); (Recall (seg_tg seg), Rd); (Mmap (att_mm a), Rd)].

Lemma fault_out_ordered a pg pfn locked src_locked :
  (src_locked = true -> seg_mm (att_seg a) <> att_mm a) ->
  ordered rank (fault_locks a locked src_locked) (fault_out a pg pfn locked src_locked).
Proof.
  intros Hne. unfold fault_out, fault_locks, seg_up_read, rel_if.
  destruct locked, src_locked; cbn [app]; try specialize (Hne eq_refl); ord.
Qed.

Lemma fault_locked_ordered a pg src_locked :
  (src_locked = true -> seg_mm (att_seg a) <> att_mm a) ->
  (src_locked = false -> seg_mm (att_seg a) = att_mm a) ->
  ordered rank (fault_locks a false src_locked) (fault_locked a pg src_locked).
Proof.
  intros Hne Heq. pose proof (fun pfn => fault_out_ordered a pg pfn false src_locked Hne) as Ho.
  pose proof (fun pfn => fault_out_ordered a pg pfn true src_locked Hne) as Ho'.
  unfold fault_locked. ord; try apply Ho; try apply Ho'; [|by apply rmw_ordered, Ho'].
  unfold fault_locks. destruct src_locked; cbn [app]; ord.
Qed.

Lemma fault_mmap_ordered a pg verify : ordered rank (fault_locks a false false) (fault_mmap a pg verify).
Proof.
  pose proof (fault_locked_ordered a pg) as Hl. pose proof (fun pfn => fault_out_ordered a pg pfn false) as Ho.
  unfold fault_mmap. cbv zeta. case_bool_decide; [ord; [by apply Ho|by apply Hl]|].
  case_bool_decide; unfold fault_locks; cbn [app]; ord.
  all: eapply ordered_perm; [|first [by apply (Ho 0 true) | by apply (Hl true)]]; cbn; solve_Permutation.
Qed.

Lemma fault_handler_ordered a pg : ordered rank [] (fault_handler a pg).
Proof.
  unfold fault_handler, seg_down_read. ord.
  all: try (by apply fault_mmap_ordered).
  all: eapply ordered_perm; [|apply fault_mmap_ordered]; cbn; solve_Permutation.
Qed.

(** ** Calls *)

Definition is_attach (c : call) : bool := match c with Attach _ => true | _ => false end.

Lemma detach_ordered a : ordered rank [] (detach a).
Proof.
  unfold detach. ord. apply rmw_ordered. ord; [apply rmw_ordered; ord|].
  apply detach_tail_ordered; [constructor|]. apply munmap_detached_ordered; [constructor|]. ord.
Qed.

Lemma munmap_ordered a : ordered rank [] (munmap a).
Proof. unfold munmap. ord. apply rmw_ordered. ord. Qed.

Lemma recall_ordered tg k :
  ordered rank [(Recall tg, Rc)] k ->
  ordered rank [(RecallMutex tg, Wr); (Recall tg, Rc)] (recall_PFNs_of_tg tg (Rel (RecallMutex tg) k)).
Proof. intros Hk. apply recall_PFNs_of_tg_ordered; [repeat constructor; cbn; lia|by ord]. Qed.

Lemma invalidate_PTEs_range_ordered H tg start fin k :
  low 6 H -> ordered rank H k -> ordered rank H (invalidate_PTEs_range tg start fin k).
Proof.
  intros L Hk. unfold invalidate_PTEs_range. apply foreach_ordered; [|done]. intros seg k' Hk'. ord.
  by apply clear_PTEs_range_ordered.
Qed.

Lemma invalidate_vmas_ordered H tg start fin vmas k :
  low 6 H -> ordered rank H k -> ordered rank H (invalidate_each tg start fin vmas k).
Proof.
  intros L Hk. induction vmas as [|v vmas IH]; cbn; [done|]. repeat case_match; try done.
  by apply invalidate_PTEs_range_ordered.
Qed.

Lemma invalidate_range_ordered caller tg start fin vmas writing :
  ordered rank [] (invalidate_range caller tg start fin vmas writing).
Proof.
  assert (low 6 [(Mmap (tg_mm tg), if writing then Wr else Rd)]) as L by (by repeat constructor).
  unfold invalidate_range. ord1; [by ord|]. cbv zeta. case_bool_decide; [by ord|].
  destruct vmas; [apply invalidate_PTEs_range_ordered|apply invalidate_vmas_ordered]; try done; by ord.
Qed.

Lemma body_ordered c : is_attach c = false -> ordered rank [] (body c).
Proof.
  destruct c; cbn [is_attach body]; intros Hc; try done.
  - apply fault_handler_ordered.
  - apply detach_ordered.
  - apply munmap_ordered.
  - apply release_ap_ordered; [constructor|by ord..].
  - apply remove_seg_ordered; [constructor|by ord..].
  - unfold fork_begin, fork_end. ord. apply recall_ordered. ord.
  - unfold unpin_procfs_write. ord. apply recall_ordered. ord.
  - unfold teardown. ord. apply release_aps_of_tg_ordered; [constructor|].
    apply remove_segs_of_tg_ordered; [constructor|]. ord.
  - apply invalidate_range_ordered.
Qed.

(** C4: deadlock freedom.  Whatever page faults, detaches, unmappings, releases, removals, forks (a
    xpmem_fork_begin with its xpmem_fork_end), recalls, teardowns and invalidations are under way at once, on
    whatever attachments, permits and segments: as long as a call has not returned some call can go on, also
    when readers queue up behind waiting writers, and once all have returned no lock is held.  Waiting for
    another task to be done with a permit or a segment counts as waiting. *)
Theorem calls_complete s cs :
  Forall (fun c => is_attach c = false) cs ->
  forall c, runs s cs c -> all_done c \/ exists c', fair_step c c'.
Proof.
  intros Hc. apply (ordered_completes rank). apply Forall_fmap. eapply Forall_impl; [exact Hc|].
  intros c. apply body_ordered.
Qed.
End order.
