(* ===== verification/ConcRace.v ===== *)
(** Executions that go wrong: what the locks do not exclude.

    A schedule is run by [exec]; [exec_runs] says that what it computes is an execution. *)

From S2P Require Import Prelude Conc ConcOps ConcOrder.

(** One action of task [i], with [v] as the choice it makes, if it is not blocked. *)
Definition exec1 (i : nat) (v : Z) (c : cfg lock store) : option (cfg lock store) :=
  match tasks c !! i with
  | None => None
  | Some t =>
      let go H p s := Some (mk_cfg s (<[i := mk_task H p]> (tasks c))) in
      match rest t with
      | Done => None
      | Acq l m k => if decide (grantable l m (tasks c)) then go ((l, m) :: held t) k (sto c) else None
      | Try l m yes no =>
          if decide (grantable l m (tasks c)) then go ((l, m) :: held t) yes (sto c) else go (held t) no (sto c)
      | Enter l m k => go ((l, m) :: held t) k (sto c)
      | Rel l k => go (drop_lock l (held t)) k (sto c)
      | Get k => go (held t) (k (sto c)) (sto c)
      | Put f k => go (held t) k (f (sto c))
      | Any k => go (held t) (k v) (sto c)
      end
  end.

(** At most [n] actions of task [i]. *)
Fixpoint execn (n : nat) (i : nat) (v : Z) (c : cfg lock store) : cfg lock store :=
  match n with
  | O => c
  | S n => match exec1 i v c with Some c' => execn n i v c' | None => c end
  end.

Fixpoint exec (sched : list (nat * nat * Z)) (c : cfg lock store) : cfg lock store :=
  match sched with [] => c | (i, n, v) :: sched => exec sched (execn n i v c) end.

Lemma exec1_step i v c c' : exec1 i v c = Some c' -> step c c'.
Proof.
  unfold exec1. destruct (tasks c !! i) as [t|] eqn:Et; [|done].
  destruct (rest t) as [|l m k|l m yes no|l m k|l k|k|f k|k] eqn:Er; try done;
    try (destruct (decide _) as [Hg|Hg]); intros [= <-]; econstructor; try done; rewrite Er; constructor;
    solve [done | intros []; done].
Qed.

Lemma exec_runs sched c : rtc step c (exec sched c).
Proof.
  revert c. induction sched as [|[[i n] v] sched IH]; cbn; [done|]. intros c. etrans; [|apply IH].
  clear. revert c. induction n as [|n IH]; cbn; [done|]. intros c. destruct (exec1 i v c) as [c'|] eqn:E; [|done].
  eapply rtc_l; [by eapply exec1_step|apply IH].
Qed.

(** ** One attachment *)

(** Process 2 attached four pages of segment 1 of process 1. *)
Definition one_att : Layout := {|
  att_ap := fun _ => 1; ap_seg := fun _ => 1; ap_tg := fun _ => 2; seg_tg := fun _ => 1;
  tg_mm := fun tg => 100 * tg; att_mm := fun _ => 200;
  att_vaddr := fun _ => 0; att_size := fun _ => 4; seg_vaddr := fun _ => 0; seg_size := fun _ => 4;
  att_list := fun _ => [1]; ap_list := fun _ => [1]; seg_list := fun tg => if decide (tg = 1) then [1] else [];
  ap_hashtable := fun tg => if decide (tg = 2) then [1] else []; pfn_valid := fun _ => true |}.

Definition no_pages (w : att_flags) (attached : bool) : attachment :=
  mk_attachment w attached attached ∅ (fun _ => 0) (fun _ => 0).

(** Attachment 1 is attached, or about to be; there are no others. *)
Definition fresh (attached : bool) : store :=
  mk_store (fun a => if decide (a = 1) then no_pages (mk_flags false false) attached
                     else no_pages (mk_flags true false) false)
    (fun _ => false) (fun _ => false) (fun _ => false) (fun _ => false) (fun _ => false).

(** ** Deciding what an execution has come to *)

Definition is_done (t : task lock store) : bool := match rest t, held t with Done, [] => true | _, _ => false end.

Lemma all_done_true c : forallb is_done (tasks c) = true <-> all_done c.
Proof.
  unfold all_done. rewrite forallb_forall, List.Forall_forall. unfold is_done.
  split; intros Hd t Ht; specialize (Hd t Ht); [by destruct (rest t), (held t)|by destruct Hd as [-> ->]].
Qed.

Definition no_locks (c : cfg lock store) : bool :=
  forallb (fun t => match held t with [] => true | _ => false end) (tasks c).

Lemma no_locks_true c : no_locks c = true -> Forall (fun t => held t = []) (tasks c).
Proof.
  unfold no_locks. rewrite forallb_forall, List.Forall_forall. intros Hd t Ht.
  specialize (Hd t Ht). by destruct (held t).
Qed.

(** The task waits for a lock that cannot be granted. *)
Definition is_stuck (ts : list (task lock store)) (t : task lock store) : bool :=
  match rest t with Acq l m _ => bool_decide (~ grantable l m ts) | _ => false end.

Lemma stuck_true c : forallb (is_stuck (tasks c)) (tasks c) = true -> forall c', ~ step c c'.
Proof.
  intros Hs c' [i t H' p' s' Ht Ha]. rewrite forallb_forall in Hs.
  assert (is_stuck (tasks c) t = true) as Hb by (apply Hs, list_elem_of_In; by eapply list_elem_of_lookup_2).
  unfold is_stuck in Hb. inversion Ha as [? ? ? Hg E|? ? ? ? ? E|? ? ? ? ? E|? ? ? E|? ? E|? E|? ? E|? ? E];
    rewrite <- E in Hb; try done. by apply bool_decide_eq_true in Hb.
Qed.

(** Task 0 up to the page it pinned, frame 7, and [n] actions further. *)
Definition pins_7 (n : nat) : list (nat * nat * Z) := [(0, 13, 0%Z); (0, 1, 7%Z); (0, n, 0%Z)]%nat.

(** C23: xpmem_attach and xpmem_release of the same permit can deadlock: xpmem_attach holds the mutex of the
    new attachment, which is on the list of the permit already, and waits for the mmap lock;
    xpmem_release holds the mmap lock and waits for the mutex.  Nothing can move any more. *)
Theorem attach_release_deadlock :
  exists c, @runs one_att (fresh false) [Attach 1; Release 1] c /\ ~ all_done c /\ forall c', ~ step c c'.
Proof.
  exists (exec [(0, 9, 0%Z); (1, 100, 0%Z); (0, 100, 0%Z)]%nat (@launch one_att (fresh false) [Attach 1; Release 1])).
  split; [apply exec_runs|]. split; [|apply stuck_true; by vm_compute].
  rewrite <- all_done_true. by vm_compute.
Qed.

(** C24: the notifier does not take the mutex of the attachment, and the page fault handler does not take its
    invalidate_mutex: there is an execution in which a page that a fault pins before an invalidation and maps
    after it stays mapped, with the attachment marked as having no pages, so that it stays mapped also after
    the segment is removed.  All calls have returned. *)
Theorem fault_invalidate_stale :
  exists c, @runs one_att (fresh true) [Fault 1 0; Invalidate 1 1 0 4 [] false; Remove 1] c /\ all_done c /\
    seg_destroyed (sto c) 1 = true /\ DESTROYING (flags (att (sto c) 1)) = false /\
    VALIDPTEs (flags (att (sto c) 1)) = false /\ ptes (att (sto c) 1) !! 0 = Some 7.
Proof.
  exists (exec (pins_7 5 ++ [(1, 100, 0%Z); (0, 100, 0%Z); (2, 100, 0%Z)]%nat)
            (@launch one_att (fresh true) [Fault 1 0; Invalidate 1 1 0 4 [] false; Remove 1])).
  split; [apply exec_runs|]. split; [apply all_done_true|]; by vm_compute.
Qed.

(** C25: nor does a recall exclude the notifier: both unpin the page that is mapped, and the module has dropped
    one reference more than it took. *)
Theorem recall_invalidate_unpin_twice :
  exists c, @runs one_att (fresh true) [Fault 1 0; Invalidate 1 1 0 4 [] false; Fork 1] c /\ all_done c /\
    refs (att (sto c) 1) 7 = -1.
Proof.
  exists (exec (pins_7 100 ++ [(1, 11, 0%Z); (2, 100, 0%Z); (1, 100, 0%Z)]%nat)
            (@launch one_att (fresh true) [Fault 1 0; Invalidate 1 1 0 4 [] false; Fork 1])).
  split; [apply exec_runs|]. split; [apply all_done_true|]; by vm_compute.
Qed.

(** C26: xpmem_detach unpins the pages, gives up every lock and only then unmaps them: in between the process
    can use a page on which the module holds no reference. *)
Theorem detach_unpins_mapped :
  exists c, @runs one_att (fresh true) [Fault 1 0; Detach 1] c /\ Forall (fun t => held t = []) (tasks c) /\
    ptes (att (sto c) 1) !! 0 = Some 7 /\ refs (att (sto c) 1) 7 = 0.
Proof.
  exists (exec (pins_7 100 ++ [(1, 19, 0%Z)]%nat) (@launch one_att (fresh true) [Fault 1 0; Detach 1])).
  split; [apply exec_runs|]. split; [apply no_locks_true|]; by vm_compute.
Qed.

(** The same attachment: a fault, a detach, a release, a removal, a fork and an invalidation at once, and the state
    in which the fault has run and the detach has unpinned its page. *)
Definition all_at_once : list call :=
  [Fault 1 0; Detach 1; Release 1; Remove 1; Fork 1; Invalidate 1 1 0 4 [mk_vma 0 2 false; mk_vma 3 9 true] true].

Definition underway := exec (pins_7 100 ++ [(1, 19, 0%Z)]%nat) (@launch one_att (fresh true) all_at_once).

Lemma calls_complete_witness :
  @runs one_att (fresh true) all_at_once underway /\ ptes (att (sto underway) 1) !! 0 = Some 7 /\
  (all_done underway \/ exists c', fair_step underway c').
Proof.
  split; [apply exec_runs|]. split; [by vm_compute|].
  apply (@calls_complete one_att (fresh true) all_at_once); [repeat constructor|apply exec_runs].
Defined.
