(* ===== verification/ConcLogic.v ===== *)
(** Rely and guarantee: what a task may count on while it holds locks.

    An attachment belongs to the task that holds its mutex together with the mmap lock of its address
    space, or the mmap lock for writing ([own]).  [rely] is what the other tasks leave alone,
    [guar] what a task may change; [Inv] holds at all times, [accounted] whenever nobody owns the
    attachment.  [good] checks the text of a task against them, with the other tasks acting between
    any two of its actions, and [good_runs] says that tasks that pass keep the invariants, however
    many they are.  The MMU notifier and xpmem_attach write to attachments they do not own in this sense and
    do not pass. *)

From S2P Require Import Prelude Conc ConcOps ConcOrder.

Section logic.
Context {layout : Layout}.

(** The attachment can be found from its segment. *)
Definition listed (a : Z) : Prop := a ∈ att_list (att_ap a) /\ att_ap a ∈ ap_list (att_seg a).

(** Not marked as having pages, or not on its list: a walk over the segment passes over it. *)
Definition quiet (t : attachment) : Prop := VALIDPTEs (flags t) = false \/ on_list t = false.

Record att_fine (a : Z) (t : attachment) : Prop := {
  fine_pages : forall pg pfn, ptes t !! pg = Some pfn -> 0 <= pg < att_size a;
  fine_quiet : quiet t -> DESTROYING (flags t) = false -> ptes t = ∅;
  fine_listed : on_list t = true -> listed a;
  fine_gone : on_list t = false -> DESTROYING (flags t) = true;
}.

Record Inv (s : store) : Prop := {
  inv_fine : forall a, att_fine a (att s a);
  inv_destroyed : forall a, seg_destroyed s (att_seg a) = true -> quiet (att s a);
  inv_destroying : forall seg, seg_destroyed s seg = true -> seg_destroying s seg = true;
}.

(** Every page that is mapped is pinned once, and nothing else is pinned. *)
Definition balanced (t : attachment) : Prop :=
  DESTROYING (flags t) = false -> forall pfn, refs t pfn = shows pfn (ptes t) + lost t pfn.
Definition accounted (a : Z) (s : store) : Prop := balanced (att s a).

Definition own (H : list (lock * mode)) (a : Z) : Prop :=
  (Mmap (att_mm a), Wr) ∈ H \/ ((AttMutex a, Wr) ∈ H /\ (Mmap (att_mm a), Rd) ∈ H).

#[export] Instance own_dec H a : Decision (own H a).
Proof. unfold own. apply _. Defined.

Record rely (H : list (lock * mode)) (s s' : store) : Prop := {
  rely_own : forall a, own H a -> att s' a = att s a;
  rely_sema : forall seg m, (Sema seg, m) ∈ H -> seg_destroyed s' seg = seg_destroyed s seg;
  rely_quiet : forall a, (Sema (att_seg a), Wr) ∈ H -> quiet (att s a) -> quiet (att s' a);
  rely_destroying : forall seg, seg_destroying s seg = true -> seg_destroying s' seg = true;
  rely_gone : forall a, on_list (att s a) = false -> on_list (att s' a) = false;
}.

Record guar (H : list (lock * mode)) (s s' : store) : Prop := {
  guar_own : forall a, own H a \/ att s' a = att s a;
  guar_sema : forall seg, (Sema seg, Wr) ∈ H \/ seg_destroyed s' seg = seg_destroyed s seg;
  guar_quiet : forall a, (Sema (att_seg a), Rd) ∈ H \/ (quiet (att s a) -> quiet (att s' a));
  guar_destroying : forall seg, seg_destroying s seg = true -> seg_destroying s' seg = true;
  guar_gone : forall a, on_list (att s a) = false -> on_list (att s' a) = false;
}.

#[export] Instance rely_refl H : Reflexive (rely H).
Proof. intros s. by split. Qed.

#[export] Instance rely_trans H : Transitive (rely H).
Proof.
  intros s1 s2 s3 [O1 S1 Q1 D1 L1] [O2 S2 Q2 D2 L2]. split; intros.
  - rewrite O2 by done. by apply O1.
  - erewrite S2 by done. by eapply S1.
  - auto.
  - auto.
  - auto.
Qed.

(** Fewer locks, less to count on. *)
Lemma own_mono H H' a : H ⊆ H' -> own H a -> own H' a.
Proof. unfold own. intros E [W|[M R]]; [left|right; split]; by apply E. Qed.

Lemma rely_mono H H' s s' : H ⊆ H' -> rely H' s s' -> rely H s s'.
Proof.
  intros E [O S Q D L]. split; intros.
  - apply O. by eapply own_mono.
  - eapply S. by apply E.
  - apply Q; [by apply E|done].
  - auto.
  - auto.
Qed.

(** Two tasks never hold a lock in modes that exclude each other. *)
Definition is_flag (l : lock) : bool := match l with Busy _ | ApBusy _ => true | _ => false end.
Definition no_conflict (H H' : list (lock * mode)) : Prop :=
  forall l m m', (l, m) ∈ H -> (l, m') ∈ H' -> is_flag l = false -> compat m m' = true.

Lemma no_conflict_sym H H' : no_conflict H H' -> no_conflict H' H.
Proof. intros N l m m' H1 H2 B. rewrite compat_sym. eauto. Qed.

Lemma own_excl H H' a : no_conflict H H' -> own H a -> own H' a -> False.
Proof.
  intros N [W|[M R]] [W'|[M' R']].
  - by specialize (N _ _ _ W W' eq_refl).
  - by specialize (N _ _ _ W R' eq_refl).
  - by specialize (N _ _ _ R W' eq_refl).
  - by specialize (N _ _ _ M M' eq_refl).
Qed.

Lemma guar_rely H H' s s' : no_conflict H H' -> guar H s s' -> rely H' s s'.
Proof.
  intros N [O S Q D L]. split.
  - intros a Ho. destruct (O a) as [Ho'|]; [|done]. by destruct (own_excl _ _ _ N Ho' Ho).
  - intros seg m Hm. destruct (S seg) as [W|]; [|done]. specialize (N _ _ _ W Hm eq_refl). by destruct m.
  - intros a W Hq. destruct (Q a) as [R|]; [|auto]. by specialize (N _ _ _ R W eq_refl).
  - done.
  - done.
Qed.

(** Attachments that come into the hands of the task are accounted for; those it lets go have to be. *)
Definition gains (H H' : list (lock * mode)) (s : store) : Prop :=
  forall a, own H' a -> ~ own H a -> accounted a s.

Fixpoint good (H : list (lock * mode)) (p : prog lock store) (s : store) : Prop :=
  forall s', rely H s s' -> Inv s' ->
  match p with
  | Done => H = []
  | Acq l m k => gains H ((l, m) :: H) s' -> good ((l, m) :: H) k s'
  | Try l m yes no => (gains H ((l, m) :: H) s' -> good ((l, m) :: H) yes s') /\ good H no s'
  | Enter l m k => is_flag l = true /\ good ((l, m) :: H) k s'
  | Rel l k => gains (drop_lock l H) H s' /\ good (drop_lock l H) k s'
  | Get k => good H (k s') s'
  | Put f k => Inv (f s') /\ guar H s' (f s') /\ good H k (f s')
  | Any k => forall v, good H (k v) s'
  end.

Lemma good_rely H p s s' : good H p s -> rely H s s' -> good H p s'.
Proof.
  intros G R. destruct p; cbn [good] in *; intros s2 R2 I2; (apply (G s2); [by etrans|done]).
Qed.

(** ** Soundness *)

Record cfg_ok (c : cfg lock store) : Prop := {
  ok_inv : Inv (sto c);
  ok_good : forall i t, tasks c !! i = Some t -> good (held t) (rest t) (sto c);
  ok_locks : forall i j t u, i <> j -> tasks c !! i = Some t -> tasks c !! j = Some u ->
               no_conflict (held t) (held u);
  ok_accounted : forall a, (forall i t, tasks c !! i = Some t -> ~ own (held t) a) -> accounted a (sto c);
}.

(** One task acts: it stays good, the others can count on what it guarantees, the locks stay apart, and
    what it lets go is accounted for. *)
Lemma cfg_ok_act c i t H' p' s' :
  cfg_ok c -> tasks c !! i = Some t ->
  Inv s' -> guar (held t) (sto c) s' -> good H' p' s' ->
  (forall j u, j <> i -> tasks c !! j = Some u -> no_conflict H' (held u)) ->
  (forall a, own (held t) a -> ~ own H' a -> accounted a s') ->
  cfg_ok (mk_cfg s' (<[i := mk_task H' p']> (tasks c))).
Proof.
  intros [I G N A] Ht I' Gu G' N' L.
  assert (forall j u, <[i := mk_task H' p']> (tasks c) !! j = Some u ->
            (j = i /\ u = mk_task H' p') \/ (j <> i /\ tasks c !! j = Some u)) as Hl.
  { intros j u Hj. destruct (decide (j = i)) as [-> |Hne]; [left|right].
    - rewrite list_lookup_insert_eq in Hj by (by eapply lookup_lt_Some). by simplify_eq.
    - by rewrite list_lookup_insert_ne in Hj. }
  split; cbn [sto tasks].
  - done.
  - intros j u [[-> ->]|[Hne Hu]]%Hl; [done|]. eapply good_rely; [by apply (G j)|].
    eapply guar_rely; [|done]. by eapply (N i j).
  - intros j j' u u' Hne [[-> ->]|[Hj Hu]]%Hl [[-> ->]|[Hj' Hu']]%Hl; cbn; try done.
    + by eapply N'.
    + apply no_conflict_sym. by eapply N'.
    + by eapply (N j j').
  - intros a Ha. assert (~ own H' a) as Hn.
    { apply (Ha i (mk_task H' p')). apply list_lookup_insert_eq. by eapply lookup_lt_Some. }
    destruct (guar_own _ _ _ Gu a) as [Ho|Eq]; [by apply L|].
    destruct (decide (own (held t) a)) as [Ho|Ho]; [by apply L|].
    unfold accounted. rewrite Eq. apply A. intros j u Hu Hou. destruct (decide (j = i)) as [-> |Hne].
    + by simplify_eq.
    + apply (Ha j u); [|done]. by rewrite list_lookup_insert_ne.
Qed.

Lemma guar_refl H s : guar H s s.
Proof. split; auto. Qed.

Lemma no_conflict_cons l m H H' :
  no_conflict H H' -> (is_flag l = false -> forall m', (l, m') ∈ H' -> compat m m' = true) ->
  no_conflict ((l, m) :: H) H'.
Proof. intros N Hl l' m1 m2 [[= -> ->]|H1]%elem_of_cons H2 B; [by apply Hl|by eapply N]. Qed.

Lemma no_conflict_drop l H H' : no_conflict H H' -> no_conflict (drop_lock l H) H'.
Proof. intros N l' m m' H1 H2. apply N; [|done]. by apply list_elem_of_filter in H1 as [_ H1]. Qed.

Lemma grantable_compat l m (ts : list (task lock store)) i t m' :
  grantable l m ts -> ts !! i = Some t -> (l, m') ∈ held t -> compat m m' = true.
Proof.
  intros Hg Ht Hm. apply (Forall_lookup_1 _ _ _ _ Hg) in Ht. cbn in Ht.
  by apply (proj1 (Forall_forall _ _) Ht) in Hm; [apply Hm|].
Qed.

Lemma own_cons l m H a : own H a -> own ((l, m) :: H) a.
Proof. apply own_mono. set_solver. Qed.

(** A lock just granted brings attachments that nobody owned. *)
Lemma granted_gains c i t l m :
  cfg_ok c -> tasks c !! i = Some t -> grantable l m (tasks c) ->
  gains (held t) ((l, m) :: held t) (sto c).
Proof.
  intros [I G N A] Ht Hg a Ho Hn. apply A. intros j u Hu Hou.
  destruct (decide (j = i)) as [-> |Hne]; [by simplify_eq|].
  apply (own_excl ((l, m) :: held t) (held u) a); [|done..].
  apply no_conflict_cons; [eapply (N i j); [congruence|done..]|]. intros _ m' Hm'. by eapply grantable_compat.
Qed.

Lemma step_ok c c' : cfg_ok c -> step c c' -> cfg_ok c'.
Proof.
  intros C [i t H' p' s' Ht Ha]. pose proof (ok_inv _ C) as I. pose proof (ok_good _ C i t Ht) as G.
  assert (forall j u, j <> i -> tasks c !! j = Some u -> no_conflict (held t) (held u)) as N.
  { intros j u Hne Hu. eapply (ok_locks _ C i j); [congruence|done..]. }
  pose proof (guar_refl (held t) (sto c)) as Gr.
  inversion Ha as [l m k Hg E|l m yes no Hg E|l m yes no Hg E|l m k E|l k E|k E|f k E|k v E];
    subst; rewrite <- E in G; specialize (G (sto c) (reflexivity _) I); cbn in G;
    (eapply cfg_ok_act; [done|exact Ht|try done..]).
  - apply G. by eapply granted_gains.
  - intros j u Hne Hu. apply no_conflict_cons; [by eapply N|]. intros _ m' Hm'. by eapply grantable_compat.
  - intros a Ho []. by apply own_cons.
  - apply G. by eapply granted_gains.
  - intros j u Hne Hu. apply no_conflict_cons; [by eapply N|]. intros _ m' Hm'. by eapply grantable_compat.
  - intros a Ho []. by apply own_cons.
  - apply G.
  - apply G.
  - intros j u Hne Hu. apply no_conflict_cons; [by eapply N|]. destruct G as [-> _]. done.
  - intros a Ho []. by apply own_cons.
  - apply G.
  - intros j u Hne Hu. apply no_conflict_drop. by eapply N.
  - intros a. apply G.
  - apply G.
  - apply G.
  - apply G.
  - apply G.
Qed.

Lemma steps_ok c c' : cfg_ok c -> rtc step c c' -> cfg_ok c'.
Proof. induction 2; eauto using step_ok. Qed.

(** Calls that are good from the start keep the invariants to the end. *)
Lemma good_runs s cs c :
  Inv s -> (forall a, accounted a s) -> Forall (fun x => forall s', good [] (body x) s') cs ->
  runs s cs c -> cfg_ok c.
Proof.
  intros I A G Hr. eapply steps_ok; [|exact Hr].
  assert (forall i t, tasks (launch s cs) !! i = Some t ->
            held t = [] /\ forall s', good [] (rest t) s') as Hl.
  { intros i t. cbn. rewrite list_lookup_fmap. destruct (cs !! i) as [x|] eqn:Ex; [|done]. cbn.
    intros [= <-]. split; [done|]. by apply (Forall_lookup_1 _ _ _ _ G Ex). }
  split; cbn [sto launch].
  - done.
  - intros i t [-> Hg]%Hl. apply Hg.
  - intros i j t u Hne [-> _]%Hl [-> _]%Hl l m m' []%elem_of_nil.
  - auto.
Qed.
End logic.
