(* ===== verification/ConcSafe.v ===== *)
(** Pages under concurrency: what the locks do guarantee.

    Every handler but the MMU notifier and xpmem_attach is [good] (ConcLogic): attachments of a segment that was
    destroyed show no page, and every page that is mapped is pinned exactly once. *)

From S2P Require Import Prelude Conc ConcOps ConcOrder ConcLogic ConcRace.

(** ** Counting pages *)

Lemma shows_split pfn lo hi m : shows pfn (inside lo hi m) + shows pfn (outside lo hi m) = shows pfn m.
Proof.
  unfold shows, inside, outside. rewrite <- Nat2Z.inj_add. f_equal.
  rewrite !(map_filter_comm (fun x : Z * Z => x.2 = pfn)). symmetry.
  rewrite <- (map_filter_union_complement (fun x : Z * Z => lo <= x.1 < hi) (filter _ m)) at 1.
  apply map_size_disj_union, map_disjoint_filter_complement.
Qed.

Lemma shows_insert pfn pg q m :
  m !! pg = None -> shows pfn (<[pg := q]> m) = shows pfn m + (if decide (pfn = q) then 1 else 0).
Proof.
  intros Hn. unfold shows. case_decide as E.
  - rewrite map_filter_insert_True by done. rewrite map_size_insert_None; [lia|].
    apply map_lookup_filter_None. by left.
  - rewrite map_filter_insert_False by (cbn; congruence). by rewrite delete_id, Z.add_0_r.
Qed.

Ltac mem := solve [repeat (apply list_elem_of_here || apply list_elem_of_further)].

Section safe.
Context {layout : Layout}.

(** ** Rules *)

Lemma own_drop l H a :
  (match l with Mmap _ | AttMutex _ => false | _ => true end) = true -> own H a -> own (drop_lock l H) a.
Proof.
  intros Hl. assert (forall l' m, l' <> l -> (l', m) ∈ H -> (l', m) ∈ drop_lock l H) as Hd.
  { intros l' m Hne Hm. by apply list_elem_of_filter. }
  intros [W|[M R]]; [left|right; split]; apply Hd; try done; by intros <-.
Qed.

(** A lock that protects no attachment is given back. *)
Lemma good_rel l H k s :
  (match l with Mmap _ | AttMutex _ => false | _ => true end) = true ->
  (forall s', rely H s s' -> Inv s' -> good (drop_lock l H) k s') -> good H (Rel l k) s.
Proof. intros Hl Hk s' R I. split; [|by apply Hk]. intros a Ho []. by apply own_drop. Qed.

Lemma good_acq l m H k s :
  (forall s', rely H s s' -> Inv s' -> good ((l, m) :: H) k s') -> good H (Acq l m k) s.
Proof. intros Hk s' R I _. by apply Hk. Qed.

Lemma good_get H k s : (forall s', rely H s s' -> Inv s' -> good H (k s') s') -> good H (Get k) s.
Proof. intros Hk s' R I. by apply Hk. Qed.

Lemma good_any H k s : (forall s' v, rely H s s' -> Inv s' -> good H (k v) s') -> good H (Any k) s.
Proof. intros Hk s' R I v. by apply Hk. Qed.

Lemma good_perm H H' p s : H ≡ₚ H' -> good H p s -> good H' p s.
Proof.
  assert (forall H H' a, H ≡ₚ H' -> own H a -> own H' a) as Ho.
  { intros H1 H2 a E. apply own_mono. intros x. by rewrite E. }
  assert (forall H1 H2 H3 H4 s, H1 ≡ₚ H2 -> H3 ≡ₚ H4 -> gains H1 H3 s -> gains H2 H4 s) as Hg.
  { intros H1 H2 H3 H4 s' E E' G a O N. apply G; [by eapply Ho|]. intros O'. apply N. by eapply Ho. }
  revert H H' s. induction p as [|l m k IH|l m yes IHy no IHn|l m k IH|l k IH|k IH|f k IH|k IH];
    intros H H' s E G s' R I; specialize (G s'); cbn in G;
    (assert (rely H s s') as R' by (eapply rely_mono; [|done]; intros x; by rewrite E)); specialize (G R' I).
  - subst. by apply Permutation_nil in E.
  - intros A. eapply IH; [by rewrite <- E|]. apply G. eapply Hg; [..|done]; by rewrite E.
  - destruct G as [Gy Gn]. split; [|by eapply IHn]. intros A. eapply IHy; [by rewrite <- E|]. apply Gy.
    eapply Hg; [..|done]; by rewrite E.
  - destruct G as [B G]. split; [done|]. eapply IH; [by rewrite <- E|done].
  - destruct G as [A G]. split; [eapply Hg; [..|done]; by rewrite E|]. eapply IH; [|done]. by rewrite E.
  - by eapply IH.
  - destruct G as (I' & Gu & G). split; [done|]. split; [|by eapply IH].
    destruct Gu as [O S Q D L]. split; intros; [destruct (O a); [left; by eapply Ho|by right]| | |by apply D|by apply L].
    + rewrite <- E. apply S.
    + rewrite <- E. apply Q.
  - intros v. eapply IH; [done|apply G].
Qed.

(** ** A task at work on an attachment it owns *)

(** It holds [H], of which [H0] does not make it own the attachment; it also owns the attachments [OB]. *)
Record ctx (H H0 : list (lock * mode)) (OB : Z -> Prop) (a : Z) : Prop := {
  ctx_own : own H a;
  ctx_sub : H0 ⊆ H;
  ctx_base : ~ own H0 a;
  ctx_others : forall b, OB b -> own H b;
}.

Lemma ctx_cons H H0 OB a x : ctx H H0 OB a -> ctx (x :: H) H0 OB a.
Proof.
  assert (H ⊆ x :: H) as E by set_solver. intros [O S N B].
  split; [by eapply own_mono|set_solver|done|]. intros b Hb. by eapply own_mono, B.
Qed.

(** What it knows: the attachment is [t], the others it owns are as they were in [s0], and all else changed
    since as [H0] lets it rely on. *)
Definition view (H0 : list (lock * mode)) (OB : Z -> Prop) (s0 : store) (a : Z) (t : attachment) (s : store) : Prop :=
  rely H0 s0 s /\ att s a = t /\ forall b, b <> a -> OB b -> att s b = att s0 b.

Lemma view_start H0 OB s a : view H0 OB s a (att s a) s.
Proof. by split. Qed.

Lemma view_rely H H0 OB s0 a t s s' :
  ctx H H0 OB a -> view H0 OB s0 a t s -> rely H s s' -> view H0 OB s0 a t s'.
Proof.
  intros [O E N B] (R & <- & Eb) R'. split; [etrans; [done|by eapply rely_mono]|]. split; [by apply R'|].
  intros b Hb Ob. rewrite <- (Eb b) by done. apply R'. auto.
Qed.

Lemma upd_eq {V} k (v : V) f : upd k v f k = v.
Proof. unfold upd. by rewrite decide_True. Qed.

Lemma upd_ne {V} k k' (v : V) f : k' <> k -> upd k v f k' = f k'.
Proof. intros. unfold upd. by rewrite decide_False. Qed.

Lemma on_att_cases a g s b : (b = a /\ att (on_att a g s) b = g (att s a)) \/ att (on_att a g s) b = att s b.
Proof. cbn. destruct (decide (b = a)) as [-> |]; [left; by rewrite upd_eq|right; by rewrite upd_ne]. Qed.

(** Writing to the attachment.  It may begin to show pages only in a segment that the task has locked and
    that is not destroyed. *)
Definition may_write (H0 : list (lock * mode)) (s0 : store) (a : Z) (t t' : attachment) : Prop :=
  (att_fine a t -> att_fine a t') /\ (on_list t = false -> on_list t' = false) /\
  ((quiet t -> quiet t') \/
     (((Sema (att_seg a), Rd) ∈ H0) /\ ((Sema (att_seg a), Wr) ∉ H0) /\ seg_destroyed s0 (att_seg a) = false)).

Lemma view_put H H0 OB s0 a g k t s :
  ctx H H0 OB a -> view H0 OB s0 a t s -> may_write H0 s0 a t (g t) ->
  (forall s', view H0 OB s0 a (g t) s' -> good H k s') -> good H (Put (on_att a g) k) s.
Proof.
  intros C V (F & G & Q) Hk s1 R1 I1. eapply view_rely in V as (R & Et & Eb); [|done..]. subst t.
  assert (quiet (att s1 a) -> seg_destroyed s1 (att_seg a) = true -> quiet (g (att s1 a))) as Qd.
  { intros Hq Hd. destruct Q as [Q|(Sr & _ & Nd)]; [auto|]. rewrite (rely_sema _ _ _ R _ _ Sr) in Hd. congruence. }
  assert (forall b, on_list (att s1 b) = false -> on_list (att (on_att a g s1) b) = false) as Hg.
  { intros b. destruct (on_att_cases a g s1 b) as [[-> ->]| ->]; done. }
  split; [|split; [|apply Hk; split; [|split]]].
  - destruct I1 as [If Id Ig]. split; [| |done].
    + intros b. destruct (on_att_cases a g s1 b) as [[-> ->]| ->]; [by apply F|done].
    + intros b Hd. destruct (on_att_cases a g s1 b) as [[-> ->]| ->]; [|by apply Id].
      apply Qd; [|done]. by apply Id.
  - split; [|by right|intros b|done|done].
    + intros b. destruct (on_att_cases a g s1 b) as [[-> _]|]; [left; apply C|by right].
    + destruct (on_att_cases a g s1 b) as [[-> ->]| ->]; [|by right].
      destruct Q as [|(Sr & _)]; [by right|left; by apply C].
  - etrans; [done|]. split; [|done|intros b W Hq|done|done].
    + intros b Ho. destruct (on_att_cases a g s1 b) as [[-> _]|]; [by apply C in Ho|done].
    + destruct (on_att_cases a g s1 b) as [[-> ->]| ->]; [|done]. destruct Q as [|(_ & Nw & _)]; [auto|done].
  - cbn. by rewrite upd_eq.
  - intros b Hb Ob. cbn. rewrite upd_ne by done. auto.
Qed.

Lemma view_get H H0 OB s0 a k t s :
  ctx H H0 OB a -> view H0 OB s0 a t s ->
  (forall s', view H0 OB s0 a t s' -> Inv s' -> good H (k s') s') -> good H (Get k) s.
Proof. intros C V Hk. apply good_get. intros s' R I. apply Hk; [|done]. by eapply view_rely. Qed.

Lemma view_any H H0 OB s0 a k t s :
  ctx H H0 OB a -> view H0 OB s0 a t s ->
  (forall s' v, view H0 OB s0 a t s' -> good H (k v) s') -> good H (Any k) s.
Proof. intros C V Hk. apply good_any. intros s' v R I. apply Hk. by eapply view_rely. Qed.

Lemma view_acq H H0 OB s0 a l m k t s :
  ctx H H0 OB a -> view H0 OB s0 a t s ->
  (forall s', view H0 OB s0 a t s' -> good ((l, m) :: H) k s') -> good H (Acq l m k) s.
Proof. intros C V Hk. apply good_acq. intros s' R I. apply Hk. by eapply view_rely. Qed.

(** Giving back a lock that the task does not need to own what it owns. *)
Lemma view_rel H H0 OB s0 a l k t s :
  ctx H H0 OB a -> view H0 OB s0 a t s -> (forall b, own H b -> own (drop_lock l H) b) ->
  (forall s', view H0 OB s0 a t s' -> good (drop_lock l H) k s') -> good H (Rel l k) s.
Proof.
  intros C V Ho Hk s' R I. split; [intros b O []; by apply Ho|]. apply Hk. by eapply view_rely.
Qed.

Lemma view_rmw H H0 OB s0 a w k t s :
  ctx H H0 OB a -> view H0 OB s0 a t s -> may_write H0 s0 a t (set_flags (w (flags t)) t) ->
  (forall s', view H0 OB s0 a (set_flags (w (flags t)) t) s' -> good H k s') -> good H (rmw a w k) s.
Proof.
  intros C V W Hk. unfold rmw. eapply view_get; [done..|]. intros s1 V1 I1. cbv zeta.
  pose proof V1 as (_ & Et & _). rewrite Et. by eapply view_put.
Qed.

(** ** Changes of an attachment *)

Lemma fine_refs a t d : att_fine a t -> att_fine a (add_refs d t).
Proof. by intros []. Qed.

Lemma fine_lose a t pfn : att_fine a t -> att_fine a (lose pfn t).
Proof. by intros []. Qed.

Lemma fine_vma a t b : att_fine a t -> att_fine a (set_has_vma b t).
Proof. by intros []. Qed.

Lemma fine_zap a t lo hi : att_fine a t -> att_fine a (zap lo hi t).
Proof.
  intros [P Q L G]. split; cbn; [| |done..].
  - intros pg pfn [Hp _]%map_lookup_filter_Some. by eapply P.
  - intros Hq Hd. unfold outside. rewrite Q by done. apply map_filter_empty.
Qed.

Lemma fine_unmapped a t : att_fine a t -> att_fine a (set_ptes ∅ t).
Proof. intros [P Q L G]. by split. Qed.

Lemma fine_destroying a t : att_fine a t -> att_fine a (set_flags (or_DESTROYING (flags t)) t).
Proof. intros [P Q L G]. by split. Qed.

Lemma fine_not_valid a t :
  ptes t = ∅ \/ DESTROYING (flags t) = true -> att_fine a t -> att_fine a (set_flags (not_VALIDPTEs (flags t)) t).
Proof. intros Hp [P Q L G]. split; cbn; [done| |done..]. intros _ Hd. destruct Hp; [done|congruence]. Qed.

Lemma fine_valid a t : att_fine a t -> att_fine a (set_flags (or_VALIDPTEs (flags t)) t).
Proof.
  intros [P Q L G]. split; cbn; [done| |done..]. intros [|Ho] Hd; [done|]. apply Q; [by right|done].
Qed.

Lemma fine_unlist a t : DESTROYING (flags t) = true -> att_fine a t -> att_fine a (set_on_list false t).
Proof. intros Hd [P Q L G]. split; cbn; [done| |done..]. intros _ Hd'. congruence. Qed.

Lemma fine_map a t pg pfn :
  0 <= pg < att_size a -> ~ quiet t -> att_fine a t -> att_fine a (set_ptes (<[pg := pfn]> (ptes t)) t).
Proof.
  intros Hpg Hq [P Q L G]. split; cbn; [|by intros []%Hq|done..].
  intros pg' pfn'. destruct (decide (pg' = pg)) as [-> |]; [done|]. rewrite lookup_insert_ne by done. apply P.
Qed.

(** Unpinning and zapping go together. *)
Lemma balanced_zap lo hi t : balanced t -> balanced (zap lo hi (unpin lo hi t)).
Proof.
  intros B Hd pfn. cbn. rewrite (B Hd). cbn in *. pose proof (shows_split pfn lo hi (ptes t)). lia.
Qed.

Lemma quiet_not_valid t : quiet (set_flags (not_VALIDPTEs (flags t)) t).
Proof. by left. Qed.

(** ** Locks below the mmap locks own nothing *)

Lemma low_not_in n l m H : low n H -> n <= (rank l).1 -> (l, m) ∉ H.
Proof. intros L Hn Hm. apply (low_not_held n l H L Hn). by apply (list_elem_of_fmap_2 fst) in Hm. Qed.

Lemma low_no_own H a : low 4 H -> ~ own H a.
Proof. intros L [W|[_ R]]; by eapply (low_not_in 4) in L. Qed.

Lemma low_no_own_rd H mm a : low 4 H -> ~ own ((Mmap mm, Rd) :: H) a.
Proof.
  intros L [[E|W]%elem_of_cons|[[E|M]%elem_of_cons _]]; try done.
  - by eapply (low_not_in 4) in W.
  - eapply (low_not_in 4) in M; [done|done|cbn; lia].
Qed.

(** ** Clearing page tables *)

Definition covers (a start fin : Z) : Prop :=
  start <= att_vaddr a /\ att_vaddr a + att_size a <= fin /\ 0 < att_size a.

(** The end: both locks are given back. *)
Lemma clear_out_good H a k s :
  low 4 H -> balanced (att s a) -> (forall s', rely H s s' -> Inv s' -> good H k s') ->
  good ((AttMutex a, Wr) :: (Mmap (att_mm a), Rd) :: H) (Rel (AttMutex a) (Rel (Mmap (att_mm a)) k)) s.
Proof.
  intros L B Hk s1 R1 I1. assert (att s1 a = att s a) as E1 by (apply R1; right; split; mem).
  drop. split.
  - intros b Ho Hn. assert (b = a) as ->.
    { destruct Ho as [W|[M _]].
      - apply elem_of_cons in W as [|W]; [done|]. exfalso. apply (low_no_own_rd H (att_mm a) b L). by left.
      - apply elem_of_cons in M as [[= <-]|M]; [done|]. apply elem_of_cons in M as [|M]; [done|].
        exfalso. eapply (low_not_in 4) in M; [done|done|cbn; lia]. }
    unfold accounted. by rewrite E1.
  - intros s2 R2 I2. drop. split; [intros b Ho; by apply low_no_own_rd in Ho|].
    apply Hk; [|done]. etrans; (eapply rely_mono; [|eassumption]); set_solver.
Qed.

Lemma clear_PTEs_of_att_good H a start fin k s :
  low 4 H ->
  (forall s', rely H s s' -> Inv s' ->
     ((Sema (att_seg a), Wr) ∈ H -> covers a start fin -> quiet (att s' a)) -> good H k s') ->
  good H (clear_PTEs_of_att a start fin false k) s.
Proof.
  intros L Hk. unfold clear_PTEs_of_att. apply good_acq. intros s1 R1 I1.
  intros s2 R2 I2 G2.
  set (HH := (AttMutex a, Wr) :: (Mmap (att_mm a), Rd) :: H) in *.
  set (OB := fun _ : Z => False).
  assert (ctx HH H OB a) as C.
  { split; [right; split; mem|unfold HH; set_solver|by apply low_no_own|done]. }
  assert (balanced (att s2 a)) as B by (apply G2; [apply C|by apply low_no_own_rd]).
  assert (rely H s s2) as R by (etrans; [done|]; eapply rely_mono; [|done]; set_solver).
  assert (view H OB s a (att s2 a) s2) as V by done.
  remember (att s2 a) as t eqn:Et. clear Et G2 R1 I1 R2 I2 R.
  eapply view_get; [exact C|exact V|]. clear s2 V. intros s2 V I2. pose proof V as (R2 & E2 & _).
  assert (forall s' t', view H OB s a t' s' -> balanced t' -> (covers a start fin -> quiet t') ->
            good HH (Rel (AttMutex a) (Rel (Mmap (att_mm a)) k)) s') as Hout.
  { intros s' t' (R' & E' & _) B' Q'. apply clear_out_good; [done|by rewrite E'|]. intros s3 R3 I3.
    apply Hk; [by etrans|done|]. intros W Hc. eapply rely_quiet; [done..|]. rewrite E'. auto. }
  rewrite E2. destruct (VALIDPTEs (flags t)) eqn:Ev; cycle 1.
  { eapply Hout; [done|done|]. intros _. by left. }
  case_bool_decide as Hr.
  { eapply Hout; [done|done|]. unfold covers. lia. }
  eapply view_put; [exact C|exact V|split; [apply fine_refs|split; [done|by left]]|]. clear s2 V I2 R2 E2. intros s2 V.
  eapply view_put; [exact C|exact V|split; [apply fine_zap|split; [done|by left]]|]. clear s2 V. intros s2 V.
  pose proof (balanced_zap (Z.max start (att_vaddr a) - att_vaddr a)
                (Z.min fin (att_vaddr a + att_size a) - att_vaddr a) t B) as B'.
  case_bool_decide as Hf.
  - eapply view_rmw; [exact C|exact V| |].
    + split; [|split; [done|left; intros _; apply quiet_not_valid]].
      intros F. apply fine_not_valid; [|done]. left. apply map_empty. intros pg.
      destruct (_ !! pg) as [q|] eqn:Hq; [|done]. pose proof (fine_pages _ _ F _ _ Hq) as Hp.
      apply map_lookup_filter_Some in Hq as [_ Hn]. cbn in Hn. lia.
    + intros s3 V3. eapply Hout; [exact V3|exact B'|]. intros _. apply quiet_not_valid.
  - eapply Hout; [exact V|exact B'|]. unfold covers. lia.
Qed.

(** A loop: each turn establishes [Q], which the other tasks leave alone. *)
Lemma foreach_good (Hb H : list (lock * mode)) l bd k (Q : Z -> store -> Prop) s :
  (forall x s s', rely Hb s s' -> Q x s -> Q x s') ->
  (forall x k s, x ∈ l -> (forall s', rely Hb s s' -> Q x s' -> good H k s') -> good H (bd x k) s) ->
  (forall s', rely Hb s s' -> (forall x, x ∈ l -> Q x s') -> good H k s') ->
  good H (foreach l bd k) s.
Proof.
  intros Hq. revert s. induction l as [|x l IH]; cbn; intros s Hb' Hk.
  - apply Hk; [done|]. by intros x ?%elem_of_nil.
  - apply Hb'; [left|]. intros s1 R1 Q1. apply IH; [intros; by apply Hb'; [right|]|].
    intros s2 R2 Q2. apply Hk; [by etrans|]. intros y [-> |Hy]%elem_of_cons; [by eapply Hq|by apply Q2].
Qed.

(** What a walk with the segment locked achieves for an attachment in its range. *)
Definition cleared (H : list (lock * mode)) (start fin a : Z) (s : store) : Prop :=
  (Sema (att_seg a), Wr) ∈ H -> covers a start fin -> quiet (att s a).

Lemma cleared_stable H start fin a s s' : rely H s s' -> cleared H start fin a s -> cleared H start fin a s'.
Proof. intros R C W Hc. eapply rely_quiet; [done..|]. by apply C. Qed.

Lemma rely_cons H x s s' : rely (x :: H) s s' -> rely H s s'.
Proof. apply rely_mono. set_solver. Qed.

Lemma clear_PTEs_of_ap_good H ap start fin k s :
  low 4 H ->
  (forall s', rely H s s' -> Inv s' -> (forall a, a ∈ att_list ap -> cleared H start fin a s') -> good H k s') ->
  good H (clear_PTEs_of_ap ap start fin false k) s.
Proof.
  intros L Hk. assert (forall x, drop_lock (ApLock ap) ((ApLock ap, x) :: H) = H) as Hd by (intros; drop; done).
  unfold clear_PTEs_of_ap. apply good_acq. intros s1 R1 I1.
  apply (foreach_good H _ _ _ _ (cleared H start fin)); [intros; by eapply cleared_stable| |].
  - intros a k' s2 Ha Hk'. apply good_get. intros s3 R3%rely_cons I3.
    destruct (on_list (att s3 a) && VALIDPTEs (flags (att s3 a))) eqn:Ev.
    + apply good_rel; [done|]. rewrite Hd. intros s4 R4%rely_cons I4.
      apply clear_PTEs_of_att_good; [done|]. intros s5 R5 I5 Q5. apply good_acq. intros s6 R6 I6.
      apply Hk'; [by repeat (etrans; [eassumption|])|]. intros W C. eapply rely_quiet; [done..|]. auto.
    + apply Hk'; [done|]. intros _ _. apply andb_false_iff in Ev as []; [by right|by left].
  - intros s2 R2 Q2. apply good_rel; [done|]. rewrite Hd. intros s3 R3%rely_cons I3. apply Hk; [|done|].
    + by repeat (etrans; [eassumption|]).
    + intros a Ha. eapply cleared_stable; [done|]. by apply Q2.
Qed.

Lemma clear_PTEs_range_good H seg start fin k s :
  low 4 H ->
  (forall s', rely H s s' -> Inv s' ->
     (forall ap a, ap ∈ ap_list seg -> a ∈ att_list ap -> cleared H start fin a s') -> good H k s') ->
  good H (clear_PTEs_range seg start fin false k) s.
Proof.
  intros L Hk. assert (forall x, drop_lock (SegLock seg) ((SegLock seg, x) :: H) = H) as Hd by (intros; drop; done).
  unfold clear_PTEs_range. apply good_acq. intros s1 R1 I1.
  apply (foreach_good H _ _ _ _ (fun ap s => forall a, a ∈ att_list ap -> cleared H start fin a s)).
  { intros ap s2 s3 R Hq a Ha. eapply cleared_stable; [done|]. by apply Hq. }
  - intros ap k' s2 Hap Hk'. apply good_rel; [done|]. rewrite Hd. intros s3 R3%rely_cons I3.
    apply clear_PTEs_of_ap_good; [done|]. intros s4 R4 I4 Q4. apply good_acq. intros s5 R5 I5.
    apply Hk'; [by repeat (etrans; [eassumption|])|]. intros a Ha. eapply cleared_stable; [done|]. by apply Q4.
  - intros s2 R2 Q2. apply good_rel; [done|]. rewrite Hd. intros s3 R3%rely_cons I3. apply Hk; [|done|].
    + by repeat (etrans; [eassumption|]).
    + intros ap a Hap Ha. eapply cleared_stable; [done|]. by eapply Q2.
Qed.
End safe.

(** Attachments lie in their segments. *)
Class LayoutOk {layout : Layout} : Prop := {
  layout_fits a : listed a -> covers a (seg_vaddr (att_seg a)) (seg_vaddr (att_seg a) + seg_size (att_seg a));
}.

Section calls.
Context {layout : Layout} {layout_ok : LayoutOk}.

(** With the segment locked for writing, no attachment of it is left to be walked. *)
Lemma clear_PTEs_good H seg k s :
  low 4 H -> (Sema seg, Wr) ∈ H ->
  (forall s', rely H s s' -> Inv s' -> (forall a, att_seg a = seg -> quiet (att s' a)) -> good H k s') ->
  good H (clear_PTEs seg k) s.
Proof.
  intros L W Hk. unfold clear_PTEs. apply clear_PTEs_range_good; [done|]. intros s' R I Q.
  apply Hk; [done|done|]. intros a <-. destruct (on_list (att s' a)) eqn:Eo; [|by right].
  pose proof (fine_listed _ _ (inv_fine _ I a) Eo) as Hl. eapply Q; [apply Hl|apply Hl|done|]. by apply layout_fits.
Qed.

(** Writes to flags of segments and above. *)
Lemma put_flag_good H f k s :
  (forall s, att (f s) = att s /\ seg_destroyed (f s) = seg_destroyed s /\
     forall seg, seg_destroying s seg = true -> seg_destroying (f s) seg = true) ->
  (forall s', rely H s s' -> good H k (f s')) -> good H (Put f k) s.
Proof.
  intros Hf Hk s' R I. destruct (Hf s') as (Ea & Ed & Hd). split; [|split; [|by apply Hk]].
  - destruct I as [If Id Ig]. split; intros x; rewrite ?Ea, ?Ed; auto.
  - split; intros x; rewrite ?Ea, ?Ed; auto.
Qed.

Lemma upd_true k (f : Z -> bool) x : f x = true -> upd k true f x = true.
Proof. unfold upd. by destruct (decide (x = k)). Qed.

Lemma low_more n H : low 2 H -> 2 <= n -> low n H.
Proof. intros. by eapply low_weaken. Qed.

(** Setting DESTROYED: all attachments are quiet, and the segment is locked. *)
Lemma put_destroyed_good H seg k s :
  (Sema seg, Wr) ∈ H -> seg_destroying s seg = true -> (forall a, att_seg a = seg -> quiet (att s a)) ->
  (forall s', good H k s') -> good H (Put (set_seg_destroyed seg) k) s.
Proof.
  intros W D Q Hk s' R I. split; [|split; [|apply Hk]].
  - destruct I as [If Id Ig]. split; cbn; [done| |].
    + intros a. unfold upd. destruct (decide (att_seg a = seg)) as [E|E]; [|apply Id]. intros _.
      eapply rely_quiet; [done|by rewrite E|by apply Q].
    + intros x. unfold upd. destruct (decide (x = seg)) as [-> |]; [|apply Ig]. intros _. by eapply rely_destroying.
  - split; cbn; auto. intros x. unfold upd. destruct (decide (x = seg)) as [-> |]; auto.
Qed.

Lemma remove_seg_good H seg other k s :
  low 2 H -> (forall s', good H other s') -> (forall s', good H k s') -> good H (remove_seg seg other k) s.
Proof.
  intros L Ho Hk. unfold remove_seg. apply good_acq. intros s1 R1 I1. apply good_get. intros s2 R2 I2.
  destruct (seg_destroying s2 seg) eqn:Ed; [apply good_rel; [done|]; drop; auto|].
  intros s3 R3 I3. split; [done|]. apply put_flag_good.
  { intros s4. cbn. split; [done|]. split; [done|]. intros x. apply upd_true. }
  intros s4 R4. assert (seg_destroying (set_seg_destroying seg s4) seg = true) as D by (cbn; apply upd_eq).
  revert D. generalize (set_seg_destroying seg s4). clear s1 R1 I1 s2 R2 I2 Ed s3 R3 I3 s4 R4. intros s1 D.
  apply good_rel; [done|]. drop. intros s2 R2 I2. apply good_acq. intros s3 R3 I3.
  apply clear_PTEs_good; [|mem|].
  { repeat constructor; cbn; try lia. by apply low_more. }
  intros s4 R4 I4 Q4. apply good_acq. intros s5 R5 I5.
  apply put_destroyed_good; [mem| |intros a <-; eapply rely_quiet; [exact R5|mem|by apply Q4]|].
  { by eapply rely_destroying, rely_destroying, rely_destroying, rely_destroying. }
  intros s6. apply good_rel; [done|]. drop. intros s7 _ _. apply good_rel; [done|]. drop. intros s8 _ _.
  apply good_rel; [done|]. drop. auto.
Qed.

Lemma recall_PFNs_good H seg k s : low 2 H -> (forall s', good H k s') -> good H (recall_PFNs seg k) s.
Proof.
  intros L Hk. unfold recall_PFNs. apply good_acq. intros s1 R1 I1. apply good_get. intros s2 R2 I2.
  destruct (seg_destroying s2 seg || seg_recalling s2 seg).
  { apply good_rel; [done|]. drop. intros s3 _ _. apply good_acq. intros s4 _ _. apply good_rel; [done|]. drop. auto. }
  intros s3 R3 I3. split; [done|]. apply put_flag_good; [done|]. intros s4 R4.
  apply good_rel; [done|]. drop. intros s5 R5 I5. apply good_acq. intros s6 R6 I6.
  apply clear_PTEs_good; [|mem|].
  { repeat constructor; cbn; try lia. by apply low_more. }
  intros s7 R7 I7 Q7. apply good_acq. intros s8 R8 I8. apply put_flag_good; [done|]. intros s9 _.
  apply good_rel; [done|]. drop. intros s10 _ _. apply good_rel; [done|]. drop. intros s11 _ _.
  apply good_rel; [done|]. drop. auto.
Qed.

(** A loop whose turns need no knowledge of the state. *)
Lemma foreach_free H l bd k :
  (forall x k, (forall s', good H k s') -> forall s, good H (bd x k) s) ->
  (forall s', good H k s') -> forall s, good H (foreach l bd k) s.
Proof. intros Hb Hk. induction l; cbn; auto. Qed.

Lemma recall_PFNs_of_tg_good H tg k s :
  low 2 H -> (forall s', good H k s') -> good H (recall_PFNs_of_tg tg k) s.
Proof.
  intros L Hk. apply foreach_free; [|done]. intros seg k' Hk' s'. apply good_get. intros s1 R1 I1.
  destruct (seg_destroying s1 seg); [done|]. by apply recall_PFNs_good.
Qed.

(** ** Detaching: the mmap lock held for writing *)

Section detach.
Context (H : list (lock * mode)) (a : Z) (low_H : low 4 H).

Abbreviation mmap_locks := ((Mmap (att_mm a), Wr) :: H).
Abbreviation att_locks := ((AttMutex a, Wr) :: (Mmap (att_mm a), Wr) :: H).

(** The attachments of the address space. *)
Definition neighbour (b : Z) : Prop := att_mm b = att_mm a.

Lemma mmap_own b : own mmap_locks b <-> neighbour b.
Proof.
  unfold neighbour. split; [|intros E; left; rewrite E; mem].
  intros [[[= E]|W]%elem_of_cons|[[|M]%elem_of_cons _]]; try done.
  - by eapply (low_not_in 4) in W.
  - eapply (low_not_in 4) in M; [done|done|cbn; lia].
Qed.

Lemma mmap_ctx : ctx mmap_locks H neighbour a.
Proof. split; [by apply mmap_own|set_solver|by apply low_no_own|]. intros b. apply mmap_own. Qed.

Lemma att_ctx : ctx att_locks H neighbour a.
Proof. apply ctx_cons, mmap_ctx. Qed.

(** Taking it: all of them are accounted for. *)
Lemma mmap_lock_good k s :
  (forall s' t, view H neighbour s' a t s' -> Inv s' -> balanced t ->
     (forall b, neighbour b -> balanced (att s' b)) -> good mmap_locks k s') ->
  good H (Acq (Mmap (att_mm a)) Wr k) s.
Proof.
  intros Hk s' R I G.
  assert (forall b, neighbour b -> balanced (att s' b)) as B.
  { intros b Hb. apply G; [by apply mmap_own|by apply low_no_own]. }
  eapply Hk; [apply view_start|done|by apply B|done].
Qed.

(** Giving it back: all of them have to be. *)
Lemma mmap_unlock_good k s0 t s :
  view H neighbour s0 a t s -> balanced t -> (forall b, neighbour b -> balanced (att s0 b)) ->
  (forall s', rely H s0 s' -> on_list (att s' a) = on_list t \/ on_list (att s' a) = false -> good H k s') ->
  good mmap_locks (Rel (Mmap (att_mm a)) k) s.
Proof.
  intros V B Hb Hk s1 R1 I1. eapply view_rely in V as (R & E & Eb); [|apply mmap_ctx|done]. drop. split.
  - intros b Ho%mmap_own _. unfold accounted. destruct (decide (b = a)) as [-> |Hne]; [by rewrite E|].
    rewrite Eb by done. by apply Hb.
  - apply Hk; [done|]. left. by rewrite E.
Qed.

Lemma att_drop_own b : own att_locks b -> own (drop_lock (AttMutex a) att_locks) b.
Proof.
  drop. intros [[|W]%elem_of_cons|[_ [|R]%elem_of_cons]]; try done; [by left|].
  apply elem_of_cons in R as [|R]; [done|]. by eapply (low_not_in 4) in R.
Qed.

Lemma att_unlock_good k s0 t s :
  view H neighbour s0 a t s -> balanced t -> (forall b, neighbour b -> balanced (att s0 b)) ->
  (forall s', rely H s0 s' -> on_list (att s' a) = on_list t \/ on_list (att s' a) = false -> good H k s') ->
  good att_locks (Rel (AttMutex a) (Rel (Mmap (att_mm a)) k)) s.
Proof.
  intros V B Hb Hk. eapply view_rel; [apply att_ctx|exact V|apply att_drop_own|].
  drop. intros s1 V1. by eapply mmap_unlock_good.
Qed.

Lemma balanced_destroying t : DESTROYING (flags t) = true -> balanced t.
Proof. intros E E'. congruence. Qed.

Lemma detach_tail_good k s0 t s :
  view H neighbour s0 a t s -> DESTROYING (flags t) = true -> (forall b, neighbour b -> balanced (att s0 b)) ->
  (forall s', on_list (att s' a) = false -> good H k s') -> good att_locks (detach_tail a k) s.
Proof.
  intros V D Hb Hk. pose proof att_ctx as C. unfold detach_tail.
  eapply view_put; [exact C|exact V|split; [apply fine_refs|split; [done|by left]]|]. intros s1 V1.
  eapply view_put; [exact C|exact V1|split; [apply fine_vma|split; [done|by left]]|]. intros s2 V2.
  eapply view_rmw; [exact C|exact V2|split; [apply fine_not_valid; by right|split; [done|left; by left]]|]. intros s3 V3.
  eapply view_acq; [exact C|exact V3|]. intros s4 V4.
  eapply view_put; [apply ctx_cons, C|exact V4|split; [by apply fine_unlist|split; [done|left; by right]]|]. intros s5 V5.
  eapply view_rel; [apply ctx_cons, C|exact V5|intros b; by apply own_drop|]. drop. intros s6 V6.
  eapply att_unlock_good; [exact V6|by apply balanced_destroying|done|]. intros s7 R7 Ho. apply Hk. by destruct Ho.
Qed.

Lemma munmap_detached_good k s :
  on_list (att s a) = false -> (forall s', good H k s') -> good H (munmap_detached a k) s.
Proof.
  intros Ho Hk s1 R1 I1 G1. pose proof (rely_gone _ _ _ R1 a Ho) as Ho1.
  assert (DESTROYING (flags (att s1 a)) = true) as D by by eapply fine_gone; [apply I1|].
  eapply (view_put _ H neighbour s1); [apply mmap_ctx|apply view_start| |].
  { split; [apply fine_unmapped|]. split; [done|by left]. }
  intros s2 V2. eapply mmap_unlock_good; [exact V2|by apply balanced_destroying| |auto].
  intros b Hb. apply G1; [by apply mmap_own|by apply low_no_own].
Qed.

(** The mutexes are taken and the attachment is marked; [k] goes on with the mark. *)
Lemma mark_good k other s0 t s :
  view H neighbour s0 a t s -> balanced t -> (forall b, neighbour b -> balanced (att s0 b)) ->
  (forall s', good H other s') ->
  (forall s', view H neighbour s0 a (set_flags (or_DESTROYING (flags t)) t) s' -> DESTROYING (flags t) = false ->
     good att_locks k s') ->
  good mmap_locks (Acq (AttMutex a) Wr $ Acq (InvMutex a) Wr $ Get $ fun s =>
    if DESTROYING (flags (att s a))
    then Rel (InvMutex a) $ Rel (AttMutex a) $ Rel (Mmap (att_mm a)) other else
    rmw a or_DESTROYING $ Rel (InvMutex a) k) s.
Proof.
  intros V B Hb Ho Hk. pose proof att_ctx as C.
  eapply view_acq; [apply mmap_ctx|exact V|]. intros s1 V1.
  eapply view_acq; [exact C|exact V1|]. intros s2 V2.
  eapply view_get; [apply ctx_cons, C|exact V2|]. intros s3 V3 I3. pose proof V3 as (_ & E3 & _). rewrite E3.
  destruct (DESTROYING (flags t)) eqn:D.
  - eapply view_rel; [apply ctx_cons, C|exact V3|intros b; by apply own_drop|]. drop. intros s4 V4.
    eapply att_unlock_good; [exact V4|done|done|auto].
  - eapply view_rmw; [apply ctx_cons, C|exact V3|split; [apply fine_destroying|split; [done|by left]]|]. intros s4 V4.
    eapply view_rel; [apply ctx_cons, C|exact V4|intros b; by apply own_drop|]. drop. intros s5 V5. auto.
Qed.

Lemma detach_att_good k s : (forall s', good H k s') -> good H (detach_att a k) s.
Proof.
  intros Hk. unfold detach_att. apply mmap_lock_good. intros s1 t V1 I1 B Hb.
  eapply mark_good; [exact V1|done|done|done|]. intros s2 V2 D.
  eapply view_get; [apply att_ctx|exact V2|]. intros s3 V3 I3.
  destruct (negb (has_vma (att s3 a))).
  - eapply att_unlock_good; [exact V3|by apply balanced_destroying|done|auto].
  - eapply detach_tail_good; [exact V3|done|done|]. intros s4 Ho. apply good_any. intros s5 v R5 I5.
    destruct (decide (v = 0)); [done|]. apply munmap_detached_good; [|done]. by eapply rely_gone.
Qed.
End detach.

Lemma good_done s : good [] Done s.
Proof. by intros s' R I. Qed.

(** Taking the mark back restores the attachment. *)
Lemma unmark t :
  DESTROYING (flags t) = false ->
  let t' := set_flags (or_DESTROYING (flags t)) t in set_flags (not_DESTROYING (flags t')) t' = t.
Proof. destruct t as [[] ? ? ? ? ?]. cbn. by intros ->. Qed.

Lemma detach_good a s : good [] (detach a) s.
Proof.
  assert (low 4 []) as L by constructor. pose proof good_done as Gd. unfold detach.
  apply mmap_lock_good; [done|]. intros s1 t V1 I1 B Hb.
  assert (att_fine a t) as F by (destruct V1 as (_ & <- & _); apply I1).
  eapply view_get; [by apply mmap_ctx|exact V1|]. intros s2 V2 I2.
  destruct (negb (has_vma (att s2 a))); [eapply mmap_unlock_good; [done|exact V2|done|done|auto]|].
  eapply view_any; [by apply mmap_ctx|exact V2|]. intros s3 v V3.
  destruct (decide (v <> 0)); [eapply mmap_unlock_good; [done|exact V3|done|done|auto]|].
  eapply mark_good; [done|exact V3|done|done|auto|]. intros s4 V4 D.
  eapply view_any; [by apply att_ctx|exact V4|]. intros s5 v' V5. destruct (decide (v' <> 0)).
  - eapply view_rmw; [by apply att_ctx|exact V5|split; [|split; [done|by left]]|]; rewrite unmark by done; [done|].
    intros s6 V6. eapply att_unlock_good; [done|exact V6|done|done|auto].
  - eapply detach_tail_good; [done|exact V5|done|done|]. intros s6 Ho. by apply munmap_detached_good.
Qed.

Lemma munmap_good a s : good [] (munmap a) s.
Proof.
  assert (low 4 []) as L by constructor. pose proof good_done as Gd. unfold munmap.
  apply mmap_lock_good; [done|]. intros s1 t V1 I1 B Hb.
  eapply view_get; [by apply mmap_ctx|exact V1|]. intros s2 V2 I2.
  destruct (negb (has_vma (att s2 a))); [eapply mmap_unlock_good; [done|exact V2|done|done|auto]|].
  eapply view_put; [by apply mmap_ctx|exact V2|split; [intros; by apply fine_vma, fine_unmapped|split; [done|by left]]|].
  intros s3 V3. eapply view_acq; [by apply mmap_ctx|exact V3|]. intros s4 V4. pose proof (att_ctx [] a L) as C.
  eapply view_get; [exact C|exact V4|]. intros s5 V5 I5. pose proof V5 as (_ & E5 & _). rewrite E5.
  destruct (DESTROYING (flags _)) eqn:D.
  { eapply att_unlock_good; [done|exact V5|by apply balanced_destroying|done|auto]. }
  eapply view_rmw; [exact C|exact V5|split; [apply fine_destroying|split; [done|by left]]|]. intros s6 V6.
  eapply view_acq; [exact C|exact V6|]. intros s7 V7.
  eapply view_put; [apply ctx_cons, C|exact V7|split; [by apply fine_unlist|split; [done|left; by right]]|]. intros s8 V8.
  eapply view_rel; [apply ctx_cons, C|exact V8|intros b; by apply own_drop|]. drop. intros s9 V9.
  eapply att_unlock_good; [done|exact V9|by apply balanced_destroying|done|auto].
Qed.

Lemma release_ap_good H ap other k s :
  low 2 H -> (forall s', good H other s') -> (forall s', good H k s') -> good H (release_ap ap other k) s.
Proof.
  intros L Ho Hk. assert (low 4 ((ApBusy ap, Wr) :: H)) as L4.
  { constructor; [cbn; lia|]. by apply low_more. }
  unfold release_ap. apply good_acq. intros s1 R1 I1. apply good_get. intros s2 R2 I2.
  destruct (ap_destroying s2 ap); [apply good_rel; [done|]; drop; auto|].
  intros s3 R3 I3. split; [done|]. apply put_flag_good; [done|]. intros s4 _.
  apply (good_perm ((ApLock ap, Wr) :: (ApBusy ap, Wr) :: H)); [solve_Permutation|]. apply foreach_free.
  - intros a k' Hk' s5. apply good_get. intros s6 R6 I6. destruct (on_list (att s6 a)); [|done].
    apply good_rel; [done|]. drop. intros s7 _ _. apply detach_att_good; [done|].
    intros s8. apply good_acq. auto.
  - intros s5. apply good_rel; [done|]. drop. intros s6 _ _. apply good_rel; [done|]. drop. auto.
Qed.

(** Waiting for the task at work. *)
Lemma wait_flag_good H l k :
  is_flag l = true -> drop_lock l ((l, Rd) :: H) = H -> (forall s', good H k s') ->
  forall s, good H (Acq l Rd $ Rel l k) s.
Proof.
  intros Hf Hd Hk s. apply good_acq. intros s1 _ _. apply good_rel; [by destruct l|]. rewrite Hd. auto.
Qed.

Lemma teardown_good tg s : good [] (teardown tg) s.
Proof.
  assert (low 2 []) as L by constructor. unfold teardown. apply put_flag_good; [done|]. intros s1 _.
  apply foreach_free.
  { intros. apply release_ap_good; [done|by apply wait_flag_good; [|drop|]|done]. }
  apply foreach_free; [|apply good_done].
  intros. apply remove_seg_good; [done|by apply wait_flag_good; [|drop|]|done].
Qed.

Lemma recall_good tg k s :
  (forall s', good [(Recall tg, Rc)] k s') ->
  good [] (Acq (Recall tg) Rc $ Acq (RecallMutex tg) Wr $ recall_PFNs_of_tg tg $ Rel (RecallMutex tg) k) s.
Proof.
  intros Hk. apply good_acq. intros s1 _ _. apply good_acq. intros s2 _ _.
  apply recall_PFNs_of_tg_good; [by repeat constructor|]. intros s3. apply good_rel; [done|]. drop. auto.
Qed.
End calls.
