(* ===== verification/ConcPages.v ===== *)
(** Pages under concurrency: the page fault handler, and the theorem on all handlers together. *)

From S2P Require Import Prelude Conc ConcOps ConcOrder ConcLogic ConcRace ConcSafe.

Section fault.
Context {layout : Layout}.

Lemma good_try l m H yes no s :
  (forall s', rely H s s' -> Inv s' -> good ((l, m) :: H) yes s') ->
  (forall s', rely H s s' -> Inv s' -> good H no s') -> good H (Try l m yes no) s.
Proof. intros Hy Hn s' R I. split; auto. Qed.

(** The source is locked as well when it is another address space. *)
Definition src_ok (a : Z) (src_locked : bool) : Prop :=
  src_locked = negb (bool_decide (seg_mm (att_seg a) = att_mm a)).

(** Page locks without the mutex of an attachment, none of them for writing, own nothing. *)
Lemma readers_own_nothing H a :
  Forall (fun x => match x.1 with AttMutex _ => false | Mmap _ => bool_decide (x.2 = Rd) | _ => true end = true) H ->
  ~ own H a.
Proof.
  intros F [W|[M _]]; [apply (proj1 (Forall_forall _ _) F) in W|apply (proj1 (Forall_forall _ _) F) in M]; done.
Qed.

Lemma rel_free l H k s :
  (forall b, ~ own H b) -> (forall s', good (drop_lock l H) k s') -> good H (Rel l k) s.
Proof. intros N Hk s' R I. split; [intros b Ho; by apply N in Ho|apply Hk]. Qed.

Ltac readers := first [apply readers_own_nothing | intros ?; apply readers_own_nothing]; by repeat constructor.

(** The locks of the attachment only: what is held after the segment was given back. *)
Definition page_locks (a : Z) (src_locked : bool) : list (lock * mode) :=
  (AttMutex a, Wr) :: (if src_locked then [(Mmap (seg_mm (att_seg a)), Rd)] else []) ++ [(Mmap (att_mm a), Rd)].

Lemma page_locks_own a src_locked b : own (page_locks a src_locked) b <-> b = a.
Proof.
  unfold page_locks. split; [|intros ->; right; destruct src_locked; split; mem].
  intros [W|[M _]].
  - exfalso. destruct src_locked; cbn in W; rewrite !elem_of_cons, elem_of_nil in W; destruct_or! W; done.
  - destruct src_locked; cbn in M; rewrite !elem_of_cons, elem_of_nil in M; destruct_or! M; congruence.
Qed.

Lemma fault_done_good a src_locked s :
  src_ok a src_locked -> balanced (att s a) ->
  good (page_locks a src_locked)
    (rel_if src_locked (Mmap (seg_mm (att_seg a))) $ rel_if true (AttMutex a) $ Rel (Mmap (att_mm a)) Done) s.
Proof.
  intros Hs B. unfold rel_if.
  assert (forall s', balanced (att s' a) ->
            good (page_locks a false) (Rel (AttMutex a) $ Rel (Mmap (att_mm a)) Done) s') as Hl.
  { intros s1 B1 s2 R2 I2. split.
    - intros b ->%page_locks_own _. unfold accounted. rewrite (rely_own _ _ _ R2); [done|]. by apply page_locks_own.
    - unfold page_locks. cbn [app]. drop. apply rel_free; [readers|]. drop. apply good_done. }
  destruct src_locked; [|by apply Hl].
  assert (seg_mm (att_seg a) <> att_mm a) as Hne.
  { unfold src_ok in Hs. by case_bool_decide. }
  assert (drop_lock (Mmap (seg_mm (att_seg a))) (page_locks a true) = page_locks a false) as E.
  { unfold page_locks. cbn [app]. by drop. }
  intros s1 R1 I1. rewrite E. split; [intros b ->%page_locks_own []; by apply page_locks_own|].
  apply Hl. rewrite (rely_own _ _ _ R1); [done|]. by apply page_locks_own.
Qed.

Definition nobody (b : Z) : Prop := False.

Lemma page_ctx a src_locked : ctx (page_locks a src_locked) [] nobody a.
Proof. split; [by apply page_locks_own|set_solver|readers|done]. Qed.

Lemma fault_ctx a src_locked : ctx (fault_locks a true src_locked) [(Sema (att_seg a), Rd)] nobody a.
Proof.
  unfold fault_locks. split; [|intros x ->%list_elem_of_singleton; destruct src_locked; mem|readers|done].
  right. destruct src_locked; split; mem.
Qed.

(** The segment is given back; the view of the attachment stays. *)
Lemma seg_up_read_good a src_locked k t s :
  att s a = t -> (forall s', view [] nobody s' a t s' -> good (page_locks a src_locked) k s') ->
  good (fault_locks a true src_locked) (seg_up_read (att_seg a) k) s.
Proof.
  intros E Hk. unfold seg_up_read.
  assert (own (fault_locks a true src_locked) a) as O by apply fault_ctx.
  intros s1 R1 I1. split; [intros b Ho []; by apply own_drop|].
  intros s2 R2 I2. split; [intros b Ho []; by apply own_drop|].
  replace (drop_lock _ (drop_lock _ _)) with (page_locks a src_locked)
    by (unfold page_locks, fault_locks; destruct src_locked; cbn [app]; by drop).
  apply Hk. assert (att s2 a = t) as <-; [|apply view_start].
  rewrite (rely_own _ _ _ R2) by by apply own_drop. by rewrite (rely_own _ _ _ R1).
Qed.

(** No page was pinned. *)
Lemma fault_out_free a pg src_locked s :
  src_ok a src_locked -> good (fault_locks a false src_locked) (fault_out a pg 0 false src_locked) s.
Proof.
  intros Hs. unfold fault_out, fault_locks, seg_up_read, rel_if. rewrite bool_decide_true by done.
  destruct src_locked; cbn [app].
  - assert (seg_mm (att_seg a) <> att_mm a) by (unfold src_ok in Hs; by case_bool_decide).
    do 4 (apply rel_free; [readers|]; intros ?; drop). apply good_done.
  - do 3 (apply rel_free; [readers|]; intros ?; drop). apply good_done.
Qed.

Lemma fault_out_none a pg src_locked s :
  src_ok a src_locked -> balanced (att s a) ->
  good (fault_locks a true src_locked) (fault_out a pg 0 true src_locked) s.
Proof.
  intros Hs B. unfold fault_out. rewrite bool_decide_true by done. eapply seg_up_read_good; [done|].
  intros s1 (_ & E & _). apply fault_done_good; [done|]. by rewrite E.
Qed.

(** One reference more than there are pages. *)
Definition pinned (pfn : Z) (t : attachment) : Prop :=
  DESTROYING (flags t) = false ->
  forall p, refs t p = shows p (ptes t) + lost t p + (if decide (p = pfn) then 1 else 0).

Lemma pinned_put_page pfn t : pinned pfn t -> balanced (put_page pfn t).
Proof. intros P D p. cbn. rewrite (P D p). cbn. case_decide; lia. Qed.

Lemma pinned_lose pfn t : pinned pfn t -> balanced (lose pfn t).
Proof.
  intros P D p. cbn. rewrite (P D p). cbn. unfold upd. destruct (decide (p = pfn)) as [-> |]; lia.
Qed.

Lemma pinned_map pfn pg t :
  pinned pfn t -> ptes t !! pg = None -> balanced (set_ptes (<[pg := pfn]> (ptes t)) t).
Proof. intros P N D p. cbn. rewrite (P D p), shows_insert by done. cbn. lia. Qed.

Lemma pin_pinned pfn t : balanced t -> pinned pfn (pin pfn t).
Proof. intros B D p. cbn. by rewrite (B D p). Qed.

Lemma pinned_valid pfn t : pinned pfn t -> pinned pfn (set_flags (or_VALIDPTEs (flags t)) t).
Proof. intros P D. exact (P D). Qed.

(** The page is mapped, was there already, or is lost. *)
Lemma fault_out_pinned a pg pfn src_locked t s :
  src_ok a src_locked -> pfn <> 0 -> att s a = t -> pinned pfn t -> ~ quiet t -> 0 <= pg < att_size a ->
  good (fault_locks a true src_locked) (fault_out a pg pfn true src_locked) s.
Proof.
  intros Hs Hp E P Hq Hpg. unfold fault_out. rewrite bool_decide_false by done.
  eapply seg_up_read_good; [done|]. intros s1 V1. pose proof (page_ctx a src_locked) as C.
  assert (forall s' t', view [] nobody s1 a t' s' -> balanced t' -> good (page_locks a src_locked)
            (rel_if src_locked (Mmap (seg_mm (att_seg a))) $ rel_if true (AttMutex a) $ Rel (Mmap (att_mm a)) Done) s') as Hd.
  { intros s' t' (_ & <- & _) B. by apply fault_done_good. }
  assert (forall s', view [] nobody s1 a t s' -> good (page_locks a src_locked) (Put (on_att a (lose pfn))
            (rel_if src_locked (Mmap (seg_mm (att_seg a))) $ rel_if true (AttMutex a) $ Rel (Mmap (att_mm a)) Done)) s') as Hl.
  { intros s' V. eapply view_put; [exact C|exact V|split; [apply fine_lose|split; [done|by left]]|].
    intros s2 V2. eapply Hd; [exact V2|by apply pinned_lose]. }
  destruct (pfn_valid pfn); [|by apply Hl].
  eapply view_get; [exact C|exact V1|]. intros s2 V2 I2. pose proof V2 as (_ & E2 & _). rewrite E2.
  destruct (ptes t !! pg) as [old|] eqn:Eo.
  - eapply view_put; [exact C|exact V2|split; [apply fine_refs|split; [done|by left]]|].
    intros s3 V3. eapply Hd; [exact V3|by apply pinned_put_page].
  - eapply view_any; [exact C|exact V2|]. intros s3 v V3. destruct (decide (v = 0)); [|by apply Hl].
    eapply view_put; [exact C|exact V3|split; [by apply fine_map|split; [done|by left]]|].
    intros s4 V4. eapply Hd; [exact V4|by apply pinned_map].
Qed.

Lemma fault_locked_good a pg src_locked s :
  src_ok a src_locked -> seg_destroyed s (att_seg a) = false ->
  good (fault_locks a false src_locked) (fault_locked a pg src_locked) s.
Proof.
  intros Hs Hd. unfold fault_locked. cbv zeta.
  assert (forall s s', rely (fault_locks a false src_locked) s s' ->
            seg_destroyed s (att_seg a) = false -> seg_destroyed s' (att_seg a) = false) as Hsd.
  { intros s1 s2 R <-. apply (rely_sema _ _ _ R _ Rd). unfold fault_locks. destruct src_locked; cbn; mem. }
  apply good_any. intros s1 v R1 I1. apply Hsd in R1; [|done].
  destruct (decide (v <> 0)); [by apply fault_out_free|].
  intros s2 R2 I2 G2. apply Hsd in R2; [|done].
  change ((AttMutex a, Wr) :: fault_locks a false src_locked) with (fault_locks a true src_locked) in *.
  pose proof (fault_ctx a src_locked) as C.
  assert (balanced (att s2 a)) as B.
  { apply G2; [apply C|]. unfold fault_locks. destruct src_locked; cbn [app]; readers. }
  assert (forall s' t', view [(Sema (att_seg a), Rd)] nobody s2 a t' s' -> balanced t' ->
            good (fault_locks a true src_locked) (fault_out a pg 0 true src_locked) s') as Hout.
  { intros s' t' (_ & <- & _) B'. by apply fault_out_none. }
  pose proof (view_start [(Sema (att_seg a), Rd)] nobody s2 a) as V. remember (att s2 a) as t eqn:Et. clear Et.
  eapply view_get; [exact C|exact V|]. intros s3 V3 I3. pose proof V3 as (_ & E3 & _). rewrite E3.
  destruct (DESTROYING (flags t)) eqn:D; cbn [orb]; [by eapply Hout|].
  destruct (_ || _); [by eapply Hout|]. case_bool_decide as Hpg; [by eapply Hout|].
  eapply view_get; [exact C|exact V3|]. intros s4 V4 I4. destruct (seg_destroying s4 (att_seg a)); [by eapply Hout|].
  eapply view_any; [exact C|exact V4|]. intros s5 pfn V5. destruct (decide (pfn <= 0)); [by eapply Hout|].
  assert (att_fine a t) as F by (destruct V4 as (_ & <- & _); apply I4).
  eapply view_put; [exact C|exact V5|split; [apply fine_refs|split; [done|by left]]|]. intros s6 V6.
  eapply view_rmw; [exact C|exact V6|split; [apply fine_valid|split; [done|right]]|].
  { split; [mem|]. split; [|done]. rewrite elem_of_cons, elem_of_nil. by intros [|]. }
  intros s7 (_ & E7 & _). eapply fault_out_pinned; [done|lia|exact E7|by apply pinned_valid, pin_pinned| |lia].
  intros [|Ho]; [done|]. cbn in Ho. apply (fine_gone _ _ F) in Ho. congruence.
Qed.

(** With the own address space locked: the source is locked too, and the vma looked up again. *)
Lemma fault_mmap_good a pg verify s :
  seg_destroyed s (att_seg a) = false -> good (fault_locks a false false) (fault_mmap a pg verify) s.
Proof.
  assert (forall H s s', (Sema (att_seg a), Rd) ∈ H -> rely H s s' ->
            seg_destroyed s (att_seg a) = false -> seg_destroyed s' (att_seg a) = false) as Hsd.
  { intros H1 s1 s2 Hm R <-. by apply (rely_sema _ _ _ R _ Rd). }
  assert (forall v src_locked s, src_ok a src_locked -> seg_destroyed s (att_seg a) = false ->
            good (fault_locks a false src_locked) (Get $ fun s =>
              if v && negb (has_vma (att s a)) then fault_out a pg 0 false src_locked
              else fault_locked a pg src_locked) s) as Hv.
  { intros v src_locked s1 Hs Hd1. apply good_get. intros s2 R2 I2.
    destruct (v && _); [by apply fault_out_free|]. apply fault_locked_good; [done|].
    eapply Hsd; [|exact R2|done]. unfold fault_locks. destruct src_locked; cbn; mem. }
  intros Hd. unfold fault_mmap. cbv zeta.
  case_bool_decide as Hne. { apply Hv; [|done]. unfold src_ok. by rewrite bool_decide_true. }
  assert (src_ok a true) as Hs by (unfold src_ok; by rewrite bool_decide_false).
  unfold fault_locks. cbn [app]. case_bool_decide.
  - apply good_acq. intros s1 R1 I1. apply (Hv verify true); [done|]. eapply Hsd; [|exact R1|done]. mem.
  - apply good_try; intros s1 R1 I1; (apply Hsd in R1; [|mem|done]); [by apply (Hv verify true)|].
    intros s2 R2 I2. apply Hsd in R2; [|mem|done]. split; [intros b Ho; exfalso; revert Ho; readers|]. drop.
    apply good_acq. intros s3 R3 I3. apply Hsd in R3; [|mem|done].
    apply good_acq. intros s4 R4 I4. apply Hsd in R4; [|mem|done].
    eapply good_perm; [|by apply (Hv true true)]. cbn. solve_Permutation.
Qed.

(** xpmem_seg_down_read: the segment that was locked is not destroyed. *)
Lemma seg_down_read_good H seg wait k again s :
  let Hs := (Sema seg, Rd) :: (Recall (seg_tg seg), Rd) :: H in
  drop_lock (Recall (seg_tg seg)) (drop_lock (Sema seg) Hs) = H ->
  drop_lock (Recall (seg_tg seg)) ((Recall (seg_tg seg), Rd) :: H) = H ->
  (forall s', Inv s' -> seg_destroyed s' seg = false -> good Hs (k true) s') ->
  (forall s', good H (k false) s') -> (forall s', good H again s') ->
  good H (seg_down_read seg wait k again) s.
Proof.
  intros Hs E1 E2 Ht Hf Ha. unfold seg_down_read. cbv zeta.
  assert (forall s', good Hs (Get $ fun s => if seg_destroying s seg || tg_destroying s (seg_tg seg)
            then Rel (Sema seg) $ Rel (Recall (seg_tg seg)) $ k false else k true) s') as Hc.
  { intros s1. apply good_get. intros s2 R2 I2. destruct (_ || _) eqn:Ed.
    - apply good_rel; [done|]. intros s3 R3 I3. apply good_rel; [done|]. rewrite E1. auto.
    - apply Ht; [done|]. apply orb_false_iff in Ed as [Ed _]. apply not_true_is_false. intros D.
      apply (inv_destroying _ I2) in D. congruence. }
  assert (forall s', good ((Recall (seg_tg seg), Rd) :: H) (Try (Sema seg) Rd
            (Get $ fun s => if seg_destroying s seg || tg_destroying s (seg_tg seg)
              then Rel (Sema seg) $ Rel (Recall (seg_tg seg)) $ k false else k true)
            (if wait then Acq (Sema seg) Rd (Get $ fun s => if seg_destroying s seg || tg_destroying s (seg_tg seg)
              then Rel (Sema seg) $ Rel (Recall (seg_tg seg)) $ k false else k true)
             else Rel (Recall (seg_tg seg)) again)) s') as Hd.
  { intros s1. apply good_try; intros s2 R2 I2; [apply Hc|]. destruct wait; [by apply good_acq|].
    apply good_rel; [done|]. rewrite E2. auto. }
  destruct wait; [apply good_acq|apply good_try]; intros; auto.
Qed.

Lemma fault_handler_good a pg s : good [] (fault_handler a pg) s.
Proof.
  assert (forall s, good [(Mmap (att_mm a), Rd)] (Rel (Mmap (att_mm a)) Done) s) as Hq.
  { intros s1. apply rel_free; [readers|]. drop. intros. apply good_done. }
  unfold fault_handler. cbv zeta. apply good_acq. intros s0 R0 I0. apply good_any. intros s1 v R1 I1.
  destruct (decide (v <> 0)); [done|]. apply good_get. intros s2 R2 I2.
  destruct (negb _); [done|]. apply good_get. intros s3 R3 I3. destruct (_ || _); [done|].
  apply seg_down_read_good; [by drop|by drop| |done|].
  { intros s4 I4 Hd. by apply fault_mmap_good. }
  intros s4. apply rel_free; [readers|]. drop. intros s5.
  apply seg_down_read_good; [by drop|by drop| | |].
  - intros s6 I6 Hd. apply good_acq. intros s7 R7 I7.
    eapply good_perm; [|apply fault_mmap_good; by rewrite (rely_sema _ _ _ R7 _ Rd) by mem].
    unfold fault_locks. cbn. solve_Permutation.
  - intros s6. by apply good_acq.
  - intros s6. by apply good_acq.
Qed.
End fault.

(** The calls that go by the rules. *)
Definition by_the_rules (c : call) : bool := match c with Attach _ | Invalidate _ _ _ _ _ _ => false | _ => true end.

Lemma body_good {layout : Layout} {layout_ok : LayoutOk} c s : by_the_rules c = true -> good [] (body c) s.
Proof.
  assert (low 2 []) as L by constructor. pose proof good_done as Gd.
  destruct c; cbn [by_the_rules body]; intros Hc; try done.
  - apply fault_handler_good.
  - apply detach_good.
  - apply munmap_good.
  - by apply release_ap_good.
  - by apply remove_seg_good.
  - apply recall_good. intros s'. apply good_rel; [done|]. drop. auto.
  - apply good_any. intros s1 v _ _. destruct (decide (v = 0)); [done|].
    apply recall_good. intros s'. apply good_rel; [done|]. drop. auto.
  - apply teardown_good.
Qed.

(** C3: in every interleaving of page faults, detaches, unmappings, releases, removals, forks, recalls and
    teardowns, of any number and on any objects (xpmem_attach and the MMU notifier are not among them), and for
    every attachment that is not being detached (DESTROYING is clear): once its segment is destroyed it shows no
    page, and while no task is in a critical section of it, every page it shows is pinned exactly as often as it
    is shown, plus the references that page faults with a failed remap lost.  (An attachment being detached is
    unpinned before it is unmapped.) *)
Theorem pages_safe {layout : Layout} {layout_ok : LayoutOk} s cs c :
  Inv s -> (forall a, accounted a s) -> Forall (fun x => by_the_rules x = true) cs -> runs s cs c ->
  (forall a, seg_destroyed (sto c) (att_seg a) = true -> DESTROYING (flags (att (sto c) a)) = false ->
     ptes (att (sto c) a) = ∅) /\
  (forall a, (forall t, t ∈ tasks c -> ~ own (held t) a) -> DESTROYING (flags (att (sto c) a)) = false ->
     forall pfn, refs (att (sto c) a) pfn = shows pfn (ptes (att (sto c) a)) + lost (att (sto c) a) pfn).
Proof.
  intros I A Hc Hr. destruct (good_runs s cs c I A) as [I' _ _ A']; [|done|].
  { eapply Forall_impl; [exact Hc|]. intros x Hx s'. by apply body_good. }
  split.
  - intros a Hd. apply (inv_fine _ I'). by apply (inv_destroyed _ I').
  - intros a Ho. apply A'. intros i t Ht. apply Ho. by eapply list_elem_of_lookup_2.
Qed.

#[export] Instance one_att_ok : @LayoutOk one_att.
Proof. split. intros a _. unfold covers. cbn. lia. Qed.

Lemma fresh_Inv : @Inv one_att (fresh true).
Proof.
  split; cbn; [|done|done]. intros a. destruct (decide (a = 1)) as [-> |Hne]; split; cbn; try done.
  intros _. split; cbn; set_solver.
Qed.

Lemma fresh_accounted a : accounted a (fresh true).
Proof.
  intros _ pfn. cbn. destruct (decide (a = 1)); cbn; unfold shows; by rewrite map_filter_empty, map_size_empty.
Qed.

(** A page is faulted in, and the segment removed. *)
Definition fault_then_remove : cfg lock store :=
  exec (pins_7 100 ++ [(1, 100, 0%Z)]%nat) (@launch one_att (fresh true) [Fault 1 0; Remove 1]).

Lemma pages_safe_witness :
  seg_destroyed (sto fault_then_remove) 1 = true /\ ptes (att (sto fault_then_remove) 1) = ∅ /\
  refs (att (sto fault_then_remove) 1) 7 = 0.
Proof.
  destruct (@pages_safe one_att one_att_ok (fresh true) [Fault 1 0; Remove 1] fault_then_remove) as [Hd Hr].
  - exact fresh_Inv.
  - exact fresh_accounted.
  - repeat constructor.
  - apply exec_runs.
  - split; [by vm_compute|]. split; [apply Hd; by vm_compute|]. rewrite Hr; [by vm_compute| |by vm_compute].
    intros t Ht. assert (Forall (fun t => held t = []) (tasks fault_then_remove)) as Hh
      by (apply no_locks_true; by vm_compute).
    rewrite (proj1 (Forall_forall _ _) Hh t Ht). apply (@low_no_own one_att). constructor.
Defined.
