(* ===== verification/RecallLock.v ===== *)
(** The recall counter is a lock: what RecallProto does with single atomic accesses refines the lock [Recall]
    of ConcOps, which its owners hold in mode [Rd] (page faults) or [Rc] (recalls). *)

From S2P Require Import Prelude Conc RecallProto.

(** Who owns the counter, and how. *)
Definition owner (p : pc) : option mode := match p with B_in => Some Rd | R_in => Some Rc | _ => None end.
Definition owners (s : st) : gmap positive mode := omap owner (pcs s).

(** The lock: granted when no owner excludes the mode, given back at any time. *)
Inductive lock_step (m : gmap positive mode) : gmap positive mode -> Prop :=
  | lock_same : lock_step m m
  | lock_acquire i md : m !! i = None -> map_Forall (fun _ md' => compat md md' = true) m -> lock_step m (<[i := md]> m)
  | lock_release i : is_Some (m !! i) -> lock_step m (delete i m).

(** Moving one task. *)
Lemma owners_goto i p n s : owners (goto i p n s) = partial_alter (fun _ => owner p) i (owners s).
Proof.
  apply map_eq. intros j. unfold owners, goto. cbn. rewrite lookup_omap, lookup_insert.
  case_decide as E; [subst; by rewrite lookup_partial_alter_eq|].
  by rewrite lookup_partial_alter_ne, lookup_omap by done.
Qed.

Lemma owners_quiet i p p' n s : pcs s !! i = Some p -> owner p = owner p' -> owners (goto i p' n s) = owners s.
Proof.
  intros E Eo. rewrite owners_goto. apply map_eq. intros j. destruct (decide (i = j)) as [<- |Hj].
  - rewrite lookup_partial_alter_eq. unfold owners. by rewrite lookup_omap, E.
  - by rewrite lookup_partial_alter_ne.
Qed.

(** Waking the sleepers changes no owner. *)
Lemma owners_wake i n s wake :
  (forall p, owner (wake p) = owner p) ->
  owners (mk_st n (wake <$> <[i := Idle]> (pcs s))) = owners (goto i Idle n s).
Proof.
  intros Hw. apply map_eq. intros j. unfold owners, goto. cbn. rewrite !lookup_omap, lookup_fmap.
  destruct (_ !! j); cbn; [apply Hw|done].
Qed.

Lemma no_recallers s i md : recallers s = 0%nat -> owners s !! i = Some md -> md = Rd.
Proof.
  unfold owners. rewrite lookup_omap. intros Hr. destruct (pcs s !! i) as [p|] eqn:E; [|done]. cbn.
  pose proof (map_sum_ge is_R (pcs s) i p E) as Hge. unfold recallers in Hr. rewrite Hr in Hge.
  destruct p; cbn in *; intros [=]; try done. lia.
Qed.

Lemma no_blockers s i md : blockers s = 0%nat -> owners s !! i = Some md -> md = Rc.
Proof.
  unfold owners. rewrite lookup_omap. intros Hr. destruct (pcs s !! i) as [p|] eqn:E; [|done]. cbn.
  pose proof (map_sum_ge is_B (pcs s) i p E) as Hge. unfold blockers in Hr. rewrite Hr in Hge.
  destruct p; cbn in *; intros [=]; try done. lia.
Qed.

Lemma owner_is s i p : pcs s !! i = Some p -> owners s !! i = owner p.
Proof. intros E. unfold owners. by rewrite lookup_omap, E. Qed.


