(* ===== verification/SimpleLaws.v ===== *)
(** The concrete kernel of Simple obeys the laws that the theorems rely on. *)

From S2P Require Import Prelude Kernel World Monad Pfn Simple PfnSpec PinSpec FaultSpec.
From S2P Require Import Attach DetachSpec CloseSpec MapSpec AttachSpec.

(** * Page tables *)

Lemma simple_zap_unmaps (pt : simple_pt) mm a len v :
  a <= v < a + len -> mapped_pfn (K := SimpleKernel) (simple_zap pt mm a len) mm v = None.
Proof.
  intros Hv. unfold mapped_pfn, walk_pte_size. cbn. destruct (simple_zap pt mm a len !! _) as [pfn|] eqn:E; [|done].
  exfalso. apply map_lookup_filter_Some in E as [_ E]. apply E. split; [done|].
  pose proof (Z.div_le_mono a v 4096). pose proof (Z.mul_div_le v 4096). lia.
Qed.

Lemma simple_zap_maps_nothing (pt : simple_pt) mm a len mm' v :
  mapped_pfn (K := SimpleKernel) pt mm' v = None ->
  mapped_pfn (K := SimpleKernel) (simple_zap pt mm a len) mm' v = None.
Proof.
  unfold mapped_pfn, walk_pte_size. cbn. intros H. destruct (simple_zap pt mm a len !! _) as [pfn|] eqn:E; [|done].
  apply map_lookup_filter_Some in E as [E _]. cbn in *. by rewrite E in H.
Qed.

Lemma simple_zap_keeps (pt : simple_pt) mm a len mm' v :
  offset_in_page a = 0 -> offset_in_page v = 0 -> ~ (mm' = mm /\ a <= v < a + len) ->
  mapped_pfn (K := SimpleKernel) (simple_zap pt mm a len) mm' v = mapped_pfn (K := SimpleKernel) pt mm' v.
Proof.
  rewrite !offset_in_page_mod. change PAGE_SIZE with 4096. intros Ha Hv Hn. unfold mapped_pfn, walk_pte_size. cbn.
  enough (simple_zap pt mm a len !! (mm', v / 4096) = pt !! (mm', v / 4096)) as -> by done.
  apply option_eq. intros q. unfold simple_zap. rewrite map_lookup_filter_Some. split; [by intros []|].
  intros E. split; [done|]. intros (-> & H1 & H2). apply Hn. split; [done|].
  pose proof (Z.div_mod a 4096). pose proof (Z.div_mod v 4096). lia.
Qed.

#[export] Instance SimpleZap : ZapPtes SimpleKernel.
Proof.
  split.
  - intros pt vma a len v H1 H2 _ Hv. by apply simple_zap_unmaps.
  - intros pt vma a len mm v H. by apply simple_zap_maps_nothing.
  - intros pt vma a len mm v Ha _ Hv Hn. by apply simple_zap_keeps.
Qed.

#[export] Instance SimpleMaps : MapPages SimpleKernel.
Proof.
  split; unfold mapped_pfn, walk_pte_size; cbn.
  - intros pt mm a page pg [= <- <-]. by rewrite lookup_insert_eq.
  - intros pt vma v pfn pg mm' v'. unfold simple_remap. destruct (_ <? _); [|done]. intros [= <-].
    change PAGE_SIZE with 4096. rewrite lookup_insert. destruct (decide (_ = (mm', _))) as [E|E], (decide (_ /\ _)) as [F|F]; try done; exfalso.
    + apply F. by injection E as -> ->.
    + apply E. by destruct F as [-> ->].
  - intros pt vma v pfn mm' v'. unfold simple_remap. destruct (_ <? _); cbn; [|by left]. rewrite lookup_insert.
    destruct (decide _) as [[= -> E]|_]; [|by left]. intros _. by right.
Qed.

(** * Vmas *)

Lemma vma_before_total x y : ~ vma_before x y -> vma_before y x.
Proof. unfold vma_before. lia. Qed.

Lemma lowest_None (P : vm_area_struct -> bool) l : lowest_pair P l = None <-> forall y, y ∈ l -> P y.2 = false.
Proof.
  induction l as [|x l IH]; [split; [by intros _ y ?%elem_of_nil|done]|]. cbn. destruct (P x.2) eqn:HP.
  - split; [destruct (lowest_pair P l); [case_bool_decide|]; discriminate|].
    intros H. by rewrite H in HP by apply list_elem_of_here.
  - rewrite IH. split; [intros H y [->|Hy]%elem_of_cons; auto|]. intros H y Hy. apply H. by right.
Qed.

Lemma lowest_least (P : vm_area_struct -> bool) l o :
  lowest_pair P l = Some o -> o ∈ l /\ P o.2 = true /\ forall y, y ∈ l -> P y.2 = true -> vma_before o y.
Proof.
  revert o. induction l as [|x l IH]; intros o; [done|]. cbn. destruct (P x.2) eqn:HP.
  2: { intros (H1 & H2 & H3)%IH. split; [by right|]. split; [done|].
       intros y [->|Hy]%elem_of_cons Hp; [congruence|auto]. }
  destruct (lowest_pair P l) as [z|] eqn:Ez.
  - destruct (IH z eq_refl) as (Z1 & Z2 & Z3). case_bool_decide as Hb; intros [= <-].
    + split; [by left|]. split; [done|]. intros y [->|Hy]%elem_of_cons Hp; [unfold vma_before; lia|].
      specialize (Z3 y Hy Hp). unfold vma_before in *. lia.
    + split; [by right|]. split; [done|]. intros y [->|Hy]%elem_of_cons Hp; [by apply vma_before_total|auto].
  - intros [= <-]. split; [by left|]. split; [done|].
    intros y [->|Hy]%elem_of_cons Hp; [unfold vma_before; lia|].
    by rewrite (proj1 (lowest_None P l) Ez y Hy) in Hp.
Qed.

(** What [simple_find_vma] finds, in terms of the table. *)
Definition first_vma (tb : vma_table) (mm : positive) (a : Z) (p : positive) : Prop :=
  exists v, tb !! p = Some v /\ vm_mm v = mm /\ vm_detached v = false /\ a < vm_end v /\
    forall q u, tb !! q = Some u -> vm_mm u = mm -> vm_detached u = false -> a < vm_end u -> vma_before (p, v) (q, u).

Lemma elem_of_vma_list tb mm p v :
  (p, v) ∈ vma_list tb mm <-> tb !! p = Some v /\ vm_mm v = mm /\ vm_detached v = false.
Proof.
  unfold vma_list. rewrite list_elem_of_filter, elem_of_map_to_list. tauto.
Qed.

Lemma simple_find_vma_spec tb mm a p : simple_find_vma tb mm a = Some p <-> first_vma tb mm a p.
Proof.
  unfold simple_find_vma, lowest. set (P := fun v : vm_area_struct => a <? vm_end v). split.
  - intros ([q v] & E & Ep)%fmap_Some. cbn in Ep. subst q. apply lowest_least in E as (H1 & H2 & H3).
    apply elem_of_vma_list in H1 as (E & Hm & Hd). exists v. split; [done|]. split; [done|]. split; [done|].
    split; [cbn in H2; unfold P in H2; lia|]. intros q u Eq Hmq Hdq Ha. apply H3; [by apply elem_of_vma_list|].
    unfold P. cbn. lia.
  - intros (v & E & Hm & Hd & Ha & Hmin). apply fmap_Some.
    destruct (lowest_pair P (vma_list tb mm)) as [[q u]|] eqn:El.
    + apply lowest_least in El as (H1 & H2 & H3). apply elem_of_vma_list in H1 as (Eq & Hmq & Hdq).
      exists (q, u). split; [done|]. cbn.
      specialize (Hmin q u Eq Hmq Hdq ltac:(unfold P in H2; cbn in H2; lia)).
      specialize (H3 (p, v) (proj2 (elem_of_vma_list tb mm p v) (conj E (conj Hm Hd))) ltac:(unfold P; cbn; lia)).
      unfold vma_before in *. cbn in *. lia.
    + pose proof (proj1 (lowest_None _ _) El (p, v) (proj2 (elem_of_vma_list tb mm p v) (conj E (conj Hm Hd)))) as H.
      unfold P in H. cbn in H. lia.
Qed.

Lemma first_vma_extent tb tb' mm a p : vm_extent <$> tb = vm_extent <$> tb' -> first_vma tb mm a p -> first_vma tb' mm a p.
Proof.
  intros E (v & Ev & Hm & Hd & Ha & Hmin).
  assert (forall q u, tb !! q = Some u -> exists u', tb' !! q = Some u' /\ vm_extent u' = vm_extent u) as H1.
  { intros q u Eu. assert ((vm_extent <$> tb') !! q = Some (vm_extent u)) as F by (by rewrite <- E, lookup_fmap, Eu).
    rewrite lookup_fmap in F. destruct (tb' !! q) as [u'|]; [|done]. exists u'. split; [done|]. by apply Some_inj in F. }
  assert (forall q u, tb' !! q = Some u -> exists u', tb !! q = Some u' /\ vm_extent u' = vm_extent u) as H2.
  { intros q u Eu. assert ((vm_extent <$> tb) !! q = Some (vm_extent u)) as F by (by rewrite E, lookup_fmap, Eu).
    rewrite lookup_fmap in F. destruct (tb !! q) as [u'|]; [|done]. exists u'. split; [done|]. by apply Some_inj in F. }
  destruct (H1 p v Ev) as (v' & Ev' & Ex). unfold vm_extent in Ex. injection Ex as X1 X2 X3 X4.
  exists v'. split; [done|]. split; [congruence|]. split; [congruence|]. split; [lia|].
  intros q u Eu Hmu Hdu Hau. destruct (H2 q u Eu) as (u' & Eu' & Ex). unfold vm_extent in Ex. injection Ex as Y1 Y2 Y3 Y4.
  specialize (Hmin q u' Eu' ltac:(congruence) ltac:(congruence) ltac:(lia)). unfold vma_before in *. cbn in *. lia.
Qed.

#[export] Instance SimpleVmas : VmaTree SimpleKernel.
Proof. split. intros tb mm a v (vma & E & Hm & Hd & Ha & _)%simple_find_vma_spec. eauto. Qed.

Lemma elem_of_simple_hits tb mm addr size q u :
  (q, u) ∈ simple_hits tb mm addr size <-> tb !! q = Some u /\ hit mm addr size u.
Proof. unfold simple_hits, hit, in_space. rewrite list_elem_of_filter, elem_of_vma_list. tauto. Qed.

Lemma sole_hits tb v vma start len :
  sole_vma tb v vma -> vm_start vma <= start -> 0 < len -> start + len <= vm_end vma ->
  simple_hits tb (vm_mm vma) start len = [(v, vma)].
Proof.
  intros (E & Hd & Hlt & Hu) H1 H2 H3. apply Permutation_singleton_r. symmetry. apply NoDup_Permutation.
  - apply NoDup_singleton.
  - apply NoDup_filter. unfold vma_list. apply NoDup_filter, NoDup_map_to_list.
  - intros [q u]. rewrite list_elem_of_singleton, elem_of_simple_hits. split.
    + intros [= -> ->]. split; [done|]. split; [done|lia].
    + intros (Eq & [Hm Hdq] & H4 & H5). assert (q = v) as -> by (apply (Hu q u); try done; lia). congruence.
Qed.

Lemma simple_munmap_one tb v vma :
  sole_vma tb v vma ->
  simple_vm_munmap tb (vm_mm vma) (vm_start vma) (vm_end vma - vm_start vma)
    = inr (mk_munmap [] [v] (<[v := set_vm_detached vma]> tb)).
Proof.
  intros Hs. pose proof Hs as (_ & _ & Hlt & _). unfold simple_vm_munmap. rewrite (sole_hits _ _ _ _ _ Hs) by lia.
  rewrite !filter_cons, !filter_nil. cbn [snd]. repeat case_decide; done || lia.
Qed.

Lemma simple_munmap_part tb v vma start len r :
  sole_vma tb v vma -> vm_start vma <= start -> 0 < len < vm_end vma - vm_start vma -> start + len <= vm_end vma ->
  simple_vm_munmap tb (vm_mm vma) start len = inr r -> split_vma tb v vma start len r.
Proof.
  intros Hs H1 H2 H3. unfold simple_vm_munmap. rewrite (sole_hits _ _ _ _ _ Hs) by lia.
  rewrite !filter_cons, !filter_nil. cbn [snd]. repeat case_decide; try lia.
  set (n := fresh (dom tb)). set (m := fresh ({[n]} ∪ dom tb)).
  assert (tb !! n = None) as Hn by (apply not_elem_of_dom, is_fresh).
  assert (m ∉ {[n]} ∪ dom tb) as [Hmn Hm%not_elem_of_dom]%not_elem_of_union by apply is_fresh. apply not_elem_of_singleton in Hmn.
  destruct (Z.leb_spec start (vm_start vma)) as [H4|H4]; [intros [= <-]|destruct (Z.leb_spec (vm_end vma) (start + len)) as [H5|H5]; intros [= <-]].
  - assert (start = vm_start vma) as -> by lia. by apply split_head; [|lia|].
  - by apply split_tail; [|lia|].
  - by apply split_middle.
Qed.

#[export] Instance SimpleUnmap : UnmapVma SimpleKernel.
Proof.
  split.
  - intros tb tb' mm a E. apply option_eq. intros p. cbn. rewrite !simple_find_vma_spec.
    split; by apply first_vma_extent.
  - intros tb mm a u v (vma & E & Hm & Hd & Ha & Hmin)%simple_find_vma_spec Hne. apply simple_find_vma_spec.
    exists vma. rewrite lookup_delete_ne by congruence. split_and!; try done.
    intros q z [_ Ez]%lookup_delete_Some. by apply Hmin.
  - intros tb v vma H. by apply simple_munmap_one.
  - intros pt mm a len v H. by apply simple_zap_unmaps.
  - intros pt mm a len mm' v H. by apply simple_zap_maps_nothing.
Qed.

#[export] Instance SimpleSplit : SplitVma SimpleKernel.
Proof. split. intros tb v vma start len r Hs H1 H2 H3 _ _ E. by apply simple_munmap_part. Qed.

Lemma simple_top_ge tb mm v u :
  tb !! v = Some u -> vm_mm u = mm -> vm_detached u = false -> vm_end u <= simple_top tb mm.
Proof.
  intros E Hm Hd. assert ((v, u) ∈ vma_list tb mm) as H by (by apply elem_of_vma_list). unfold simple_top.
  induction (vma_list tb mm) as [|x l IH]; [by apply elem_of_nil in H|]. cbn.
  apply elem_of_cons in H as [<-|H]; cbn; [lia|]. specialize (IH H). lia.
Qed.

Lemma simple_top_pos tb mm : 0 <= simple_top tb mm.
Proof. unfold simple_top. induction (vma_list tb mm); cbn; lia. Qed.

Lemma hit_pointer tb mm addr size q :
  q ∈ (simple_hits tb mm addr size).*1 <-> exists u, tb !! q = Some u /\ hit mm addr size u.
Proof.
  rewrite list_elem_of_fmap. split.
  - intros ([q' u] & -> & H%elem_of_simple_hits). eauto.
  - intros (u & H). exists (q, u). split; [done|]. by apply elem_of_simple_hits.
Qed.

Lemma detach_lookup (l : list (positive * vm_area_struct)) (tb : vma_table) q :
  q ∉ l.*1 -> foldr (fun x m => <[x.1 := set_vm_detached x.2]> m) tb l !! q = tb !! q.
Proof.
  induction l as [|[p u] l IH]; [done|]. cbn. intros [Hp Hn]%not_elem_of_cons. rewrite lookup_insert_ne by done. by apply IH.
Qed.

Lemma detach_found (l : list (positive * vm_area_struct)) (tb : vma_table) q u :
  NoDup l.*1 -> (q, u) ∈ l -> foldr (fun x m => <[x.1 := set_vm_detached x.2]> m) tb l !! q = Some (set_vm_detached u).
Proof.
  induction l as [|[p z] l IH]; [by intros _ ?%elem_of_nil|]. cbn. intros [Hp Hn]%NoDup_cons [[= -> ->]|Hin]%elem_of_cons; [apply lookup_insert_eq|].
  rewrite lookup_insert_ne; [by apply IH|]. intros ->. apply Hp, list_elem_of_fmap. by exists (q, u).
Qed.

Lemma close_all_gone (l : list positive) (tb : vma_table) q : q ∈ l -> close_all l tb !! q = None.
Proof.
  revert tb. induction l as [|p l IH]; intros tb; [by intros ?%elem_of_nil|]. intros Hin. cbn. fold (close_all l (delete p tb)).
  destruct (decide (q ∈ l)); [by apply IH|]. apply elem_of_cons in Hin as [->|?]; [|done].
  rewrite close_all_lookup by done. apply lookup_delete_eq.
Qed.

Lemma hits_once tb mm addr size : NoDup (simple_hits tb mm addr size).*1.
Proof.
  apply NoDup_fmap_fst; [|apply NoDup_filter; unfold vma_list; apply NoDup_filter, NoDup_map_to_list].
  intros q u u' [E _]%elem_of_simple_hits [E' _]%elem_of_simple_hits. congruence.
Qed.

Section fixed.
Context (tb : vma_table) (mm : positive) (addr size : Z) (p : positive) (new : vm_area_struct).
Let hits := simple_hits tb mm addr size.
Let rest := delete p (close_all hits.*1 (<[p := new]> (foldr (fun x m => <[x.1 := set_vm_detached x.2]> m) tb hits))).
Context (Hp : tb !! p = None) (Hin : forall q u, tb !! q = Some u -> hit mm addr size u -> addr <= vm_start u /\ vm_end u <= addr + size).

Lemma simple_rest q u : rest !! q = Some u <-> tb !! q = Some u /\ ~ hit mm addr size u.
Proof.
  unfold rest. rewrite lookup_delete_Some. destruct (decide (q ∈ hits.*1)) as [Hq|Hq].
  - rewrite close_all_gone by done. apply hit_pointer in Hq as (z & Ez & Hz). split; [by intros [_ ?]|].
    intros [E Hn]. assert (z = u) as -> by congruence. done.
  - rewrite close_all_lookup by done. split.
    + intros [Hne E]. rewrite lookup_insert_ne, detach_lookup in E by done. split; [done|]. intros Hh. apply Hq, hit_pointer. eauto.
    + intros [E Hn]. assert (p <> q) as Hne by congruence. split; [done|]. by rewrite lookup_insert_ne, detach_lookup.
Qed.

Lemma simple_carved : vmas_apart tb -> carved mm addr size tb rest.
Proof.
  intros Ha. split.
  - intros q u E Hn. by apply simple_rest.
  - intros q u E%simple_rest. by left.
  - intros q u b E Hs Hb Hout. destruct (decide (addr < vm_end u /\ vm_start u < addr + size)) as [Hh|Hh].
    + destruct (Hin q u E) as [H1 H2]; [by split|]. lia.
    + exists q, u. split; [|done]. apply simple_rest. split; [done|]. by intros [_ ?].
  - eapply vmas_apart_extent; [|exact Ha]. intros q u [E _]%simple_rest. eauto.
Qed.
End fixed.

Lemma simple_mmap_law tb mm vaddr size off r :
  vmas_apart tb -> 0 <= vaddr -> 0 < size -> offset_in_page size = 0 -> offset_in_page vaddr = 0 ->
  simple_vm_mmap tb mm vaddr size (map_flags vaddr) off = inr r ->
  exists vma, mapping mm size tb r vma /\
    (vaddr = 0 -> mm_opened r = [] /\ mm_closed r = [] /\ mm_table r = <[mm_vma r := vma]> tb /\
       forall v u, tb !! v = Some u -> ~ hit mm (mm_addr r) size u) /\
    (vaddr <> 0 -> mm_addr r = vaddr).
Proof.
  intros Ha Hv Hs Hz Hva. unfold simple_vm_mmap. set (addr := if vaddr =? 0 then _ else _).
  destruct (Z.ltb_spec 0x7ffffffff000 (addr + size)) as [|Hlt]; [done|]. destruct (forallb _ _) eqn:Hall; [|done]. intros [= <-].
  set (p := fresh (dom tb)). assert (tb !! p = None) as Hp by (apply not_elem_of_dom, is_fresh).
  assert (forall q u, tb !! q = Some u -> hit mm addr size u -> addr <= vm_start u /\ vm_end u <= addr + size) as Hin.
  { intros q u E Hh. rewrite forallb_forall in Hall. specialize (Hall (q, u)). cbn in Hall.
    specialize (Hall ltac:(by apply list_elem_of_In, elem_of_simple_hits)). lia. }
  assert (0 <= addr /\ offset_in_page addr = 0 /\ (vaddr = 0 -> forall q u, tb !! q = Some u -> ~ hit mm addr size u) /\ (vaddr <> 0 -> addr = vaddr))
    as (H0 & Hal & Hfree & Hfix).
  { unfold addr. destruct (Z.eqb_spec vaddr 0) as [E|E]; [|by split_and!]. pose proof (simple_top_pos tb mm).
    pose proof (Z.mul_succ_div_gt (simple_top tb mm + 4095) 4096). split; [lia|]. split; [rewrite offset_in_page_mod; by apply Z_mod_mult|].
    split; [|done]. intros _ q u Eu ([Hm Hd] & H1 & _). pose proof (simple_top_ge tb mm q u Eu Hm Hd). lia. }
  clearbody addr. set (new := mk_vma _ _ _ _ _ _ _ _). exists new. split; [|split; [|done]].
  - split; cbn [mm_addr mm_vma mm_table mm_closed mm_opened].
    + done.
    + split; [apply lookup_insert_eq|]. split; [done|]. rewrite hit_pointer. intros (u & E & _). congruence.
    + done.
    + by intros v ?%elem_of_nil.
    + apply hits_once.
    + intros v (u & E & Hh)%hit_pointer. exists (set_vm_detached u), v, u. split_and!; try done.
      rewrite lookup_insert_ne by congruence. apply detach_found; [apply hits_once|]. by apply elem_of_simple_hits.
    + by apply simple_carved.
  - intros E0. cbn [mm_addr mm_vma mm_table mm_closed mm_opened]. assert (simple_hits tb mm addr size = []) as ->; [|split; [done|]; split; [done|]; split; [done|]; by apply Hfree].
    destruct (simple_hits tb mm addr size) as [|[q u] l] eqn:El; [done|]. exfalso.
    assert ((q, u) ∈ simple_hits tb mm addr size) as [E Hh]%elem_of_simple_hits by (rewrite El; left). by apply (Hfree E0 q u E).
Qed.

(** Of vmas that do not meet, the one that ends first starts first. *)
Lemma apart_order tb mm v u q z : vmas_apart tb -> tb !! v = Some u -> tb !! q = Some z -> in_space mm u -> in_space mm z ->
  (vm_end u < vm_end z <-> vm_start u < vm_start z) /\ (vm_end u = vm_end z <-> v = q).
Proof.
  intros Ha Ev Eq [Hm Hd] [Hm' Hd']. pose proof (apart_nonempty _ Ha v u Ev Hd). pose proof (apart_nonempty _ Ha q z Eq Hd').
  destruct (decide (v = q)) as [<-|Hne]; [assert (z = u) as -> by congruence; lia|].
  assert (vm_end z <= vm_start u \/ vm_end u <= vm_start z) as Ho; [|lia].
  destruct (decide (vm_end z <= vm_start u)); [by left|]. destruct (decide (vm_end u <= vm_start z)); [by right|].
  exfalso. apply Hne, (apart_disjoint _ Ha v u q z); congruence || lia.
Qed.

Lemma simple_lowest P tb mm v :
  lowest P (vma_list tb mm) = Some v -> exists u, tb !! v = Some u /\ in_space mm u /\ P u = true /\
    forall q z, tb !! q = Some z -> in_space mm z -> P z = true -> vm_end u <= vm_end z.
Proof.
  unfold lowest. intros ([q u] & E & [= ->])%fmap_Some. apply lowest_least in E as (H1%elem_of_vma_list & H2 & H3).
  destruct H1 as (E & Hi). exists u. split_and!; try apply Hi; try done. intros q' z Ez Hz Pz.
  specialize (H3 (q', z) (proj2 (elem_of_vma_list tb mm q' z) (conj Ez Hz)) Pz). unfold vma_before in H3. cbn in H3. lia.
Qed.

Lemma simple_lowest_none P tb mm :
  lowest P (vma_list tb mm) = None -> forall q z, tb !! q = Some z -> in_space mm z -> P z = false.
Proof.
  unfold lowest. intros E%fmap_None q z Ez Hz. exact (proj1 (lowest_None _ _) E (q, z) (proj2 (elem_of_vma_list tb mm q z) (conj Ez Hz))).
Qed.

#[export] Instance SimpleMap : MapVma SimpleKernel.
Proof.
  split.
  - cbn. lia.
  - intros tb mm vaddr size off r. apply simple_mmap_law.
  - intros tb v vma a E Hd Ha Hmin. apply simple_find_vma_spec. exists vma. split_and!; try done.
    intros q u Eq Hm Hdq Haq. destruct (decide (q = v)) as [->|Hne].
    + assert (u = vma) as -> by congruence. unfold vma_before. cbn. lia.
    + destruct (Hmin q u Eq (conj Hm Hdq) Hne); unfold vma_before; cbn; lia.
  - intros tb mm a b v Ha (u & Ev & Hi & Hp & Hmin)%simple_lowest. exists u. split; [done|]. split; [done|].
    apply andb_true_iff in Hp as [H1 H2]. split; [lia|]. split; [lia|]. intros q z Ez Hz H3 H4.
    pose proof (Hmin q z Ez Hz ltac:(lia)). destruct (apart_order tb mm q z v u Ha Ez Ev Hz Hi). lia.
  - intros tb mm a b Ha Hn q z Ez Hz H1. pose proof (simple_lowest_none _ _ _ Hn q z Ez Hz) as H. cbn in H. lia.
  - intros tb v u v' Ha Ev Hd. cbn. unfold simple_vm_next, mbind, option_bind. rewrite Ev. intros (z & Ez & Hz & Hp & Hmin)%simple_lowest.
    assert (in_space (vm_mm u) u) as Hu by done. exists z. split; [done|]. split; [done|].
    destruct (apart_order tb _ v u v' z Ha Ev Ez Hu Hz) as [O1 _]. split; [lia|]. intros q x Ex Hx Hlt.
    destruct (apart_order tb _ v u q x Ha Ev Ex Hu Hx) as [O2 _]. pose proof (Hmin q x Ex Hx ltac:(lia)).
    destruct (apart_order tb _ q x v' z Ha Ex Ez Hx Hz). lia.
  - intros tb v u Ha Ev Hd. cbn. unfold simple_vm_next, mbind, option_bind. rewrite Ev. intros Hn q z Ez Hz.
    pose proof (simple_lowest_none _ _ _ Hn q z Ez Hz) as H. cbn in H.
    destruct (apart_order tb _ v u q z Ha Ev Ez ltac:(done) Hz). lia.
Qed.

(** * The vmas of the processes at the start *)

Definition own_vma (mm : positive) : vm_area_struct := mk_vma mm 0x400000 0x404000 vm_ops_other None 0 false false.

Lemma own_vmas_apart : vmas_apart (<[1%positive := own_vma 1]> {[2%positive := own_vma 2]}).
Proof.
  split.
  - intros v u [[_ <-]|[_ [_ <-]%lookup_singleton_Some]]%lookup_insert_Some _; cbn; lia.
  - intros v u v' u' [[<- <-]|[_ [<- <-]%lookup_singleton_Some]]%lookup_insert_Some
      [[<- <-]|[_ [<- <-]%lookup_singleton_Some]]%lookup_insert_Some; done.
Qed.
