(* ===== verification/Scenario.v ===== *)
(** A run of the module on the concrete kernel of Simple, and the theorems of the
    other files at its states: process 100 shares two pages, process 200 gets
    and attaches them. *)

From S2P Require Import Prelude Kernel World Monad Ids Misc Pfn Attach Make Get Recall Notifier Main.
From S2P Require Import Simple Inv Graph Link Refs Lookup MakeSpec GetSpec AccessSpec OpenSpec PfnSpec.
From S2P Require Import Invalidated ClearSpec Chain PinSpec Fault FaultSpec DetachSpec RemoveSpec Registry RecallProto SimpleLaws.

(** The state a call leaves. *)
Definition run {V} (m : M V) (w : world) : world := match m w with Ok _ w' => w' | Fault _ => w end.

Lemma run_wp {V} (m : M V) (P : world -> Prop) w : wp m (fun _ w' => P w') w -> P (run m w).
Proof. unfold wp, run. by destruct (m w). Qed.

Definition user1 : task := simple_task 100 1 1000.
Definition user2 : task := simple_task 200 2 2000.

Definition seg_id : Z := id_to_s64 (mk_id 100 1).
Definition permit_id : Z := id_to_s64 (mk_id 200 1).

(** Both processes open the device, the first shares pages 0x400 and 0x401
    (mode 0666), the second gets a permit. *)
Definition s0 : world := simple_world.
Definition s1 : world := run (xpmem_open user1) s0.
Definition s2 : world := run (xpmem_open user2) s1.
Definition s3 : world := run (xpmem_make user1 0x400000 0x2000 XPMEM_PERMIT_MODE 0x1b6) s2.
Definition s4 : world := run (xpmem_get user2 seg_id XPMEM_RDWR XPMEM_PERMIT_MODE 0) s3.

Lemma s0_inv : Inv ∅ ∅ ∅ ∅ s0.
Proof. by apply Inv_init. Qed.

Lemma open_inv cur w :
  Inv ∅ ∅ ∅ ∅ w -> permits_ok w -> held w = [] -> cur_mm cur = cur_leader_mm cur -> 0 < cur_tgid cur < 2 ^ 31 ->
  Inv ∅ ∅ ∅ ∅ (run (xpmem_open cur) w).
Proof.
  intros HI Hw Hh Hm Ht. apply run_wp. eapply wp_mono; [by apply open_ok|]. intros r w' E.
  replace w' with ((open_spec cur w).2) by (by rewrite <- E). by apply open_spec_inv.
Qed.

Lemma s1_inv : Inv ∅ ∅ ∅ ∅ s1.
Proof. apply (open_inv user1 s0); [apply s0_inv|vm_compute; done..]. Qed.
Lemma s2_inv : Inv ∅ ∅ ∅ ∅ s2.
Proof. apply (open_inv user2 s1); [apply s1_inv|vm_compute; done..]. Qed.
Lemma s3_inv : Inv ∅ ∅ ∅ ∅ s3.
Proof.
  apply (run_wp (xpmem_make _ _ _ _ _) (Inv ∅ ∅ ∅ ∅)). eapply wp_mono; [apply make_ok; [apply s2_inv|vm_compute; done..]|]. by intros r w' [_ ?].
Qed.
Lemma s4_inv : Inv ∅ ∅ ∅ ∅ s4.
Proof.
  apply (run_wp (xpmem_get _ _ _ _ _) (Inv ∅ ∅ ∅ ∅)). eapply wp_mono; [apply get_ok; [apply s3_inv|vm_compute; done..]|]. by intros r w' (_ & _ & ?).
Qed.

(** The objects of [s4]. *)
Definition the_seg : xpmem_segment := mk_seg seg_id 0x400000 0x2000 XPMEM_PERMIT_MODE 0x1b6 0 2 1 [4%positive].
Definition the_permit : xpmem_access_permit := mk_ap permit_id XPMEM_RDWR 0 1 3 2 [].

Lemma s4_segs : segs s4 = {[3%positive := the_seg]}.
Proof. vm_compute. reflexivity. Qed.
Lemma s4_aps : aps s4 = {[4%positive := the_permit]}.
Proof. vm_compute. reflexivity. Qed.

(** The permit attached at 0x10000000, both pages mapped; the second process still
    holds the reference of [xpmem_attach]. *)
Definition the_att : xpmem_attachment :=
  mk_att 0x400000 0x10000000 0x2000 (Some 9%positive) XPMEM_FLAG_VALIDPTEs 2 4 (Some 2%positive).
Definition the_vma : vm_area_struct :=
  mk_vma 2 0x10000000 0x10002000 xpmem_vm_ops (Some 5%positive) XPMEM_VM_FLAGS false false.
Definition s5 : world :=
  set_vmas (<[9%positive := the_vma]> (vmas s4))
    (set_pgt (<[(2%positive, 0x10000) := 0x500400]> (<[(2%positive, 0x10001) := 0x500401]> (pgt s4)))
      (set_pages {[ 0x500400 := 1; 0x500401 := 1 ]} (link_att 4 5 the_permit the_att s4))).

Lemma Inv_memory T S A B w vs pt ps :
  Inv T S A B w -> Inv T S A B (set_vmas vs (set_pgt pt (set_pages ps w))).
Proof. intros HI. by eapply Inv_same. Qed.

Lemma s5_inv : Inv ∅ ∅ ∅ (∅ ⊎ {[+ 5%positive +]}) s5.
Proof.
  apply Inv_memory, Inv_att_link.
  - apply s4_inv.
  - rewrite s4_aps. apply lookup_singleton_eq.
  - vm_compute. repeat constructor.
  - vm_compute. done.
  - done.
  - done.
Qed.

Lemma s5_atts : atts s5 = {[5%positive := the_att]}.
Proof. vm_compute. reflexivity. Qed.
Lemma s5_segs : segs s5 = {[3%positive := the_seg]}.
Proof. vm_compute. reflexivity. Qed.

Lemma the_att_wf : att_wf s5 the_att.
Proof.
  split.
  - exists 2%positive, 9%positive, the_vma. by split; vm_compute.
  - unfold att_in_space. cbn. lia.
  - by vm_compute.
  - by vm_compute.
Qed.

Lemma s5_wf : AttWf s5.
Proof.
  split; intros t y; rewrite s5_atts; intros [<- <-]%lookup_singleton_Some; [intros _; apply the_att_wf..|].
  intros H. vm_compute in H. discriminate H.
Qed.

Lemma the_seg_wf : seg_wf the_seg.
Proof. by vm_compute. Qed.

Lemma s4_seg_wf : SegWf s4.
Proof. intros s g. rewrite s4_segs. intros [<- <-]%lookup_singleton_Some. apply the_seg_wf. Qed.

Lemma s4_att_wf : AttWf s4.
Proof.
  assert (atts s4 = ∅) as H by (vm_compute; reflexivity).
  split; intros t y E; exfalso; rewrite H, lookup_empty in E; clear H; discriminate E.
Qed.

(** The run does what is expected of it. *)
Example s4_registry :
  live_segs s4 seg_id = Some (mk_seg_info 0x400000 0x2000 0x1b6) /\
  live_aps s4 permit_id = Some (mk_ap_info 3 XPMEM_RDWR).
Proof. by vm_compute. Qed.

(** * The theorems at the states of the run *)

Lemma id_scheme_witness :
  id_ok (mk_id 100 1) /\ id_ok (mk_id 200 1) /\
  s64_to_id (id_to_s64 (mk_id 100 1)) = mk_id 100 1 /\ id_to_s64 (mk_id 100 1) <> id_to_s64 (mk_id 200 1).
Proof.
  assert (id_ok (mk_id 100 1)) as H1 by (vm_compute; done).
  assert (id_ok (mk_id 200 1)) as H2 by (vm_compute; done).
  destruct (id_scheme (mk_id 100 1) (mk_id 200 1) H1 H2) as (_ & E & _ & D).
  split_and!; [done|done|done|]. intros F%D. discriminate F.
Defined.

Lemma make_refines_witness :
  exists r w', xpmem_make user1 0x400000 0x2000 XPMEM_PERMIT_MODE 0x1b6 s2 = Ok r w' /\
    (r, w') = make_spec user1 0x400000 0x2000 XPMEM_PERMIT_MODE 0x1b6 s2 /\ Inv ∅ ∅ ∅ ∅ w'.
Proof. apply xpmem_make_refines; [apply s2_inv|vm_compute; done..]. Defined.

Lemma get_refines_witness :
  exists r w', xpmem_get user2 seg_id XPMEM_RDWR XPMEM_PERMIT_MODE 0 s3 = Ok r w' /\
    r = (get_spec user2 seg_id XPMEM_RDWR XPMEM_PERMIT_MODE 0 s3).1 /\
    w' ≡ (get_spec user2 seg_id XPMEM_RDWR XPMEM_PERMIT_MODE 0 s3).2 /\
    ((get_spec user2 seg_id XPMEM_RDWR XPMEM_PERMIT_MODE 0 s3).2 = s3 -> w' = s3) /\ Inv ∅ ∅ ∅ ∅ w'.
Proof. apply xpmem_get_refines; [apply s3_inv|vm_compute; done..]. Defined.

Lemma open_refines_witness :
  exists r w', xpmem_open user1 s0 = Ok r w' /\ (r, w') = open_spec user1 s0 /\ Inv ∅ ∅ ∅ ∅ w'.
Proof. apply xpmem_open_refines; [apply s0_inv|vm_compute; done..]. Defined.

Lemma open_race_witness :
  exists w1 w2, open_new user1 s0 = Ok 0 w1 /\ open_new user1 w1 = Ok 0 w2 /\
    tgs w2 !! 1%positive = Some (opened_tg user1) /\ tgs w2 !! 2%positive = Some (opened_tg user1).
Proof.
  destruct (open_race user1 s0) as (w1 & w2 & _ & E1 & E2 & _ & _ & _ & H1 & H2); [apply s0_inv|vm_compute; done..|].
  exists w1, w2. split; [exact E1|]. split; [exact E2|]. split; [exact H1|exact H2].
Defined.

Lemma remove_refines_witness :
  exists r w', xpmem_remove user1 seg_id s4 = Ok r w' /\ r = (remove_spec user1 seg_id s4).1 /\
    invalidated (remove_spec user1 seg_id s4).2 w' /\ Inv ∅ ∅ ∅ ∅ w' /\ (r <> 0 -> w' = s4) /\
    (r = 0 -> forall tg s, find_tg s4 (xpmem_segid_to_tgid seg_id) = Some tg -> find_seg s4 tg seg_id = Some s ->
       seg_cleared s s4 w').
Proof. apply xpmem_remove_refines; [vm_compute; done|apply s4_inv|vm_compute; done|apply s4_att_wf|apply s4_seg_wf|vm_compute; done]. Defined.

Lemma make_registers_witness :
  exists r w', xpmem_make user1 0x400000 0x2000 XPMEM_PERMIT_MODE 0x1b6 s2 = Ok r w' /\
    (forall id, live_aps w' id = live_aps s2 id).
Proof.
  destruct (make_registers user1 0x400000 0x2000 XPMEM_PERMIT_MODE 0x1b6 s2) as (r & w' & E & H & _);
    [apply s2_inv|vm_compute; done..|]. exists r, w'. exact (conj E H).
Defined.

Lemma get_registers_witness :
  exists r w', xpmem_get user2 seg_id XPMEM_RDWR XPMEM_PERMIT_MODE 0 s3 = Ok r w' /\
    (forall id, live_segs w' id = live_segs s3 id).
Proof.
  destruct (get_registers user2 seg_id XPMEM_RDWR XPMEM_PERMIT_MODE 0 s3) as (r & w' & E & H & _);
    [apply s3_inv|vm_compute; done..|]. exists r, w'. exact (conj E H).
Defined.

Lemma remove_unregisters_witness :
  exists r w', xpmem_remove user1 seg_id s4 = Ok r w' /\ (forall id, live_aps w' id = live_aps s4 id) /\
    forall id, live_segs w' id = if decide (r = 0) then update (live_segs s4) seg_id None id else live_segs s4 id.
Proof.
  apply remove_unregisters; [vm_compute; done|apply s4_inv|vm_compute; done|apply s4_att_wf|apply s4_seg_wf|vm_compute; done].
Defined.

Lemma tg_ref_by_tgid_witness :
  exists r w', xpmem_tg_ref_by_tgid 100 s4 = Ok r w' /\ w' ≡ s4 /\ held w' = [] /\
    match find_tg s4 100 with
    | Some p => r = inr p /\ Inv (∅ ⊎ {[+ p +]}) ∅ ∅ ∅ w'
    | None => r = inl (- ENOENT) /\ w' = s4
    end.
Proof. apply tg_ref_by_tgid_correct; [apply s4_inv|vm_compute; done|vm_compute; lia|vm_compute; done]. Defined.

Lemma ap_ref_by_apid_witness :
  exists r w', xpmem_ap_ref_by_apid 2 permit_id s4 = Ok r w' /\ w' ≡ s4 /\ held w' = [] /\
    match find_ap s4 2 permit_id with
    | Some p => r = inr p /\ Inv ∅ ∅ (∅ ⊎ {[+ p +]}) ∅ w'
    | None => r = inl (- ENOENT) /\ w' = s4
    end.
Proof.
  destruct (tgs s4 !! 2%positive) as [t|] eqn:E; [|vm_compute in E; discriminate E].
  apply (ap_ref_by_apid_correct ∅ ∅ ∅ ∅ s4 2 t); [apply s4_inv|vm_compute; lia|exact E|vm_compute; done..].
Defined.

(** A process that never opened the device is refused after references were taken. *)
Lemma get_spec_noproc cur id flags ptype pvalue w :
  find_tg w (cur_tgid cur) = None -> (get_spec cur id flags ptype pvalue w).2 = w.
Proof. intros E. unfold get_spec. rewrite E. by repeat case_match. Qed.

Lemma refcounts_determined_witness :
  let w' := run (xpmem_get (simple_task 300 3 3000) seg_id XPMEM_RDWR XPMEM_PERMIT_MODE 0) s4 in
  Inv ∅ ∅ ∅ ∅ w' /\ w' = s4.
Proof.
  intros w'. assert (w' ≡ s4 /\ Inv ∅ ∅ ∅ ∅ w') as [E HI].
  { apply (run_wp _ (fun w' => w' ≡ s4 /\ Inv ∅ ∅ ∅ ∅ w')).
    eapply wp_mono; [apply get_ok; [apply s4_inv|vm_compute; done..]|]. intros r u.
    cbv zeta. rewrite get_spec_noproc by (vm_compute; done). intros (_ & E & HI). exact (conj E HI). }
  split; [exact HI|]. apply (refcounts_determined ∅ ∅ ∅ ∅); [exact HI|apply s4_inv|apply E].
Defined.

Lemma levels : PGDIR_SHIFT <= PAGE_SHIFT + 31.
Proof. vm_compute. done. Qed.
Lemma the_range : page_range 0x10000000 0x2000.
Proof. by split; vm_compute. Qed.

Lemma s5_seg : segs s5 !! 3%positive = Some the_seg.
Proof. rewrite s5_segs. apply lookup_singleton_eq. Qed.

Lemma unpin_pages_witness :
  mapped_pfns (pgt s5) 2 0x10000000 2 = [0x500400; 0x500401] /\
  exists w', xpmem_unpin_pages 3 2 0x10000000 0x2000 s5 = Ok () w' /\
    forall pfn, default 0 (pages w' !! pfn)
      = default 0 (pages s5 !! pfn) - Z.of_nat (length (filter (fun q => q = pfn) [0x500400; 0x500401])).
Proof.
  assert (mapped_pfns (pgt s5) 2 0x10000000 (Z.to_nat (0x2000 / PAGE_SIZE)) = [0x500400; 0x500401]) as El
    by (vm_compute; reflexivity).
  split; [exact El|].
  destruct (tgs s5 !! seg_tg the_seg) as [t|] eqn:Et; [|vm_compute in Et; discriminate Et].
  destruct (part s5) as [pt|] eqn:Ep; [|vm_compute in Ep; discriminate Ep].
  pose proof (unpin_pages_exact 3 2 0x10000000 0x2000 s5 the_seg t pt levels the_range s5_seg Et Ep) as H.
  cbv zeta in H. rewrite El in H. destruct H as (w' & E & _ & H). exists w'. exact (conj E H).
Defined.

Lemma invalidate_window_witness :
  att_in_space the_att /\ invalidate_window the_att 0x401000 0x500000 = Some (0x10001000, 0x1000, 0x1000) /\
  forall a, (0x401000 <= a < 0x402000) <-> (0x400000 <= a < 0x402000 /\ 0x401000 <= a < 0x500000).
Proof.
  assert (att_in_space the_att) as H by (unfold att_in_space; cbn; lia).
  assert (invalidate_window the_att 0x401000 0x500000 = Some (0x10001000, 0x1000, 0x1000)) as E
    by (vm_compute; reflexivity).
  split; [exact H|]. split; [exact E|].
  pose proof (invalidate_window_exact the_att 0x401000 0x500000 H ltac:(lia) ltac:(lia)) as W.
  rewrite E in W. apply W.
Defined.

Lemma the_att_covered : covered the_att (seg_vaddr the_seg) (seg_vaddr the_seg + seg_size the_seg) false.
Proof. by vm_compute. Qed.
Lemma the_att_live : att_live the_att.
Proof. split; [by vm_compute|by eexists]. Qed.
Lemma few_none : few ∅.
Proof. vm_compute. lia. Qed.
Lemma few_one p : few (∅ ⊎ {[+ p +]}).
Proof. unfold few. rewrite gmultiset_size_disj_union, gmultiset_size_empty, gmultiset_size_singleton. lia. Qed.

Lemma clear_PTEs_witness :
  exists w', xpmem_clear_PTEs 3 s5 = Ok () w' /\ invalidated_by (page_of_seg the_seg) s5 w' /\
    forall y', atts w' !! 5%positive = Some y' -> valid_PTEs y' = false /\ mapped_pfn (pgt w') 2 0x10001000 = None.
Proof.
  assert (aps s5 !! 4%positive = Some (set_ap_att_list [5%positive] the_permit)) as Ea by (vm_compute; reflexivity).
  destruct (clear_PTEs_complete levels ∅ ∅ ∅ (∅ ⊎ {[+ 5%positive +]}) s5 3 the_seg) as (w' & E & HI & _ & _ & H);
    [apply s5_inv|apply few_none|apply few_one|apply s5_wf|apply the_seg_wf|vm_compute; constructor|apply s5_seg|].
  exists w'. split; [exact E|]. split; [exact HI|]. intros y' Ey.
  destruct (H 4%positive _ 5%positive the_att y' ltac:(vm_compute; constructor) Ea ltac:(vm_compute; constructor)
    ltac:(rewrite s5_atts; apply lookup_singleton_eq) Ey) as [Hv Hh].
  split; [exact (Hv the_att_covered)|]. clear Hv. specialize (Hh the_att_live 2%positive 0x401000 eq_refl).
  change (at_vaddr the_att + (0x401000 - att_vaddr the_att)) with 0x10001000 in Hh. apply Hh; clear; vm_compute; done.
Defined.

(** * Page faults *)

(** The permit attached at [a], nothing faulted in yet; the second process is about to fault. *)
Definition att_at (a n : Z) : xpmem_attachment := mk_att 0x400000 a 0x2000 (Some 9%positive) 0 n 4 (Some 2%positive).
Definition vma_at (a : Z) : vm_area_struct :=
  mk_vma 2 a (a + 0x2000) xpmem_vm_ops (Some 5%positive) XPMEM_VM_FLAGS false false.
Definition linked_at (a : Z) : world :=
  set_vmas (<[9%positive := vma_at a]> (vmas s4)) (set_pgt (pgt s4) (set_pages (pages s4) (link_att 4 5 the_permit (att_at a 2) s4))).
Definition attached_at (a : Z) : world := set_held [MmapLock 2] (run (xpmem_att_deref 5) (linked_at a)).

Lemma linked_at_inv a : Inv ∅ ∅ ∅ (∅ ⊎ {[+ 5%positive +]}) (linked_at a).
Proof.
  apply Inv_memory, Inv_att_link.
  - apply s4_inv.
  - rewrite s4_aps. apply lookup_singleton_eq.
  - vm_compute. repeat constructor.
  - vm_compute. done.
  - done.
  - done.
Qed.

Lemma att_deref_inv L w t y :
  Inv ∅ ∅ ∅ (∅ ⊎ {[+ t +]}) w -> atts w !! t = Some y -> Inv ∅ ∅ ∅ ∅ (set_held L (run (xpmem_att_deref t) w)).
Proof.
  intros HI E. eapply (Inv_same _ _ _ _ (run (xpmem_att_deref t) w)); [|done..].
  apply (run_wp (xpmem_att_deref t) (Inv ∅ ∅ ∅ ∅)). eapply wp_mono; [by eapply wp_att_deref|]. by intros _ w' [H _].
Qed.

Lemma attached_at_inv a : Inv ∅ ∅ ∅ ∅ (attached_at a).
Proof. exact (att_deref_inv [MmapLock 2] (linked_at a) 5 (att_at a 2) (linked_at_inv a) (lookup_insert_eq _ _ _)). Qed.

Definition att_permit : xpmem_access_permit := set_ap_att_list [5%positive] the_permit.
Definition tg_of (p : positive) : xpmem_thread_group :=
  default (mk_tg 0 0 0 0 0 0 [] 0 0 0 None None 0 0 false false []) (tgs s4 !! p).

Lemma attached_chain a : chain (attached_at a) 5 (att_at a 1) att_permit (tg_of 2) the_seg (tg_of 1).
Proof.
  split; [vm_compute; reflexivity|vm_compute; repeat constructor|].
  split; [vm_compute; reflexivity..|vm_compute; repeat constructor|vm_compute; repeat constructor|vm_compute; repeat constructor].
Qed.

(** Nothing of the second process is mapped where only the first has a page. *)
Lemma other_mm_unmapped (k v pfn : Z) :
  mapped_pfn (K := SimpleKernel) (∅ : simple_pt) 2 v = None /\
  mapped_pfn (K := SimpleKernel) (<[(1%positive, k) := pfn]> (∅ : simple_pt)) 2 v = None.
Proof.
  unfold mapped_pfn, walk_pte_size. cbn. split; [by rewrite lookup_empty|].
  rewrite lookup_insert_ne by congruence. by rewrite lookup_empty.
Qed.

Lemma attached_pages a pg :
  pg = pgt (attached_at a) \/ pg = (get_user_pages_remote (pgt (attached_at a)) 1 (fault_addr (att_at a 1) a)).2 ->
  base_page pg 2 a /\ forall pfn, mapped_pfn pg 2 a = Some pfn -> 0 <= pfn < 2 ^ 64.
Proof.
  assert (pgt (attached_at a) = ∅) as E by (vm_compute; reflexivity). rewrite E. clear E.
  intros H. split; [by split|]. intros pfn. generalize (fault_addr (att_at a 1) a), H. clear H. intros z [-> | ->].
  - intros H. discriminate (eq_trans (eq_sym (proj1 (other_mm_unmapped 0 a 0))) H).
  - intros H. discriminate (eq_trans (eq_sym (proj2 (other_mm_unmapped (z / 4096) a _))) H).
Qed.

Lemma attached_pre a :
  fault_pre user2 2 9 (vma_at a) 5 (att_at a 1) att_permit (tg_of 2) the_seg (tg_of 1) 1 a (attached_at a).
Proof.
  split.
  - apply attached_at_inv.
  - vm_compute. done.
  - vm_compute. reflexivity.
  - reflexivity.
  - vm_compute. reflexivity.
  - reflexivity.
  - apply attached_chain.
  - vm_compute. reflexivity.
  - reflexivity.
  - vm_compute. reflexivity.
  - split; [split; vm_compute; done|vm_compute; reflexivity].
  - vm_compute. discriminate.
  - apply attached_pages.
Qed.

Lemma thp : CONFIG_TRANSPARENT_HUGEPAGE = true.
Proof. reflexivity. Qed.

Definition attached_spec : Z * world :=
  fault_spec user2 2 (vma_at 0x10000000) 5 (att_at 0x10000000 1) att_permit (tg_of 2) the_seg (tg_of 1) 1 0x10000000
    (attached_at 0x10000000).

Lemma attached_nopage : attached_spec.1 = VM_FAULT_NOPAGE.
Proof. vm_compute. reflexivity. Qed.


Lemma attached_fault : exists w', xpmem_fault_handler user2 9 0x10000000 (attached_at 0x10000000) = Ok VM_FAULT_NOPAGE w'.
Proof.
  destruct (wp_inv _ _ _ (fault_handler_ok thp user2 2 9 _ 5 _ _ _ _ _ 1 0x10000000 _ (attached_pre 0x10000000))) as (r & w' & E & Er & _).
  exists w'. rewrite E. f_equal. rewrite Er. exact attached_nopage.
Qed.

Lemma fault_maps_witness :
  exists w' pfn, xpmem_fault_handler user2 9 0x10000000 (attached_at 0x10000000) = Ok VM_FAULT_NOPAGE w' /\
    mapped_pfn (pgt w') 2 0x10000000 = Some pfn /\ mapped_pfn (pgt w') 1 0x400000 = Some pfn.
Proof.
  destruct attached_fault as [w' E]. exists w'.
  destruct (fault_maps_source_page thp user2 2 9 _ 5 _ _ _ _ _ 1 0x10000000 _ w' (attached_pre 0x10000000) eq_refl E)
    as (pfn & H1 & H2 & _). exists pfn. split; [exact E|]. split; [exact H1|exact H2].
Defined.

(** At 0x700000000000 the concrete kernel has no memory for page tables. *)
Lemma fault_remap_failure_witness :
  exists w', xpmem_fault_handler user2 9 0x700000000000 (attached_at 0x700000000000) = Ok VM_FAULT_SIGBUS w' /\
    page_count w' 0x100400 = page_count (attached_at 0x700000000000) 0x100400 + 1.
Proof.
  set (pg := (get_user_pages_remote (pgt (attached_at 0x700000000000)) 1 0x400000).2).
  destruct (fault_remap_failure_keeps_pin thp user2 2 9 _ 5 _ _ _ _ _ 1 0x700000000000 _ (- ENOMEM) 0x100400
    pg pg (attached_pre 0x700000000000)) as (w' & E & _ & H);
    [reflexivity|reflexivity|reflexivity|vm_compute; reflexivity|vm_compute; reflexivity|vm_compute; by eexists
    |vm_compute; reflexivity|discriminate|reflexivity|vm_compute; reflexivity|vm_compute; reflexivity|discriminate|].
  exists w'. split; [exact E|]. rewrite H. reflexivity.
Defined.

(** * Access checks *)

(** The segment again, with mode 0644: others may read and not write it. *)
Definition ro_seg : xpmem_segment := mk_seg seg_id 0x400000 0x2000 XPMEM_PERMIT_MODE 0x1a4 0 2 1 [4%positive].
(** A permit for it of the second process, obtained with these flags. *)
Definition permit_with (flags : Z) : xpmem_access_permit := mk_ap permit_id flags 0 1 3 2 [].
Definition tg1 : xpmem_thread_group := mk_tg 100 1000 1000 0 1 0 [3%positive] 2 0 TASK_SIZE (Some 1%positive) (Some 1%positive) 0 0 true false (replicate 8 []).
Definition tg2 : xpmem_thread_group := mk_tg 200 2000 2000 0 0 1 [] 2 0 TASK_SIZE (Some 2%positive) (Some 2%positive) 0 0 true false (replicate 8 []).
Definition sharing (flags : Z) : world :=
  set_tgs {[1%positive := tg1; 2%positive := tg2]}
    (set_segs {[3%positive := ro_seg]} (set_aps {[4%positive := permit_with flags]} simple_world)).

Lemma sharing_objects flags : access_objects (sharing flags) 4 (permit_with flags) tg2 ro_seg.
Proof. split; [apply lookup_singleton_eq|by vm_compute|apply lookup_singleton_eq]. Qed.

Lemma validate_access_witness :
  exists r, xpmem_validate_access user2 4 0x1000 0x1000 XPMEM_RDWR (sharing XPMEM_RDWR) = Ok r (sharing XPMEM_RDWR) /\
    match r with inr v => v = 0x401000 | inl _ => False end.
Proof.
  destruct (validate_access_exact user2 4 0x1000 0x1000 XPMEM_RDWR (sharing XPMEM_RDWR) (permit_with XPMEM_RDWR) tg2 ro_seg)
    as (r & E & H); [apply sharing_objects|vm_compute; done..|].
  exists r. split; [exact E|]. cbv zeta in H. destruct r as [e|v].
  - destruct H as [(_ & H)|(_ & _ & H)]; apply H; vm_compute; done.
  - apply H.
Defined.

Lemma readonly_permit_witness :
  attach_locked user2 4 1 0 0x1000 0 (sharing XPMEM_RDONLY) = Ok (inl (- EACCES)) (sharing XPMEM_RDONLY).
Proof.
  apply (readonly_permit_never_attaches user2 4 1 0 0x1000 0 (sharing XPMEM_RDONLY) (permit_with XPMEM_RDONLY) tg2 ro_seg);
    [apply sharing_objects|vm_compute; done].
Defined.

(** The first process shares the pages with mode 0644. *)
Definition shared_ro : world := run (xpmem_make user1 0x400000 0x2000 XPMEM_PERMIT_MODE 0x1a4) s2.
Definition shared_seg : xpmem_segment := mk_seg seg_id 0x400000 0x2000 XPMEM_PERMIT_MODE 0x1a4 0 1 1 [].

Lemma shared_ro_inv : Inv ∅ ∅ ∅ ∅ shared_ro.
Proof.
  apply (run_wp (xpmem_make _ _ _ _ _) (Inv ∅ ∅ ∅ ∅)). eapply wp_mono; [apply make_ok; [apply s2_inv|vm_compute; done..]|]. by intros r w' [_ ?].
Qed.

Lemma shared_ro_ready : exists st, get_ready shared_ro user2 seg_id st 3 shared_seg 2 /\ tg_uid st = 1000 /\ tg_gid st = 1000.
Proof.
  destruct (tgs shared_ro !! 1%positive) as [st|] eqn:Et; [|vm_compute in Et; discriminate Et]. exists st. split; [split|].
  - exists 1%positive. rewrite Et. split_and!; vm_compute; reflexivity.
  - vm_compute; reflexivity.
  - intros t. vm_compute. intros [= <-]. discriminate.
  - vm_compute; reflexivity.
  - vm_compute in Et. injection Et as <-. split; vm_compute; reflexivity.
Qed.

Lemma zero_flags_witness :
  xpmem_get user2 seg_id XPMEM_RDWR XPMEM_PERMIT_MODE 0 shared_ro = Ok (inl (- EACCES)) shared_ro /\
  exists nid w' ap x, xpmem_get user2 seg_id 0 XPMEM_PERMIT_MODE 0 shared_ro = Ok (inr nid) w' /\
    aps w' !! ap = Some x /\ apid x = nid /\
    forall offset size, 0 <= offset -> 0 < size -> offset + size <= seg_size shared_seg < 2 ^ 64 ->
      xpmem_validate_access user2 ap offset size XPMEM_RDWR w' = Ok (inr (u64 (seg_vaddr shared_seg + offset))) w'.
Proof.
  destruct shared_ro_ready as (st & HR & Hu & Hg).
  apply (zero_flags_gain_write user2 seg_id shared_ro st 3 shared_seg 2);
    [apply shared_ro_inv|vm_compute; done|vm_compute; done|vm_compute; done|exact HR|vm_compute; done|..];
    rewrite Hu, Hg; vm_compute; reflexivity.
Defined.

Lemma s2_limit :
  exists tg t, find_tg s2 (cur_tgid user1) = Some tg /\ tgs s2 !! tg = Some t /\ addr_limit t = TASK_SIZE /\ uniq_segid t = 0.
Proof.
  destruct (tgs s2 !! 1%positive) as [t|] eqn:Et; [|vm_compute in Et; discriminate Et].
  exists 1%positive, t. split; [vm_compute; reflexivity|]. split; [exact Et|]. vm_compute in Et. injection Et as <-. split; vm_compute; reflexivity.
Qed.

(** Refused at 0x1000, accepted above the limit with a size that wraps around. *)
Lemma maxaddr_witness :
  (exists r w', xpmem_make user1 0x1000 XPMEM_MAXADDR_SIZE XPMEM_PERMIT_MODE 0x1b6 s2 = Ok r w' /\ r = inl (- EINVAL)) /\
  exists w' s g, xpmem_make user1 0x800000000000 XPMEM_MAXADDR_SIZE XPMEM_PERMIT_MODE 0x1b6 s2 = Ok (inr (segid g)) w' /\
    segs w' !! s = Some g /\ seg_size g = 2 ^ 64 - 0x1000.
Proof.
  destruct s2_limit as (tg & t & Ef & Et & El & Eu). split.
  - destruct (maxaddr_exact user1 0x1000 0x1b6 s2 tg t) as (r & w' & E & H & _);
      [apply s2_inv|clear; vm_compute; done|clear; vm_compute; done|exact Ef|exact Et|clear; vm_compute; done|rewrite Eu; clear; vm_compute; done
      |clear; vm_compute; done|clear; vm_compute; done|rewrite El; clear; vm_compute; done|clear; vm_compute; done|rewrite El; clear; vm_compute; done|].
    exists r, w'. split; [exact E|]. apply H. rewrite El. clear. vm_compute. done.
  - destruct (maxaddr_exact user1 0x800000000000 0x1b6 s2 tg t) as (r & w' & E & _ & H);
      [apply s2_inv|clear; vm_compute; done|clear; vm_compute; done|exact Ef|exact Et|clear; vm_compute; done|rewrite Eu; clear; vm_compute; done
      |clear; vm_compute; done|clear; vm_compute; done|rewrite El; clear; vm_compute; done|clear; vm_compute; done|rewrite El; clear; vm_compute; done|].
    destruct H as (id & s & g & Er & Es & Eid & _ & Esz); [rewrite El; clear; vm_compute; intros [_ H]; by apply H|].
    exists w', s, g. split; [rewrite E, Er, Eid; reflexivity|]. split; [exact Es|]. rewrite Esz, El. clear. vm_compute. reflexivity.
Defined.


(** * The recall counter *)

Lemma recall_exclusion_witness :
  reachable asleep /\ n_recall asleep = Z.of_nat (recallers asleep) - Z.of_nat (blockers asleep).
Proof.
  split; [apply asleep_reachable|]. apply (recall_mutual_exclusion asleep). apply asleep_reachable.
Defined.

Lemma recall_wakeup_witness :
  (exists j q s', pcs asleep !! j = Some q /\
    (B_asleep = B_asleep -> q = R_in \/ q = R_wake) /\ (B_asleep = R_asleep -> q = B_in \/ q = B_wake) /\
    step_of j asleep q s') \/
  (B_asleep = R_asleep /\ (0 < 0)%nat /\ n_recall asleep < 0 /\ blockers asleep = 0%nat).
Proof.
  apply (recall_no_lost_wakeup 0 asleep 2); [apply reachable_run, asleep_reachable|reflexivity|left; reflexivity].
Defined.
