(* ===== verification/AttScenario.v ===== *)
(** The theorems on detaching at a concrete state: process 200 has attached the
    two pages that process 100 shares, both are mapped. *)

From S2P Require Import Prelude Kernel World Monad Ids Misc Pfn Attach Make Get Recall Notifier Main.
From S2P Require Import Simple Inv Graph Link Refs Lookup MakeSpec PfnSpec Invalidated ClearSpec Chain PinSpec FaultSpec.
From S2P Require Import DetachSpec RemoveSpec Registry ReleaseSpec MapSpec AttachSpec NotifierSpec SimpleLaws Scenario.

(** [xpmem_attach] has dropped its reference. *)
Definition s6 : world := set_held [] (run (xpmem_att_deref 5) s5).

Definition att6 : xpmem_attachment := set_att_refcnt 1 the_att.

Lemma s6_inv : Inv ∅ ∅ ∅ ∅ s6.
Proof.
  apply (att_deref_inv [] s5 5 the_att s5_inv). rewrite s5_atts. apply lookup_singleton_eq.
Qed.

Lemma s6_atts : atts s6 = {[5%positive := att6]}.
Proof. vm_compute. reflexivity. Qed.

Lemma s6_vmas : vmas s6 = <[9%positive := the_vma]> (<[1%positive := own_vma 1]> {[2%positive := own_vma 2]}).
Proof. vm_compute. reflexivity. Qed.

Lemma s6_vma v vma : vmas s6 !! v = Some vma ->
  (v = 9%positive /\ vma = the_vma) \/ (v = 1%positive /\ vma = own_vma 1) \/ (v = 2%positive /\ vma = own_vma 2).
Proof.
  rewrite s6_vmas. intros [[<- <-]|[_ [[<- <-]|[_ [<- <-]%lookup_singleton_Some]]%lookup_insert_Some]]%lookup_insert_Some; auto.
Qed.

Lemma s6_apart : vmas_apart (vmas s6).
Proof.
  rewrite s6_vmas. apply (apart_insert 2 (vm_start the_vma) (vm_end the_vma - vm_start the_vma)); [apply own_vmas_apart| |done|done].
  intros q z [[_ <-]|[_ [_ <-]%lookup_singleton_Some]]%lookup_insert_Some ([Hm _] & H1 & H2); cbn in *; [done|lia].
Qed.

Lemma s6_shown : shown_by s6 att6 2 9 the_vma.
Proof. by split; vm_compute. Qed.

Lemma s6_attached : attached s6 5 att6 2 9 the_vma.
Proof.
  split.
  - apply s6_shown.
  - split; [exists 2%positive, 9%positive, the_vma; apply s6_shown|unfold att_in_space; cbn; lia|by vm_compute|by vm_compute].
  - split; [by vm_compute|]. split; [done|]. split; [done|].
    intros v vma [[-> _]|[[_ ->]|[_ ->]]]%s6_vma; cbn; intros; lia || done.
  - reflexivity.
  - reflexivity.
  - by vm_compute.
Qed.

Lemma s6_ptes : PtesInVmas s6.
Proof.
  assert (pgt s6 = {[(2%positive, 0x10000) := 0x500400; (2%positive, 0x10001) := 0x500401]}) as E by (vm_compute; reflexivity).
  assert (vmas s6 !! 9%positive = Some the_vma) as Ev by (vm_compute; reflexivity).
  intros mm a. rewrite E. clear E. unfold mapped_pfn, walk_pte_size. cbn [pgd_present p4d_present pud_present pmd_present pte_at SimpleKernel negb].
  intros Hs. assert (mm = 2%positive /\ (a / 4096 = 0x10000 \/ a / 4096 = 0x10001)) as [-> Ha].
  { destruct (decide ((2%positive, 0x10000) = (mm, a / 4096))) as [[= <- <-]|N1]; [auto|].
    destruct (decide ((2%positive, 0x10001) = (mm, a / 4096))) as [[= <- <-]|N2]; [auto|].
    change (@pgtable SimpleKernel) with simple_pt in Hs. rewrite lookup_insert_ne, lookup_singleton_ne in Hs by done. by destruct Hs. }
  exists 9%positive, the_vma. split; [exact Ev|]. split; [reflexivity|]. split; [reflexivity|].
  pose proof (Z.mul_div_le a 4096). pose proof (Z.mul_succ_div_gt a 4096). cbn. clear Ev Hs. lia.
Qed.

Lemma s6_vma_wf : VmaWf s6.
Proof.
  split.
  - apply s6_ptes.
  - intros t y. rewrite s6_atts. intros [<- <-]%lookup_singleton_Some. split; [by vm_compute|].
    exists 2%positive, 9%positive, the_vma. apply s6_attached.
  - intros v vma t [[-> ->]|[[_ ->]|[_ ->]]]%s6_vma; try discriminate. intros _ [= <-].
    exists att6. split; [|reflexivity]. rewrite s6_atts. apply lookup_singleton_eq.
  - apply s6_apart.
Qed.

Lemma s6_att_wf : AttWf s6.
Proof.
  split; intros t y; rewrite s6_atts; intros [<- <-]%lookup_singleton_Some.
  - intros _. apply s6_attached.
  - intros _. apply s6_attached.
  - intros H. vm_compute in H. discriminate H.
Qed.

Lemma detach_refines_witness :
  exists r w', xpmem_detach user2 0x10001000 s6 = Ok r w' /\ r = 0 /\ Inv ∅ ∅ ∅ ∅ w'.
Proof.
  assert (PGDIR_SHIFT <= PAGE_SHIFT + 31) as HG by (vm_compute; done).
  destruct (xpmem_detach_refines HG user2 2 0x10001000 s6) as (r & w' & E & Hr & _ & _ & HI & _);
    [apply s6_inv|apply s6_vma_wf|apply s6_att_wf|reflexivity|reflexivity|].
  exists r, w'. split; [exact E|]. split; [|exact HI]. rewrite Hr. vm_compute. reflexivity.
Defined.

Definition permit6 : xpmem_access_permit := set_ap_att_list [5%positive] the_permit.

Lemma s6_chain : chain s6 5 att6 permit6 (tg_of 2) the_seg (tg_of 1).
Proof.
  split; [vm_compute; reflexivity|vm_compute; repeat constructor|].
  split; [vm_compute; reflexivity..|vm_compute; repeat constructor|vm_compute; repeat constructor|vm_compute; repeat constructor].
Qed.

Lemma detach_releases_witness :
  exists w', xpmem_detach user2 0x10001000 s6 = Ok 0 w' /\ atts w' !! 5%positive = None /\
    default 0 (pages w' !! 0x500400) = 0 /\ default 0 (pages w' !! 0x500401) = 0.
Proof.
  assert (PGDIR_SHIFT <= PAGE_SHIFT + 31) as HG by (vm_compute; done).
  destruct (detach_releases_pages HG user2 2 0x10001000 9 the_vma 5 att6 permit6 (tg_of 2) the_seg (tg_of 1) s6)
    as (w' & E & _ & Hp & Ha & _); [apply s6_inv|apply s6_vma_wf|apply s6_att_wf|reflexivity|reflexivity|apply s6_chain
    |apply s6_attached|vm_compute; reflexivity|cbn; lia|reflexivity|vm_compute; reflexivity|].
  exists w'. split; [exact E|]. split; [exact Ha|].
  split; [apply (eq_trans (Hp 0x500400))|apply (eq_trans (Hp 0x500401))]; vm_compute; reflexivity.
Defined.

Lemma s6_own a : own_atts user2 a s6.
Proof. intros t y. rewrite s6_atts. intros [<- <-]%lookup_singleton_Some _. left. reflexivity. Qed.

Lemma s6_fuel a : (length (list_of ap_att_list (aps s6) a) <= 1)%nat.
Proof.
  assert (aps s6 = {[4%positive := permit6]}) as E by (vm_compute; reflexivity). rewrite E. unfold list_of.
  destruct (decide (a = 4%positive)) as [->|Hne]; [rewrite lookup_singleton_eq; reflexivity|].
  rewrite lookup_singleton_ne by congruence. cbn. lia.
Qed.

Lemma release_witness :
  exists r w', xpmem_release 1 user2 permit_id s6 = Ok r w' /\ r = release_result user2 permit_id s6 /\
    Inv ∅ ∅ ∅ ∅ w' /\
    (forall id, live_aps w' id = if decide (r = 0) then update (live_aps s6) permit_id None id else live_aps s6 id).
Proof.
  assert (PGDIR_SHIFT <= PAGE_SHIFT + 31) as HG by (vm_compute; done).
  destruct (release_unregisters HG user2 1 permit_id s6) as (r & w' & E & Hr & HI & _ & _ & _ & _ & _ & H & _);
    [apply s6_inv|vm_compute; done|apply s6_vma_wf|apply s6_att_wf|reflexivity
    |intros a _ _; split; [apply s6_own|apply s6_fuel]|].
  exists r, w'. exact (conj E (conj Hr (conj HI H))).
Defined.

Example release_succeeds : release_result user2 permit_id s6 = 0.
Proof. vm_compute. reflexivity. Qed.

(** * Attaching the permit: nothing is mapped yet *)

Lemma s4_ptes : PtesInVmas s4.
Proof.
  intros mm a. assert (pgt s4 = ∅) as -> by (vm_compute; reflexivity). unfold mapped_pfn, walk_pte_size. cbn.
  rewrite lookup_empty. cbn. intros [? [=]].
Qed.

Lemma s4_vma_wf : VmaWf s4.
Proof.
  assert (atts s4 = ∅) as H by (vm_compute; reflexivity). split.
  - apply s4_ptes.
  - intros t y E. exfalso. rewrite H, lookup_empty in E. clear H. discriminate E.
  - assert (vmas s4 = <[1%positive := own_vma 1]> {[2%positive := own_vma 2]}) as Ev by (vm_compute; reflexivity).
    intros v vma t. rewrite Ev. intros [[_ <-]|[_ [_ <-]%lookup_singleton_Some]]%lookup_insert_Some;
      clear; intros Ho; discriminate Ho.
  - assert (vmas s4 = <[1%positive := own_vma 1]> {[2%positive := own_vma 2]}) as -> by (vm_compute; reflexivity). apply own_vmas_apart.
Qed.

Lemma s4_counters : counters_ok s4.
Proof.
  assert (forall t, tgs s4 !! 1%positive = Some t -> tg_n_pinned t = 0) as H1 by (vm_compute; intros t [= <-]; reflexivity).
  assert (forall t, tgs s4 !! 2%positive = Some t -> tg_n_pinned t = 0) as H2 by (vm_compute; intros t [= <-]; reflexivity).
  assert (dom (tgs s4) = {[1%positive; 2%positive]}) as Hd by (vm_compute; reflexivity). split.
  - intros q t E. assert (q ∈ dom (tgs s4)) as Hq by (by apply elem_of_dom_2 in E). rewrite Hd in Hq.
    apply elem_of_union in Hq as [->%elem_of_singleton | ->%elem_of_singleton]; [rewrite (H1 t E)|rewrite (H2 t E)]; clear; lia.
  - intros pt E. assert (part_n_unpinned <$> part s4 = Some 0) as H by (vm_compute; reflexivity).
    rewrite E in H. cbn in H. injection H as ->. clear. lia.
Qed.

Lemma attach_refines_witness :
  exists r w', xpmem_attach user2 permit_id 0x1000 0x800 0x500000 s4 = Ok r w' /\ r = inr 0x500000 /\ Inv ∅ ∅ ∅ ∅ w' /\ VmaWf w'.
Proof.
  destruct (xpmem_attach_refines user2 2 permit_id 0x1000 0x800 0x500000 s4) as (r & w' & E & Hr & _ & _ & HI & HV & _);
    [apply s4_inv|vm_compute; done|apply s4_vma_wf|apply s4_att_wf|apply s4_seg_wf|reflexivity|reflexivity
    |lia|lia|vm_compute; reflexivity|lia|].
  exists r, w'. split; [exact E|]. split; [|exact (conj HI HV)]. rewrite Hr. vm_compute. reflexivity.
Defined.

Lemma attach_detach_witness :
  exists w1 w2, xpmem_attach user2 permit_id 0 0x2000 0 s4 = Ok (inr 0x404000) w1 /\
    xpmem_detach user2 0x404000 w1 = Ok 0 w2 /\ atts w2 = ∅.
Proof.
  assert (PGDIR_SHIFT <= PAGE_SHIFT + 31) as HG by (vm_compute; done).
  destruct (attach_detach_roundtrip HG user2 2 permit_id 0 0x2000 0 0x404000 s4) as (w1 & w2 & E1 & E2 & ->);
    [apply s4_inv|vm_compute; done|apply s4_vma_wf|apply s4_att_wf|apply s4_seg_wf|apply s4_counters
    |reflexivity|reflexivity|reflexivity|lia|lia|vm_compute; reflexivity|lia|intros Hn; by destruct Hn|vm_compute; reflexivity|].
  exists w1. eexists. split; [exact E1|]. split; [exact E2|]. vm_compute. reflexivity.
Defined.

(** * The first page of the source goes away *)

Lemma s6_shared : shared_att s6 (tg_of 1) 5 att6.
Proof.
  split; [|vm_compute; reflexivity|split; [vm_compute; reflexivity|by eexists]].
  exists 3%positive, the_seg, 4%positive, permit6. split; [vm_compute; repeat constructor|].
  split; [vm_compute; reflexivity|]. split; [vm_compute; repeat constructor|]. split; [vm_compute; reflexivity|].
  split; [vm_compute; repeat constructor|]. split; [vm_compute; reflexivity|]. split; [apply the_seg_wf|]. split; cbn; lia.
Qed.

Lemma own_span mm : page_span (vm_start (own_vma mm)) (vm_end (own_vma mm)).
Proof. by vm_compute. Qed.

Lemma invalidate_range_witness :
  exists w', xpmem_invalidate_range user1 1 1 0x400800 0x400801 s6 = Ok () w' /\ Inv ∅ ∅ ∅ ∅ w' /\
    mapped_pfn (pgt s6) 2 0x10000800 = Some 0x500400 /\ mapped_pfn (pgt w') 2 0x10000800 = None.
Proof.
  assert (PGDIR_SHIFT <= PAGE_SHIFT + 31) as HG by (vm_compute; done).
  assert (find_vma_intersection (vmas s6) 1 (page_round_down 0x400800) (page_round_up 0x400801) = Some 1%positive) as Ef
    by (vm_compute; reflexivity).
  assert (vmas s6 !! 1%positive = Some (own_vma 1)) as Ev by (vm_compute; reflexivity).
  destruct (invalidate_range_hides HG ∅ ∅ ∅ ∅ s6 user1 1 (tg_of 1) 1 0x400800 0x400801 [1%positive])
    as (w' & E & _ & HI & _ & H);
    [apply s6_inv|vm_compute; done|tokens|tokens|tokens|apply s6_att_wf|apply Forall_nil_2|vm_compute; reflexivity|lia
    |by vm_compute| |apply NoDup_singleton|].
  { rewrite Ef. split; [reflexivity|]. split; [|vm_compute; exact I]. exists (own_vma 1). split; [exact Ev|].
    split; [vm_compute; reflexivity|]. exact (own_span 1). }
  exists w'. split; [exact E|]. split; [exact HI|]. split; [vm_compute; reflexivity|].
  rewrite (Z.eqb_refl 100 : (tg_tgid (tg_of 1) =? cur_tgid user1) = true) in H.
  apply (H 5%positive att6 s6_shared 2%positive 0x400800); [right|reflexivity|lia|cbn; lia].
  exists 1%positive, (own_vma 1). split; [apply list_elem_of_here|]. split; [exact Ev|]. split; [discriminate|cbn; lia].
Defined.
