(* ===== verification/SystemScenario.v ===== *)
(** A run of the whole module on the concrete kernel of Simple: two processes open the
    device, share, get, attach and touch a page; then the first one exits. *)

From S2P Require Import Prelude Kernel World Monad Ids Misc Pfn Attach Fault Make Get Recall Notifier Main Simple.
From S2P Require Import Inv Graph Link Refs Lookup MakeSpec PfnSpec Invalidated ClearSpec Chain PinSpec FaultSpec DetachSpec CloseSpec FaultWf RecallSpec.
From S2P Require Import RemoveSpec Registry ReleaseSpec AttachSpec NotifierSpec Keeps Wf Teardown Flush System SimpleLaws Scenario.

(** Process 100 runs in address space 1, process 200 in address space 2. *)
Definition mm_of (tgid : Z) : positive := if tgid =? 100 then 1%positive else 2%positive.

Abbreviation play cur e w := (run (enter 4 cur e) w).

Definition c1 : world := play user1 EnterOpen s0.
Definition c2 : world := play user2 EnterOpen c1.
Definition c3 : world := play user1 (EnterIoctl false false (XPMEM_CMD_MAKE 0x400000 0x2000 XPMEM_PERMIT_MODE 0x1b6)) c2.
Definition c4 : world := play user2 (EnterIoctl false false (XPMEM_CMD_GET seg_id XPMEM_RDWR XPMEM_PERMIT_MODE 0)) c3.
Definition c5 : world := play user2 (EnterIoctl false false (XPMEM_CMD_ATTACH permit_id 0 0x2000 0)) c4.
(** A page fault in the middle of the first page that is attached. *)
Definition c6 : world := play user2 (EnterFault 2 3 0x404800) c5.

Definition returned {V} (o : outcome world V) : bool := match o with Ok _ _ => true | Fault _ => false end.

Lemma run_returned (m : M unit) w : returned (m w) = true -> m w = Ok () (run m w).
Proof. unfold run. destruct (m w) as [[] w'|]; [done|discriminate]. Qed.

Lemma run_is (m : M unit) w w' : m w = Ok () w' -> run m w = w'.
Proof. unfold run. by intros ->. Qed.

Lemma step_run cur e w :
  room_left 4 w -> admissible mm_of 4 cur e w -> returned (enter 4 cur e w) = true -> step mm_of w (play cur e w).
Proof. intros Hr Ha E. apply (step_enter mm_of w _ 4 cur e Hr Ha). by apply run_returned. Qed.

Lemma user1_ok : task_ok mm_of user1.
Proof. split; [cbn; lia|reflexivity|reflexivity]. Qed.
Lemma user2_ok : task_ok mm_of user2.
Proof. split; [cbn; lia|reflexivity|reflexivity]. Qed.

Lemma HG1 : PGDIR_SHIFT <= PAGE_SHIFT + 31.
Proof. by vm_compute. Qed.

Lemma s0_loaded : loaded s0.
Proof.
  split; try reflexivity.
  - unfold s0, simple_world. cbn [vmas]. clear.
    intros v vma [[_ <-]|[_ [[_ <-]|[_ E]]%lookup_insert_Some]]%lookup_insert_Some; [discriminate..|]. by rewrite lookup_empty in E.
  - intros mm a. assert (pgt s0 = ∅) as -> by (vm_compute; reflexivity). unfold mapped_pfn, walk_pte_size. cbn.
    rewrite lookup_empty. cbn. intros [? [=]].
  - assert (vmas s0 = <[1%positive := own_vma 1]> {[2%positive := own_vma 2]}) as -> by (vm_compute; reflexivity). apply own_vmas_apart.
Qed.

Ltac room := split; [vm_compute; reflexivity|vm_compute; lia].

Lemma c3_reached : rtc (step mm_of) s0 c3.
Proof.
  apply (rtc_l _ _ c1); [apply step_run; [room|apply user1_ok|vm_compute; reflexivity]|].
  apply (rtc_l _ _ c2); [apply step_run; [room|apply user2_ok|vm_compute; reflexivity]|].
  apply (rtc_l _ _ c3); [apply step_run; [room|split; [apply user1_ok|cbn; clear; lia]|vm_compute; reflexivity]|apply rtc_refl].
Qed.

Lemma c5_reached : rtc (step mm_of) s0 c5.
Proof.
  transitivity c3; [exact c3_reached|].
  apply (rtc_l _ _ c4); [apply step_run; [room|split; [apply user2_ok|exact I]|vm_compute; reflexivity]|].
  apply (rtc_l _ _ c5); [apply step_run; [room|split; [apply user2_ok|]|vm_compute; reflexivity]|apply rtc_refl].
  split; [reflexivity|]. split; [lia|]. split; [lia|]. vm_compute. reflexivity.
Qed.

(** * The page fault *)

Definition att5 : xpmem_attachment := mk_att 0x400000 0x404000 0x2000 (Some 3%positive) 0 1 4 (Some 2%positive).
Definition vma5 : vm_area_struct := mk_vma 2 0x404000 0x406000 xpmem_vm_ops (Some 5%positive) XPMEM_VM_FLAGS false false.

Lemma c5_consistent : consistent mm_of c5.
Proof.
  apply (steps_consistent HG1 thp mm_of s0); [exact c5_reached|]. apply loaded_consistent, s0_loaded.
Qed.

Lemma c5_pre : fault_pre user2 2 3 vma5 5 att5 att_permit (tg_of 2) the_seg (tg_of 1) 1 0x404800 (set_held [MmapLock 2] c5).
Proof.
  split.
  - apply (Inv_same _ _ _ _ c5); try reflexivity. apply c5_consistent.
  - vm_compute. done.
  - reflexivity.
  - reflexivity.
  - vm_compute. reflexivity.
  - reflexivity.
  - split; [vm_compute; reflexivity|vm_compute; repeat constructor|].
    split; [vm_compute; reflexivity..|vm_compute; repeat constructor|vm_compute; repeat constructor|vm_compute; repeat constructor].
  - vm_compute. reflexivity.
  - reflexivity.
  - reflexivity.
  - split; [split; vm_compute; done|vm_compute; reflexivity].
  - vm_compute. discriminate.
  - intros pg. assert (pgt (set_held [MmapLock 2] c5) = ∅) as E by (vm_compute; reflexivity). rewrite E. clear E.
    intros H. split; [by split|]. intros pfn. generalize (fault_addr att5 0x404800), H. clear H. intros z [-> | ->].
    + intros H. discriminate (eq_trans (eq_sym (proj1 (other_mm_unmapped 0 0x404800 0))) H).
    + intros H. discriminate (eq_trans (eq_sym (proj2 (other_mm_unmapped (z / 4096) 0x404800 _))) H).
Qed.

Lemma c5_gup : gup_inside c5 1 (fault_addr att5 0x404800).
Proof.
  assert (pgt c5 = ∅) as E by (vm_compute; reflexivity).
  assert (vm_start <$> source_vma c5 1 (fault_addr att5 0x404800) = Some 0x400000 /\
    vm_end <$> source_vma c5 1 (fault_addr att5 0x404800) = Some 0x404000) as [H1 H2] by (split; vm_compute; reflexivity).
  intros u mm b Eu. rewrite Eu in H1, H2. cbn in H1, H2. injection H1 as H1. injection H2 as H2. rewrite H1, H2, E. clear. intros Hs. right.
  unfold mapped_pfn, walk_pte_size in Hs. cbn in Hs.
  change (@pgtable SimpleKernel) with simple_pt in Hs.
  rewrite lookup_insert in Hs. case_decide as Hd; [|rewrite lookup_empty in Hs; by destruct Hs].
  injection Hd as <- Hb. split; [done|]. change (fault_addr att5 4212736 / 4096) with 0x400 in Hb.
  pose proof (Z.div_mod b 4096). pose proof (Z.mod_pos_bound b 4096). clear Hs. lia.
Qed.

Lemma c6_reached : rtc (step mm_of) s0 c6.
Proof.
  apply (rtc_r _ c5); [exact c5_reached|]. apply step_run; [room| |vm_compute; reflexivity].
  exists vma5, 5%positive, att5, att_permit, (tg_of 2), the_seg, (tg_of 1), 1%positive.
  split; [reflexivity|]. split; [reflexivity|]. split; [cbn; lia|]. split; [exact c5_gup|exact c5_pre].
Qed.

Lemma identity_kept_witness :
  exists x, aps c5 !! 4%positive = Some x /\ ap_ident x = ap_ident the_permit.
Proof.
  assert (enter 4 user2 (EnterIoctl false false (XPMEM_CMD_ATTACH permit_id 0 0x2000 0)) c4 = Ok () c5) as E
    by (apply run_returned; vm_compute; reflexivity).
  destruct (identity_kept 4 user2 _ c4 c5 E 4%positive) as (_ & _ & H & _); [vm_compute; reflexivity|].
  exists att_permit. assert (aps c5 !! 4%positive = Some att_permit) as E4 by (vm_compute; reflexivity). split; [exact E4|].
  destruct (H att_permit E4) as (x & Ex & Hx). rewrite <- Hx.
  assert (aps c4 !! 4%positive = Some the_permit) as E0 by (vm_compute; reflexivity).
  rewrite E0 in Ex. injection Ex as <-. reflexivity.
Defined.

(** * The first process exits *)

Lemma c6_consistent : consistent mm_of c6.
Proof. apply (steps_consistent HG1 thp mm_of s0); [exact c6_reached|]. apply loaded_consistent, s0_loaded. Qed.

Definition released : world := run (xpmem_mmu_release 4 user1 1) c6.

Lemma c6_shown : mapped_pfn (pgt c6) 2 0x404800 = Some 0x100400.
Proof. vm_compute. reflexivity. Qed.

Lemma released_att : atts released !! 5%positive = Some att5 /\ aps released !! 4%positive = Some att_permit.
Proof. split; vm_compute; reflexivity. Qed.

(** The page that the second process saw is gone. *)
Lemma process_exit_witness :
  xpmem_mmu_release 4 user1 1 c6 = Ok () released /\ consistent mm_of released /\ torn_down 1 100 released /\
  mapped_pfn (pgt c6) 2 0x404800 = Some 0x100400 /\ mapped_pfn (pgt released) 2 0x404800 = None.
Proof.
  assert (xpmem_mmu_release 4 user1 1 c6 = Ok () released) as E by (apply run_returned; vm_compute; reflexivity).
  destruct (process_exit_tears_down HG1 mm_of 4 user1 1 c6 c6_consistent) as (w' & E' & Hc & H); [room|right; reflexivity|].
  apply run_is in E'. fold released in E'. subst w'. split; [exact E|]. split; [exact Hc|].
  assert (release_target user1 1 c6 = Some 1%positive) as Er by (vm_compute; reflexivity). rewrite Er in H.
  destruct H as (t & Et & Ht & _ & Hh & _).
  assert (tgs c6 !! 1%positive = Some (set_tg_n_pinned 1 (tg_of 1))) as Et1 by (vm_compute; reflexivity).
  rewrite Et1 in Et. injection Et as <-. split; [exact Ht|]. split; [exact c6_shown|].
  assert (segs c6 !! 3%positive = Some the_seg) as Eg by (vm_compute; reflexivity). destruct released_att as [Ea Ep].
  assert (3%positive ∈ seg_list (set_tg_n_pinned 1 (tg_of 1))) as Hs by (vm_compute; repeat constructor).
  pose proof (Hh 3%positive the_seg 5%positive att5 att_permit Hs Eg Ea Ep eq_refl) as Hid.
  change 0x404800 with (at_vaddr att5 + (0x400800 - att_vaddr att5)). apply Hid; clear; [reflexivity|cbn; lia|cbn; lia].
Defined.

(** * The first process exits before anybody has a permit *)

Lemma c3_consistent : consistent mm_of c3.
Proof. apply (steps_consistent HG1 thp mm_of s0); [exact c3_reached|]. apply loaded_consistent, s0_loaded. Qed.

Definition left3 : world := play user1 (EnterRelease 1) c3.

Lemma left3_consistent : consistent mm_of left3.
Proof.
  apply (steps_consistent HG1 thp mm_of c3); [|exact c3_consistent].
  apply rtc_once, step_run; [room|right; reflexivity|vm_compute; reflexivity].
Qed.

Lemma flush_witness :
  exists w', xpmem_flush 4 user1 (Some 1%positive) left3 = Ok 0 w' /\ consistent mm_of w' /\ tgs w' !! 1%positive = None /\ procfs w' = [200].
Proof.
  assert (find_tg_gen left3 (cur_tgid user1) true = Some 1%positive) as Ef by (vm_compute; reflexivity).
  assert (exists t, tgs left3 !! 1%positive = Some t /\ has (tg_flags t) XPMEM_FLAG_DESTROYED = true /\ (1%positive, tg_mm t) ∉ notifiers left3)
    as (t & Et & Hd & Hn).
  { eexists. split; [vm_compute; reflexivity|]. split; [vm_compute; reflexivity|].
    apply (bool_decide_unpack _). vm_compute. exact I. }
  assert (aps left3 = ∅) as Ea by (vm_compute; reflexivity).
  assert (unlink (cur_tgid user1) (procfs left3) = [200]) as Ep by (vm_compute; reflexivity).
  destruct (flush_frees_tg mm_of 4 user1 (Some 1%positive) left3 1 t left3_consistent) as (w' & E & Hc & _ & Hp & _ & Hf);
    [vm_compute; reflexivity|right; reflexivity|exact Ef|exact Et|exact Hd|exact Hn|].
  exists w'. split; [exact E|]. split; [exact Hc|]. rewrite Hp. split; [|exact Ep]. apply Hf.
  intros a x g Ex. exfalso. rewrite Ea, lookup_empty in Ex. discriminate Ex.
Defined.

(** ... and when it only closes the device. *)
Lemma explicit_close_witness : xpmem_flush 4 user1 (Some 1%positive) c3 = Fault BugOn.
Proof.
  assert (hash_of c3 = [[2%positive]; []; []; []; [1%positive]; []; []; []]) as Eh by (vm_compute; reflexivity).
  assert (exists u, tgs c3 !! 2%positive = Some u /\ tg_tgid u = 200 /\ tg_mm u = Some 2%positive) as (u2 & E2 & H2 & H3)
    by (eexists; split; [vm_compute; reflexivity|split; reflexivity]).
  assert (exists t, tgs c3 !! 1%positive = Some t /\ has (tg_flags t) XPMEM_FLAG_DESTROYED = false /\ tg_mm t = Some 1%positive /\
    mmu_initialized t = true /\ mmu_unregister_called t = false) as (t & Et & Hd & Hm & Hi & Hu)
    by (eexists; split; [vm_compute; reflexivity|split; [vm_compute; reflexivity|split; [reflexivity|split; reflexivity]]]).
  assert (aps c3 = ∅) as Ea by (vm_compute; reflexivity).
  apply (explicit_close_not_torn_down 4 user1 (Some 1%positive) 1 1 t c3); [apply c3_consistent|vm_compute; reflexivity|vm_compute; reflexivity
    |right; reflexivity|vm_compute; reflexivity|exact Et|exact Hd|exact Hm|exact Hi|exact Hu|vm_compute; repeat constructor| |].
  - intros q u Hq. rewrite Eh. change (mjoin [[2%positive]; []; []; []; [1%positive]; []; []; []]) with [2%positive; 1%positive].
    intros [-> | ->%list_elem_of_singleton]%elem_of_cons Eu; [|by destruct Hq].
    rewrite E2 in Eu. injection Eu as <-. rewrite H2, H3. clear. split; discriminate.
  - intros a x g Ex. exfalso. rewrite Ea, lookup_empty in Ex. discriminate Ex.
Defined.

(** * Recalls *)

Definition owner6 : xpmem_thread_group := set_tg_n_pinned 1 (tg_of 1).

Lemma c6_objects : find_tg c6 (cur_tgid user1) = Some 1%positive /\ tgs c6 !! 1%positive = Some owner6 /\ segs c6 !! 3%positive = Some the_seg /\
  aps c6 !! 4%positive = Some att_permit /\ atts c6 !! 5%positive = Some (set_att_flags XPMEM_FLAG_VALIDPTEs att5).
Proof. split; [|split; [|split; [|split]]]; vm_compute; reflexivity. Qed.

Lemma c6_recallable : recallable c6 1.
Proof.
  destruct c6_objects as (_ & Et & Eg & _). intros t E. rewrite Et in E. injection E as <-. split; [vm_compute; split; [discriminate|reflexivity]|].
  change (seg_list owner6) with [3%positive]. intros s g ->%list_elem_of_singleton E. rewrite Eg in E. injection E as <-. reflexivity.
Qed.


Lemma c6_ring tg t leader : tgs c6 !! tg = Some t -> group_leader t = Some leader ->
  exists l, thread_ring leader leader l /\ (length l <= 5)%nat.
Proof. intros _ _. exists [leader]. split; [split; reflexivity|cbn; lia]. Qed.

Lemma unpin_write_witness :
  exists w', xpmem_unpin_procfs_write 4 100 8 c6 = Ok 8 w' /\ Inv ∅ ∅ ∅ ∅ w' /\ recalled 1 c6 w'.
Proof.
  destruct c6_objects as (Ef & Et & _). change (cur_tgid user1) with 100 in Ef.
  destruct (unpin_write_recalls HG1 4 100 8 c6) as (r & w' & E & _ & HI & H);
    [apply c6_consistent|vm_compute; reflexivity|apply c6_consistent|apply c6_consistent|apply c6_consistent| | |].
  - intros tg E. rewrite Ef in E. injection E as <-. apply c6_recallable.
  - intros tg t leader _. apply c6_ring.
  - rewrite Ef in H. destruct H as (t & leader & l & _ & _ & _ & H).
    assert (forallb thread_stopped l = true) as El by (clear; induction l as [|p l IH]; [reflexivity|exact IH]).
    rewrite El in H. destruct H as [-> Hr]. exists w'. split; [exact E|]. split; [exact HI|exact Hr].
Defined.

Lemma fork_end_witness : exists w1, xpmem_fork_end user1 c6 = Ok 0 w1 /\ xpmem_fork_begin user1 w1 = Fault Deadlock.
Proof.
  destruct c6_objects as (Ef & Et & _).
  destruct (fork_end_unbalanced user1 c6 1 owner6) as (w1 & E1 & _ & E2);
    [apply c6_consistent|vm_compute; reflexivity|apply c6_consistent|exact Ef|exact Et|reflexivity|].
  exists w1. split; [exact E1|exact E2].
Defined.

(** * The second process unmaps its attachment *)

Lemma munmap_witness :
  exists w', do_vm_munmap user2 0x404000 0x2000 c6 = Ok 0 w' /\ atts w' !! 5%positive = None /\
    sigkilled w' = [200] /\ default 0 (pages w' !! 0x100400) = 1.
Proof.
  destruct c6_objects as (_ & _ & _ & _ & Ey).
  destruct (vw_attached _ (con_vma _ _ c6_consistent) _ _ Ey) as (_ & mm & v & vma & Ha).
  pose proof (shown_mm _ _ _ _ _ (atd_shown _ _ _ _ _ _ Ha)) as Hm. cbn in Hm. injection Hm as <-.
  destruct (munmap_keeps_pins user2 2 v vma 5 (set_att_flags XPMEM_FLAG_VALIDPTEs att5) c6) as (w' & E & _ & _ & _ & Hat & _ & _ & Hk & Hp & _);
    [apply c6_consistent|apply c6_consistent|apply c6_consistent|apply c6_consistent|reflexivity|exact Ey|exact Ha|].
  exists w'. split; [exact E|]. split; [exact Hat|]. rewrite Hk, Hp. split; vm_compute; reflexivity.
Defined.

Lemma munmap_part_witness :
  exists w' u, do_vm_munmap user2 0x404000 0x1000 c6 = Ok 0 w' /\ atts w' = atts c6 /\ sigkilled w' = [] /\
    vm_private_data u = Some 5%positive /\ vm_end u < vm_start u + 0x2000.
Proof.
  destruct c6_objects as (_ & _ & _ & _ & Ey).
  destruct (vw_attached _ (con_vma _ _ c6_consistent) _ _ Ey) as (_ & mm & v & vma & Ha).
  pose proof (shown_mm _ _ _ _ _ (atd_shown _ _ _ _ _ _ Ha)) as Hm. cbn in Hm. injection Hm as <-.
  assert (exists r, vm_munmap (vmas c6) 2 0x404000 0x1000 = inr r) as [r Er] by (eexists; vm_compute; reflexivity).
  destruct (munmap_part_unnoticed user2 2 v vma 5 (set_att_flags XPMEM_FLAG_VALIDPTEs att5) 0x404000 0x1000 r c6)
    as (w' & u & E & Ea & _ & _ & Hk & _ & Hp & Hs);
    [apply c6_consistent|reflexivity|exact Ey|exact Ha|cbn; clear; lia|cbn; clear; lia|cbn; clear; lia|reflexivity|reflexivity|exact Er|].
  exists w', u. split; [exact E|]. split; [exact Ea|]. split; [rewrite Hk; vm_compute; reflexivity|]. split; [exact Hp|exact Hs].
Defined.

(** What follows: process 200 unmaps the first page of its attachment and maps a page of its own behind
    it; when it detaches what is left, its own page is unmapped too. *)
Definition neighbour : vm_area_struct := mk_vma 2 0x406000 0x407000 vm_ops_other None 0 false false.
Definition c6_cut : world := run (do_vm_munmap user2 0x404000 0x1000) c6.
Definition c6_next : world := set_vmas (<[20%positive := neighbour]> (vmas c6_cut)) c6_cut.

Example detach_takes_neighbour :
  match xpmem_detach user2 0x405000 c6_next with
  | Ok r w' => r = 0 /\ vmas c6_next !! 20%positive = Some neighbour /\ vmas w' !! 20%positive = None
  | Fault _ => False
  end.
Proof. vm_compute. split; [reflexivity|split; reflexivity]. Qed.

(** * A longer run *)

(** The first process announces a fork and forks, then the second one unmaps its attachment. *)
Definition c7 : world := play user1 (EnterIoctl false false XPMEM_CMD_FORK_BEGIN) c6.
Definition c8 : world := play user1 (EnterIoctl false false XPMEM_CMD_FORK_END) c7.

Lemma c8_reached : rtc (step mm_of) s0 c8.
Proof.
  apply (rtc_r _ c7); [apply (rtc_r _ c6); [exact c6_reached|]|].
  - apply step_run; [room|split; [apply user1_ok|]|vm_compute; reflexivity].
    intros tg t Ef Et. destruct c6_objects as (Ef' & _). rewrite Ef' in Ef. injection Ef as <-. exact (proj1 (c6_recallable t Et)).
  - apply step_run; [room|split; [apply user1_ok|exact I]|vm_compute; reflexivity].
Qed.

Lemma reachable_consistent_witness :
  consistent mm_of c8 /\ exists w', enter 4 user2 (EnterMunmap 0x404000 0x2000) c8 = Ok () w'.
Proof.
  destruct (reachable_consistent HG1 thp mm_of s0 c8 s0_loaded c8_reached) as [Hc Hnext]. split; [exact Hc|].
  apply Hnext; [room|split; [apply user2_ok|]].
  assert (atts c8 !! 5%positive = Some att5) as Ey by (vm_compute; reflexivity).
  destruct (vw_attached _ (con_vma _ _ Hc) _ _ Ey) as (_ & mm & v & vma & Ha).
  pose proof (shown_mm _ _ _ _ _ (atd_shown _ _ _ _ _ _ Ha)) as Hm. cbn in Hm. injection Hm as <-.
  destruct (atd_range _ _ _ _ _ _ Ha) as [R1 R2]. exists 5%positive, att5, v, vma. split; [exact Ey|]. split; [exact Ha|].
  rewrite R2, R1. split; reflexivity.
Defined.
