(* ===== verification/LibScenario.v ===== *)
(** The theorems on loading the module and on the user library at concrete states:
    the module is loaded and unloaded, process 100 shares memory through the
    library, and its child 300 uses the descriptor it inherited. *)

From S2P Require Import Prelude Kernel World Monad Ids Misc Pfn Attach Make Get Recall Notifier Main Module Lib.
From S2P Require Import Simple Inv Graph Link Refs Lookup MakeSpec OpenSpec ModuleSpec PfnSpec Invalidated ClearSpec RemoveSpec.
From S2P Require Import Registry LibSpec SimpleLaws Scenario.

(** * Loading the module *)

Definition simple_registration : Registration := {|
  proc_mkdir_ok := true;
  misc_register := 0;
  proc_create_entry_ok := fun _ => true;
|}.
#[local] Existing Instance simple_registration.

Definition fresh_mod : kmod := mk_kmod _ (set_part None s0) false [] false 0.

Lemma fresh_unloaded : unloaded fresh_mod.
Proof. done. Qed.

Lemma init_witness :
  exists r k', xpmem_init fresh_mod = Ok r k' /\
    if grants fresh_mod then r = 0 /\ registered k' /\ Inv ∅ ∅ ∅ ∅ (mod_world k')
    else r <> 0 /\ k' = after_kzalloc fresh_mod.
Proof. apply init_all_or_nothing; [apply fresh_unloaded|reflexivity..]. Defined.

Lemma exit_witness : xpmem_exit (loaded fresh_mod) = Ok () (after_kzalloc fresh_mod).
Proof. apply exit_undoes_init; [apply fresh_unloaded|reflexivity]. Defined.

Definition exiting : kmod := set_dev_handle false (set_mod_world (set_part None (mod_world (loaded fresh_mod))) (loaded fresh_mod)).

Lemma exit_readers_witness :
  global_pages ∈ proc_entries exiting /\ proc_show (ops_of 1 global_pages) exiting = Fault UseAfterFree.
Proof. apply (exit_readers_fault 1 (loaded fresh_mod) exiting 2); [done|lia|reflexivity]. Defined.

(** * The library *)

Definition simple_syscalls : Syscalls := {|
  stat_dev := Some true;
  open_dev := fun n => inr (Z.of_nat n + 3);
  fcntl_cloexec_ok := fun _ => true;
|}.
#[local] Existing Instance simple_syscalls.

(** The library after its first call opened the device as descriptor 3. *)
Definition lib3 : lib_state := mk_lib 3 0 [3] [3] 1.

Lemma lib3_fd : has_fd lib3.
Proof. split; [done|]. apply list_elem_of_here. Qed.

(** The first call opens the device. *)
Example lib_first_call :
  match lib_version 1 user1 (mk_lib (-1) 0 [] [] 0, s0) with
  | Ok v (s, _) => v = XPMEM_CURRENT_VERSION /\ s = lib3
  | Fault _ => False
  end.
Proof. by vm_compute. Qed.

Lemma lib_make_witness :
  exists r s' w', lib_make 1 user1 0x400000 0x2000 XPMEM_PERMIT_MODE 0x1b6 0 (lib3, s2) = Ok r (s', w') /\
    Inv ∅ ∅ ∅ ∅ w'.
Proof.
  destruct (lib_make_shares_twice 1 user1 0x400000 0x2000 XPMEM_PERMIT_MODE 0x1b6 0 lib3 s2 1)
    as (r & s' & w' & E & HI & _); [apply s2_inv|vm_compute; done|vm_compute; done|apply lib3_fd|vm_compute; done..|].
  exists r, s', w'. exact (conj E HI).
Defined.

Lemma s2_att_wf : AttWf s2.
Proof.
  assert (atts s2 = ∅) as H by (vm_compute; reflexivity).
  split; intros t y E; exfalso; rewrite H, lookup_empty in E; clear H; discriminate E.
Qed.

Lemma s2_seg_wf : SegWf s2.
Proof.
  assert (segs s2 = ∅) as H by (vm_compute; reflexivity).
  intros t y E; exfalso; rewrite H, lookup_empty in E; clear H; discriminate E.
Qed.

Lemma lib_remove_witness :
  exists r s1 w1, lib_make 1 user1 0x400000 0x2000 XPMEM_PERMIT_MODE 0x1b6 0 (lib3, s2) = Ok r (s1, w1) /\
    (r <> -1 -> exists id1 sz s2' w2, lib_remove 1 user1 r (s1, w1) = Ok 0 (s2', w2) /\
       live_segs w2 r = None /\ live_segs s2 id1 = None /\
       live_segs w2 id1 = Some (mk_seg_info 0x400000 sz 0x1b6)).
Proof.
  assert (PGDIR_SHIFT <= PAGE_SHIFT + 31) as HG by (vm_compute; done).
  apply (lib_remove_leaves_twin HG 1 user1 0x400000 0x2000 XPMEM_PERMIT_MODE 0x1b6
    ltac:(lia) ltac:(lia) ltac:(lia) 0 lib3 s2 1);
    [apply s2_inv|vm_compute; done|apply s2_att_wf|apply s2_seg_wf|vm_compute; done|apply lib3_fd|vm_compute; done..].
Defined.

(** The call does succeed. *)
Example lib_make_succeeds :
  match lib_make 1 user1 0x400000 0x2000 XPMEM_PERMIT_MODE 0x1b6 0 (lib3, s2) with
  | Ok r _ => r = id_to_s64 (mk_id 100 2)
  | Fault _ => False
  end.
Proof. by vm_compute. Qed.

Definition child : task := simple_task 300 3 1000.

Lemma child_can_open : can_open child s2.
Proof. by split; vm_compute. Qed.

Lemma lib_child_witness :
  exists s', lib_ioctl 1 child (XPMEM_CMD_MAKE 0x400000 0x2000 XPMEM_PERMIT_MODE 0x1b6) (lib3, s2)
      = Ok (user_result (make_result (make_spec child 0x400000 0x2000 XPMEM_PERMIT_MODE 0x1b6 (open_spec child s2).2).1))
          (s', (make_spec child 0x400000 0x2000 XPMEM_PERMIT_MODE 0x1b6 (open_spec child s2).2).2) /\
    xpmem_fd s' = 4.
Proof.
  destruct (lib_child_registers 1 child 0x400000 0x2000 XPMEM_PERMIT_MODE 0x1b6 lib3 s2 4) as (s' & E & _ & _ & H & _);
    [apply s2_inv|vm_compute; done|vm_compute; done|apply lib3_fd|apply child_can_open|vm_compute; done..|].
  exists s'. exact (conj E H).
Defined.
